(** * Scheduling core of the event planner: dependency graph, CPM, buffers,
      conflict detection and day packing.

    Shallow embedding of
      - [app/models/core.py]            (Activity, Dependency, TimedActivity,
                                         TimelineDay, Timeline and their
                                         [validate] methods)
      - [app/models/enums.py]           (ActivityType, Priority, EventType,
                                         VenueType, CulturalRequirement)
      - [app/services/dependency_manager.py]
      - [app/services/timeline_intelligence_engine.py] (generation context,
                                         durations, dependency analysis, day
                                         scheduler, fallback timeline)

    Conventions of the embedding.
      - [datetime] is an integer number of microseconds since [datetime.min];
        [timedelta] is an integer number of microseconds; [date] is a number
        of days.  The range limits of the Python types are not modelled.
      - [str] is [string] (ASCII text); [Decimal] is [Q]; [float] and the
        conversions between [timedelta] and seconds are an interface
        ([PyFloat]) that the definitions and theorems take as a parameter.
      - An insertion-ordered Python [dict] with string keys is an association
        list with unique keys ([dict_get], [dict_set], [dict_update]); a
        Python [set] of strings is a duplicate-free list which gives its
        elements in iteration order, so that a statement about all graphs
        covers every iteration order.
      - A Python function that can raise returns a [result]; the exception is
        the payload of [Raise].

    The file has three parts: the embedding of the code, the vocabulary of
    the specification together with the inputs of the examples, and the
    lemmas and theorems. *)

From Stdlib Require Import ZArith List String Ascii Bool Lia QArith Lqa.
From Stdlib Require Import Permutation Sorted Relations DecimalString.
Import ListNotations.

#[local] Open Scope string_scope.
#[local] Open Scope list_scope.
#[local] Open Scope Z_scope.

(** String concatenation, as [+] on Python strings. *)
Infix "+++" := String.append (right associativity, at level 60).

Set Implicit Arguments.

(* ------------------------------------------------------------------ *)
(** ** Exceptions *)

Inductive exn : Type :=
| ValueError (msg : string)
| KeyError (key : string)
| TypeError (msg : string)
| OutOfFuel.
(** [OutOfFuel] is not a Python exception: the loops and the recursion of
    [has_cycle] and [topological_sort] are modelled with a step bound, and
    [OutOfFuel] is what the model gives when the bound is hit.  Lemmas
    [has_cycle_total] and [kahn_correct] show that the bounds chosen are
    never hit; the recursion limit of the Python interpreter is not
    modelled. *)

Inductive result (A : Type) : Type :=
| Ok (a : A)
| Raise (e : exn).

Arguments Ok {A} a.
Arguments Raise {A} e.

Definition bind {A B : Type} (r : result A) (k : A -> result B) : result B :=
  match r with
  | Ok a => k a
  | Raise e => Raise e
  end.

Notation "x <- r ;; k" := (bind r (fun x => k))
  (at level 61, r at next level, right associativity).
Notation "' p <- r ;; k" := (bind r (fun x => match x with p => k end))
  (at level 61, p pattern, r at next level, right associativity).

Definition raises {A : Type} (r : result A) : Prop :=
  exists e, r = Raise e.


(* ------------------------------------------------------------------ *)
(** ** Time *)

Definition datetime : Type := Z.
Definition timedelta : Type := Z.

Definition microseconds (n : Z) : timedelta := n.
Definition seconds (n : Z) : timedelta := n * 1000000.
Definition minutes (n : Z) : timedelta := n * 60000000.
Definition hours (n : Z) : timedelta := n * 3600000000.
Definition days (n : Z) : timedelta := n * 86400000000.

(** [datetime.min], the value of [x or datetime.min] for an unset [x]. *)
Definition datetime_min : datetime := 0.

Definition or_datetime_min (x : option datetime) : datetime :=
  match x with
  | Some t => t
  | None => datetime_min
  end.

(* ------------------------------------------------------------------ *)
(** ** Insertion-ordered dictionaries and sets of strings *)

Section Dict.
Variable V : Type.

Definition dict : Type := list (string * V).

Fixpoint dict_get (d : dict) (k : string) : option V :=
  match d with
  | [] => None
  | (k', v) :: d' => if String.eqb k k' then Some v else dict_get d' k
  end.

(** [d[k] = v]: replaces the value in place, or appends a new entry. *)
Fixpoint dict_set (d : dict) (k : string) (v : V) : dict :=
  match d with
  | [] => [(k, v)]
  | (k', v') :: d' =>
      if String.eqb k k' then (k', v) :: d' else (k', v') :: dict_set d' k v
  end.

Definition dict_keys (d : dict) : list string := map fst d.
Definition dict_values (d : dict) : list V := map snd d.

Definition dict_contains (d : dict) (k : string) : bool :=
  match dict_get d k with
  | Some _ => true
  | None => false
  end.

(** [d[k]] as an expression: a missing key raises [KeyError]. *)
Definition dict_lookup (d : dict) (k : string) : result V :=
  match dict_get d k with
  | Some v => Ok v
  | None => Raise (KeyError k)
  end.
End Dict.

Arguments dict_get {V} d k.
Arguments dict_set {V} d k v.
Arguments dict_keys {V} d.
Arguments dict_values {V} d.
Arguments dict_contains {V} d k.
Arguments dict_lookup {V} d k.

Definition pyset : Type := list string.

Definition set_mem (x : string) (s : pyset) : bool := existsb (String.eqb x) s.

(** [s.add(x)] *)
Definition set_add (x : string) (s : pyset) : pyset :=
  if set_mem x s then s else s ++ [x].

(** [not xs] for a list or a set *)
Definition is_empty {A : Type} (l : list A) : bool :=
  match l with
  | [] => true
  | _ => false
  end.

(* ------------------------------------------------------------------ *)
(** ** Strings *)

Definition str_is_empty (s : string) : bool :=
  match s with
  | EmptyString => true
  | _ => false
  end.

Definition is_space (c : ascii) : bool :=
  let n := nat_of_ascii c in
  ((9 <=? n)%nat && (n <=? 13)%nat) || ((28 <=? n)%nat && (n <=? 32)%nat).

(** [not s.strip()] *)
Fixpoint is_blank (s : string) : bool :=
  match s with
  | EmptyString => true
  | String c s' => is_space c && is_blank s'
  end.

Definition lower_ascii (c : ascii) : ascii :=
  let n := nat_of_ascii c in
  if ((65 <=? n)%nat && (n <=? 90)%nat)%bool then ascii_of_nat (n + 32) else c.

(** [s.lower()] on ASCII text *)
Fixpoint lower (s : string) : string :=
  match s with
  | EmptyString => EmptyString
  | String c s' => String (lower_ascii c) (lower s')
  end.

Fixpoint startswith (p s : string) : bool :=
  match p, s with
  | EmptyString, _ => true
  | String a p', String b s' => Ascii.eqb a b && startswith p' s'
  | String _ _, EmptyString => false
  end.

(** [p in s] for strings *)
Fixpoint str_in (p s : string) : bool :=
  startswith p s ||
  match s with
  | EmptyString => false
  | String _ s' => str_in p s'
  end.

(** [sep.join(l)] *)
Fixpoint join (sep : string) (l : list string) : string :=
  match l with
  | [] => EmptyString
  | [x] => x
  | x :: l' => x +++ sep +++ join sep l'
  end.

(* ------------------------------------------------------------------ *)
(** ** Enumerations ([app/models/enums.py]) *)

Inductive ActivityType : Type :=
| CEREMONY | PREPARATION | CATERING | ENTERTAINMENT | PHOTOGRAPHY
| DECORATION | TRANSPORTATION | CLEANUP | BREAK | NETWORKING.

Definition ActivityType_value (t : ActivityType) : string :=
  match t with
  | CEREMONY => "ceremony"
  | PREPARATION => "preparation"
  | CATERING => "catering"
  | ENTERTAINMENT => "entertainment"
  | PHOTOGRAPHY => "photography"
  | DECORATION => "decoration"
  | TRANSPORTATION => "transportation"
  | CLEANUP => "cleanup"
  | BREAK => "break"
  | NETWORKING => "networking"
  end.

Inductive Priority : Type :=
| CRITICAL | HIGH | MEDIUM | LOW | OPTIONAL.

Definition Priority_value (p : Priority) : string :=
  match p with
  | CRITICAL => "critical"
  | HIGH => "high"
  | MEDIUM => "medium"
  | LOW => "low"
  | OPTIONAL => "optional"
  end.

(* ------------------------------------------------------------------ *)
(** ** Core records ([app/models/core.py]) *)

Record Activity : Type := mkActivity {
  id : string;
  name : string;
  activity_type : ActivityType;
  duration : timedelta;
  priority : Priority;
  description : string;
  required_vendors : list string;
  estimated_cost : Q;
  cultural_significance : string;
  setup_time : timedelta;
  cleanup_time : timedelta
}.

Record Dependency : Type := mkDependency {
  predecessor_id : string;
  successor_id : string;
  dependency_type : string;
  lag_time : timedelta
}.

Definition dependency_types : list string :=
  ["finish_to_start"; "start_to_start"; "finish_to_finish"; "start_to_finish"].

Definition str_in_list (x : string) (l : list string) : bool :=
  existsb (String.eqb x) l.

(** [Dependency.validate] *)
Definition Dependency_validate (d : Dependency) : list string :=
  (if str_is_empty (predecessor_id d) then ["Predecessor ID is required"] else []) ++
  (if str_is_empty (successor_id d) then ["Successor ID is required"] else []) ++
  (if String.eqb (predecessor_id d) (successor_id d)
   then ["Activity cannot depend on itself"] else []) ++
  (if negb (str_in_list (dependency_type d) dependency_types)
   then ["Invalid dependency type"] else []).

(** [q < 0] on [Decimal] *)
Definition Q_neg (q : Q) : bool := negb (Qle_bool 0%Q q).

(** [Activity.validate] *)
Definition Activity_validate (a : Activity) : list string :=
  (if str_is_empty (id a) || is_blank (id a)
   then ["Activity ID is required"] else []) ++
  (if str_is_empty (name a) || is_blank (name a)
   then ["Activity name is required"] else []) ++
  (if duration a <=? 0 then ["Duration must be positive"] else []) ++
  (if Q_neg (estimated_cost a) then ["Estimated cost cannot be negative"] else []).

(* ------------------------------------------------------------------ *)
(** ** Dependency graph ([app/services/dependency_manager.py]) *)

Record DependencyNode : Type := mkNode {
  activity : Activity;
  predecessors : pyset;
  successors : pyset;
  earliest_start : option datetime;
  earliest_finish : option datetime;
  latest_start : option datetime;
  latest_finish : option datetime;
  slack : timedelta;
  is_critical : bool
}.

(** [DependencyNode(activity=activity)] *)
Definition new_node (a : Activity) : DependencyNode :=
  mkNode a [] [] None None None None 0 false.

(** [DependencyNode.total_duration] *)
Definition node_total_duration (n : DependencyNode) : timedelta :=
  setup_time (activity n) + duration (activity n) + cleanup_time (activity n).

Definition set_predecessors (n : DependencyNode) (s : pyset) : DependencyNode :=
  mkNode (activity n) s (successors n) (earliest_start n) (earliest_finish n)
         (latest_start n) (latest_finish n) (slack n) (is_critical n).

Definition set_successors (n : DependencyNode) (s : pyset) : DependencyNode :=
  mkNode (activity n) (predecessors n) s (earliest_start n) (earliest_finish n)
         (latest_start n) (latest_finish n) (slack n) (is_critical n).

Definition set_earliest (n : DependencyNode) (es ef : datetime) : DependencyNode :=
  mkNode (activity n) (predecessors n) (successors n) (Some es) (Some ef)
         (latest_start n) (latest_finish n) (slack n) (is_critical n).

Definition set_latest (n : DependencyNode) (ls lf : datetime) : DependencyNode :=
  mkNode (activity n) (predecessors n) (successors n) (earliest_start n)
         (earliest_finish n) (Some ls) (Some lf) (slack n) (is_critical n).

Definition set_slack (n : DependencyNode) (s : timedelta) (c : bool) : DependencyNode :=
  mkNode (activity n) (predecessors n) (successors n) (earliest_start n)
         (earliest_finish n) (latest_start n) (latest_finish n) s c.

Record DependencyGraph : Type := mkGraph {
  nodes : dict DependencyNode;
  dependencies : list Dependency;
  critical_path : list string;
  total_duration : timedelta
}.

(** [DependencyGraph()] *)
Definition empty_graph : DependencyGraph := mkGraph [] [] [] 0.

Definition set_nodes (g : DependencyGraph) (ns : dict DependencyNode) : DependencyGraph :=
  mkGraph ns (dependencies g) (critical_path g) (total_duration g).

(** [DependencyGraph.add_activity] *)
Definition add_activity (g : DependencyGraph) (a : Activity) : DependencyGraph :=
  if dict_contains (nodes g) (id a) then g
  else set_nodes g (dict_set (nodes g) (id a) (new_node a)).

(** In-place mutation of the object stored under [k]. *)
Fixpoint dict_update {V : Type} (d : dict V) (k : string) (f : V -> V) : dict V :=
  match d with
  | [] => []
  | (k', v) :: d' =>
      if String.eqb k k' then (k', f v) :: d' else (k', v) :: dict_update d' k f
  end.

(** [DependencyGraph.add_dependency] *)
Definition add_dependency (g : DependencyGraph) (d : Dependency)
  : result DependencyGraph :=
  let errors := Dependency_validate d in
  if negb (is_empty errors) then
    Raise (ValueError ("Invalid dependency: " +++ join ", " errors))
  else if negb (dict_contains (nodes g) (predecessor_id d)) then
    Raise (ValueError ("Predecessor activity '" +++ predecessor_id d +++ "' not found"))
  else if negb (dict_contains (nodes g) (successor_id d)) then
    Raise (ValueError ("Successor activity '" +++ successor_id d +++ "' not found"))
  else
    let ns1 := dict_update (nodes g) (predecessor_id d)
                 (fun n => set_successors n (set_add (successor_id d) (successors n))) in
    let ns2 := dict_update ns1 (successor_id d)
                 (fun n => set_predecessors n (set_add (predecessor_id d) (predecessors n))) in
    Ok (mkGraph ns2 (dependencies g ++ [d]) (critical_path g) (total_duration g)).

(** *** Cycle detection: [DependencyGraph.has_cycle] *)

Inductive color : Type := WHITE | GRAY | BLACK.

(** The [for successor_id in ...successors] loop of [dfs], over the
    recursive call [visit]. *)
Fixpoint dfs_children (visit : dict color -> string -> result (bool * dict color))
    (succs : list string) (colors : dict color) : result (bool * dict color) :=
  match succs with
  | [] => Ok (false, colors)
  | successor_id :: rest =>
      '(found, colors') <- visit colors successor_id ;;
      if (found : bool) then Ok (true, colors') else dfs_children visit rest colors'
  end.

(** The nested function [dfs]; [colors] is the dictionary it closes over,
    [fuel] bounds the recursion depth. *)
Fixpoint dfs (fuel : nat) (ns : dict DependencyNode) (colors : dict color)
    (node_id : string) : result (bool * dict color) :=
  match fuel with
  | O => Raise OutOfFuel
  | S fuel' =>
      c <- dict_lookup colors node_id ;;
      match c with
      | GRAY => Ok (true, colors)
      | BLACK => Ok (false, colors)
      | WHITE =>
          let colors1 := dict_set colors node_id GRAY in
          node <- dict_lookup ns node_id ;;
          '(found, colors2) <- dfs_children (dfs fuel' ns) (successors node) colors1 ;;
          if (found : bool) then Ok (true, colors2)
          else Ok (false, dict_set colors2 node_id BLACK)
      end
  end.

Fixpoint has_cycle_loop (fuel : nat) (ns : dict DependencyNode)
    (ids : list string) (colors : dict color) : result bool :=
  match ids with
  | [] => Ok false
  | node_id :: rest =>
      c <- dict_lookup colors node_id ;;
      match c with
      | WHITE =>
          '(found, colors') <- dfs fuel ns colors node_id ;;
          if (found : bool) then Ok true else has_cycle_loop fuel ns rest colors'
      | _ => has_cycle_loop fuel ns rest colors
      end
  end.

Definition initial_colors (ns : dict DependencyNode) : dict color :=
  map (fun kv => (fst kv, WHITE)) ns.

Definition has_cycle (g : DependencyGraph) : result bool :=
  has_cycle_loop (S (List.length (nodes g))) (nodes g) (dict_keys (nodes g))
                 (initial_colors (nodes g)).

(** *** Kahn's algorithm: [DependencyGraph.topological_sort] *)

(** The inner [for successor_id in ...successors] loop of the [while]. *)
Fixpoint relax (in_degree : dict Z) (queue : list string) (succs : list string)
  : result (dict Z * list string) :=
  match succs with
  | [] => Ok (in_degree, queue)
  | successor_id :: rest =>
      d <- dict_lookup in_degree successor_id ;;
      let in_degree' := dict_set in_degree successor_id (d - 1) in
      let queue' := if d - 1 =? 0 then queue ++ [successor_id] else queue in
      relax in_degree' queue' rest
  end.

(** The [while queue] loop; [fuel] bounds the number of iterations. *)
Fixpoint kahn (fuel : nat) (ns : dict DependencyNode) (in_degree : dict Z)
    (queue : list string) (order : list string) : result (list string) :=
  match queue with
  | [] => Ok order
  | node_id :: queue' =>
      match fuel with
      | O => Raise OutOfFuel
      | S fuel' =>
          node <- dict_lookup ns node_id ;;
          '(in_degree', queue'') <- relax in_degree queue' (successors node) ;;
          kahn fuel' ns in_degree' queue'' (order ++ [node_id])
      end
  end.

Definition initial_in_degree (ns : dict DependencyNode) : dict Z :=
  map (fun kv => (fst kv, Z.of_nat (List.length (predecessors (snd kv))))) ns.

Definition initial_queue (in_degree : dict Z) : list string :=
  map fst (filter (fun kv => snd kv =? 0) in_degree).

Definition msg_sort_cycle : string :=
  "Cannot perform topological sort: dependency graph has cycles".
Definition msg_sort_failed : string :=
  "Topological sort failed: dependency graph has cycles".

Definition topological_sort (g : DependencyGraph) : result (list string) :=
  cyc <- has_cycle g ;;
  if (cyc : bool) then Raise (ValueError msg_sort_cycle)
  else
    let in_degree := initial_in_degree (nodes g) in
    let queue := initial_queue in_degree in
    order <- kahn (List.length (nodes g)) (nodes g) in_degree queue [] ;;
    if negb (Nat.eqb (List.length order) (List.length (nodes g)))
    then Raise (ValueError msg_sort_failed)
    else Ok order.

(** *** Automatic dependencies: [DependencyManager._generate_automatic_dependencies] *)

Definition has_type (v : string) (a : Activity) : bool :=
  String.eqb (ActivityType_value (activity_type a)) v.

(** The first ceremony of [sequence] occurring in [name_lower], as found by
    the inner [for ... break] loop. *)
Definition first_ceremony_in (sequence : list string) (name_lower : string)
  : option string :=
  find (fun ceremony => str_in ceremony name_lower) sequence.

Definition match_ceremonies (sequence : list string) (activities : list Activity)
  : dict string :=
  fold_left
    (fun (found : dict string) (a : Activity) =>
       match first_ceremony_in sequence (lower (name a)) with
       | Some ceremony => dict_set found ceremony (id a)
       | None => found
       end)
    activities [].

(** [for i in range(len(sequence) - 1)]: consecutive ceremonies that were
    both matched are chained. *)
Fixpoint chain_ceremonies (found : dict string) (lag : timedelta)
    (sequence : list string) : list Dependency :=
  match sequence with
  | current :: ((next_ceremony :: _) as rest) =>
      match dict_get found current, dict_get found next_ceremony with
      | Some p, Some s => [mkDependency p s "finish_to_start" lag]
      | _, _ => []
      end ++ chain_ceremonies found lag rest
  | _ => []
  end.

Definition hindu_sequence : list string :=
  ["mehendi"; "haldi"; "sangeet"; "wedding"; "reception"].
Definition muslim_sequence : list string := ["nikkah"; "mehndi"; "walima"].

Definition _get_cultural_sequence_dependencies (activities : list Activity)
  : list Dependency :=
  chain_ceremonies (match_ceremonies hindu_sequence activities) (hours 2) hindu_sequence
  ++ chain_ceremonies (match_ceremonies muslim_sequence activities) (hours 1) muslim_sequence.

(** Rule 4: [for i, catering in enumerate(...): if i > 0: ...] *)
Fixpoint chain_catering (l : list Activity) : list Dependency :=
  match l with
  | prev :: ((catering :: _) as rest) =>
      mkDependency (id prev) (id catering) "finish_to_start" (minutes 30)
      :: chain_catering rest
  | _ => []
  end.

Definition _generate_automatic_dependencies (activities : list Activity)
  : list Dependency :=
  let prep_activities := filter (has_type "preparation") activities in
  let ceremony_activities := filter (has_type "ceremony") activities in
  let cleanup_activities := filter (has_type "cleanup") activities in
  let rule1 :=
    flat_map (fun prep =>
      map (fun ceremony =>
             mkDependency (id prep) (id ceremony) "finish_to_start" (minutes 15))
          ceremony_activities) prep_activities in
  let rule2 :=
    flat_map (fun ceremony =>
      map (fun cleanup =>
             mkDependency (id ceremony) (id cleanup) "finish_to_start" (minutes 30))
          cleanup_activities) ceremony_activities in
  let photo_activities := filter (has_type "photography") activities in
  let rule3 :=
    flat_map (fun photo =>
      flat_map (fun ceremony =>
                  if str_in_list (Priority_value (priority ceremony)) ["critical"; "high"]
                  then [mkDependency (id ceremony) (id photo) "start_to_start" 0]
                  else [])
               ceremony_activities) photo_activities in
  let catering_activities := filter (has_type "catering") activities in
  let rule4 := chain_catering catering_activities in
  rule1 ++ rule2 ++ rule3 ++ rule4 ++ _get_cultural_sequence_dependencies activities.

Fixpoint add_dependencies (g : DependencyGraph) (ds : list Dependency)
  : result DependencyGraph :=
  match ds with
  | [] => Ok g
  | d :: rest => g' <- add_dependency g d ;; add_dependencies g' rest
  end.

(** [DependencyManager.create_dependency_graph] *)
Definition create_dependency_graph (activities : list Activity)
  : result DependencyGraph :=
  let graph := fold_left add_activity activities empty_graph in
  add_dependencies graph (_generate_automatic_dependencies activities).

(** *** Critical path method *)

(** [next((d for d in graph.dependencies if ...), None)]: the first edge,
    in insertion order, between the two ids. *)
Definition find_dependency (deps : list Dependency) (pred_id succ_id : string)
  : option Dependency :=
  find (fun d => String.eqb (predecessor_id d) pred_id
                 && String.eqb (successor_id d) succ_id) deps.

Definition msg_none_arith : string :=
  "unsupported operand type(s): 'NoneType' and 'datetime.timedelta'".

(** [x + d] and [x - d] for an attribute [x] that may still be [None]. *)
Definition dt_add (x : option datetime) (d : timedelta) : result datetime :=
  match x with
  | Some t => Ok (t + d)
  | None => Raise (TypeError msg_none_arith)
  end.

Definition dt_sub (x : option datetime) (d : timedelta) : result datetime :=
  match x with
  | Some t => Ok (t - d)
  | None => Raise (TypeError msg_none_arith)
  end.

Definition candidate_start (dep : Dependency) (pred_node node : DependencyNode)
  : result datetime :=
  if String.eqb (dependency_type dep) "finish_to_start" then
    dt_add (earliest_finish pred_node) (lag_time dep)
  else if String.eqb (dependency_type dep) "start_to_start" then
    dt_add (earliest_start pred_node) (lag_time dep)
  else if String.eqb (dependency_type dep) "finish_to_finish" then
    t <- dt_add (earliest_finish pred_node) (lag_time dep) ;;
    Ok (t - node_total_duration node)
  else
    t <- dt_add (earliest_start pred_node) (lag_time dep) ;;
    Ok (t - node_total_duration node).

(** The [for pred_id in node.predecessors] loop. *)
Fixpoint forward_preds (ns : dict DependencyNode) (deps : list Dependency)
    (activity_id : string) (node : DependencyNode) (preds : list string)
    (earliest : datetime) : result datetime :=
  match preds with
  | [] => Ok earliest
  | pred_id :: rest =>
      pred_node <- dict_lookup ns pred_id ;;
      match find_dependency deps pred_id activity_id with
      | Some dep =>
          c <- candidate_start dep pred_node node ;;
          forward_preds ns deps activity_id node rest (Z.max earliest c)
      | None => forward_preds ns deps activity_id node rest earliest
      end
  end.

(** The [for activity_id in topo_order] loop of the forward pass. *)
Fixpoint forward_loop (ns : dict DependencyNode) (deps : list Dependency)
    (start_time : datetime) (topo_order : list string)
  : result (dict DependencyNode) :=
  match topo_order with
  | [] => Ok ns
  | activity_id :: rest =>
      node <- dict_lookup ns activity_id ;;
      es <- (if is_empty (predecessors node) then Ok start_time
             else forward_preds ns deps activity_id node (predecessors node) start_time) ;;
      let ns' := dict_update ns activity_id
                   (fun n => set_earliest n es (es + node_total_duration n)) in
      forward_loop ns' deps start_time rest
  end.

(** [DependencyManager._forward_pass] *)
Definition _forward_pass (g : DependencyGraph) (start_time : datetime)
  : result DependencyGraph :=
  topo_order <- topological_sort g ;;
  ns <- forward_loop (nodes g) (dependencies g) start_time topo_order ;;
  Ok (set_nodes g ns).

Definition msg_max_empty : string := "max() arg is an empty sequence".

(** [max(...)] of a generator *)
Definition max_of (l : list Z) : result Z :=
  match l with
  | [] => Raise (ValueError msg_max_empty)
  | x :: l' => Ok (fold_left Z.max l' x)
  end.

(** [node.earliest_finish for node in graph.nodes.values() if node.earliest_finish]
    (a [datetime] is always truthy, so the filter keeps what is not [None]) *)
Definition earliest_finishes (ns : dict DependencyNode) : list datetime :=
  flat_map (fun kv => match earliest_finish (snd kv) with
                      | Some t => [t]
                      | None => []
                      end) ns.

Definition candidate_finish (dep : Dependency) (succ_node node : DependencyNode)
  : result datetime :=
  if String.eqb (dependency_type dep) "finish_to_start" then
    dt_sub (latest_start succ_node) (lag_time dep)
  else if String.eqb (dependency_type dep) "start_to_start" then
    t <- dt_sub (latest_start succ_node) (lag_time dep) ;;
    Ok (t + node_total_duration node)
  else if String.eqb (dependency_type dep) "finish_to_finish" then
    dt_sub (latest_finish succ_node) (lag_time dep)
  else
    t <- dt_sub (latest_finish succ_node) (lag_time dep) ;;
    Ok (t + node_total_duration node).

(** The [for succ_id in node.successors] loop. *)
Fixpoint backward_succs (ns : dict DependencyNode) (deps : list Dependency)
    (activity_id : string) (node : DependencyNode) (succs : list string)
    (latest : datetime) : result datetime :=
  match succs with
  | [] => Ok latest
  | succ_id :: rest =>
      succ_node <- dict_lookup ns succ_id ;;
      match find_dependency deps activity_id succ_id with
      | Some dep =>
          c <- candidate_finish dep succ_node node ;;
          backward_succs ns deps activity_id node rest (Z.min latest c)
      | None => backward_succs ns deps activity_id node rest latest
      end
  end.

(** The [for activity_id in topo_order] loop of the backward pass. *)
Fixpoint backward_loop (ns : dict DependencyNode) (deps : list Dependency)
    (project_end : datetime) (topo_order : list string)
  : result (dict DependencyNode) :=
  match topo_order with
  | [] => Ok ns
  | activity_id :: rest =>
      node <- dict_lookup ns activity_id ;;
      lf <- (if is_empty (successors node) then Ok project_end
             else backward_succs ns deps activity_id node (successors node) project_end) ;;
      let ns' := dict_update ns activity_id
                   (fun n => set_latest n (lf - node_total_duration n) lf) in
      backward_loop ns' deps project_end rest
  end.

(** [DependencyManager._backward_pass] *)
Definition _backward_pass (g : DependencyGraph) : result DependencyGraph :=
  order <- topological_sort g ;;
  let topo_order := rev order in
  project_end <- max_of (earliest_finishes (nodes g)) ;;
  ns <- backward_loop (nodes g) (dependencies g) project_end topo_order ;;
  Ok (set_nodes g ns).

(** Body of the loop of [_calculate_slack]; both attributes are datetimes
    or [None], and a datetime is truthy. *)
Definition slack_node (n : DependencyNode) : DependencyNode :=
  match latest_start n, earliest_start n with
  | Some ls, Some es => set_slack n (ls - es) ((ls - es) =? 0)
  | _, _ => n
  end.

(** [DependencyManager._calculate_slack] *)
Definition _calculate_slack (g : DependencyGraph) : DependencyGraph :=
  set_nodes g (map (fun kv => (fst kv, slack_node (snd kv))) (nodes g)).

(** [list.sort(key=...)]: a stable sort by an integer key. *)
Fixpoint insert_by {A : Type} (key : A -> Z) (x : A) (l : list A) : list A :=
  match l with
  | [] => [x]
  | y :: l' => if key x <=? key y then x :: y :: l' else y :: insert_by key x l'
  end.

Definition sort_by {A : Type} (key : A -> Z) (l : list A) : list A :=
  fold_right (insert_by key) [] l.

(** [graph.nodes[aid].earliest_start or datetime.min]; the ids sorted are
    keys of [graph.nodes], so the lookup finds a node. *)
Definition start_key (ns : dict DependencyNode) (aid : string) : Z :=
  match dict_get ns aid with
  | Some n => or_datetime_min (earliest_start n)
  | None => datetime_min
  end.

(** [DependencyManager._find_critical_path] *)
Definition _find_critical_path (g : DependencyGraph) : list string :=
  let critical_activities :=
    map fst (filter (fun kv => is_critical (snd kv)) (nodes g)) in
  sort_by (start_key (nodes g)) critical_activities.

Definition msg_cpm_cycle : string :=
  "Cannot calculate critical path: dependency graph has cycles".

(** [DependencyManager.calculate_critical_path] *)
Definition calculate_critical_path (g : DependencyGraph) (start_time : datetime)
  : result DependencyGraph :=
  cyc <- has_cycle g ;;
  if (cyc : bool) then Raise (ValueError msg_cpm_cycle)
  else
    g1 <- _forward_pass g start_time ;;
    g2 <- _backward_pass g1 ;;
    let g3 := _calculate_slack g2 in
    let g4 := mkGraph (nodes g3) (dependencies g3) (_find_critical_path g3)
                      (total_duration g3) in
    if is_empty (nodes g4) then Ok g4
    else
      max_finish <- max_of (earliest_finishes (nodes g4)) ;;
      Ok (mkGraph (nodes g4) (dependencies g4) (critical_path g4)
                  (max_finish - start_time)).

(** *** Conflicts *)

Definition group_append {V : Type} (d : dict (list V)) (k : string) (x : V)
  : dict (list V) :=
  match dict_get d k with
  | Some l => dict_set d k (l ++ [x])
  | None => dict_set d k [x]
  end.

(** The [defaultdict(list)] filled by the two nested loops. *)
Definition vendor_activities (ns : dict DependencyNode)
  : dict (list (string * DependencyNode)) :=
  fold_left
    (fun acc kv =>
       fold_left (fun acc' vendor => group_append acc' vendor kv)
                 (required_vendors (activity (snd kv))) acc)
    ns [].

Definition msg_vendor_conflict (vendor a b : string) : string :=
  "Vendor '" +++ vendor +++ "' conflict between activities '" +++ a
  +++ "' and '" +++ b +++ "'".

(** [for i in range(len(activities) - 1)] on the sorted list *)
Fixpoint adjacent_conflicts (vendor : string) (l : list (string * DependencyNode))
  : list string :=
  match l with
  | current :: ((next :: _) as rest) =>
      match earliest_finish (snd current), earliest_start (snd next) with
      | Some cf, Some ns_ =>
          if ns_ <? cf
          then [msg_vendor_conflict vendor (name (activity (snd current)))
                                    (name (activity (snd next)))]
          else []
      | _, _ => []
      end ++ adjacent_conflicts vendor rest
  | _ => []
  end.

(** [DependencyManager._check_resource_conflicts] *)
Definition _check_resource_conflicts (g : DependencyGraph) : list string :=
  flat_map
    (fun entry =>
       let vendor := fst entry in
       let activities := snd entry in
       if (1 <? List.length activities)%nat then
         adjacent_conflicts vendor
           (sort_by (fun x => or_datetime_min (earliest_start (snd x))) activities)
       else [])
    (vendor_activities (nodes g)).

Definition msg_circular : string :=
  "Circular dependencies detected - some activities depend on each other".

Definition msg_over_constrained (a : string) : string :=
  "Activity '" +++ a +++ "' is over-constrained with negative slack".

(** [DependencyManager.resolve_conflicts] *)
Definition resolve_conflicts (g : DependencyGraph) : result (list string) :=
  cyc <- has_cycle g ;;
  let c1 := if (cyc : bool) then [msg_circular] else [] in
  let c2 := flat_map
              (fun kv => if negb (slack (snd kv) =? 0) && (slack (snd kv) <? 0)
                         then [msg_over_constrained (name (activity (snd kv)))]
                         else [])
              (nodes g) in
  Ok (c1 ++ c2 ++ _check_resource_conflicts g).

(* ------------------------------------------------------------------ *)
(** ** Buffer time ([DependencyManager.calculate_buffer_time]) *)

(** Python's [float] and the two conversions between [timedelta] and
    seconds are library code; the model takes them as an interface.
    [float_lit q] is the float a decimal literal [q] denotes,
    [fle_int x n] is [x <= n], [total_seconds d] is [d.total_seconds()],
    [timedelta_of_seconds x] is [timedelta(seconds=x)]. *)
Class PyFloat : Type := mkPyFloat {
  float : Type;
  float_lit : Q -> float;
  fmul : float -> float -> float;
  fle_int : float -> Z -> bool;
  total_seconds : timedelta -> float;
  timedelta_of_seconds : float -> timedelta
}.

Inductive EventType : Type :=
| WEDDING | BIRTHDAY | ANNIVERSARY | HOUSEWARMING | CORPORATE
| GRADUATION | BABY_SHOWER | ENGAGEMENT | FESTIVAL | CONFERENCE.

Definition EventType_value (t : EventType) : string :=
  match t with
  | WEDDING => "wedding"
  | BIRTHDAY => "birthday"
  | ANNIVERSARY => "anniversary"
  | HOUSEWARMING => "housewarming"
  | CORPORATE => "corporate"
  | GRADUATION => "graduation"
  | BABY_SHOWER => "baby_shower"
  | ENGAGEMENT => "engagement"
  | FESTIVAL => "festival"
  | CONFERENCE => "conference"
  end.

Inductive complexity_level : Type := low | medium | high | very_high.

Inductive dependency_level : Type :=
| no_dependencies | few_dependencies | many_dependencies | complex_dependencies.

(** [DependencyManager._get_dependency_level] *)
Definition _get_dependency_level (dependency_count : Z) : dependency_level :=
  if dependency_count =? 0 then no_dependencies
  else if dependency_count <=? 2 then few_dependencies
  else if dependency_count <=? 5 then many_dependencies
  else complex_dependencies.

(** The three tables of [_initialize_buffer_rules], as decimal literals. *)
Definition priority_multipliers (p : Priority) : Q :=
  match p with
  | CRITICAL => 15 # 100
  | HIGH => 20 # 100
  | MEDIUM => 25 # 100
  | LOW => 30 # 100
  | OPTIONAL => 35 # 100
  end.

Definition complexity_multipliers (l : complexity_level) : Q :=
  match l with
  | low => 10 # 10
  | medium => 12 # 10
  | high => 15 # 10
  | very_high => 20 # 10
  end.

Definition dependency_multipliers (l : dependency_level) : Q :=
  match l with
  | no_dependencies => 10 # 10
  | few_dependencies => 11 # 10
  | many_dependencies => 13 # 10
  | complex_dependencies => 15 # 10
  end.

Section Floats.
Context {F : PyFloat}.

(** The fields of [EventContext] the scheduling core reads. *)
Record EventContext : Type := mkEventContext {
  event_type : EventType;
  guest_count : Z;
  duration_days : Z;
  complexity_score : float
}.

(** [DependencyManager._get_complexity_level] *)
Definition _get_complexity_level (score : float) : complexity_level :=
  if fle_int score 3 then low
  else if fle_int score 6 then medium
  else if fle_int score 8 then high
  else very_high.

(** The value [calculate_buffer_time] clamps. *)
Definition buffer_time_unclamped (a : Activity) (context : EventContext)
    (dependency_count : Z) : timedelta :=
  let base_buffer_percentage := float_lit (priority_multipliers (priority a)) in
  let complexity_multiplier :=
    float_lit (complexity_multipliers
                 (_get_complexity_level (complexity_score context))) in
  let dependency_multiplier :=
    float_lit (dependency_multipliers (_get_dependency_level dependency_count)) in
  let base_buffer :=
    timedelta_of_seconds (fmul (total_seconds (duration a)) base_buffer_percentage) in
  let total_multiplier := fmul complexity_multiplier dependency_multiplier in
  timedelta_of_seconds (fmul (total_seconds base_buffer) total_multiplier).

Definition calculate_buffer_time (a : Activity) (context : EventContext)
    (dependency_count : Z) : timedelta :=
  let buffer_time := buffer_time_unclamped a context dependency_count in
  let min_buffer := minutes 15 in
  let max_buffer := hours 2 in
  Z.max min_buffer (Z.min buffer_time max_buffer).

(* ---------------------------------------------------------------- *)
(** ** Day packing ([TimelineIntelligenceEngine._schedule_activities_to_days]) *)

Record TimedActivity : Type := mkTimed {
  ta_activity : Activity;
  start_time : datetime;
  end_time : datetime;
  buffer_before : timedelta;
  buffer_after : timedelta;
  contingency_plans : list string
}.

(** [date] is a day count; [datetime.combine], [.time()] and [.date()]
    split a datetime at midnight. *)
Definition date : Type := Z.
Definition day_us : Z := 86400000000.
Definition time_of (t : datetime) : Z := t mod day_us.
Definition date_of (t : datetime) : date := t / day_us.
Definition combine (d : date) (time_of_day : Z) : datetime := d * day_us + time_of_day.

Record TimelineDay : Type := mkDay {
  day_number : Z;
  day_date : date;
  activities : list TimedActivity;
  day_estimated_cost : Q;
  notes : list string;
  day_contingency_plans : list string;
  weather_backup_plan : string
}.

Record TimelineGenerationContext : Type := mkGenContext {
  event_context : EventContext;
  start_date : date;
  ctx_start_time : datetime;
  ctx_total_duration : timedelta;
  daily_schedule_hours : Z;
  break_duration : timedelta;
  meal_break_duration : timedelta
}.

(** [TimelineGenerationContext.get_daily_end_time] *)
Definition get_daily_end_time (ctx : TimelineGenerationContext)
    (day_start : datetime) : datetime :=
  day_start + hours (daily_schedule_hours ctx).

(** The local variables of the scheduling loop. *)
Record sched_state : Type := mkSched {
  timeline_days : list TimelineDay;
  current_date : date;
  current_time : datetime;
  cur_day_number : Z;
  daily_activities : list TimedActivity;
  daily_cost : Q
}.

(** [activity_duration] in the loop: everything an activity takes of a day. *)
Definition footprint (ta : TimedActivity) : timedelta :=
  setup_time (ta_activity ta) + duration (ta_activity ta)
  + cleanup_time (ta_activity ta) + buffer_before ta + buffer_after ta.

Definition str_of_Z (n : Z) : string := NilZero.string_of_int (Z.to_int n).

Definition day_note (ctx : TimelineGenerationContext) (n : Z) : string :=
  "Day " +++ str_of_Z n +++ " of "
  +++ EventType_value (event_type (event_context ctx)).

Definition final_note (ctx : TimelineGenerationContext) : string :=
  "Final day of " +++ EventType_value (event_type (event_context ctx)).

(** One iteration of [for activity_id in activity_order], for an id found
    in [activity_map]. *)
Definition schedule_step (ctx : TimelineGenerationContext) (st : sched_state)
    (timed_activity : TimedActivity) : sched_state :=
  let activity_duration := footprint timed_activity in
  let day_end_time :=
    get_daily_end_time ctx
      (combine (current_date st) (time_of (ctx_start_time ctx))) in
  let st1 :=
    if day_end_time <? current_time st + activity_duration then
      let days' :=
        if is_empty (daily_activities st) then timeline_days st
        else timeline_days st
             ++ [mkDay (cur_day_number st) (current_date st) (daily_activities st)
                       (daily_cost st) [day_note ctx (cur_day_number st)]
                       [] EmptyString] in
      let date' := current_date st + 1 in
      mkSched days' date' (combine date' (time_of (ctx_start_time ctx)))
              (cur_day_number st + 1) [] 0%Q
    else st in
  let a := ta_activity timed_activity in
  let start := current_time st1 + buffer_before timed_activity in
  let finish := start + setup_time a + duration a + cleanup_time a in
  let scheduled :=
    mkTimed a start finish (buffer_before timed_activity)
            (buffer_after timed_activity) (contingency_plans timed_activity) in
  mkSched (timeline_days st1) (current_date st1)
          (finish + buffer_after timed_activity) (cur_day_number st1)
          (daily_activities st1 ++ [scheduled])
          (daily_cost st1 + estimated_cost a)%Q.

Fixpoint schedule_loop (ctx : TimelineGenerationContext)
    (activity_map : dict TimedActivity) (activity_order : list string)
    (st : sched_state) : sched_state :=
  match activity_order with
  | [] => st
  | activity_id :: rest =>
      match dict_get activity_map activity_id with
      | None => schedule_loop ctx activity_map rest st
      | Some timed_activity =>
          schedule_loop ctx activity_map rest (schedule_step ctx st timed_activity)
      end
  end.

Definition _schedule_activities_to_days (timed_activities : list TimedActivity)
    (dependency_graph : DependencyGraph) (gen_context : TimelineGenerationContext)
  : result (list TimelineDay) :=
  activity_order <- topological_sort dependency_graph ;;
  let activity_map :=
    fold_left (fun m ta => dict_set m (id (ta_activity ta)) ta) timed_activities [] in
  let st0 := mkSched [] (start_date gen_context) (ctx_start_time gen_context)
                     1 [] 0%Q in
  let st := schedule_loop gen_context activity_map activity_order st0 in
  Ok (if is_empty (daily_activities st) then timeline_days st
      else timeline_days st
           ++ [mkDay (cur_day_number st) (current_date st) (daily_activities st)
                     (daily_cost st) [final_note gen_context] [] EmptyString]).

(** Total footprint of the activities of a day. *)
Definition day_load (d : TimelineDay) : timedelta :=
  fold_right (fun ta acc => footprint ta + acc) 0 (activities d).
End Floats.

(* ------------------------------------------------------------------ *)
(** * Specification vocabulary *)

Definition node_ids (g : DependencyGraph) : list string := dict_keys (nodes g).

(** The dependency relation of a graph: [u] is the predecessor and [v] the
    successor of one of its edges. *)
Definition dep_edge (g : DependencyGraph) (u v : string) : Prop :=
  exists d, In d (dependencies g) /\ predecessor_id d = u /\ successor_id d = v.

Definition has_dep_cycle (g : DependencyGraph) : Prop :=
  exists u, clos_trans string (dep_edge g) u u.

Definition acyclic (g : DependencyGraph) : Prop :=
  forall u, ~ clos_trans string (dep_edge g) u u.

(** [a] occurs in [l] strictly before [b]. *)
Definition before (l : list string) (a b : string) : Prop :=
  exists l1 l2 l3, l = l1 ++ a :: l2 ++ b :: l3.

(** The invariant that [add_activity] and [add_dependency] maintain: keys
    are unique, the two adjacency sets of every node mirror the edge list,
    and every edge joins two nodes. *)
Record wf_graph (g : DependencyGraph) : Prop := mk_wf {
  wf_keys : NoDup (node_ids g);
  wf_preds_nodup :
    forall k n, dict_get (nodes g) k = Some n -> NoDup (predecessors n);
  wf_succs_nodup :
    forall k n, dict_get (nodes g) k = Some n -> NoDup (successors n);
  wf_succs :
    forall u n v, dict_get (nodes g) u = Some n ->
                  (In v (successors n) <-> dep_edge g u v);
  wf_preds :
    forall v n u, dict_get (nodes g) v = Some n ->
                  (In u (predecessors n) <-> dep_edge g u v);
  wf_deps :
    forall d, In d (dependencies g) ->
              In (predecessor_id d) (node_ids g) /\ In (successor_id d) (node_ids g)
}.

(** The node map after a successful [add_dependency]. *)
Definition link (ns : dict DependencyNode) (d : Dependency) : dict DependencyNode :=
  dict_update
    (dict_update ns (predecessor_id d)
       (fun n => set_successors n (set_add (successor_id d) (successors n))))
    (successor_id d)
    (fun n => set_predecessors n (set_add (predecessor_id d) (predecessors n))).

(** The inputs [add_dependency] refuses. *)
Definition rejected (g : DependencyGraph) (d : Dependency) : Prop :=
  predecessor_id d = EmptyString \/ successor_id d = EmptyString
  \/ predecessor_id d = successor_id d
  \/ ~ In (dependency_type d) dependency_types
  \/ ~ In (predecessor_id d) (node_ids g)
  \/ ~ In (successor_id d) (node_ids g).

(** The two messages with which [topological_sort] reports a cycle. *)
Definition is_cycle_error (e : exn) : Prop :=
  e = ValueError msg_sort_cycle \/ e = ValueError msg_sort_failed.

(** The earliest window of a node, once the forward pass has set it. *)
Definition window (g : DependencyGraph) (k : string) : option (datetime * datetime) :=
  match dict_get (nodes g) k with
  | Some n =>
      match earliest_start n, earliest_finish n with
      | Some s, Some f => Some (s, f)
      | _, _ => None
      end
  | None => None
  end.

Definition slack_of (g : DependencyGraph) (k : string) : option timedelta :=
  option_map slack (dict_get (nodes g) k).

(* ------------------------------------------------------------------ *)
(** * Inputs used by the examples *)

Definition plain_activity (i : string) (t : ActivityType) (p : Priority)
    (d : timedelta) (vendors : list string) : Activity :=
  mkActivity i i t d p EmptyString vendors 0%Q EmptyString 0 0.

(** An activity that breaks all four field invariants. *)
Definition bad_activity : Activity :=
  mkActivity EmptyString EmptyString CEREMONY 0 MEDIUM EmptyString []
             (-1 # 1)%Q EmptyString 0 0.

Definition act_x : Activity := plain_activity "x" CEREMONY HIGH (hours 1) [].
Definition act_x_longer : Activity := plain_activity "x" CLEANUP LOW (hours 5) [].
Definition act_y : Activity := plain_activity "y" CATERING HIGH (hours 1) [].

(** A graph in which one activity carries the empty id. *)
Definition g_empty_id : DependencyGraph :=
  add_activity (add_activity empty_graph
                  (plain_activity EmptyString CEREMONY HIGH (hours 1) []))
               act_y.

Definition g_xy : DependencyGraph :=
  add_activity (add_activity empty_graph act_x) act_y.

(* ------------------------------------------------------------------ *)
(** * Vocabulary of the proofs about [has_cycle] and [topological_sort] *)

Definition succs_of (ns : dict DependencyNode) (u : string) : pyset :=
  match dict_get ns u with
  | Some n => successors n
  | None => []
  end.

Definition preds_of (ns : dict DependencyNode) (v : string) : pyset :=
  match dict_get ns v with
  | Some n => predecessors n
  | None => []
  end.

(** The edges the two algorithms follow: the successor sets of the nodes. *)
Definition succ_edge (ns : dict DependencyNode) (u v : string) : Prop :=
  In v (succs_of ns u).

(** What the algorithms need of the node map. *)
Record adjacency_ok (ns : dict DependencyNode) : Prop := mk_adjacency_ok {
  adj_keys : NoDup (dict_keys ns);
  adj_succs_nodup : forall u, NoDup (succs_of ns u);
  adj_preds_nodup : forall v, NoDup (preds_of ns v);
  adj_mirror : forall u v, In v (succs_of ns u) <-> In u (preds_of ns v);
  adj_closed : forall u v, In v (succs_of ns u) ->
                           In u (dict_keys ns) /\ In v (dict_keys ns)
}.

Definition is_white (c : color) : bool :=
  match c with
  | WHITE => true
  | _ => false
  end.

(** Number of nodes [dfs] has not entered yet. *)
Definition whites (colors : dict color) : nat :=
  List.length (filter (fun kv => is_white (snd kv)) colors).

(** Predecessors of [v] that are not in [order] yet. *)
Definition unprocessed (ns : dict DependencyNode) (order : list string) (v : string)
  : nat :=
  List.length (filter (fun p => negb (set_mem p order)) (preds_of ns v)).

(** Every node of [order] comes after all its predecessors. *)
Definition preds_first (ns : dict DependencyNode) (order : list string) : Prop :=
  forall l1 v l2, order = l1 ++ v :: l2 ->
                  forall p, In p (preds_of ns v) -> In p l1.

(** [rpath R l v]: [l] lists a chain of [R]-predecessors of [v], the
    nearest first. *)
Inductive rpath (R : string -> string -> Prop) : list string -> string -> Prop :=
| rpath_nil v : rpath R [] v
| rpath_cons p l v : R p v -> rpath R l p -> rpath R (p :: l) v.

(** [dfs] with [fuel] returns from every state with fewer white nodes than
    [fuel]. *)
Definition dfs_returns (ns : dict DependencyNode) (fuel : nat) : Prop :=
  forall c v,
    dict_keys c = dict_keys ns -> In v (dict_keys ns) -> (whites c < fuel)%nat ->
    exists b c', dfs fuel ns c v = Ok (b, c')
                 /\ dict_keys c' = dict_keys ns /\ (whites c' <= whites c)%nat.

Definition gray (c : dict color) (u : string) : Prop := dict_get c u = Some GRAY.

(** Soundness of [dfs]: with every gray node on a path to the node entered, a
    positive answer exhibits a cycle, and a negative one leaves the gray
    nodes as they were. *)
Definition dfs_sound_at (ns : dict DependencyNode) (fuel : nat) : Prop :=
  forall c v b c',
    dfs fuel ns c v = Ok (b, c') ->
    (forall u, gray c u -> clos_trans string (succ_edge ns) u v) ->
    (b = true -> exists x, clos_trans string (succ_edge ns) x x)
    /\ (b = false -> forall u, gray c' u <-> gray c u).

(** The invariant of the [while queue] loop of [topological_sort]. *)
Record kahn_inv (ns : dict DependencyNode) (in_degree : dict Z)
    (queue order : list string) : Prop := mk_kahn_inv {
  ki_keys : dict_keys in_degree = dict_keys ns;
  ki_nodup : NoDup (order ++ queue);
  ki_incl : forall v, In v (order ++ queue) -> In v (dict_keys ns);
  ki_degree : forall v, In v (dict_keys ns) ->
              dict_get in_degree v = Some (Z.of_nat (unprocessed ns order v));
  ki_ready : forall v, In v (dict_keys ns) ->
             (In v (order ++ queue) <-> unprocessed ns order v = 0%nat);
  ki_order : preds_first ns order
}.

(** What the loop has established when the queue is empty. *)
Record kahn_result (ns : dict DependencyNode) (res : list string) : Prop :=
  mk_kahn_result {
  kr_nodup : NoDup res;
  kr_incl : forall v, In v res -> In v (dict_keys ns);
  kr_ready : forall v, In v (dict_keys ns) ->
             (In v res <-> unprocessed ns res v = 0%nat);
  kr_order : preds_first ns res
}.

(** The successors [relax] appends to the queue. *)
Definition newly_ready (in_degree : dict Z) (succs : list string) : list string :=
  filter (fun s => match dict_get in_degree s with
                   | Some d => d - 1 =? 0
                   | None => false
                   end) succs.

(** The scenario of three activities: preparation (1h), ceremony (2h) and
    cleanup (1h), without setup or cleanup time. *)
Definition abc_activities (pa pb pc : Priority) : list Activity :=
  [ plain_activity "A" PREPARATION pa (hours 1) [];
    plain_activity "B" CEREMONY pb (hours 2) [];
    plain_activity "C" CLEANUP pc (hours 1) [] ].

Definition graph_of (r : result DependencyGraph) : DependencyGraph :=
  match r with
  | Ok g => g
  | Raise _ => empty_graph
  end.

Definition g_abc : DependencyGraph :=
  graph_of (create_dependency_graph (abc_activities MEDIUM CRITICAL LOW)).

(** Two activities that depend on each other. *)
Definition g_loop : DependencyGraph :=
  graph_of (g1 <- add_dependency g_xy (mkDependency "x" "y" "finish_to_start" 0) ;;
            add_dependency g1 (mkDependency "y" "x" "finish_to_start" 0)).

(* ------------------------------------------------------------------ *)
(** * Vocabulary of the proofs about the critical path method *)

(** What the passes leave alone in a node. *)
Definition skeleton (n : DependencyNode) : Activity * pyset * pyset :=
  (activity n, predecessors n, successors n).

Definition same_structure (ns ns' : dict DependencyNode) : Prop :=
  dict_keys ns' = dict_keys ns
  /\ forall k, option_map skeleton (dict_get ns' k) = option_map skeleton (dict_get ns k).

Definition has_earliest (ns : dict DependencyNode) (k : string) : Prop :=
  exists n es ef,
    dict_get ns k = Some n /\ earliest_start n = Some es /\ earliest_finish n = Some ef.

Definition has_latest (ns : dict DependencyNode) (k : string) : Prop :=
  exists n ls lf,
    dict_get ns k = Some n /\ latest_start n = Some ls /\ latest_finish n = Some lf.

(** The passes change only the four times of a node: same earliest times. *)
Definition same_earliest (ns ns' : dict DependencyNode) : Prop :=
  forall k,
    option_map (fun n => (earliest_start n, earliest_finish n)) (dict_get ns' k)
    = option_map (fun n => (earliest_start n, earliest_finish n)) (dict_get ns k).

(** [nb v] are the nodes that must come before [v] in [order]. *)
Definition deps_first (nb : string -> list string) (order : list string) : Prop :=
  forall l1 v l2, order = l1 ++ v :: l2 -> forall p, In p (nb v) -> In p l1.

(** [a] starts no later than [b], both having an earliest start. *)
Definition start_le (g : DependencyGraph) (a b : string) : Prop :=
  exists na nb sa sb,
    dict_get (nodes g) a = Some na /\ dict_get (nodes g) b = Some nb
    /\ earliest_start na = Some sa /\ earliest_start nb = Some sb /\ sa <= sb.

(** A node after the three stages: both start times are set and the slack
    and the flag are those of [_calculate_slack]. *)
Definition node_finalised (n : DependencyNode) : Prop :=
  exists es ls,
    earliest_start n = Some es /\ latest_start n = Some ls
    /\ slack n = ls - es
    /\ is_critical n = (slack n =? 0).


(** The node maps of the outcome of a pass. *)
Definition nodes_of (r : result DependencyGraph) : result (dict DependencyNode) :=
  g <- r ;; Ok (nodes g).

(* ------------------------------------------------------------------ *)
(** * Buffer time: the formula in the words of the specification *)




(** An implementation of the float interface by exact rational arithmetic,
    with [timedelta(seconds=x)] rounding to the nearest microsecond, ties to
    even. *)
Definition round_half_even (x : Q) : Z :=
  let n := Qnum x in
  let d := Z.pos (Qden x) in
  let q := n / d in
  let r := n mod d in
  match 2 * r ?= d with
  | Lt => q
  | Gt => q + 1
  | Eq => if Z.even q then q else q + 1
  end.

Definition exact_float : PyFloat :=
  @mkPyFloat Q (fun q => q) Qmult
            (fun x n => Qle_bool x (inject_Z n))
            (fun t => t # 1000000)
            (fun x => round_half_even (x * inject_Z 1000000)%Q).

Definition act_two_hours : Activity := plain_activity "talk" ENTERTAINMENT HIGH (hours 2) [].

Definition ctx_score_5 : @EventContext exact_float :=
  @mkEventContext exact_float CORPORATE 80 1 (5 # 1).



(* ------------------------------------------------------------------ *)
(** * Vendor conflicts: three activities that need the same photographer *)

Definition vendor_activities_xyz : list Activity :=
  [ plain_activity "X" ENTERTAINMENT HIGH (hours 8) ["photographer"];
    plain_activity "Y" DECORATION HIGH (hours 1) ["photographer"];
    plain_activity "Z" NETWORKING HIGH (hours 1) ["photographer"] ].

(** The three activities after the full pass with a start at 09:00: none
    depends on another, so each starts at 09:00. *)
Definition g_vendors : DependencyGraph :=
  graph_of (g <- create_dependency_graph vendor_activities_xyz ;;
            calculate_critical_path g (days 738000 + hours 9)).

(** Two half-open windows overlap. *)
Definition windows_overlap (w1 w2 : option (datetime * datetime)) : Prop :=
  match w1, w2 with
  | Some (s1, f1), Some (s2, f2) => s1 < f2 /\ s2 < f1
  | _, _ => False
  end.

(* ------------------------------------------------------------------ *)
(** * Day packing *)

(** Total footprint of a list of timed activities. *)
Definition load (l : list TimedActivity) : timedelta :=
  fold_right (fun ta acc => footprint ta + acc) 0 l.

(** The daily working-hours window. *)
Definition window_length {F : PyFloat} (ctx : TimelineGenerationContext) : timedelta :=
  hours (daily_schedule_hours ctx).

(** Start of the daily window on [d]. *)
Definition day_start {F : PyFloat} (ctx : TimelineGenerationContext) (d : date)
  : datetime :=
  combine d (time_of (ctx_start_time ctx)).

(** The invariant of the scheduling loop. *)
Record sched_inv {F : PyFloat} (ctx : TimelineGenerationContext) (st : sched_state)
  : Prop := mk_sched_inv {
  si_days : forall day, In day (timeline_days st) -> day_load day <= window_length ctx;
  si_start : day_start ctx (current_date st)
             <= current_time st - load (daily_activities st);
  si_end : daily_activities st <> [] ->
           current_time st <= day_start ctx (current_date st) + window_length ctx
}.

(** One activity that takes 14 h 15 min with its setup, cleanup and buffers. *)
Definition long_activity : Activity :=
  mkActivity "gala" "gala" ENTERTAINMENT (hours 8) HIGH EmptyString [] 0%Q
             EmptyString (hours 3) (hours 2).

Definition long_timed : TimedActivity :=
  mkTimed long_activity datetime_min datetime_min (hours 1) (minutes 15) [].

Definition default_context (start : date) : @TimelineGenerationContext exact_float :=
  mkGenContext (@mkEventContext exact_float WEDDING 100 1 (5 # 1))
               start (combine start (hours 10)) (days 1) 12 (minutes 30) (hours 1).

Definition g_long : DependencyGraph := add_activity empty_graph long_activity.

(** Three activities of 11 h each, and a context whose start time lies a day
    before its start date. *)
Definition eleven_hours (i : string) : TimedActivity :=
  mkTimed (plain_activity i ENTERTAINMENT HIGH (hours 11) [])
          datetime_min datetime_min 0 0 [].

Definition three_long : list TimedActivity :=
  [eleven_hours "p"; eleven_hours "q"; eleven_hours "r"].

Definition g_three_long : DependencyGraph :=
  fold_left add_activity (map ta_activity three_long) empty_graph.

Definition early_context : @TimelineGenerationContext exact_float :=
  mkGenContext (@mkEventContext exact_float WEDDING 100 1 (5 # 1))
               738001 (combine 738000 (hours 10)) (days 1) 12 (minutes 30) (hours 1).

(** Two activities of one hour each, with short buffers. *)
Definition short_timed (a : Activity) : TimedActivity :=
  mkTimed a datetime_min datetime_min (minutes 10) (minutes 15) [].

Definition two_short : list TimedActivity := [short_timed act_x; short_timed act_y].

(* ------------------------------------------------------------------ *)
(** * Vocabulary of the completeness proof of [has_cycle] *)

Definition black (c : dict color) (u : string) : Prop := dict_get c u = Some BLACK.

(** The nodes [dfs] has left: their successors have been left as well, and
    none of them lies on a cycle. *)
Record settled (ns : dict DependencyNode) (c : dict color) : Prop := mk_settled {
  settled_closed : forall u s, black c u -> succ_edge ns u s -> black c s;
  settled_acyclic : forall u, black c u -> ~ clos_trans string (succ_edge ns) u u
}.

(** Completeness of [dfs]: a negative answer leaves the node entered, it
    keeps what was left before, and the gray nodes are as they were. *)
Definition dfs_complete_at (ns : dict DependencyNode) (fuel : nat) : Prop :=
  forall c v c',
    dfs fuel ns c v = Ok (false, c') -> settled ns c ->
    settled ns c' /\ black c' v
    /\ (forall u, black c u -> black c' u)
    /\ (forall u, gray c' u <-> gray c u).

(* ------------------------------------------------------------------ *)
(** * Vocabulary of the proofs about the times of the critical path method *)

(** The earliest start the forward pass gives the node [n] stored under [k],
    from the earliest times of its predecessors in [ns]. *)
Definition forward_rule (ns : dict DependencyNode) (deps : list Dependency)
    (start_time : datetime) (k : string) (n : DependencyNode) : result datetime :=
  if is_empty (predecessors n) then Ok start_time
  else forward_preds ns deps k n (predecessors n) start_time.

(** The earliest times of [k] in [ns] are those the forward pass computes
    from [ns] itself. *)
Definition forward_ok (ns : dict DependencyNode) (deps : list Dependency)
    (start_time : datetime) (k : string) : Prop :=
  exists n es,
    dict_get ns k = Some n
    /\ earliest_start n = Some es
    /\ earliest_finish n = Some (es + node_total_duration n)
    /\ forward_rule ns deps start_time k n = Ok es.

(** The latest finish the backward pass gives the node [n] stored under [k],
    from the latest times of its successors in [ns]. *)
Definition backward_rule (ns : dict DependencyNode) (deps : list Dependency)
    (project_end : datetime) (k : string) (n : DependencyNode) : result datetime :=
  if is_empty (successors n) then Ok project_end
  else backward_succs ns deps k n (successors n) project_end.

Definition backward_ok (ns : dict DependencyNode) (deps : list Dependency)
    (project_end : datetime) (k : string) : Prop :=
  exists n lf,
    dict_get ns k = Some n
    /\ latest_finish n = Some lf
    /\ latest_start n = Some (lf - node_total_duration n)
    /\ backward_rule ns deps project_end k n = Ok lf.

Definition same_latest (ns ns' : dict DependencyNode) : Prop :=
  forall k,
    option_map (fun n => (latest_start n, latest_finish n)) (dict_get ns' k)
    = option_map (fun n => (latest_start n, latest_finish n)) (dict_get ns k).

(** The edge the two passes read for its pair of ids: the first one of the
    dependency list between the two. *)
Definition effective (g : DependencyGraph) (d : Dependency) : Prop :=
  find_dependency (dependencies g) (predecessor_id d) (successor_id d) = Some d.

(** What an edge asks of the windows [ps, pf] of its predecessor and
    [ss, sf] of its successor; the passes treat every type other than the
    first three as start_to_finish. *)
Definition dependency_holds (d : Dependency) (ps pf ss sf : datetime) : Prop :=
  if String.eqb (dependency_type d) "finish_to_start" then pf + lag_time d <= ss
  else if String.eqb (dependency_type d) "start_to_start" then ps + lag_time d <= ss
  else if String.eqb (dependency_type d) "finish_to_finish" then pf + lag_time d <= sf
  else ps + lag_time d <= sf.

(** The latest window of a node, once the backward pass has set it. *)
Definition latest_window (g : DependencyGraph) (k : string)
  : option (datetime * datetime) :=
  match dict_get (nodes g) k with
  | Some n =>
      match latest_start n, latest_finish n with
      | Some s, Some f => Some (s, f)
      | _, _ => None
      end
  | None => None
  end.

(** Total duration of the activity stored under [k]. *)
Definition duration_of (g : DependencyGraph) (k : string) : timedelta :=
  match dict_get (nodes g) k with
  | Some n => node_total_duration n
  | None => 0
  end.

(** The scenario of three activities after the full pass from 09:00. *)
Definition g_abc_scheduled : DependencyGraph :=
  graph_of (calculate_critical_path g_abc (days 738000 + hours 9)).

Definition t0900 : datetime := days 738000 + hours 9.

(** A later schedule of the three activities: 09:00, 11:00 and 14:00. *)
Definition late_start (k : string) : datetime :=
  if String.eqb k "A" then days 738000 + hours 9
  else if String.eqb k "B" then days 738000 + hours 11
  else days 738000 + hours 14.

(** [d] is the first edge from [p] to [s] in the list, in insertion order. *)
Definition first_between (deps : list Dependency) (p s : string) (d : Dependency)
  : Prop :=
  exists l1 l2,
    deps = l1 ++ d :: l2
    /\ predecessor_id d = p /\ successor_id d = s
    /\ forall d', In d' l1 -> ~ (predecessor_id d' = p /\ successor_id d' = s).

(** The earliest start that the type and the lag of [d] ask of the successor,
    whose total duration is [len], when the predecessor has the earliest
    window [ps, pf]; every type other than the first three counts as
    start_to_finish. *)
Definition start_required (d : Dependency) (ps pf : datetime) (len : timedelta)
  : datetime :=
  if String.eqb (dependency_type d) "finish_to_start" then pf + lag_time d
  else if String.eqb (dependency_type d) "start_to_start" then ps + lag_time d
  else if String.eqb (dependency_type d) "finish_to_finish" then pf + lag_time d - len
  else ps + lag_time d - len.

(** The latest finish that the type and the lag of [d] leave the predecessor,
    whose total duration is [len], when the successor has the latest window
    [ls, lf]. *)
Definition finish_allowed (d : Dependency) (ls lf : datetime) (len : timedelta)
  : datetime :=
  if String.eqb (dependency_type d) "finish_to_start" then ls - lag_time d
  else if String.eqb (dependency_type d) "start_to_start" then ls - lag_time d + len
  else if String.eqb (dependency_type d) "finish_to_finish" then lf - lag_time d
  else lf - lag_time d + len.

(** The two passes have used the type and the lag of the edge [d] of [deps]
    for the windows of [g'], computed from the project start [st]: the
    earliest start of the successor is not before what [d] asks, and it is
    the project start or exactly what the first edge from one of its
    predecessors asks; the latest finish of the predecessor is not after
    what [d] leaves, and it is the project end or exactly what the first edge
    to one of its successors leaves. *)
Definition passes_use_edge (deps : list Dependency) (st : datetime)
    (g' : DependencyGraph) (d : Dependency) : Prop :=
  exists ps pf ss sf pls plf sls slf,
    window g' (predecessor_id d) = Some (ps, pf)
    /\ window g' (successor_id d) = Some (ss, sf)
    /\ latest_window g' (predecessor_id d) = Some (pls, plf)
    /\ latest_window g' (successor_id d) = Some (sls, slf)
    /\ start_required d ps pf (sf - ss) <= ss
    /\ (ss = st
        \/ exists q dq qs qf,
             first_between deps q (successor_id d) dq
             /\ window g' q = Some (qs, qf)
             /\ ss = start_required dq qs qf (sf - ss))
    /\ plf <= finish_allowed d sls slf (plf - pls)
    /\ (plf = st + total_duration g'
        \/ exists q dq qls qlf,
             first_between deps (predecessor_id d) q dq
             /\ latest_window g' q = Some (qls, qlf)
             /\ plf = finish_allowed dq qls qlf (plf - pls)).

(* ------------------------------------------------------------------ *)
(** * Vocabulary of the proofs about [create_dependency_graph] *)

(** The ids of a list of activities in the order of their first
    occurrence. *)
Definition first_ids (activities : list Activity) : pyset :=
  fold_left (fun s x => set_add x s) (map id activities) [].

(** The first activity of the list with the id [k]. *)
Definition first_with_id (activities : list Activity) (k : string) : option Activity :=
  find (fun a => String.eqb (id a) k) activities.

(** A catering activity that repeats the id of the ceremony [act_x]. *)
Definition act_x_catering : Activity := plain_activity "x" CATERING LOW (hours 2) [].

(** The rank of the activity types in the type rules of
    [_generate_automatic_dependencies]: preparations come before ceremonies,
    ceremonies before the rest. *)
Definition type_rank (t : ActivityType) : nat :=
  match t with
  | PREPARATION => 0
  | CEREMONY => 1
  | _ => 2
  end.

(** Position of the first occurrence of [k] in [l]. *)
Fixpoint index_of (k : string) (l : list string) : nat :=
  match l with
  | [] => 0
  | x :: l' => if String.eqb k x then 0 else S (index_of k l')
  end.

(** A measure that grows along every edge the type rules generate. *)
Definition rule_rank (activities : list Activity) (k : string) : nat :=
  match first_with_id activities k with
  | Some a =>
      type_rank (activity_type a) * S (List.length activities)
      + index_of k (map id activities)
  | None => 0
  end.

(** A cleanup called after the first ceremony of the Hindu sequence and a
    ceremony called after the second. *)
Definition mehendi_cleanup : Activity :=
  mkActivity "m1" "Mehendi clean-up" CLEANUP (hours 1) MEDIUM EmptyString []
             0%Q EmptyString 0 0.

Definition haldi_ceremony : Activity :=
  mkActivity "h1" "Haldi" CEREMONY (hours 2) HIGH EmptyString []
             0%Q EmptyString 0 0.

(* ------------------------------------------------------------------ *)
(** * Vocabulary of the proofs about vendor conflicts *)

(** Two different activities need [vendor] and their earliest windows
    overlap. *)
Definition vendor_clash (g : DependencyGraph) (vendor k1 k2 : string) : Prop :=
  k1 <> k2
  /\ (exists n1 n2,
        dict_get (nodes g) k1 = Some n1 /\ dict_get (nodes g) k2 = Some n2
        /\ In vendor (required_vendors (activity n1))
        /\ In vendor (required_vendors (activity n2)))
  /\ windows_overlap (window g k1) (window g k2).

(** Every node has its earliest window, and the window is not empty. *)
Definition all_scheduled (g : DependencyGraph) : Prop :=
  forall k n, dict_get (nodes g) k = Some n ->
    exists es ef, earliest_start n = Some es /\ earliest_finish n = Some ef /\ es < ef.

(** The entries of the node map that [vendor_activities] collects under
    [vendor], one for each time the vendor is listed. *)
Definition vendor_group (vendor : string) (ns : dict DependencyNode)
  : list (string * DependencyNode) :=
  flat_map (fun kv => map (fun _ => kv)
                          (filter (String.eqb vendor)
                                  (required_vendors (activity (snd kv))))) ns.

(** A group extended by the entries [l]; no group is created for none. *)
Definition extend_group {X : Type} (o : option (list X)) (l : list X)
  : option (list X) :=
  match l with
  | [] => o
  | _ => Some (match o with
               | Some l0 => l0 ++ l
               | None => l
               end)
  end.

(** The sort key of [_check_resource_conflicts]. *)
Definition entry_start (x : string * DependencyNode) : Z :=
  or_datetime_min (earliest_start (snd x)).

(* ------------------------------------------------------------------ *)
(** * Validation and suggestions ([app/services/dependency_manager.py]) *)

Definition msg_timeline_cycle : string := "Timeline contains circular dependencies".

(** The issues of the activities, in the order of the nodes: the third loop
    of [validate_timeline]. *)
Definition activity_issues (g : DependencyGraph) : list string :=
  flat_map
    (fun kv =>
       map (fun issue => "Activity '" +++ name (activity (snd kv)) +++ "': " +++ issue)
           (Activity_validate (activity (snd kv))))
    (nodes g).

(** The issues of the edges: the last loop of [validate_timeline]. *)
Definition dependency_issues (g : DependencyGraph) : list string :=
  flat_map
    (fun d => map (fun issue => "Dependency: " +++ issue) (Dependency_validate d))
    (dependencies g).

(** [DependencyManager.validate_timeline] *)
Definition validate_timeline (g : DependencyGraph) : result (list string) :=
  cyc <- has_cycle g ;;
  let issues := if (cyc : bool) then [msg_timeline_cycle] else [] in
  conflicts <- resolve_conflicts g ;;
  Ok (issues ++ conflicts ++ activity_issues g ++ dependency_issues g).

(** ["%02d" % n] and ["%06d" % n] for [0 <= n] *)
Definition pad2 (n : Z) : string :=
  if n <? 10 then "0" +++ str_of_Z n else str_of_Z n.

Definition pad6 (n : Z) : string :=
  (if n <? 10 then "00000"
   else if n <? 100 then "0000"
   else if n <? 1000 then "000"
   else if n <? 10000 then "00"
   else if n <? 100000 then "0"
   else EmptyString) +++ str_of_Z n.

(** [str(t)] for a timedelta: hours, minutes and seconds of the part below
    one day, preceded by the number of days when it is not zero and followed
    by the microseconds when they are not zero. *)
Definition str_of_timedelta (t : timedelta) : string :=
  let d := t / 86400000000 in
  let rest := t mod 86400000000 in
  let secs := rest / 1000000 in
  let us := rest mod 1000000 in
  let s := str_of_Z (secs / 3600) +++ ":" +++ pad2 ((secs / 60) mod 60)
           +++ ":" +++ pad2 (secs mod 60) in
  let s := if d =? 0 then s
           else str_of_Z d +++ " day" +++ (if Z.abs d =? 1 then EmptyString else "s")
                +++ ", " +++ s in
  if us =? 0 then s else s +++ "." +++ pad6 us.

Definition msg_parallel (n : nat) : string :=
  "Consider running " +++ str_of_Z (Z.of_nat n)
  +++ " independent activities in parallel".

(** [DependencyManager._find_parallel_opportunities] *)
Definition _find_parallel_opportunities (g : DependencyGraph) : list string :=
  let independent_activities :=
    filter (fun kv => is_empty (predecessors (snd kv))
                      || (List.length (predecessors (snd kv)) <=? 1)%nat)
           (nodes g) in
  if (1 <? List.length independent_activities)%nat
  then [msg_parallel (List.length independent_activities)]
  else [].

Definition msg_excessive_slack (a : string) (s : timedelta) : string :=
  "Activity '" +++ a +++ "' has excessive slack (" +++ str_of_timedelta s
  +++ ") - consider reducing buffer time".

(** [DependencyManager._suggest_buffer_adjustments] *)
Definition _suggest_buffer_adjustments (g : DependencyGraph) : list string :=
  flat_map
    (fun kv => if negb (slack (snd kv) =? 0) && (hours 4 <? slack (snd kv))
               then [msg_excessive_slack (name (activity (snd kv))) (slack (snd kv))]
               else [])
    (nodes g).

Definition msg_half_critical : string :=
  "More than 50% of activities are on critical path - "
  +++ "consider adding resources or reducing scope".

Definition msg_long_critical (a : string) : string :=
  "Critical activity '" +++ a +++ "' has long duration - "
  +++ "consider breaking into smaller tasks".

(** [DependencyManager._suggest_critical_path_optimizations].  The test
    [len(critical_activities) > len(graph.nodes) * 0.5] compares an integer
    with the half of an integer, which binary floating point represents
    exactly; it is the test [len(graph.nodes) < 2 * len(critical_activities)]. *)
Definition _suggest_critical_path_optimizations (g : DependencyGraph) : list string :=
  let critical_activities :=
    filter is_critical (dict_values (nodes g)) in
  (if (List.length (nodes g) <? 2 * List.length critical_activities)%nat
   then [msg_half_critical] else [])
  ++ flat_map
       (fun node => if hours 4 <? duration (activity node)
                    then [msg_long_critical (name (activity node))]
                    else [])
       critical_activities.

(** The suggestions of the second loop of
    [_suggest_critical_path_optimizations], one for each long critical
    activity. *)
Definition long_critical_suggestions (g : DependencyGraph) : list string :=
  flat_map
    (fun node => if hours 4 <? duration (activity node)
                 then [msg_long_critical (name (activity node))]
                 else [])
    (filter is_critical (dict_values (nodes g))).

(** [DependencyManager.optimize_timeline] *)
Definition optimize_timeline (g : DependencyGraph) : list string :=
  _find_parallel_opportunities g
  ++ _suggest_buffer_adjustments g
  ++ _suggest_critical_path_optimizations g.

(* ------------------------------------------------------------------ *)
(** * Validation of timed activities, days and timelines
      ([app/models/core.py]) *)

Definition msg_allocated (actual expected : timedelta) : string :=
  "Allocated time (" +++ str_of_timedelta actual
  +++ ") is less than required time (" +++ str_of_timedelta expected +++ ")".

(** [TimedActivity.validate] *)
Definition TimedActivity_validate (ta : TimedActivity) : list string :=
  let a := ta_activity ta in
  let expected_duration := duration a + setup_time a + cleanup_time a in
  let actual_duration := end_time ta - start_time ta in
  Activity_validate a
  ++ (if end_time ta <=? start_time ta
      then ["Start time must be before end time"] else [])
  ++ (if actual_duration <? expected_duration
      then [msg_allocated actual_duration expected_duration] else []).

Definition msg_overlap (a b : string) : string :=
  "Activities '" +++ a +++ "' and '" +++ b +++ "' overlap".

(** [for i in range(len(sorted_activities) - 1)] in [TimelineDay.validate] *)
Fixpoint overlap_errors (l : list TimedActivity) : list string :=
  match l with
  | current :: ((next_activity :: _) as rest) =>
      (if start_time next_activity <? end_time current
       then [msg_overlap (name (ta_activity current))
                         (name (ta_activity next_activity))]
       else [])
      ++ overlap_errors rest
  | _ => []
  end.

(** [TimelineDay.validate] *)
Definition TimelineDay_validate (d : TimelineDay) : list string :=
  (if day_number d <=? 0 then ["Day number must be positive"] else [])
  ++ (if Q_neg (day_estimated_cost d)
      then ["Estimated cost cannot be negative"] else [])
  ++ flat_map TimedActivity_validate (activities d)
  ++ overlap_errors (sort_by start_time (activities d)).

Record Timeline : Type := mkTimeline {
  tl_days : list TimelineDay;
  tl_total_duration : timedelta;
  tl_critical_path : list Activity;
  tl_buffer_time : timedelta;
  tl_dependencies : list Dependency;
  tl_total_estimated_cost : Q
}.

(** The ids collected into the set [activity_ids] of [Timeline.validate]. *)
Definition timeline_activity_ids (l : list TimelineDay) : pyset :=
  fold_left
    (fun s d => fold_left (fun s' ta => set_add (id (ta_activity ta)) s')
                          (activities d) s)
    l [].

Definition msg_unknown_predecessor (k : string) : string :=
  "Dependency references unknown predecessor: " +++ k.
Definition msg_unknown_successor (k : string) : string :=
  "Dependency references unknown successor: " +++ k.
Definition msg_day_sequence : string :=
  "Day numbers must be sequential starting from 1".

(** [for i, day in enumerate(sorted_days)] with its [break]; [i] counts from
    the index of the first day of [l]. *)
Fixpoint day_sequence_errors (i : Z) (l : list TimelineDay) : list string :=
  match l with
  | [] => []
  | day :: rest =>
      if negb (day_number day =? i + 1) then [msg_day_sequence]
      else day_sequence_errors (i + 1) rest
  end.

(** [Timeline.validate] *)
Definition Timeline_validate (t : Timeline) : list string :=
  let activity_ids := timeline_activity_ids (tl_days t) in
  (if is_empty (tl_days t) then ["Timeline must have at least one day"] else [])
  ++ (if tl_total_duration t <=? 0 then ["Total duration must be positive"] else [])
  ++ flat_map TimelineDay_validate (tl_days t)
  ++ flat_map
       (fun dependency =>
          Dependency_validate dependency
          ++ (if negb (set_mem (predecessor_id dependency) activity_ids)
              then [msg_unknown_predecessor (predecessor_id dependency)] else [])
          ++ (if negb (set_mem (successor_id dependency) activity_ids)
              then [msg_unknown_successor (successor_id dependency)] else []))
       (tl_dependencies t)
  ++ day_sequence_errors 0 (sort_by day_number (tl_days t)).

(* ------------------------------------------------------------------ *)
(** * Vocabulary of the proofs about the day scheduler *)

Definition sched_id (t : TimedActivity) : string := id (ta_activity t).

(** The end of a timed activity is its start plus setup, duration and
    cleanup. *)
Definition well_timed (t : TimedActivity) : Prop :=
  end_time t = start_time t + setup_time (ta_activity t)
               + duration (ta_activity t) + cleanup_time (ta_activity t).

(** [y] is placed right after [x]: after the buffer that follows [x] and
    the buffer that precedes [y]. *)
Definition follows (x y : TimedActivity) : Prop :=
  start_time y = end_time x + buffer_after x + buffer_before y.

(** Each activity of the list is placed right after the one before it. *)
Fixpoint chained (l : list TimedActivity) : Prop :=
  match l with
  | x :: ((y :: _) as rest) => follows x y /\ chained rest
  | _ => True
  end.

(** The cost of a day as the loop adds it up. *)
Definition cost_sum (l : list TimedActivity) : Q :=
  fold_left (fun c t => (c + estimated_cost (ta_activity t))%Q) l 0%Q.

(** A scheduled activity carries the activity, the buffers and the
    contingency plans of the timed activity it was made from. *)
Definition same_request (t ta : TimedActivity) : Prop :=
  ta_activity t = ta_activity ta
  /\ buffer_before t = buffer_before ta
  /\ buffer_after t = buffer_after ta
  /\ contingency_plans t = contingency_plans ta.

(** Each number of the list is the one before it plus one. *)
Fixpoint consecutive (l : list Z) : Prop :=
  match l with
  | a :: ((b :: _) as rest) => b = a + 1 /\ consecutive rest
  | _ => True
  end.

(** A map of timed activities keyed by the id of each activity. *)
Definition keyed_by_id (m : dict TimedActivity) : Prop :=
  forall k ta, dict_get m k = Some ta -> sched_id ta = k.

(** The ids of the activities of a timeline, day after day. *)
Definition scheduled_ids (l : list TimelineDay) : list string :=
  map sched_id (flat_map activities l).

Section Days.
Context {F : PyFloat}.
Variable ctx : TimelineGenerationContext.

(** The time from which the first activity of a day is placed: the start
    time of the context on day 1, the start of the daily window on a later
    day. *)
Definition opening (number : Z) (d : date) : datetime :=
  if number =? 1 then ctx_start_time ctx else day_start ctx d.

(** The first activity of a day starts one buffer-before after the opening
    of the day. *)
Definition first_start_ok (number : Z) (d : date) (l : list TimedActivity) : Prop :=
  match l with
  | [] => True
  | t :: _ => start_time t = opening number d + buffer_before t
  end.

(** An activity fits into the first day when placed at the start time. *)
Definition fits_first_day (t : TimedActivity) : Prop :=
  ctx_start_time ctx + footprint t
  <= get_daily_end_time ctx (day_start ctx (start_date ctx)).

(** What holds of every day the scheduler emits. *)
Record day_ok (d : TimelineDay) : Prop := mk_day_ok {
  do_nonempty : activities d <> [];
  do_number : 1 <= day_number d;
  do_date : day_date d = start_date ctx + (day_number d - 1);
  do_cost : day_estimated_cost d = cost_sum (activities d);
  do_timed : Forall well_timed (activities d);
  do_chain : chained (activities d);
  do_first : first_start_ok (day_number d) (day_date d) (activities d)
}.

(** The days of a state: those emitted, and the open one as the loop would
    emit it with [note]. *)
Definition open_day (st : sched_state) (note : string) : list TimelineDay :=
  if is_empty (daily_activities st) then []
  else [mkDay (cur_day_number st) (current_date st) (daily_activities st)
              (daily_cost st) [note] [] EmptyString].

Definition days_of (st : sched_state) (note : string) : list TimelineDay :=
  timeline_days st ++ open_day st note.

(** The first day is day 1 when its first activity fits into the first day
    and day 2 otherwise. *)
Definition first_day_rule (l : list TimelineDay) : Prop :=
  match l with
  | d :: _ =>
      match activities d with
      | t :: _ => (day_number d = 1 /\ fits_first_day t)
                  \/ (day_number d = 2 /\ ~ fits_first_day t)
      | [] => True
      end
  | [] => True
  end.

(** The invariant of the scheduling loop after the ids [done]. *)
Record sched_ok (activity_map : dict TimedActivity) (done : list string)
    (st : sched_state) : Prop := mk_sched_ok {
  so_days : forall d, In d (timeline_days st) -> day_ok d;
  so_number : 1 <= cur_day_number st;
  so_date : current_date st = start_date ctx + (cur_day_number st - 1);
  so_cost : daily_cost st = cost_sum (daily_activities st);
  so_timed : Forall well_timed (daily_activities st);
  so_chain : chained (daily_activities st);
  so_first_cur :
    first_start_ok (cur_day_number st) (current_date st) (daily_activities st);
  so_time : forall l t, daily_activities st = l ++ [t] ->
                        current_time st = end_time t + buffer_after t;
  so_fresh : daily_activities st = [] ->
             timeline_days st = [] /\ cur_day_number st = 1
             /\ current_time st = ctx_start_time ctx;
  so_numbers :
    consecutive (map day_number (timeline_days st) ++ [cur_day_number st]);
  so_first : forall note, first_day_rule (days_of st note);
  so_ids :
    map sched_id (flat_map activities (timeline_days st) ++ daily_activities st)
    = filter (dict_contains activity_map) done;
  so_origin :
    forall t, In t (flat_map activities (timeline_days st) ++ daily_activities st) ->
              exists k ta, dict_get activity_map k = Some ta /\ same_request t ta
}.
End Days.

(** The map [activity_map] of the scheduler. *)
Definition activity_map_of (timed_activities : list TimedActivity)
  : dict TimedActivity :=
  fold_left (fun m ta => dict_set m (id (ta_activity ta)) ta) timed_activities [].

(** The entry that [{ta.activity.id: ta for ta in timed_activities}] keeps
    under an id: the last one of the list that carries it. *)
Definition last_with_id (timed_activities : list TimedActivity) (k : string)
  : option TimedActivity :=
  find (fun ta => String.eqb k (sched_id ta)) (rev timed_activities).

(** The first activity of the first day. *)
Definition first_scheduled (l : list TimelineDay) : option TimedActivity :=
  match l with
  | d :: _ => hd_error (activities d)
  | [] => None
  end.

(** A request the scheduler can place without breaking the checks of
    [TimedActivity.validate] and [TimelineDay.validate]: the activity is
    valid and neither its setup and cleanup times nor its buffers are
    negative. *)
Definition schedulable (ta : TimedActivity) : Prop :=
  Activity_validate (ta_activity ta) = []
  /\ 0 <= setup_time (ta_activity ta) /\ 0 <= cleanup_time (ta_activity ta)
  /\ 0 <= buffer_before ta /\ 0 <= buffer_after ta.

(* ------------------------------------------------------------------ *)
(** * The timeline engine around the scheduler
      ([app/services/timeline_intelligence_engine.py]) *)

Inductive VenueType : Type :=
| INDOOR | OUTDOOR | HYBRID | HOME | BANQUET_HALL | HOTEL
| RESTAURANT | GARDEN | BEACH | TEMPLE | CHURCH | COMMUNITY_CENTER.

Inductive CulturalRequirement : Type :=
| HINDU | MUSLIM | CHRISTIAN | SIKH | BUDDHIST | JAIN | JEWISH | SECULAR | MIXED.

(** The float arithmetic of [calculate_activity_duration] that [PyFloat]
    does not have: [fadd x y] is [x + y], [fdiv x y] is [x / y] and
    [float_of_int n] the float an int is converted to in mixed
    arithmetic. *)
Class PyFloatArith (F : PyFloat) : Type := mkPyFloatArith {
  fadd : float -> float -> float;
  fdiv : float -> float -> float;
  float_of_int : Z -> float
}.

(** The three multipliers [_initialize_venue_adjustments] gives per venue. *)
Inductive venue_key : Type := setup_multiplier | logistics_multiplier | cleanup_multiplier.

(** [self.venue_adjustments.get(venue, {}).get(key, 1.0)] *)
Definition venue_adjustments (venue : VenueType) (key : venue_key) : Q :=
  match venue, key with
  | OUTDOOR, setup_multiplier => 15 # 10
  | OUTDOOR, logistics_multiplier => 13 # 10
  | OUTDOOR, cleanup_multiplier => 14 # 10
  | INDOOR, _ => 10 # 10
  | HYBRID, setup_multiplier => 13 # 10
  | HYBRID, logistics_multiplier => 12 # 10
  | HYBRID, cleanup_multiplier => 12 # 10
  | HOME, setup_multiplier => 8 # 10
  | HOME, logistics_multiplier => 9 # 10
  | HOME, cleanup_multiplier => 11 # 10
  | BANQUET_HALL, setup_multiplier => 11 # 10
  | BANQUET_HALL, logistics_multiplier => 10 # 10
  | BANQUET_HALL, cleanup_multiplier => 9 # 10
  | HOTEL, setup_multiplier => 9 # 10
  | HOTEL, logistics_multiplier => 8 # 10
  | HOTEL, cleanup_multiplier => 7 # 10
  | _, _ => 10 # 10
  end.

(** [duration_rules["guest_count_scaling"]["scaling_factors"]] *)
Definition scaling_factors (t : ActivityType) : Q :=
  match t with
  | CEREMONY => 3 # 10
  | CATERING => 5 # 10
  | PHOTOGRAPHY => 2 # 10
  | ENTERTAINMENT => 4 # 10
  | PREPARATION => 3 # 10
  | CLEANUP => 4 # 10
  | DECORATION => 2 # 10
  | TRANSPORTATION => 6 # 10
  | BREAK => 0 # 10
  | NETWORKING => 3 # 10
  end.

(** [duration_rules["priority_buffer_multipliers"]] *)
Definition priority_buffer_multipliers (p : Priority) : Q :=
  match p with
  | CRITICAL => 10 # 100
  | HIGH => 15 # 100
  | MEDIUM => 20 # 100
  | LOW => 25 # 100
  | OPTIONAL => 30 # 100
  end.

Module Engine.
(** [duration_rules["complexity_multipliers"]] of the engine *)
Definition complexity_multipliers (l : complexity_level) : Q :=
  match l with
  | low => 100 # 100
  | medium => 115 # 100
  | high => 130 # 100
  | very_high => 150 # 100
  end.

(** [TimelineIntelligenceEngine._get_complexity_level] *)
Definition _get_complexity_level {F : PyFloat} (complexity_score : float)
  : complexity_level :=
  if fle_int complexity_score 3 then low
  else if fle_int complexity_score 6 then medium
  else if fle_int complexity_score 8 then high
  else very_high.
End Engine.

Section EngineModel.
Context {F : PyFloat} {A : PyFloatArith F}.

Record ActivityDurationCalculation : Type := mkDurationCalc {
  base_duration : timedelta;
  guest_count_adjustment : float;
  venue_adjustment : float;
  complexity_adjustment : float;
  final_duration : timedelta;
  buffer_time : timedelta;
  total_time_needed : timedelta
}.

(** [calculate_activity_duration]; [venue_type] is [context.venue_type], a
    field the record [EventContext] does not carry. *)
Definition calculate_activity_duration (activity : Activity)
    (context : EventContext) (venue_type : VenueType)
  : ActivityDurationCalculation :=
  let base_duration := duration activity in
  let guest_scaling_factor := float_lit (scaling_factors (activity_type activity)) in
  let guest_adjustment :=
    if 100 <? guest_count context then
      let excess_guests := guest_count context - 100 in
      fadd (float_of_int 1)
           (fdiv (fmul (float_of_int excess_guests) guest_scaling_factor)
                 (float_of_int 1000))
    else float_lit (10 # 10) in
  let venue_adjustment :=
    float_lit
      (match activity_type activity with
       | PREPARATION => venue_adjustments venue_type setup_multiplier
       | CLEANUP => venue_adjustments venue_type cleanup_multiplier
       | _ => venue_adjustments venue_type logistics_multiplier
       end) in
  let complexity_level := Engine._get_complexity_level (complexity_score context) in
  let complexity_adjustment :=
    float_lit (Engine.complexity_multipliers complexity_level) in
  let total_adjustment :=
    fmul (fmul guest_adjustment venue_adjustment) complexity_adjustment in
  let final_duration :=
    timedelta_of_seconds (fmul (total_seconds base_duration) total_adjustment) in
  let buffer_multiplier := float_lit (priority_buffer_multipliers (priority activity)) in
  let buffer_time :=
    timedelta_of_seconds (fmul (total_seconds final_duration) buffer_multiplier) in
  let min_duration := minutes 15 in
  let max_duration := hours 8 in
  let final_duration := Z.max min_duration (Z.min final_duration max_duration) in
  let min_buffer := minutes 10 in
  let max_buffer := hours 1 in
  let buffer_time := Z.max min_buffer (Z.min buffer_time max_buffer) in
  let total_time_needed :=
    final_duration + buffer_time + setup_time activity + cleanup_time activity in
  mkDurationCalc base_duration guest_adjustment venue_adjustment
                 complexity_adjustment final_duration buffer_time total_time_needed.

(** [activity.duration = duration_calc.final_duration] *)
Definition set_duration (a : Activity) (d : timedelta) : Activity :=
  mkActivity (id a) (name a) (activity_type a) d (priority a) (description a)
             (required_vendors a) (estimated_cost a) (cultural_significance a)
             (setup_time a) (cleanup_time a).

(** [_calculate_activity_durations]; the activities of the list are taken to
    be distinct objects, as [_generate_activities] builds them. *)
Definition _calculate_activity_durations (activities : list Activity)
    (context : EventContext) (venue_type : VenueType) : list TimedActivity :=
  map (fun activity =>
         let duration_calc := calculate_activity_duration activity context venue_type in
         let activity := set_duration activity (final_duration duration_calc) in
         mkTimed activity datetime_min datetime_min (buffer_time duration_calc)
                 (minutes 15) [])
      activities.

(** [_calculate_total_buffer_time] *)
Definition _calculate_total_buffer_time (timed_activities : list TimedActivity)
  : timedelta :=
  fold_left (fun total_buffer ta => total_buffer + (buffer_before ta + buffer_after ta))
            timed_activities 0.

(** [base_durations.get(context.event_type.value, 1)] *)
Definition base_durations (t : EventType) : Z :=
  match t with
  | WEDDING => 3
  | BIRTHDAY => 1
  | ANNIVERSARY => 1
  | CORPORATE => 2
  | HOUSEWARMING => 1
  | GRADUATION => 1
  | ENGAGEMENT => 1
  | FESTIVAL => 2
  | CONFERENCE => 3
  | BABY_SHOWER => 1
  end.

(** [_calculate_base_duration]; [cultural_requirements] is the field of the
    context of that name. *)
Definition _calculate_base_duration (context : EventContext)
    (cultural_requirements : list CulturalRequirement) : Z :=
  let base_days := base_durations (event_type context) in
  let base_days := if 300 <? guest_count context then base_days + 1 else base_days in
  let base_days :=
    if (1 <? List.length cultural_requirements)%nat then base_days + 1 else base_days in
  if 0 <? duration_days context then Z.min (duration_days context) (base_days + 2)
  else base_days.

(** [_create_generation_context].  [preferences] is [None] or a dict; the two
    entries read from it, a datetime and a number of hours, are both
    integers here. *)
Definition _create_generation_context (context : EventContext)
    (cultural_requirements : list CulturalRequirement) (start_date : date)
    (preferences : option (dict Z)) : TimelineGenerationContext :=
  let start_time := combine start_date (hours 10) in
  let base_duration_days := _calculate_base_duration context cultural_requirements in
  let total_duration := days base_duration_days in
  let '(start_time, daily_hours) :=
    match preferences with
    | Some ((_ :: _) as prefs) =>
        (match dict_get prefs "start_time" with
         | Some t => t
         | None => start_time
         end,
         match dict_get prefs "daily_hours" with
         | Some h => h
         | None => 12
         end)
    | _ => (start_time, 12)
    end in
  mkGenContext context start_date start_time total_duration daily_hours
               (minutes 30) (hours 1).

(** [_create_and_analyze_dependencies]; [today] is [date.today()].  The
    graph returned is the one [calculate_critical_path] has filled in. *)
Definition _create_and_analyze_dependencies (timed_activities : list TimedActivity)
    (context : EventContext) (today : date) : result DependencyGraph :=
  let activities := map ta_activity timed_activities in
  dependency_graph <- create_dependency_graph activities ;;
  let start_time := combine today (hours 10) in
  dependency_graph <- calculate_critical_path dependency_graph start_time ;;
  validation_issues <- validate_timeline dependency_graph ;;
  Ok dependency_graph.

(** [_generate_fallback_timeline] *)
Definition _generate_fallback_timeline (context : EventContext) (start_date : date)
  : Timeline :=
  let basic_activity :=
    mkActivity "fallback_activity"
               ("Basic " +++ EventType_value (event_type context) +++ " Event")
               CEREMONY (hours 4) HIGH
               ("Basic " +++ EventType_value (event_type context) +++ " celebration")
               [] (5000 # 1)%Q EmptyString 0 0 in
  let timed_activity :=
    mkTimed basic_activity (combine start_date (hours 10))
            (combine start_date (hours 14)) (minutes 30) (minutes 30) [] in
  let timeline_day :=
    mkDay 1 start_date [timed_activity] (estimated_cost basic_activity)
          ["Fallback timeline generated due to errors"] [] EmptyString in
  mkTimeline [timeline_day] (days 1) [basic_activity] (hours 1) []
             (estimated_cost basic_activity).
End EngineModel.

(** A timeline over given days with a duration of one day and no
    dependency. *)
Definition one_day_timeline (l : list TimelineDay) : Timeline :=
  mkTimeline l (hours 24) [] 0 [] 0%Q.

(** An activity as [_calculate_activity_durations] can take it: id and name
    are not blank, the cost is not negative, and neither is the setup nor
    the cleanup time.  The duration is not constrained. *)
Definition well_described (a : Activity) : Prop :=
  str_is_empty (id a) || is_blank (id a) = false
  /\ str_is_empty (name a) || is_blank (name a) = false
  /\ Q_neg (estimated_cost a) = false
  /\ 0 <= setup_time a /\ 0 <= cleanup_time a.

(** [preferences.get(key)] with [None] for missing preferences. *)
Definition pref_get (preferences : option (dict Z)) (key : string) : option Z :=
  match preferences with
  | Some prefs => dict_get prefs key
  | None => None
  end.

Definition exact_arith : PyFloatArith exact_float :=
  @mkPyFloatArith exact_float Qplus Qdiv inject_Z.

Definition wedding_context : @EventContext exact_float :=
  @mkEventContext exact_float WEDDING 100 1 (5 # 1).

(* ------------------------------------------------------------------ *)
(** * Dictionaries and sets *)

Section DictFacts.
Variable V : Type.
Implicit Types (d : dict V) (k : string) (v : V).

Lemma dict_get_In d k v : dict_get d k = Some v -> In (k, v) d.
Proof.
  induction d as [|[k' v'] d IH]; simpl; [discriminate|].
  destruct (String.eqb_spec k k') as [->|Hne].
  - intros [= ->]. now left.
  - intros H. right. now apply IH.
Qed.

Lemma dict_get_keys d k v : dict_get d k = Some v -> In k (dict_keys d).
Proof.
  intros H. apply dict_get_In in H. unfold dict_keys.
  change k with (fst (k, v)). now apply in_map.
Qed.

Lemma dict_keys_get d k : In k (dict_keys d) -> exists v, dict_get d k = Some v.
Proof.
  induction d as [|[k' v'] d IH]; simpl; [tauto|].
  intros [Hk|Hk]; destruct (String.eqb_spec k k') as [->|Hne]; eauto.
  subst. congruence.
Qed.

Lemma dict_contains_In d k : dict_contains d k = true <-> In k (dict_keys d).
Proof.
  unfold dict_contains. split.
  - destruct (dict_get d k) eqn:E; [|discriminate]. intros _.
    eapply dict_get_keys; eauto.
  - intros H. apply dict_keys_get in H as [v ->]. reflexivity.
Qed.

Lemma dict_contains_false d k : dict_contains d k = false <-> ~ In k (dict_keys d).
Proof.
  rewrite <- dict_contains_In. destruct (dict_contains d k); split; congruence.
Qed.

Lemma dict_get_None d k : dict_get d k = None <-> ~ In k (dict_keys d).
Proof.
  rewrite <- dict_contains_false. unfold dict_contains.
  destruct (dict_get d k); split; congruence.
Qed.

Lemma dict_In_get d k v : NoDup (dict_keys d) -> In (k, v) d -> dict_get d k = Some v.
Proof.
  induction d as [|[k' v'] d IH]; simpl; [tauto|].
  intros Hnd [[= -> ->]|Hin].
  - now rewrite String.eqb_refl.
  - inversion Hnd as [|? ? Hk Hnd']; subst.
    destruct (String.eqb_spec k k') as [->|Hne]; [|now apply IH].
    exfalso. apply Hk. unfold dict_keys. change k' with (fst (k', v)).
    now apply in_map.
Qed.

Lemma dict_update_keys d k (f : V -> V) : dict_keys (dict_update d k f) = dict_keys d.
Proof.
  induction d as [|[k' v'] d IH]; simpl; [reflexivity|].
  destruct (String.eqb k k'); simpl; [reflexivity|]. now f_equal.
Qed.

Lemma dict_update_length d k (f : V -> V) :
  List.length (dict_update d k f) = List.length d.
Proof.
  rewrite <- (length_map fst (dict_update d k f)), <- (length_map fst d).
  f_equal. apply dict_update_keys.
Qed.

Lemma dict_get_update d k (f : V -> V) k' :
  dict_get (dict_update d k f) k' =
  if String.eqb k' k then option_map f (dict_get d k) else dict_get d k'.
Proof.
  induction d as [|[k0 v0] d IH]; simpl.
  - now destruct (String.eqb k' k).
  - destruct (String.eqb_spec k k0) as [->|Hne]; simpl.
    + destruct (String.eqb_spec k' k0) as [E|Hne']; reflexivity.
    + destruct (String.eqb_spec k' k0) as [E|Hne'].
      * subst k'. destruct (String.eqb_spec k0 k); [congruence|reflexivity].
      * apply IH.
Qed.

Lemma dict_get_update_eq d k (f : V -> V) :
  dict_get (dict_update d k f) k = option_map f (dict_get d k).
Proof. now rewrite dict_get_update, String.eqb_refl. Qed.

Lemma dict_get_update_ne d k (f : V -> V) k' :
  k' <> k -> dict_get (dict_update d k f) k' = dict_get d k'.
Proof.
  intros H. rewrite dict_get_update.
  now destruct (String.eqb_spec k' k).
Qed.

Lemma dict_get_set d k v k' :
  dict_get (dict_set d k v) k' = if String.eqb k' k then Some v else dict_get d k'.
Proof.
  induction d as [|[k0 v0] d IH]; simpl.
  - reflexivity.
  - destruct (String.eqb_spec k k0) as [->|Hne]; simpl.
    + destruct (String.eqb_spec k' k0); reflexivity.
    + destruct (String.eqb_spec k' k0) as [E|Hne'].
      * subst k'. destruct (String.eqb_spec k0 k); [congruence|reflexivity].
      * apply IH.
Qed.

Lemma dict_set_present d k v :
  In k (dict_keys d) -> dict_keys (dict_set d k v) = dict_keys d.
Proof.
  induction d as [|[k0 v0] d IH]; simpl; [tauto|].
  destruct (String.eqb_spec k k0) as [->|Hne]; simpl; [reflexivity|].
  intros [?|Hin]; [congruence|]. f_equal. now apply IH.
Qed.

Lemma dict_set_absent d k v :
  ~ In k (dict_keys d) -> dict_set d k v = d ++ [(k, v)].
Proof.
  induction d as [|[k0 v0] d IH]; simpl; [reflexivity|].
  intros Hn. destruct (String.eqb_spec k k0) as [->|Hne]; [tauto|].
  f_equal. apply IH. tauto.
Qed.
End DictFacts.

Lemma set_mem_In x s : set_mem x s = true <-> In x s.
Proof.
  unfold set_mem. rewrite existsb_exists. split.
  - intros (y & Hy & E). apply String.eqb_eq in E. now subst.
  - intros H. exists x. split; [assumption|apply String.eqb_refl].
Qed.

Lemma set_add_In x y s : In x (set_add y s) <-> x = y \/ In x s.
Proof.
  unfold set_add. destruct (set_mem y s) eqn:E.
  - apply set_mem_In in E. split; [tauto|]. intros [->|]; assumption.
  - rewrite in_app_iff. simpl. split; [intros [|[|[]]]; auto|intros [|]; auto].
Qed.

Lemma set_add_NoDup y s : NoDup s -> NoDup (set_add y s).
Proof.
  intros H. unfold set_add. destruct (set_mem y s) eqn:E; [assumption|].
  assert (~ In y s) by (rewrite <- set_mem_In; congruence).
  apply NoDup_app; [assumption|apply NoDup_cons; [simpl; tauto|constructor]|].
  intros a Ha [<-|[]]. tauto.
Qed.

Lemma set_add_member y s : In y s -> set_add y s = s.
Proof.
  intros H. unfold set_add. apply set_mem_In in H. now rewrite H.
Qed.

Lemma str_in_list_In x l : str_in_list x l = true <-> In x l.
Proof. apply set_mem_In. Qed.

Lemma str_is_empty_iff s : str_is_empty s = true <-> s = EmptyString.
Proof. destruct s; simpl; split; congruence. Qed.

Lemma is_empty_iff (A : Type) (l : list A) : is_empty l = true <-> l = [].
Proof. destruct l; simpl; split; congruence. Qed.

(* ------------------------------------------------------------------ *)
(** * Building the graph *)

Lemma add_activity_present g a :
  In (id a) (node_ids g) -> add_activity g a = g.
Proof.
  intros H. unfold add_activity.
  apply dict_contains_In in H. now rewrite H.
Qed.

Lemma add_activity_absent g a :
  ~ In (id a) (node_ids g) ->
  add_activity g a = set_nodes g (nodes g ++ [(id a, new_node a)]).
Proof.
  intros H. unfold add_activity.
  pose proof H as H'. apply dict_contains_false in H'. rewrite H'.
  now rewrite dict_set_absent.
Qed.

Lemma add_activity_ids g a : In (id a) (node_ids (add_activity g a)).
Proof.
  destruct (in_dec string_dec (id a) (node_ids g)) as [H|H].
  - now rewrite add_activity_present.
  - rewrite add_activity_absent by assumption.
    unfold node_ids, dict_keys. simpl. rewrite map_app, in_app_iff. simpl. auto.
Qed.

(** C6, as the code has it: [add_activity] never raises and checks no field;
    it appends a fresh node when the id is new and changes nothing when the id
    is already a key, so that a repeated call, with the same activity or any
    other of the same id, has no effect. *)
Theorem add_activity_insert_if_absent (g : DependencyGraph) (a a' : Activity) :
  id a' = id a ->
  add_activity g a =
    (if dict_contains (nodes g) (id a) then g
     else mkGraph (nodes g ++ [(id a, new_node a)]) (dependencies g)
                  (critical_path g) (total_duration g))
  /\ add_activity (add_activity g a) a' = add_activity g a.
Proof.
  intros Hid. split.
  - destruct (dict_contains (nodes g) (id a)) eqn:E.
    + apply add_activity_present. now apply dict_contains_In.
    + apply add_activity_absent. now apply dict_contains_false.
  - apply add_activity_present. rewrite Hid. apply add_activity_ids.
Qed.

Lemma add_activity_insert_if_absent_witness :
  add_activity empty_graph act_x =
    mkGraph [("x", new_node act_x)] [] [] 0
  /\ add_activity (add_activity empty_graph act_x) act_x_longer
     = add_activity empty_graph act_x.
Proof.
  exact (add_activity_insert_if_absent empty_graph act_x act_x_longer eq_refl).
Defined.

(** C6 as stated fails: an activity that violates every field invariant is
    stored without an error, and an activity whose id is already a key does
    not replace the stored one. *)
Lemma add_activity_accepts_invalid :
  List.length (Activity_validate bad_activity) = 4%nat
  /\ nodes (add_activity empty_graph bad_activity)
     = [(EmptyString, new_node bad_activity)]
  /\ act_x_longer <> act_x
  /\ option_map activity
       (dict_get (nodes (add_activity (add_activity empty_graph act_x) act_x_longer)) "x")
     = Some act_x.
Proof.
  repeat split; try reflexivity. discriminate.
Qed.

Lemma Dependency_validate_nil d :
  Dependency_validate d = [] <->
  predecessor_id d <> EmptyString /\ successor_id d <> EmptyString
  /\ predecessor_id d <> successor_id d
  /\ In (dependency_type d) dependency_types.
Proof.
  unfold Dependency_validate.
  rewrite <- str_in_list_In.
  destruct (str_is_empty (predecessor_id d)) eqn:E1;
    destruct (str_is_empty (successor_id d)) eqn:E2;
    destruct (String.eqb_spec (predecessor_id d) (successor_id d)) as [E3|E3];
    destruct (str_in_list (dependency_type d) dependency_types) eqn:E4;
    simpl;
    try apply str_is_empty_iff in E1; try apply str_is_empty_iff in E2;
    (split; [try discriminate|]);
    try (intros (H1 & H2 & H3 & H4); congruence).
  intros _. repeat split; try assumption.
  - intros H. apply str_is_empty_iff in H. congruence.
  - intros H. apply str_is_empty_iff in H. congruence.
Qed.

Lemma add_dependency_cases g d :
  (rejected g d /\ exists msg, add_dependency g d = Raise (ValueError msg))
  \/ (~ rejected g d
      /\ add_dependency g d
         = Ok (mkGraph (link (nodes g) d) (dependencies g ++ [d])
                       (critical_path g) (total_duration g))).
Proof.
  unfold add_dependency, rejected, node_ids.
  destruct (Dependency_validate d) as [|e es] eqn:Ev.
  - apply Dependency_validate_nil in Ev as (H1 & H2 & H3 & H4). simpl.
    destruct (dict_contains (nodes g) (predecessor_id d)) eqn:Ep; simpl.
    + destruct (dict_contains (nodes g) (successor_id d)) eqn:Es; simpl.
      * right. apply dict_contains_In in Ep, Es. split; [|reflexivity].
        intros [H|[H|[H|[H|[H|H]]]]]; auto.
      * left. apply dict_contains_false in Es. split; [auto 7|eauto].
    + left. apply dict_contains_false in Ep. split; [auto 7|eauto].
  - cbn [is_empty negb]. left. split; [|eauto].
    assert (Hn : Dependency_validate d <> []) by congruence.
    rewrite Dependency_validate_nil in Hn.
    destruct (string_dec (predecessor_id d) EmptyString); [tauto|].
    destruct (string_dec (successor_id d) EmptyString); [tauto|].
    destruct (string_dec (predecessor_id d) (successor_id d)); [tauto|].
    destruct (in_dec string_dec (dependency_type d) dependency_types); tauto.
Qed.

Lemma link_keys ns d : dict_keys (link ns d) = dict_keys ns.
Proof. unfold link. now rewrite !dict_update_keys. Qed.

Lemma link_get ns d k :
  dict_get (link ns d) k =
  option_map
    (fun n =>
       mkNode (activity n)
         (if String.eqb k (successor_id d)
          then set_add (predecessor_id d) (predecessors n) else predecessors n)
         (if String.eqb k (predecessor_id d)
          then set_add (successor_id d) (successors n) else successors n)
         (earliest_start n) (earliest_finish n) (latest_start n) (latest_finish n)
         (slack n) (is_critical n))
    (dict_get ns k).
Proof.
  unfold link. rewrite dict_get_update.
  destruct (String.eqb_spec k (successor_id d)) as [E|E].
  - subst k. rewrite dict_get_update.
    destruct (String.eqb_spec (successor_id d) (predecessor_id d)) as [E2|E2];
      [rewrite <- E2|];
      destruct (dict_get ns (successor_id d)) as [[]|]; reflexivity.
  - rewrite dict_get_update.
    destruct (String.eqb_spec k (predecessor_id d)) as [E'|E'].
    + subst k. destruct (dict_get ns _) as [[]|]; reflexivity.
    + destruct (dict_get ns k) as [[]|]; reflexivity.
Qed.

(** C7, as the code has it: [add_dependency] raises (a [ValueError]) exactly
    when an id is empty, the two ids are equal, the type is not one of the four
    kinds, or an id is not a node; otherwise it returns, the edge is appended
    to the dependency list, the successor id is added to the successor set of
    the predecessor node and the predecessor id to the predecessor set of the
    successor node, and nothing else changes. *)
Theorem add_dependency_spec (g : DependencyGraph) (d : Dependency) :
  ((exists msg, add_dependency g d = Raise (ValueError msg)) <-> rejected g d)
  /\ ((exists g', add_dependency g d = Ok g') <-> ~ rejected g d)
  /\ (forall g', add_dependency g d = Ok g' ->
        dependencies g' = dependencies g ++ [d]
        /\ node_ids g' = node_ids g
        /\ critical_path g' = critical_path g
        /\ total_duration g' = total_duration g
        /\ forall k n, dict_get (nodes g) k = Some n ->
             exists n', dict_get (nodes g') k = Some n'
               /\ (forall x, In x (successors n') <->
                             In x (successors n)
                             \/ (k = predecessor_id d /\ x = successor_id d))
               /\ (forall x, In x (predecessors n') <->
                             In x (predecessors n)
                             \/ (k = successor_id d /\ x = predecessor_id d))
               /\ set_successors (set_predecessors n' (predecessors n)) (successors n)
                  = n).
Proof.
  destruct (add_dependency_cases g d) as [(Hr & msg & E)|(Hr & E)]; rewrite E.
  - split; [|split].
    + split; [intros _; assumption|intros _; eauto].
    + split; [intros (g' & H); discriminate|tauto].
    + intros g' H. discriminate.
  - split; [|split].
    + split; [intros (msg & H); discriminate|tauto].
    + split; [intros _; assumption|intros _; eauto].
    + intros g' [= <-]. simpl. repeat split.
      * unfold node_ids. simpl. apply link_keys.
      * intros k n Hk. rewrite link_get, Hk. simpl. eexists. split; [reflexivity|].
        simpl. repeat split.
        -- destruct (String.eqb_spec k (predecessor_id d)) as [Ek|Ek].
           ++ rewrite set_add_In. intros [->|H]; auto.
           ++ auto.
        -- destruct (String.eqb_spec k (predecessor_id d)) as [Ek|Ek].
           ++ rewrite set_add_In. intros [H|(_ & ->)]; auto.
           ++ intros [H|(H & _)]; [assumption|contradiction].
        -- destruct (String.eqb_spec k (successor_id d)) as [Ek|Ek].
           ++ rewrite set_add_In. intros [->|H]; auto.
           ++ auto.
        -- destruct (String.eqb_spec k (successor_id d)) as [Ek|Ek].
           ++ rewrite set_add_In. intros [H|(_ & ->)]; auto.
           ++ intros [H|(H & _)]; [assumption|contradiction].
        -- destruct n; reflexivity.
Qed.

(** C7 as stated fails: both ids are nodes and differ and the type is one of
    the four kinds, yet the edge is refused, because the predecessor id is the
    empty string. *)
Lemma add_dependency_rejects_empty_id :
  let d := mkDependency EmptyString "y" "finish_to_start" 0 in
  In (predecessor_id d) (node_ids g_empty_id)
  /\ In (successor_id d) (node_ids g_empty_id)
  /\ predecessor_id d <> successor_id d
  /\ In (dependency_type d) dependency_types
  /\ add_dependency g_empty_id d
     = Raise (ValueError "Invalid dependency: Predecessor ID is required").
Proof.
  simpl. repeat split; auto. discriminate.
Qed.

(* ------------------------------------------------------------------ *)
(** * The builder maintains [wf_graph] *)

Lemma dict_get_app (V : Type) (d1 d2 : dict V) k :
  dict_get (d1 ++ d2) k =
  match dict_get d1 k with
  | Some v => Some v
  | None => dict_get d2 k
  end.
Proof.
  induction d1 as [|[k' v'] d1 IH]; simpl; [reflexivity|].
  destruct (String.eqb k k'); [reflexivity|apply IH].
Qed.

Lemma wf_empty_graph : wf_graph empty_graph.
Proof.
  constructor; simpl; try discriminate; try tauto.
  constructor.
Qed.

Lemma dep_edge_ids g u v :
  wf_graph g -> dep_edge g u v -> In u (node_ids g) /\ In v (node_ids g).
Proof.
  intros Hwf (d & Hd & <- & <-). now apply wf_deps.
Qed.

Lemma wf_add_activity g a : wf_graph g -> wf_graph (add_activity g a).
Proof.
  intros Hwf.
  destruct (in_dec string_dec (id a) (node_ids g)) as [Hin|Hout].
  - now rewrite add_activity_present.
  - rewrite add_activity_absent by assumption.
    assert (Hget : forall k n,
               dict_get (nodes g ++ [(id a, new_node a)]) k = Some n ->
               dict_get (nodes g) k = Some n
               \/ (k = id a /\ n = new_node a /\ ~ In k (node_ids g))).
    { intros k n. rewrite dict_get_app.
      destruct (dict_get (nodes g) k) eqn:E; [auto|].
      simpl. destruct (String.eqb_spec k (id a)); [|discriminate].
      intros [= <-]. right. subst. auto. }
    constructor; unfold node_ids, dep_edge in *; simpl.
    + unfold dict_keys. rewrite map_app. simpl.
      apply NoDup_app; [apply Hwf|repeat constructor; simpl; tauto|].
      intros x Hx [<-|[]]. contradiction.
    + intros k n H. apply Hget in H as [H|(_ & -> & _)].
      * eapply wf_preds_nodup; eauto.
      * constructor.
    + intros k n H. apply Hget in H as [H|(_ & -> & _)].
      * eapply wf_succs_nodup; eauto.
      * constructor.
    + intros u n v H. apply Hget in H as [H|(-> & -> & Hn)].
      * eapply wf_succs; eauto.
      * simpl. split; [tauto|]. intros He.
        apply (dep_edge_ids Hwf) in He. tauto.
    + intros v n u H. apply Hget in H as [H|(-> & -> & Hn)].
      * eapply wf_preds; eauto.
      * simpl. split; [tauto|]. intros He.
        apply (dep_edge_ids Hwf) in He. tauto.
    + intros d Hd. apply (wf_deps Hwf) in Hd.
      unfold node_ids, dict_keys in *. rewrite map_app, !in_app_iff. tauto.
Qed.

Lemma wf_add_dependency g d g' :
  wf_graph g -> add_dependency g d = Ok g' -> wf_graph g'.
Proof.
  intros Hwf E.
  destruct (add_dependency_cases g d) as [(_ & msg & E')|(Hr & E')];
    rewrite E' in E; [discriminate|].
  injection E as <-.
  assert (Hp : In (predecessor_id d) (node_ids g)).
  { destruct (in_dec string_dec (predecessor_id d) (node_ids g)); [assumption|].
    exfalso. apply Hr. unfold rejected. tauto. }
  assert (Hs : In (successor_id d) (node_ids g)).
  { destruct (in_dec string_dec (successor_id d) (node_ids g)); [assumption|].
    exfalso. apply Hr. unfold rejected. tauto. }
  assert (Hedge : forall u v,
             dep_edge (mkGraph (link (nodes g) d) (dependencies g ++ [d])
                               (critical_path g) (total_duration g)) u v
             <-> dep_edge g u v \/ (u = predecessor_id d /\ v = successor_id d)).
  { intros u v. unfold dep_edge. simpl. split.
    - intros (d0 & Hd0 & <- & <-). apply in_app_iff in Hd0 as [H|[<-|[]]]; eauto.
    - intros [(d0 & Hd0 & <- & <-)|(-> & ->)].
      + exists d0. rewrite in_app_iff. auto.
      + exists d. rewrite in_app_iff. simpl. auto. }
  constructor; unfold node_ids; simpl.
  - rewrite link_keys. apply Hwf.
  - intros k n. rewrite link_get.
    destruct (dict_get (nodes g) k) as [n0|] eqn:E0; [|discriminate].
    intros [= <-]. simpl.
    pose proof (wf_preds_nodup Hwf _ E0).
    destruct (String.eqb k (successor_id d)); [now apply set_add_NoDup|assumption].
  - intros k n. rewrite link_get.
    destruct (dict_get (nodes g) k) as [n0|] eqn:E0; [|discriminate].
    intros [= <-]. simpl.
    pose proof (wf_succs_nodup Hwf _ E0).
    destruct (String.eqb k (predecessor_id d)); [now apply set_add_NoDup|assumption].
  - intros u n v. rewrite link_get.
    destruct (dict_get (nodes g) u) as [n0|] eqn:E0; [|discriminate].
    intros [= <-]. simpl. rewrite Hedge, <- (wf_succs Hwf _ _ E0).
    destruct (String.eqb_spec u (predecessor_id d)) as [Eu|Eu].
    + rewrite set_add_In. intuition.
    + intuition.
  - intros v n u. rewrite link_get.
    destruct (dict_get (nodes g) v) as [n0|] eqn:E0; [|discriminate].
    intros [= <-]. simpl. rewrite Hedge, <- (wf_preds Hwf _ _ E0).
    destruct (String.eqb_spec v (successor_id d)) as [Ev|Ev].
    + rewrite set_add_In. intuition.
    + intuition.
  - intros d0 Hd0. rewrite link_keys.
    apply in_app_iff in Hd0 as [H|[<-|[]]]; [now apply (wf_deps Hwf)|].
    split; assumption.
Qed.

Lemma wf_add_dependencies ds : forall g g',
  wf_graph g -> add_dependencies g ds = Ok g' -> wf_graph g'.
Proof.
  induction ds as [|d ds IH]; simpl; intros g g' Hwf E.
  - now injection E as <-.
  - destruct (add_dependency g d) as [g1|e] eqn:E1; simpl in E; [|discriminate].
    eapply IH; [|eassumption]. eapply wf_add_dependency; eauto.
Qed.

Lemma wf_fold_add_activity l : forall g,
  wf_graph g -> wf_graph (fold_left add_activity l g).
Proof.
  induction l as [|a l IH]; simpl; intros g Hwf; [assumption|].
  apply IH. now apply wf_add_activity.
Qed.

(** Every graph the builder returns satisfies the invariant. *)
Lemma create_dependency_graph_wf activities g :
  create_dependency_graph activities = Ok g -> wf_graph g.
Proof.
  unfold create_dependency_graph. apply wf_add_dependencies.
  apply wf_fold_add_activity, wf_empty_graph.
Qed.

Lemma wf_adjacency g : wf_graph g -> adjacency_ok (nodes g).
Proof.
  intros Hwf.
  assert (Hs : forall u v, In v (succs_of (nodes g) u) <-> dep_edge g u v).
  { intros u v. unfold succs_of.
    destruct (dict_get (nodes g) u) as [n|] eqn:E.
    - now apply (wf_succs Hwf).
    - split; [intros []|]. intros He. apply (dep_edge_ids Hwf) in He as [Hu _].
      apply dict_get_None in E. contradiction. }
  assert (Hp : forall u v, In u (preds_of (nodes g) v) <-> dep_edge g u v).
  { intros u v. unfold preds_of.
    destruct (dict_get (nodes g) v) as [n|] eqn:E.
    - now apply (wf_preds Hwf).
    - split; [intros []|]. intros He. apply (dep_edge_ids Hwf) in He as [_ Hv].
      apply dict_get_None in E. contradiction. }
  constructor.
  - apply Hwf.
  - intros u. unfold succs_of. destruct (dict_get (nodes g) u) eqn:E.
    + eapply wf_succs_nodup; eauto.
    + constructor.
  - intros v. unfold preds_of. destruct (dict_get (nodes g) v) eqn:E.
    + eapply wf_preds_nodup; eauto.
    + constructor.
  - intros u v. now rewrite Hs, Hp.
  - intros u v H. apply Hs in H. now apply (dep_edge_ids Hwf).
Qed.

Lemma wf_succ_edge g u v : wf_graph g -> (succ_edge (nodes g) u v <-> dep_edge g u v).
Proof.
  intros Hwf. unfold succ_edge, succs_of.
  destruct (dict_get (nodes g) u) as [n|] eqn:E.
  - now apply (wf_succs Hwf).
  - split; [intros []|]. intros He. apply (dep_edge_ids Hwf) in He as [Hu _].
    apply dict_get_None in E. contradiction.
Qed.

Lemma wf_pred_edge g u v : wf_graph g -> (In u (preds_of (nodes g) v) <-> dep_edge g u v).
Proof.
  intros Hwf. rewrite <- (adj_mirror (wf_adjacency Hwf)).
  now apply wf_succ_edge.
Qed.

(* ------------------------------------------------------------------ *)
(** * [has_cycle]: the search returns, and a reported cycle exists *)

Lemma whites_set_le c k col :
  col <> WHITE -> (whites (dict_set c k col) <= whites c)%nat.
Proof.
  intros Hc. unfold whites.
  induction c as [|[k' c'] c IH]; simpl.
  - destruct col; simpl; [congruence|lia|lia].
  - destruct (String.eqb k k'); simpl.
    + destruct col; [congruence| |]; simpl; destruct (is_white c'); simpl; lia.
    + destruct (is_white c'); simpl; lia.
Qed.

Lemma whites_set_gray c k :
  dict_get c k = Some WHITE -> S (whites (dict_set c k GRAY)) = whites c.
Proof.
  unfold whites.
  induction c as [|[k' c'] c IH]; simpl; [discriminate|].
  destruct (String.eqb k k'); simpl.
  - intros [= ->]. reflexivity.
  - intros H. destruct (is_white c'); simpl; rewrite <- (IH H); reflexivity.
Qed.

Lemma whites_initial ns : whites (initial_colors ns) = List.length ns.
Proof.
  unfold whites, initial_colors.
  induction ns as [|kv ns IH]; simpl; [reflexivity|]. now rewrite IH.
Qed.

Lemma initial_colors_keys ns : dict_keys (initial_colors ns) = dict_keys ns.
Proof.
  unfold initial_colors, dict_keys. rewrite map_map. reflexivity.
Qed.

Lemma initial_colors_get ns k c :
  dict_get (initial_colors ns) k = Some c -> c = WHITE.
Proof.
  unfold initial_colors.
  induction ns as [|[k' n] ns IH]; simpl; [discriminate|].
  destruct (String.eqb k k'); [congruence|assumption].
Qed.

Section Search.
Variable ns : dict DependencyNode.

Hypothesis closed : forall u v, In v (succs_of ns u) -> In v (dict_keys ns).

Lemma dfs_children_total fuel :
  dfs_returns ns fuel ->
  forall succs c,
    (forall s, In s succs -> In s (dict_keys ns)) ->
    dict_keys c = dict_keys ns -> (whites c < fuel)%nat ->
    exists b c', dfs_children (dfs fuel ns) succs c = Ok (b, c')
                 /\ dict_keys c' = dict_keys ns /\ (whites c' <= whites c)%nat.
Proof.
  intros Hdfs. induction succs as [|s succs IH]; intros c Hin Hk Hw; simpl.
  - exists false, c. auto.
  - destruct (Hdfs c s Hk (Hin s (or_introl eq_refl)) Hw) as (b & c1 & E & Hk1 & Hw1).
    rewrite E. simpl. destruct b.
    + exists true, c1. auto.
    + destruct (IH c1) as (b & c2 & E2 & Hk2 & Hw2); auto; [simpl in Hin; auto|lia|].
      exists b, c2. repeat split; auto. lia.
Qed.

Lemma dfs_total fuel : dfs_returns ns fuel.
Proof.
  induction fuel as [|fuel IH]; intros c v Hk Hv Hw; [lia|].
  simpl. unfold dict_lookup.
  destruct (dict_keys_get c v) as [col Ec]; [now rewrite Hk|].
  rewrite Ec. simpl. destruct col.
  - destruct (dict_keys_get ns v Hv) as [n En]. rewrite En. simpl.
    pose proof (whites_set_gray c v Ec) as Hg.
    assert (Hk1 : dict_keys (dict_set c v GRAY) = dict_keys ns).
    { rewrite dict_set_present; [assumption|now rewrite Hk]. }
    destruct (dfs_children_total IH (successors n) (dict_set c v GRAY))
      as (b & c2 & E2 & Hk2 & Hw2); auto; [|lia|].
    { intros s Hs. apply (closed v). unfold succs_of. now rewrite En. }
    rewrite E2. simpl. destruct b.
    + exists true, c2. repeat split; auto. lia.
    + exists false, (dict_set c2 v BLACK). repeat split.
      * rewrite dict_set_present; [assumption|now rewrite Hk2].
      * pose proof (whites_set_le c2 v (col := BLACK)) as Hb.
        assert (BLACK <> WHITE) by discriminate. specialize (Hb H). lia.
  - exists true, c. auto.
  - exists false, c. auto.
Qed.

Lemma has_cycle_loop_total fuel ids : forall c,
  (forall k, In k ids -> In k (dict_keys ns)) ->
  dict_keys c = dict_keys ns -> (whites c < fuel)%nat ->
  exists b, has_cycle_loop fuel ns ids c = Ok b.
Proof.
  induction ids as [|k ids IH]; intros c Hin Hk Hw; simpl; [eauto|].
  unfold dict_lookup.
  destruct (dict_keys_get c k) as [col Ec]; [rewrite Hk; apply Hin; now left|].
  rewrite Ec. simpl.
  assert (Hin' : forall k0, In k0 ids -> In k0 (dict_keys ns)) by (simpl in Hin; auto).
  destruct col; [|apply IH; auto|apply IH; auto].
  destruct (dfs_total c k Hk (Hin k (or_introl eq_refl)) Hw) as (b & c1 & E & Hk1 & Hw1).
  rewrite E. simpl. destruct b; [eauto|]. apply IH; auto. lia.
Qed.

(** Soundness: with every gray node on a path to the node entered, a
    positive answer exhibits a cycle, and a negative one leaves the gray
    nodes as they were. *)
Lemma dfs_children_sound fuel :
  dfs_sound_at ns fuel ->
  forall succs c b c',
    dfs_children (dfs fuel ns) succs c = Ok (b, c') ->
    (forall s u, In s succs -> gray c u -> clos_trans string (succ_edge ns) u s) ->
    (b = true -> exists x, clos_trans string (succ_edge ns) x x)
    /\ (b = false -> forall u, gray c' u <-> gray c u).
Proof.
  intros Hdfs. induction succs as [|s succs IH]; intros c b c' E Hg; simpl in E.
  - injection E as <- <-. split; [discriminate|tauto].
  - destruct (dfs fuel ns c s) as [[b1 c1]|e] eqn:E1; simpl in E; [|discriminate].
    destruct (Hdfs _ _ _ _ E1) as [Ht Hf].
    { intros u Hu. apply (Hg s u); simpl; auto. }
    destruct b1.
    + injection E as <- <-. split; [auto|discriminate].
    + specialize (Hf eq_refl).
      destruct (IH _ _ _ E) as [Ht2 Hf2].
      { intros s' u Hs' Hu. apply (Hg s' u); simpl; auto. now apply Hf. }
      split; [assumption|]. intros Hb u. rewrite (Hf2 Hb u). apply Hf.
Qed.

Lemma dfs_sound fuel : dfs_sound_at ns fuel.
Proof.
  induction fuel as [|fuel IH]; intros c v b c' E Hg; simpl in E; [discriminate|].
  unfold dict_lookup in E.
  destruct (dict_get c v) as [col|] eqn:Ec; simpl in E; [|discriminate].
  destruct col.
  - destruct (dict_get ns v) as [n|] eqn:En; simpl in E; [|discriminate].
    destruct (dfs_children (dfs fuel ns) (successors n) (dict_set c v GRAY))
      as [[b2 c2]|e] eqn:E2; simpl in E; [|discriminate].
    assert (Hgray1 : forall u, gray (dict_set c v GRAY) u <-> u = v \/ gray c u).
    { intros u. unfold gray. rewrite dict_get_set.
      destruct (String.eqb_spec u v) as [->|Hne].
      - split; auto.
      - split; [auto|intros [?|?]; [contradiction|assumption]]. }
    destruct (@dfs_children_sound fuel IH _ _ _ _ E2) as [Ht Hf].
    { intros s u Hs Hu. apply Hgray1 in Hu as [->|Hu].
      - apply t_step. unfold succ_edge, succs_of. now rewrite En.
      - eapply t_trans; [apply Hg, Hu|].
        apply t_step. unfold succ_edge, succs_of. now rewrite En. }
    destruct b2; injection E as <- <-.
    + split; [assumption|discriminate].
    + split; [discriminate|]. intros _ u. specialize (Hf eq_refl u).
      unfold gray in *. rewrite dict_get_set.
      destruct (String.eqb_spec u v) as [->|Hne].
      * rewrite Ec. split; discriminate.
      * rewrite Hf. rewrite dict_get_set.
        destruct (String.eqb_spec u v); [contradiction|tauto].
  - injection E as <- <-. split; [|discriminate].
    intros _. exists v. apply Hg. exact Ec.
  - injection E as <- <-. split; [discriminate|tauto].
Qed.

Lemma has_cycle_loop_sound fuel ids : forall c,
  (forall u, ~ gray c u) ->
  has_cycle_loop fuel ns ids c = Ok true ->
  exists x, clos_trans string (succ_edge ns) x x.
Proof.
  induction ids as [|k ids IH]; intros c Hng E; simpl in E; [discriminate|].
  unfold dict_lookup in E.
  destruct (dict_get c k) as [col|] eqn:Ec; simpl in E; [|discriminate].
  destruct col; [|eapply IH; eauto|eapply IH; eauto].
  destruct (dfs fuel ns c k) as [[b1 c1]|e] eqn:E1; simpl in E; [|discriminate].
  destruct (@dfs_sound fuel c k _ _ E1) as [Ht Hf].
  { intros u Hu. now apply Hng in Hu. }
  destruct b1; [auto|].
  apply (IH c1); [|assumption].
  intros u Hu. apply (Hf eq_refl) in Hu. now apply Hng in Hu.
Qed.
End Search.

Lemma has_cycle_total g :
  adjacency_ok (nodes g) -> exists b, has_cycle g = Ok b.
Proof.
  intros Hadj. unfold has_cycle.
  apply has_cycle_loop_total.
  - intros u v H. now apply (adj_closed Hadj) in H.
  - auto.
  - apply initial_colors_keys.
  - rewrite whites_initial. lia.
Qed.

Lemma has_cycle_sound g :
  has_cycle g = Ok true -> exists x, clos_trans string (succ_edge (nodes g)) x x.
Proof.
  unfold has_cycle. apply has_cycle_loop_sound.
  intros u Hu. apply initial_colors_get in Hu. discriminate.
Qed.

(* ------------------------------------------------------------------ *)
(** * Finite relations without a minimal element have a cycle *)

Lemma nodup_or_dup (l : list string) :
  NoDup l \/ exists x l1 l2 l3, l = l1 ++ x :: l2 ++ x :: l3.
Proof.
  induction l as [|a l [IH|(x & l1 & l2 & l3 & ->)]].
  - left. constructor.
  - destruct (in_dec string_dec a l) as [Hin|Hout].
    + right. apply in_split in Hin as (l2 & l3 & ->).
      exists a, [], l2, l3. reflexivity.
    + left. now constructor.
  - right. exists x, (a :: l1), l2, l3. reflexivity.
Qed.

Lemma rpath_app R l1 x l2 v :
  rpath R (l1 ++ x :: l2) v -> rpath R l2 x /\ clos_trans string R x v.
Proof.
  revert v. induction l1 as [|p l1 IH]; simpl; intros v H;
    inversion H as [|p' l' v' Hr Hp]; subst.
  - split; [assumption|now apply t_step].
  - destruct (IH _ Hp) as [Hl Ht]. split; [assumption|].
    eapply t_trans; [eassumption|now apply t_step].
Qed.

Lemma rpath_exists R (U : list string) :
  (forall v, In v U -> exists p, In p U /\ R p v) ->
  forall n v, In v U ->
    exists l, List.length l = n /\ (forall x, In x l -> In x U) /\ rpath R l v.
Proof.
  intros Hstep. induction n as [|n IH]; intros v Hv.
  - exists []. repeat split; [intros x []|constructor].
  - destruct (Hstep v Hv) as (p & Hp & Hr).
    destruct (IH p Hp) as (l & Hlen & Hin & Hpath).
    exists (p :: l). simpl. repeat split.
    + now f_equal.
    + intros x [<-|Hx]; auto.
    + now constructor.
Qed.

Lemma finite_descent_cycle R (U : list string) v :
  (forall w, In w U -> exists p, In p U /\ R p w) ->
  In v U -> exists x, clos_trans string R x x.
Proof.
  intros Hstep Hv.
  destruct (@rpath_exists R U Hstep (S (List.length U)) v Hv) as (l & Hlen & Hin & Hpath).
  destruct (nodup_or_dup l) as [Hnd|(x & l1 & l2 & l3 & ->)].
  - apply NoDup_incl_length with (l' := U) in Hnd; [lia|exact Hin].
  - exists x. apply rpath_app in Hpath as [Hpath _].
    now apply rpath_app in Hpath as [_ Hpath].
Qed.

(* ------------------------------------------------------------------ *)
(** * [topological_sort]: Kahn's loop *)

Lemma snoc_split (A : Type) (l : list A) u l1 v l2 :
  l ++ [u] = l1 ++ v :: l2 ->
  (l2 = [] /\ l1 = l /\ v = u) \/ (exists l2', l2 = l2' ++ [u] /\ l = l1 ++ v :: l2').
Proof.
  intros E. destruct l2 as [|y l2].
  - apply app_inj_tail in E as [-> ->]. auto.
  - destruct (@exists_last A (y :: l2)) as (l2' & x & El); [discriminate|].
    rewrite El in E. right. exists l2'.
    change (l1 ++ v :: l2' ++ [x]) with (l1 ++ (v :: l2') ++ [x]) in E.
    rewrite app_assoc in E. apply app_inj_tail in E as [-> ->]. auto.
Qed.

Lemma relax_spec succs : forall in_degree queue,
  NoDup succs ->
  (forall s, In s succs -> In s (dict_keys in_degree)) ->
  exists in_degree',
    relax in_degree queue succs
    = Ok (in_degree', queue ++ newly_ready in_degree succs)
    /\ dict_keys in_degree' = dict_keys in_degree
    /\ forall v, dict_get in_degree' v =
                 if set_mem v succs
                 then option_map (fun d => d - 1) (dict_get in_degree v)
                 else dict_get in_degree v.
Proof.
  induction succs as [|s succs IH]; intros deg q Hnd Hin; simpl.
  - exists deg. rewrite app_nil_r. auto.
  - inversion Hnd as [|? ? Hs Hnd']; subst.
    destruct (dict_keys_get deg s (Hin s (or_introl eq_refl))) as [d Ed].
    unfold dict_lookup. rewrite Ed. simpl.
    destruct (IH (dict_set deg s (d - 1))
                 (if d - 1 =? 0 then q ++ [s] else q) Hnd')
      as (deg' & E & Hk & Hget).
    { intros s' Hs'. rewrite dict_set_present; auto.
      - apply Hin. now right.
      - apply Hin. now left. }
    exists deg'. split; [|split].
    + rewrite E. f_equal. f_equal. unfold newly_ready. simpl.
      assert (Hf : filter (fun s0 => match dict_get (dict_set deg s (d - 1)) s0 with
                                     | Some d0 => d0 - 1 =? 0
                                     | None => false
                                     end) succs
                   = filter (fun s0 => match dict_get deg s0 with
                                       | Some d0 => d0 - 1 =? 0
                                       | None => false
                                       end) succs).
      { apply filter_ext_in. intros a Ha. rewrite dict_get_set.
        destruct (String.eqb_spec a s); [subst; contradiction|reflexivity]. }
      rewrite Hf. destruct (d - 1 =? 0); [now rewrite <- app_assoc|reflexivity].
    + rewrite Hk. apply dict_set_present. apply Hin. now left.
    + intros v. rewrite Hget, dict_get_set.
      destruct (String.eqb_spec v s) as [->|Hne].
      * assert (Hm : set_mem s succs = false).
        { destruct (set_mem s succs) eqn:Em; [|reflexivity].
          apply set_mem_In in Em. contradiction. }
        rewrite Hm, Ed. reflexivity.
      * reflexivity.
Qed.

Lemma unprocessed_zero ns order v :
  unprocessed ns order v = 0%nat -> forall p, In p (preds_of ns v) -> In p order.
Proof.
  unfold unprocessed. intros H p Hp.
  apply length_zero_iff_nil in H.
  destruct (set_mem p order) eqn:E; [now apply set_mem_In|].
  assert (Hin : In p (filter (fun p0 => negb (set_mem p0 order)) (preds_of ns v))).
  { apply filter_In. rewrite E. auto. }
  rewrite H in Hin. destruct Hin.
Qed.

Lemma unprocessed_pos ns order v :
  unprocessed ns order v <> 0%nat ->
  exists p, In p (preds_of ns v) /\ ~ In p order.
Proof.
  unfold unprocessed. intros H.
  destruct (filter (fun p => negb (set_mem p order)) (preds_of ns v)) as [|p l] eqn:E;
    [contradiction|].
  assert (Hin : In p (filter (fun p => negb (set_mem p order)) (preds_of ns v)))
    by (rewrite E; now left).
  apply filter_In in Hin as [Hp Hm]. exists p. split; [assumption|].
  rewrite <- set_mem_In. destruct (set_mem p order); [discriminate|congruence].
Qed.

Lemma count_snoc (order l : list string) u :
  NoDup l -> ~ In u order ->
  (List.length (filter (fun p => negb (set_mem p (order ++ [u]))) l)
   + (if set_mem u l then 1 else 0)
   = List.length (filter (fun p => negb (set_mem p order)) l))%nat.
Proof.
  intros Hnd Hu. induction l as [|p l IH]; simpl; [reflexivity|].
  inversion Hnd as [|? ? Hp Hnd']; subst. specialize (IH Hnd').
  assert (Hmem : set_mem p (order ++ [u]) = set_mem p order || String.eqb p u).
  { unfold set_mem. rewrite existsb_app. simpl. now rewrite orb_false_r. }
  rewrite Hmem.
  destruct (String.eqb_spec u p) as [->|Hne].
  - rewrite String.eqb_refl, orb_true_r. simpl.
    assert (Hm1 : set_mem p order = false).
    { destruct (set_mem p order) eqn:E; [|reflexivity].
      apply set_mem_In in E. contradiction. }
    assert (Hm2 : set_mem p l = false).
    { destruct (set_mem p l) eqn:E; [|reflexivity].
      apply set_mem_In in E. contradiction. }
    rewrite Hm1. rewrite Hm2 in IH. simpl. lia.
  - assert (String.eqb p u = false) as ->.
    { apply String.eqb_neq. congruence. }
    rewrite orb_false_r.
    destruct (set_mem p order); simpl; lia.
Qed.

Lemma unprocessed_snoc ns order u v :
  adjacency_ok ns -> ~ In u order ->
  (unprocessed ns (order ++ [u]) v + (if set_mem v (succs_of ns u) then 1 else 0)
   = unprocessed ns order v)%nat.
Proof.
  intros Hadj Hu. unfold unprocessed.
  rewrite <- (@count_snoc order (preds_of ns v) u);
    [|apply Hadj|assumption].
  f_equal.
  destruct (set_mem v (succs_of ns u)) eqn:E1;
    destruct (set_mem u (preds_of ns v)) eqn:E2; try reflexivity.
  - apply set_mem_In, (adj_mirror Hadj), set_mem_In in E1. congruence.
  - apply set_mem_In, (adj_mirror Hadj), set_mem_In in E2. congruence.
Qed.

Lemma kahn_inv_init ns :
  adjacency_ok ns ->
  kahn_inv ns (initial_in_degree ns) (initial_queue (initial_in_degree ns)) [].
Proof.
  intros Hadj.
  assert (Hkeys : dict_keys (initial_in_degree ns) = dict_keys ns).
  { unfold initial_in_degree, dict_keys. now rewrite map_map. }
  assert (Hun : forall v, unprocessed ns [] v = List.length (preds_of ns v)).
  { intros v. unfold unprocessed. f_equal.
    induction (preds_of ns v) as [|p l IH]; simpl; [reflexivity|now f_equal]. }
  assert (Hget : forall v, In v (dict_keys ns) ->
             dict_get (initial_in_degree ns) v
             = Some (Z.of_nat (List.length (preds_of ns v)))).
  { intros v Hv. unfold preds_of, initial_in_degree.
    clear Hkeys Hun Hadj. induction ns as [|[k n] ns' IH]; simpl in *; [tauto|].
    destruct (String.eqb_spec v k) as [->|Hne]; [reflexivity|].
    apply IH. destruct Hv; [congruence|assumption]. }
  assert (Hq : forall v, In v (initial_queue (initial_in_degree ns)) <->
                         In v (dict_keys ns) /\ preds_of ns v = []).
  { intros v. unfold initial_queue. rewrite in_map_iff. split.
    - intros ([k d] & <- & Hf). apply filter_In in Hf as [Hin Hd]. simpl in *.
      assert (Hk : In k (dict_keys ns)).
      { rewrite <- Hkeys. unfold dict_keys. change k with (fst (k, d)).
        now apply in_map. }
      split; [assumption|].
      apply dict_In_get in Hin; [|rewrite Hkeys; apply Hadj].
      rewrite (Hget k Hk) in Hin. injection Hin as Hin.
      apply Z.eqb_eq in Hd. subst d.
      apply length_zero_iff_nil. lia.
    - intros [Hv Hp]. exists (v, 0). split; [reflexivity|].
      apply filter_In. split; [|reflexivity].
      apply dict_get_In. rewrite (Hget v Hv), Hp. reflexivity. }
  constructor; simpl.
  - exact Hkeys.
  - unfold initial_queue.
    assert (Hnd : NoDup (map fst (initial_in_degree ns))) by (fold (dict_keys (initial_in_degree ns)); rewrite Hkeys; apply Hadj).
    clear - Hnd. induction (initial_in_degree ns) as [|[k d] l IH]; simpl in *.
    + constructor.
    + inversion Hnd as [|? ? Hk Hnd']; subst.
      destruct (d =? 0); simpl; [|auto]. constructor; [|auto].
      intros Hin. apply Hk. apply in_map_iff in Hin as (x & <- & Hx).
      apply filter_In in Hx as [Hx _]. now apply in_map.
  - intros v Hv. now apply Hq in Hv.
  - intros v Hv. rewrite Hun. now apply Hget.
  - intros v Hv. rewrite Hun, Hq, length_zero_iff_nil. tauto.
  - intros l1 v l2 E. destruct l1; discriminate.
Qed.

Lemma newly_ready_In ns in_degree order succs v :
  (forall w, In w (dict_keys ns) ->
             dict_get in_degree w = Some (Z.of_nat (unprocessed ns order w))) ->
  (forall s, In s succs -> In s (dict_keys ns)) ->
  (In v (newly_ready in_degree succs)
   <-> In v succs /\ unprocessed ns order v = 1%nat).
Proof.
  intros Hdeg Hin. unfold newly_ready. rewrite filter_In. split.
  - intros [Hv Hd]. split; [assumption|].
    rewrite (Hdeg v (Hin v Hv)) in Hd. apply Z.eqb_eq in Hd. lia.
  - intros [Hv Hu]. split; [assumption|].
    rewrite (Hdeg v (Hin v Hv)), Hu. reflexivity.
Qed.

Lemma kahn_inv_step ns in_degree u queue order :
  adjacency_ok ns ->
  kahn_inv ns in_degree (u :: queue) order ->
  exists in_degree' queue',
    relax in_degree queue (succs_of ns u) = Ok (in_degree', queue')
    /\ kahn_inv ns in_degree' queue' (order ++ [u]).
Proof.
  intros Hadj Hinv.
  assert (Hsk : forall s, In s (succs_of ns u) -> In s (dict_keys ns)).
  { intros s Hs. now apply (adj_closed Hadj) in Hs. }
  destruct (@relax_spec (succs_of ns u) in_degree queue) as (deg' & E & Hk & Hget).
  { apply Hadj. }
  { intros s Hs. rewrite (ki_keys Hinv). auto. }
  exists deg', (queue ++ newly_ready in_degree (succs_of ns u)).
  split; [exact E|].
  pose proof (ki_nodup Hinv) as Hnd.
  assert (Hu_order : ~ In u order).
  { intros H. apply NoDup_remove_2 in Hnd. apply Hnd. rewrite in_app_iff. auto. }
  assert (Hu_key : In u (dict_keys ns)).
  { apply (ki_incl Hinv). rewrite in_app_iff. simpl. auto. }
  assert (Hnew := fun v => @newly_ready_In ns in_degree order (succs_of ns u) v
                    (ki_degree Hinv) Hsk).
  assert (Hlist : (order ++ [u]) ++ queue ++ newly_ready in_degree (succs_of ns u)
                  = (order ++ u :: queue) ++ newly_ready in_degree (succs_of ns u)).
  { rewrite <- !app_assoc. reflexivity. }
  assert (Hsnoc := fun v => @unprocessed_snoc ns order u v Hadj Hu_order).
  constructor.
  - now rewrite Hk, (ki_keys Hinv).
  - rewrite Hlist. apply NoDup_app; [assumption|apply NoDup_filter, Hadj|].
    intros v Hold Hn. apply Hnew in Hn as [Hs H1].
    apply (ki_ready Hinv v (Hsk v Hs)) in Hold. lia.
  - rewrite Hlist. intros v Hv. apply in_app_iff in Hv as [Hv|Hv].
    + now apply (ki_incl Hinv).
    + apply Hnew in Hv as [Hs _]. auto.
  - intros v Hv. rewrite Hget, (ki_degree Hinv v Hv). specialize (Hsnoc v).
    destruct (set_mem v (succs_of ns u)); simpl; f_equal; lia.
  - intros v Hv. rewrite Hlist, in_app_iff, Hnew, (ki_ready Hinv v Hv).
    specialize (Hsnoc v).
    destruct (set_mem v (succs_of ns u)) eqn:Em.
    + apply set_mem_In in Em. split; [intros [H|[_ H]]; lia|].
      intros H. right. split; [assumption|lia].
    + split; [intros [H|[Hs _]]|intros H; left; lia].
      * lia.
      * apply set_mem_In in Hs. congruence.
  - intros l1 v l2 Eq p Hp.
    apply snoc_split in Eq as [(_ & -> & ->)|(l2' & _ & Eo)].
    + apply (@unprocessed_zero ns order u); [|assumption].
      apply (ki_ready Hinv u Hu_key). rewrite in_app_iff. simpl. auto.
    + eapply (ki_order Hinv); eassumption.
Qed.

Lemma kahn_correct ns :
  adjacency_ok ns ->
  forall fuel in_degree queue order,
    kahn_inv ns in_degree queue order ->
    (List.length (dict_keys ns) <= fuel + List.length order)%nat ->
    exists res, kahn fuel ns in_degree queue order = Ok res /\ kahn_result ns res.
Proof.
  intros Hadj. induction fuel as [|fuel IH]; intros deg queue order Hinv Hlen.
  - destruct queue as [|u q]; simpl.
    + exists order. split; [reflexivity|].
      destruct Hinv. rewrite app_nil_r in *. now constructor.
    + exfalso. pose proof (ki_nodup Hinv) as Hnd.
      apply NoDup_incl_length with (l' := dict_keys ns) in Hnd;
        [|intros x; apply (ki_incl Hinv)].
      rewrite length_app in Hnd. simpl in Hnd, Hlen. lia.
  - destruct queue as [|u q]; simpl.
    + exists order. split; [reflexivity|].
      destruct Hinv. rewrite app_nil_r in *. now constructor.
    + assert (Hu_key : In u (dict_keys ns)).
      { apply (ki_incl Hinv). rewrite in_app_iff. simpl. auto. }
      destruct (dict_keys_get ns u Hu_key) as [n En].
      unfold dict_lookup. rewrite En. simpl.
      destruct (@kahn_inv_step ns deg u q order Hadj Hinv) as (deg' & q' & E & Hinv').
      unfold succs_of in E. rewrite En in E. rewrite E. simpl.
      apply IH; [assumption|]. rewrite length_app. simpl. lia.
Qed.

Lemma preds_first_reach ns res :
  adjacency_ok ns -> preds_first ns res ->
  forall x y, clos_trans string (succ_edge ns) x y ->
    forall l1 l2, res = l1 ++ y :: l2 -> In x l1.
Proof.
  intros Hadj Hpf x y H. induction H as [x y H|x z y H1 IH1 H2 IH2]; intros l1 l2 E.
  - apply (Hpf l1 y l2 E). now apply (adj_mirror Hadj).
  - specialize (IH2 l1 l2 E). apply in_split in IH2 as (la & lb & ->).
    rewrite <- app_assoc in E. simpl in E.
    specialize (IH1 la _ E). rewrite in_app_iff. auto.
Qed.

Lemma preds_first_acyclic ns res :
  adjacency_ok ns -> NoDup res -> preds_first ns res ->
  (forall v, In v (dict_keys ns) -> In v res) ->
  forall x, ~ clos_trans string (succ_edge ns) x x.
Proof.
  intros Hadj Hnd Hpf Hall x Hx.
  assert (Hk : In x (dict_keys ns)).
  { clear - Hadj Hx. induction Hx as [x y H|]; [|assumption].
    now apply (adj_closed Hadj) in H. }
  apply Hall, in_split in Hk as (l1 & l2 & E).
  pose proof (@preds_first_reach ns _ Hadj Hpf x x Hx l1 l2 E) as Hin.
  rewrite E in Hnd. apply NoDup_remove_2 in Hnd. apply Hnd.
  rewrite in_app_iff. auto.
Qed.

(* ------------------------------------------------------------------ *)
(** * [topological_sort] *)

Lemma clos_trans_impl (R S : string -> string -> Prop) :
  (forall a b, R a b -> S a b) ->
  forall x y, clos_trans string R x y -> clos_trans string S x y.
Proof.
  intros H x y Hxy. induction Hxy as [x y Hr|x z y _ IH1 _ IH2].
  - apply t_step. auto.
  - eapply t_trans; eassumption.
Qed.

Lemma succ_cycle_dep_cycle g :
  wf_graph g ->
  (exists x, clos_trans string (succ_edge (nodes g)) x x) -> has_dep_cycle g.
Proof.
  intros Hwf [x Hx]. exists x. revert Hx. apply clos_trans_impl.
  intros a b. now apply wf_succ_edge.
Qed.

Lemma dep_cycle_succ_cycle g x :
  wf_graph g ->
  clos_trans string (dep_edge g) x x -> clos_trans string (succ_edge (nodes g)) x x.
Proof.
  intros Hwf. apply clos_trans_impl. intros a b. now apply wf_succ_edge.
Qed.

Lemma missing_key (keys res : list string) :
  NoDup keys -> NoDup res -> (forall v, In v res -> In v keys) ->
  List.length res <> List.length keys ->
  exists v, In v keys /\ ~ In v res.
Proof.
  intros Hk Hr Hincl Hlen.
  destruct (filter (fun k => negb (set_mem k res)) keys) as [|v l] eqn:E.
  - exfalso. apply Hlen. apply Nat.le_antisymm.
    + now apply NoDup_incl_length.
    + apply NoDup_incl_length; [assumption|]. intros k Hkin.
      destruct (set_mem k res) eqn:Em; [now apply set_mem_In|].
      assert (Hin : In k (filter (fun k => negb (set_mem k res)) keys)).
      { apply filter_In. rewrite Em. auto. }
      rewrite E in Hin. destruct Hin.
  - assert (Hin : In v (filter (fun k => negb (set_mem k res)) keys))
      by (rewrite E; now left).
    apply filter_In in Hin as [Hv Hm]. exists v. split; [assumption|].
    rewrite <- set_mem_In. destruct (set_mem v res); [discriminate|congruence].
Qed.

Lemma kahn_incomplete_cycle ns res :
  adjacency_ok ns -> kahn_result ns res ->
  List.length res <> List.length (dict_keys ns) ->
  exists x, clos_trans string (succ_edge ns) x x.
Proof.
  intros Hadj Hres Hlen.
  destruct (@missing_key (dict_keys ns) res) as (v & Hv & Hout);
    [apply Hadj|apply Hres|apply Hres|assumption|].
  set (U := filter (fun k => negb (set_mem k res)) (dict_keys ns)).
  assert (HU : forall w, In w U <-> In w (dict_keys ns) /\ ~ In w res).
  { intros w. unfold U. rewrite filter_In.
    destruct (set_mem w res) eqn:Em; simpl.
    - apply set_mem_In in Em. split; [intros [_ H]; discriminate|tauto].
    - split; [|tauto]. intros [Hk _]. split; [assumption|].
      rewrite <- set_mem_In. congruence. }
  apply (@finite_descent_cycle (succ_edge ns) U v).
  - intros w Hw. apply HU in Hw as [Hwk Hwr].
    destruct (@unprocessed_pos ns res w) as (p & Hp & Hpr).
    { intros H0. apply Hwr. now apply (kr_ready Hres w Hwk). }
    exists p. apply (adj_mirror Hadj) in Hp. split; [|exact Hp].
    apply HU. split; [|assumption]. now apply (adj_closed Hadj) in Hp.
  - apply HU. auto.
Qed.

Lemma keys_length (V : Type) (d : dict V) : List.length (dict_keys d) = List.length d.
Proof. apply length_map. Qed.

(** The three ways [topological_sort] can end on a well-formed graph. *)
Lemma topological_sort_cases g :
  wf_graph g ->
  (topological_sort g = Raise (ValueError msg_sort_cycle) /\ has_dep_cycle g)
  \/ (topological_sort g = Raise (ValueError msg_sort_failed) /\ has_dep_cycle g)
  \/ (exists order,
        topological_sort g = Ok order /\ kahn_result (nodes g) order
        /\ (forall k, In k (node_ids g) -> In k order)
        /\ List.length order = List.length (nodes g)).
Proof.
  intros Hwf. pose proof (wf_adjacency Hwf) as Hadj.
  unfold topological_sort.
  destruct (has_cycle_total g Hadj) as [b Eb]. rewrite Eb. simpl.
  destruct b.
  - left. split; [reflexivity|].
    apply succ_cycle_dep_cycle; [assumption|]. now apply has_cycle_sound.
  - right.
    destruct (@kahn_correct (nodes g) Hadj (List.length (nodes g))
                (initial_in_degree (nodes g))
                (initial_queue (initial_in_degree (nodes g))) [])
      as (res & E & Hres).
    { now apply kahn_inv_init. }
    { rewrite keys_length. simpl. lia. }
    rewrite E. simpl.
    destruct (Nat.eqb_spec (List.length res) (List.length (nodes g))) as [Hl|Hl]; simpl.
    + right. exists res. split; [reflexivity|split; [assumption|split; [|assumption]]].
      intros k Hk. unfold node_ids in Hk.
      eapply NoDup_length_incl; [apply Hres| |intros x; apply Hres|exact Hk].
      rewrite keys_length. lia.
    + left. split; [reflexivity|].
      apply succ_cycle_dep_cycle; [assumption|].
      apply (kahn_incomplete_cycle Hadj Hres). now rewrite keys_length.
Qed.

Lemma topological_sort_ok g order :
  wf_graph g -> topological_sort g = Ok order ->
  kahn_result (nodes g) order
  /\ (forall k, In k (node_ids g) -> In k order)
  /\ List.length order = List.length (nodes g).
Proof.
  intros Hwf E.
  destruct (topological_sort_cases Hwf) as [[E' _]|[[E' _]|(o & E' & H)]];
    rewrite E' in E; try discriminate.
  now injection E as <-.
Qed.

Lemma topological_sort_returns g :
  wf_graph g -> acyclic g -> exists order, topological_sort g = Ok order.
Proof.
  intros Hwf Hacyc.
  destruct (topological_sort_cases Hwf) as [[_ [x Hx]]|[[_ [x Hx]]|(order & E & _)]].
  - now apply Hacyc in Hx.
  - now apply Hacyc in Hx.
  - eauto.
Qed.

Lemma in_before (l l1 l2 : list string) a b :
  l = l1 ++ b :: l2 -> In a l1 -> before l a b.
Proof.
  intros -> Ha. apply in_split in Ha as (la & lb & ->).
  exists la, lb, l2. now rewrite <- app_assoc.
Qed.

(** C3.  On a graph that satisfies the builder's invariant: if the
    dependency relation has no cycle, [topological_sort] returns a list that
    holds every node id exactly once (a permutation of the keys, of the same
    length) and in which the predecessor of every dependency comes before
    its successor; if the relation has a cycle, it raises one of the two
    cycle errors. *)
Theorem topological_sort_spec (g : DependencyGraph) :
  wf_graph g ->
  (acyclic g ->
   exists order,
     topological_sort g = Ok order
     /\ NoDup order
     /\ Permutation order (node_ids g)
     /\ List.length order = List.length (nodes g)
     /\ forall d, In d (dependencies g) ->
                  before order (predecessor_id d) (successor_id d))
  /\ (has_dep_cycle g ->
      exists e, topological_sort g = Raise e /\ is_cycle_error e).
Proof.
  intros Hwf. pose proof (wf_adjacency Hwf) as Hadj.
  destruct (topological_sort_cases Hwf)
    as [[E Hc]|[[E Hc]|(order & E & Hres & Hall & Hlen)]].
  - split.
    + intros Hacyc. destruct Hc as [x Hx]. now apply Hacyc in Hx.
    + intros _. eexists. split; [exact E|]. now left.
  - split.
    + intros Hacyc. destruct Hc as [x Hx]. now apply Hacyc in Hx.
    + intros _. eexists. split; [exact E|]. now right.
  - split.
    + intros _. exists order. repeat split; try assumption.
      * apply Hres.
      * apply NoDup_Permutation; [apply Hres|apply Hwf|].
        intros k. split; [apply Hres|apply Hall].
      * intros d Hd.
        destruct (wf_deps Hwf d Hd) as [_ Hs].
        apply Hall, in_split in Hs as (l1 & l2 & El).
        eapply in_before; [exact El|].
        apply (kr_order Hres l1 _ l2 El).
        apply (wf_pred_edge _ _ Hwf). exists d. auto.
    + intros [x Hx]. exfalso.
      apply (dep_cycle_succ_cycle Hwf) in Hx. revert Hx.
      apply (@preds_first_acyclic (nodes g) order); try assumption; apply Hres.
Qed.

Lemma g_abc_wf : wf_graph g_abc.
Proof. apply (@create_dependency_graph_wf (abc_activities MEDIUM CRITICAL LOW)). reflexivity. Qed.

Lemma topological_sort_spec_witness :
  wf_graph g_abc
  /\ (acyclic g_abc ->
      exists order,
        topological_sort g_abc = Ok order
        /\ NoDup order
        /\ Permutation order (node_ids g_abc)
        /\ List.length order = List.length (nodes g_abc)
        /\ forall d, In d (dependencies g_abc) ->
                     before order (predecessor_id d) (successor_id d))
  /\ (has_dep_cycle g_abc ->
      exists e, topological_sort g_abc = Raise e /\ is_cycle_error e).
Proof.
  split; [exact g_abc_wf|]. exact (topological_sort_spec g_abc_wf).
Defined.

(** The two branches of C3 on concrete graphs. *)
Example topological_sort_abc : topological_sort g_abc = Ok ["A"; "B"; "C"].
Proof. reflexivity. Qed.

Example topological_sort_loop :
  topological_sort g_loop = Raise (ValueError msg_sort_cycle).
Proof. reflexivity. Qed.

(* ------------------------------------------------------------------ *)
(** * The passes of the critical path method *)

Unset Implicit Arguments.

Lemma same_structure_refl ns : same_structure ns ns.
Proof. split; reflexivity. Qed.

Lemma same_structure_trans ns1 ns2 ns3 :
  same_structure ns1 ns2 -> same_structure ns2 ns3 -> same_structure ns1 ns3.
Proof.
  intros [K1 S1] [K2 S2]. split; [congruence|].
  intros k. now rewrite S2, S1.
Qed.

Lemma same_structure_update ns k (f : DependencyNode -> DependencyNode) :
  (forall n, skeleton (f n) = skeleton n) ->
  same_structure ns (dict_update ns k f).
Proof.
  intros Hf. split; [apply dict_update_keys|].
  intros k'. rewrite dict_get_update.
  destruct (String.eqb_spec k' k) as [->|Hne]; [|reflexivity].
  destruct (dict_get ns k); simpl; [now rewrite Hf|reflexivity].
Qed.

Lemma same_structure_preds ns ns' v :
  same_structure ns ns' -> preds_of ns' v = preds_of ns v.
Proof.
  intros [_ S]. specialize (S v). unfold preds_of.
  destruct (dict_get ns' v), (dict_get ns v); simpl in S;
    try discriminate; [|reflexivity].
  unfold skeleton in S. congruence.
Qed.

Lemma same_structure_succs ns ns' v :
  same_structure ns ns' -> succs_of ns' v = succs_of ns v.
Proof.
  intros [_ S]. specialize (S v). unfold succs_of.
  destruct (dict_get ns' v), (dict_get ns v); simpl in S;
    try discriminate; [|reflexivity].
  unfold skeleton in S. congruence.
Qed.

Lemma same_structure_get ns ns' k n' :
  same_structure ns ns' -> dict_get ns' k = Some n' ->
  exists n, dict_get ns k = Some n /\ skeleton n' = skeleton n.
Proof.
  intros [_ S] E. specialize (S k). rewrite E in S.
  destruct (dict_get ns k) as [n|]; simpl in S; [|discriminate].
  exists n. split; congruence.
Qed.

Lemma wf_same_structure g ns' :
  wf_graph g -> same_structure (nodes g) ns' -> wf_graph (set_nodes g ns').
Proof.
  intros Hwf Hs. pose proof Hs as [K S].
  constructor; unfold node_ids, dep_edge; simpl.
  - rewrite K. apply Hwf.
  - intros k n' E. destruct (same_structure_get _ _ _ _ Hs E) as (n & En & Hsk).
    injection Hsk as _ -> _. eapply wf_preds_nodup; eauto.
  - intros k n' E. destruct (same_structure_get _ _ _ _ Hs E) as (n & En & Hsk).
    injection Hsk as _ _ ->. eapply wf_succs_nodup; eauto.
  - intros u n' v E. destruct (same_structure_get _ _ _ _ Hs E) as (n & En & Hsk).
    injection Hsk as _ _ ->. eapply (wf_succs Hwf); eauto.
  - intros v n' u E. destruct (same_structure_get _ _ _ _ Hs E) as (n & En & Hsk).
    injection Hsk as _ -> _. eapply (wf_preds Hwf); eauto.
  - intros d Hd. rewrite K. now apply (wf_deps Hwf).
Qed.

(** ** Forward pass *)

Lemma forward_preds_total ns deps aid node preds : forall e,
  (forall p, In p preds -> has_earliest ns p) ->
  exists r, forward_preds ns deps aid node preds e = Ok r.
Proof.
  induction preds as [|p preds IH]; intros e Hp; simpl; [eauto|].
  destruct (Hp p (or_introl eq_refl)) as (n & es & ef & En & Es & Ef).
  unfold dict_lookup. rewrite En. simpl.
  assert (Hrest : forall q, In q preds -> has_earliest ns q) by (simpl in Hp; auto).
  destruct (find_dependency deps p aid) as [dep|]; [|now apply IH].
  unfold candidate_start. rewrite Es, Ef.
  repeat (match goal with |- context [if ?b then _ else _] => destruct b end);
    simpl; now apply IH.
Qed.

Lemma has_earliest_update ns k es ef k' :
  In k (dict_keys ns) ->
  (has_earliest ns k' \/ k' = k) ->
  has_earliest (dict_update ns k (fun n => set_earliest n es (ef n))) k'.
Proof.
  intros Hk H. unfold has_earliest. rewrite dict_get_update.
  destruct (String.eqb_spec k' k) as [->|Hne].
  - apply dict_keys_get in Hk as [n En]. rewrite En. simpl.
    repeat eexists; reflexivity.
  - destruct H as [H|H]; [exact H|contradiction].
Qed.

Lemma forward_loop_total deps st order : forall ns done,
  (forall l1 v l2, order = l1 ++ v :: l2 ->
                   forall p, In p (preds_of ns v) -> In p (done ++ l1)) ->
  (forall k, In k done -> has_earliest ns k) ->
  (forall k, In k order -> In k (dict_keys ns)) ->
  exists ns',
    forward_loop ns deps st order = Ok ns'
    /\ same_structure ns ns'
    /\ (forall k, In k (done ++ order) -> has_earliest ns' k).
Proof.
  induction order as [|v order IH]; intros ns done Hpf Hdone Hkeys; simpl.
  - exists ns. rewrite app_nil_r. auto using same_structure_refl.
  - assert (Hv : In v (dict_keys ns)) by (apply Hkeys; now left).
    destruct (dict_keys_get ns v Hv) as [n En].
    unfold dict_lookup. rewrite En. simpl.
    assert (Hes : exists es,
               (if is_empty (predecessors n) then Ok st
                else forward_preds ns deps v n (predecessors n) st) = Ok es).
    { destruct (is_empty (predecessors n)); [eauto|].
      apply forward_preds_total. intros p Hp. apply Hdone.
      specialize (Hpf [] v order eq_refl p). rewrite app_nil_r in Hpf.
      apply Hpf. unfold preds_of. now rewrite En. }
    destruct Hes as [es ->]. simpl.
    set (ns1 := dict_update ns v
                  (fun n0 => set_earliest n0 es (es + node_total_duration n0))).
    assert (Hs1 : same_structure ns ns1).
    { apply same_structure_update. intros []; reflexivity. }
    destruct (IH ns1 (done ++ [v])) as (ns' & E & Hs & He).
    + intros l1 w l2 Eo p Hp. rewrite (same_structure_preds _ _ _ Hs1) in Hp.
      rewrite <- app_assoc. simpl.
      apply (Hpf (v :: l1) w l2); [now rewrite Eo|assumption].
    + intros k Hk. apply (has_earliest_update ns v es
                            (fun n0 => es + node_total_duration n0) k Hv).
      apply in_app_iff in Hk as [Hk|[<-|[]]]; auto.
    + intros k Hk. destruct Hs1 as [-> _]. apply Hkeys. now right.
    + exists ns'. split; [exact E|]. split.
      * eapply same_structure_trans; eassumption.
      * intros k Hk. apply He. rewrite <- app_assoc. exact Hk.
Qed.

Lemma deps_first_prefix nb order :
  deps_first nb order ->
  forall l1 v l2, order = l1 ++ v :: l2 ->
                  forall p, In p (nb v) -> In p ([] ++ l1).
Proof. intros H l1 v l2 E p Hp. simpl. eapply H; eassumption. Qed.

Lemma _forward_pass_total g st :
  wf_graph g -> acyclic g ->
  exists g1,
    _forward_pass g st = Ok g1
    /\ dependencies g1 = dependencies g
    /\ same_structure (nodes g) (nodes g1)
    /\ (forall k, In k (node_ids g1) -> has_earliest (nodes g1) k).
Proof.
  intros Hwf Hacyc. unfold _forward_pass.
  destruct (topological_sort_returns Hwf Hacyc) as (order & E). rewrite E. simpl.
  destruct (topological_sort_ok Hwf E) as (Hres & Hall & _).
  destruct (forward_loop_total (dependencies g) st order (nodes g) [])
    as (ns' & E' & Hs & He).
  - apply (deps_first_prefix (preds_of (nodes g)) order). exact (kr_order Hres).
  - intros k [].
  - apply Hres.
  - rewrite E'. simpl. exists (set_nodes g ns'). repeat split; try assumption.
    + apply Hs.
    + apply Hs.
    + intros k Hk. apply He. simpl. apply Hall.
      unfold node_ids in *. simpl in Hk. destruct Hs as [K _]. now rewrite <- K.
Qed.

(** ** Backward pass *)

Lemma split_unique (l1 : list string) : forall v l2 l1' l2',
  NoDup (l1 ++ v :: l2) -> l1 ++ v :: l2 = l1' ++ v :: l2' -> l1 = l1'.
Proof.
  induction l1 as [|a l1 IH]; intros v l2 l1' l2' Hnd E.
  - destruct l1' as [|b l1']; [reflexivity|].
    simpl in E. injection E as <- E. exfalso.
    simpl in Hnd. inversion Hnd as [|? ? Hv _]; subst. apply Hv.
    rewrite in_app_iff. simpl. auto.
  - destruct l1' as [|b l1']; simpl in E.
    + injection E as -> E. exfalso.
      simpl in Hnd. inversion Hnd as [|? ? Hv _]; subst. apply Hv.
      rewrite in_app_iff. simpl. auto.
    + injection E as <- E. f_equal.
      simpl in Hnd. inversion Hnd; subst. eapply IH; eassumption.
Qed.

Lemma rev_deps_first ns order :
  adjacency_ok ns -> NoDup order ->
  (forall k, In k (dict_keys ns) -> In k order) ->
  deps_first (preds_of ns) order -> deps_first (succs_of ns) (rev order).
Proof.
  intros Hadj Hnd Hall Hpf l1 v l2 E s Hs.
  assert (Hsk : In s (dict_keys ns)) by now apply (adj_closed Hadj) in Hs.
  apply Hall, in_split in Hsk as (a & b & Eo).
  assert (Hv : In v a).
  { apply (Hpf a s b Eo). now apply (adj_mirror Hadj). }
  apply in_rev, in_split in Hv as (x & y & Ea).
  assert (E2 : rev order = (rev b ++ s :: x) ++ v :: y).
  { rewrite Eo, rev_app_distr. simpl. rewrite <- !app_assoc. simpl.
    now rewrite Ea. }
  assert (l1 = rev b ++ s :: x) as ->.
  { eapply split_unique; [|rewrite <- E; exact E2].
    rewrite <- E. now apply NoDup_rev. }
  rewrite in_app_iff. simpl. auto.
Qed.

Lemma backward_succs_total ns deps aid node succs : forall e,
  (forall s, In s succs -> has_latest ns s) ->
  exists r, backward_succs ns deps aid node succs e = Ok r.
Proof.
  induction succs as [|s succs IH]; intros e Hs; simpl; [eauto|].
  destruct (Hs s (or_introl eq_refl)) as (n & ls & lf & En & Els & Elf).
  unfold dict_lookup. rewrite En. simpl.
  assert (Hrest : forall q, In q succs -> has_latest ns q) by (simpl in Hs; auto).
  destruct (find_dependency deps aid s) as [dep|]; [|now apply IH].
  unfold candidate_finish. rewrite Els, Elf.
  repeat (match goal with |- context [if ?b then _ else _] => destruct b end);
    simpl; now apply IH.
Qed.

Lemma has_latest_update ns k (ls : DependencyNode -> datetime) lf k' :
  In k (dict_keys ns) ->
  (has_latest ns k' \/ k' = k) ->
  has_latest (dict_update ns k (fun n => set_latest n (ls n) lf)) k'.
Proof.
  intros Hk H. unfold has_latest. rewrite dict_get_update.
  destruct (String.eqb_spec k' k) as [->|Hne].
  - apply dict_keys_get in Hk as [n En]. rewrite En. simpl.
    repeat eexists; reflexivity.
  - destruct H as [H|H]; [exact H|contradiction].
Qed.

Lemma same_earliest_refl ns : same_earliest ns ns.
Proof. intros k. reflexivity. Qed.

Lemma same_earliest_trans ns1 ns2 ns3 :
  same_earliest ns1 ns2 -> same_earliest ns2 ns3 -> same_earliest ns1 ns3.
Proof. intros H1 H2 k. now rewrite H2, H1. Qed.

Lemma same_earliest_update ns k (f : DependencyNode -> DependencyNode) :
  (forall n, earliest_start (f n) = earliest_start n
             /\ earliest_finish (f n) = earliest_finish n) ->
  same_earliest ns (dict_update ns k f).
Proof.
  intros Hf k'. rewrite dict_get_update.
  destruct (String.eqb_spec k' k) as [->|Hne]; [|reflexivity].
  destruct (dict_get ns k) as [n|]; simpl; [|reflexivity].
  destruct (Hf n) as [-> ->]. reflexivity.
Qed.

Lemma same_earliest_has ns ns' k :
  same_earliest ns ns' -> has_earliest ns k -> has_earliest ns' k.
Proof.
  intros H (n & es & ef & En & Es & Ef). specialize (H k). rewrite En in H.
  destruct (dict_get ns' k) as [n'|] eqn:En'; simpl in H; [|discriminate].
  injection H as H1 H2.
  exists n', es, ef. split; [exact En'|]. split; congruence.
Qed.

Lemma backward_loop_total deps pe order : forall ns done,
  (forall l1 v l2, order = l1 ++ v :: l2 ->
                   forall s, In s (succs_of ns v) -> In s (done ++ l1)) ->
  (forall k, In k done -> has_latest ns k) ->
  (forall k, In k order -> In k (dict_keys ns)) ->
  exists ns',
    backward_loop ns deps pe order = Ok ns'
    /\ same_structure ns ns'
    /\ same_earliest ns ns'
    /\ (forall k, In k (done ++ order) -> has_latest ns' k).
Proof.
  induction order as [|v order IH]; intros ns done Hsf Hdone Hkeys; simpl.
  - exists ns. rewrite app_nil_r.
    repeat split; auto using same_structure_refl, same_earliest_refl.
  - assert (Hv : In v (dict_keys ns)) by (apply Hkeys; now left).
    destruct (dict_keys_get ns v Hv) as [n En].
    unfold dict_lookup. rewrite En. simpl.
    assert (Hlf : exists lf,
               (if is_empty (successors n) then Ok pe
                else backward_succs ns deps v n (successors n) pe) = Ok lf).
    { destruct (is_empty (successors n)); [eauto|].
      apply backward_succs_total. intros s Hs. apply Hdone.
      specialize (Hsf [] v order eq_refl s). rewrite app_nil_r in Hsf.
      apply Hsf. unfold succs_of. now rewrite En. }
    destruct Hlf as [lf ->]. simpl.
    set (ns1 := dict_update ns v
                  (fun n0 => set_latest n0 (lf - node_total_duration n0) lf)).
    assert (Hs1 : same_structure ns ns1).
    { apply same_structure_update. intros []; reflexivity. }
    assert (He1 : same_earliest ns ns1).
    { apply same_earliest_update. intros []; split; reflexivity. }
    destruct (IH ns1 (done ++ [v])) as (ns' & E & Hs & He & Hl).
    + intros l1 w l2 Eo s Hs. rewrite (same_structure_succs _ _ _ Hs1) in Hs.
      rewrite <- app_assoc. simpl.
      apply (Hsf (v :: l1) w l2); [now rewrite Eo|assumption].
    + intros k Hk. apply (has_latest_update ns v
                            (fun n0 => lf - node_total_duration n0) lf k Hv).
      apply in_app_iff in Hk as [Hk|[<-|[]]]; auto.
    + intros k Hk. destruct Hs1 as [-> _]. apply Hkeys. now right.
    + exists ns'. split; [exact E|]. split; [|split].
      * eapply same_structure_trans; eassumption.
      * eapply same_earliest_trans; eassumption.
      * intros k Hk. apply Hl. rewrite <- app_assoc. exact Hk.
Qed.

Lemma acyclic_same_dependencies g g' :
  dependencies g' = dependencies g -> acyclic g -> acyclic g'.
Proof.
  intros E H u Hu. apply (H u). revert Hu. apply clos_trans_impl.
  intros a b (d & Hd & Hp & Hs). exists d. rewrite <- E. auto.
Qed.

Lemma max_of_earliest_finishes ns :
  ns <> [] -> (forall k, In k (dict_keys ns) -> has_earliest ns k) ->
  exists m, max_of (earliest_finishes ns) = Ok m.
Proof.
  destruct ns as [|[k n] ns]; [congruence|]. intros _ H.
  destruct (H k (or_introl eq_refl)) as (n' & es & ef & En & _ & Ef).
  simpl in En. rewrite String.eqb_refl in En. injection En as <-.
  unfold earliest_finishes. simpl. rewrite Ef. simpl. eauto.
Qed.

Lemma _backward_pass_total g :
  wf_graph g -> acyclic g -> nodes g <> [] ->
  (forall k, In k (node_ids g) -> has_earliest (nodes g) k) ->
  exists g2,
    _backward_pass g = Ok g2
    /\ dependencies g2 = dependencies g
    /\ same_structure (nodes g) (nodes g2)
    /\ same_earliest (nodes g) (nodes g2)
    /\ (forall k, In k (node_ids g2) -> has_latest (nodes g2) k).
Proof.
  intros Hwf Hacyc Hne Hearly. unfold _backward_pass.
  pose proof (wf_adjacency Hwf) as Hadj.
  destruct (topological_sort_returns Hwf Hacyc) as (order & E). rewrite E. simpl.
  destruct (topological_sort_ok Hwf E) as (Hres & Hall & _).
  destruct (max_of_earliest_finishes (nodes g) Hne Hearly) as [pe ->]. simpl.
  destruct (backward_loop_total (dependencies g) pe (rev order) (nodes g) [])
    as (ns' & E' & Hs & He & Hl).
  - apply (deps_first_prefix (succs_of (nodes g)) (rev order)).
    apply rev_deps_first; try assumption; [apply Hres|exact (kr_order Hres)].
  - intros k [].
  - intros k Hk. apply in_rev in Hk. now apply Hres.
  - rewrite E'. simpl. exists (set_nodes g ns').
    split; [reflexivity|]. split; [reflexivity|]. split; [exact Hs|].
    split; [exact He|].
    intros k Hk. apply Hl. simpl. apply -> in_rev. apply Hall.
    unfold node_ids in *. simpl in Hk. destruct Hs as [K _]. now rewrite <- K.
Qed.

(** ** Slack and the critical path *)

Lemma dict_get_map_values (V W : Type) (f : V -> W) (d : dict V) k :
  dict_get (map (fun kv => (fst kv, f (snd kv))) d) k = option_map f (dict_get d k).
Proof.
  induction d as [|[k' v] d IH]; simpl; [reflexivity|].
  destruct (String.eqb k k'); [reflexivity|exact IH].
Qed.

Lemma dict_keys_map_values (V W : Type) (f : V -> W) (d : dict V) :
  dict_keys (map (fun kv => (fst kv, f (snd kv))) d) = dict_keys d.
Proof. unfold dict_keys. rewrite map_map. reflexivity. Qed.

Lemma slack_node_finalised n es ef ls lf :
  earliest_start n = Some es -> earliest_finish n = Some ef ->
  latest_start n = Some ls -> latest_finish n = Some lf ->
  node_finalised (slack_node n)
  /\ earliest_finish (slack_node n) = Some ef
  /\ skeleton (slack_node n) = skeleton n.
Proof.
  intros Es Ef Els Elf. unfold slack_node. rewrite Els, Es.
  split; [|split; [exact Ef|reflexivity]].
  exists es, ls. simpl. auto.
Qed.

Lemma insert_by_perm (A : Type) (key : A -> Z) x l :
  Permutation (insert_by key x l) (x :: l).
Proof.
  induction l as [|y l IH]; simpl; [reflexivity|].
  destruct (key x <=? key y); [reflexivity|].
  rewrite IH. apply perm_swap.
Qed.

Lemma sort_by_perm (A : Type) (key : A -> Z) l : Permutation (sort_by key l) l.
Proof.
  induction l as [|x l IH]; simpl; [reflexivity|].
  rewrite insert_by_perm. now apply perm_skip.
Qed.

Lemma insert_by_sorted (A : Type) (key : A -> Z) x l :
  StronglySorted (fun a b => key a <= key b) l ->
  StronglySorted (fun a b => key a <= key b) (insert_by key x l).
Proof.
  induction l as [|y l IH]; simpl; intros Hs.
  - repeat constructor.
  - inversion Hs as [|? ? Hs' Hy]; subst.
    destruct (Z.leb_spec (key x) (key y)) as [Hle|Hgt].
    + constructor; [assumption|]. constructor; [assumption|].
      eapply Forall_impl; [|exact Hy]. simpl. intros a Ha. lia.
    + constructor; [now apply IH|].
      eapply Permutation_Forall; [symmetry; apply insert_by_perm|].
      constructor; [lia|assumption].
Qed.

Lemma sort_by_sorted (A : Type) (key : A -> Z) l :
  StronglySorted (fun a b => key a <= key b) (sort_by key l).
Proof.
  induction l as [|x l IH]; simpl; [constructor|now apply insert_by_sorted].
Qed.

Lemma StronglySorted_impl_in (A : Type) (R R' : A -> A -> Prop) l :
  (forall a b, In a l -> In b l -> R a b -> R' a b) ->
  StronglySorted R l -> StronglySorted R' l.
Proof.
  intros H Hs. induction Hs as [|a l Hs IH Hf]; constructor.
  - apply IH. intros x y Hx Hy. apply H; now right.
  - rewrite Forall_forall in *. intros b Hb.
    apply H; [now left|now right|now apply Hf].
Qed.

Lemma has_cycle_acyclic g :
  wf_graph g -> acyclic g -> has_cycle g = Ok false.
Proof.
  intros Hwf Hacyc.
  destruct (has_cycle_total g (wf_adjacency Hwf)) as [[|] E]; [|exact E].
  exfalso. apply has_cycle_sound in E.
  destruct (succ_cycle_dep_cycle Hwf E) as [x Hx]. now apply Hacyc in Hx.
Qed.

(** The whole of [calculate_critical_path] on a non-empty acyclic graph. *)
Lemma calculate_critical_path_run g st :
  wf_graph g -> acyclic g -> nodes g <> [] ->
  exists g',
    calculate_critical_path g st = Ok g'
    /\ dependencies g' = dependencies g
    /\ same_structure (nodes g) (nodes g')
    /\ (forall k n, dict_get (nodes g') k = Some n -> node_finalised n)
    /\ critical_path g'
       = sort_by (start_key (nodes g'))
                 (map fst (filter (fun kv => is_critical (snd kv)) (nodes g'))).
Proof.
  intros Hwf Hacyc Hne. unfold calculate_critical_path.
  rewrite (has_cycle_acyclic g Hwf Hacyc). simpl.
  destruct (_forward_pass_total g st Hwf Hacyc) as (g1 & E1 & Hd1 & Hs1 & He1).
  rewrite E1. simpl.
  assert (Hwf1 : wf_graph g1).
  { unfold _forward_pass in E1.
    destruct (topological_sort g); simpl in E1; [|discriminate].
    destruct (forward_loop _ _ _ _) as [ns1|] eqn:El; simpl in E1; [|discriminate].
    injection E1 as <-. simpl in Hs1. now apply wf_same_structure. }
  assert (Hne1 : nodes g1 <> []).
  { destruct Hs1 as [K _]. intros H0. rewrite H0 in K. simpl in K.
    destruct (nodes g); [congruence|discriminate]. }
  destruct (_backward_pass_total g1 Hwf1 (acyclic_same_dependencies g g1 Hd1 Hacyc)
              Hne1 He1) as (g2 & E2 & Hd2 & Hs2 & Hse2 & Hl2).
  rewrite E2. simpl.
  assert (He2 : forall k, In k (node_ids g2) -> has_earliest (nodes g2) k).
  { intros k Hk. apply (same_earliest_has _ _ _ Hse2). apply He1.
    unfold node_ids in *. destruct Hs2 as [K _]. now rewrite <- K. }
  set (ns3 := map (fun kv => (fst kv, slack_node (snd kv))) (nodes g2)).
  assert (Hget3 : forall k n, dict_get ns3 k = Some n ->
             node_finalised n
             /\ (exists ef, earliest_finish n = Some ef)
             /\ exists n2, dict_get (nodes g2) k = Some n2
                           /\ skeleton n = skeleton n2).
  { intros k n. unfold ns3. rewrite dict_get_map_values.
    destruct (dict_get (nodes g2) k) as [n2|] eqn:En2; [|discriminate].
    simpl. intros [= <-].
    assert (Hk : In k (node_ids g2)) by (eapply dict_get_keys; eauto).
    destruct (He2 k Hk) as (n' & es & ef & En' & Es & Ef).
    destruct (Hl2 k Hk) as (n'' & ls & lf & En'' & Els & Elf).
    rewrite En2 in En', En''. injection En' as <-. injection En'' as <-.
    destruct (slack_node_finalised n2 es ef ls lf Es Ef Els Elf) as (H1 & H2 & H3).
    split; [exact H1|]. split; [eauto|]. exists n2. auto. }
  assert (Hne3 : is_empty ns3 = false).
  { unfold ns3. destruct (nodes g2) as [|kv l] eqn:E.
    - exfalso. destruct Hs2 as [K _]. rewrite ?E in K. simpl in K.
      apply Hne1. destruct (nodes g1); [reflexivity|discriminate].
    - reflexivity. }
  cbn [_calculate_slack set_nodes nodes dependencies critical_path total_duration].
  fold ns3. rewrite Hne3.
  destruct (max_of_earliest_finishes ns3) as [m Em].
  { destruct ns3; [discriminate|congruence]. }
  { intros k Hk. apply dict_keys_get in Hk as [n En].
    destruct (Hget3 k n En) as ((es & ls & Es & _) & (ef & Ef) & _).
    exists n, es, ef. auto. }
  rewrite Em. simpl. eexists. split; [reflexivity|]. simpl.
  split; [congruence|]. split; [|split].
  - eapply same_structure_trans; [exact Hs1|].
    eapply same_structure_trans; [exact Hs2|].
    split; [apply dict_keys_map_values|].
    intros k. unfold ns3. rewrite dict_get_map_values.
    destruct (dict_get (nodes g2) k) as [n2|] eqn:En2; [|reflexivity].
    simpl. f_equal. unfold slack_node.
    destruct (latest_start n2), (earliest_start n2); reflexivity.
  - intros k n En. now apply Hget3 in En.
  - reflexivity.
Qed.

Lemma calculate_critical_path_empty g st :
  nodes g = [] ->
  calculate_critical_path g st = Raise (ValueError msg_max_empty).
Proof.
  destruct g as [ns deps cp td]. simpl. intros ->. reflexivity.
Qed.

Lemma topological_sort_ok_acyclic g order :
  wf_graph g -> topological_sort g = Ok order -> acyclic g.
Proof.
  intros Hwf E. destruct (topological_sort_ok Hwf E) as (Hres & Hall & _).
  intros x Hx. apply (dep_cycle_succ_cycle Hwf) in Hx. revert Hx.
  apply (@preds_first_acyclic (nodes g) order);
    [now apply wf_adjacency|apply Hres|apply Hres|exact Hall].
Qed.

Lemma calculate_critical_path_ok_acyclic g st g' :
  wf_graph g -> calculate_critical_path g st = Ok g' -> acyclic g /\ nodes g <> [].
Proof.
  intros Hwf E. split.
  - unfold calculate_critical_path in E.
    destruct (has_cycle g) as [[|]|]; simpl in E; try discriminate.
    unfold _forward_pass in E.
    destruct (topological_sort g) as [order|] eqn:Et; simpl in E; [|discriminate].
    eapply topological_sort_ok_acyclic; eassumption.
  - intros H0. rewrite (calculate_critical_path_empty g st H0) in E. discriminate.
Qed.

(** C2.  On a graph that satisfies the builder's invariant and is acyclic,
    the full pass returns when the graph has at least one node, and whenever
    it returns: a node id is in [critical_path] exactly when the slack of its
    node is zero, and [critical_path] is in ascending order of
    [earliest_start]. *)
Theorem critical_path_zero_slack (g : DependencyGraph) (st : datetime) :
  wf_graph g -> acyclic g ->
  (nodes g <> [] -> exists g', calculate_critical_path g st = Ok g')
  /\ forall g', calculate_critical_path g st = Ok g' ->
       (forall k n, dict_get (nodes g') k = Some n ->
                    (In k (critical_path g') <-> slack n = 0))
       /\ StronglySorted (start_le g') (critical_path g').
Proof.
  intros Hwf Hacyc. split.
  - intros Hne.
    destruct (calculate_critical_path_run g st Hwf Hacyc Hne) as (g' & E & _).
    eauto.
  - intros g' E.
    destruct (calculate_critical_path_ok_acyclic g st g' Hwf E) as [_ Hne].
    destruct (calculate_critical_path_run g st Hwf Hacyc Hne)
      as (g'' & E' & _ & Hs & Hfin & Hcp).
    rewrite E in E'. injection E' as <-.
    assert (Hnd : NoDup (dict_keys (nodes g'))).
    { destruct Hs as [-> _]. apply Hwf. }
    assert (Hin : forall k, In k (critical_path g') <->
                            exists n, dict_get (nodes g') k = Some n
                                      /\ is_critical n = true).
    { intros k. rewrite Hcp. split.
      - intros H. apply (Permutation_in _ (sort_by_perm _ _ _)) in H.
        apply in_map_iff in H as ([k' n] & <- & Hf).
        apply filter_In in Hf as [Hkn Hc]. simpl in *.
        exists n. split; [now apply dict_In_get|assumption].
      - intros (n & En & Hc).
        apply (Permutation_in _ (Permutation_sym (sort_by_perm _ _ _))).
        apply in_map_iff. exists (k, n). split; [reflexivity|].
        apply filter_In. split; [now apply dict_get_In|assumption]. }
    split.
    + intros k n En. rewrite Hin.
      destruct (Hfin k n En) as (es & ls & _ & _ & _ & Hc).
      split.
      * intros (n' & En' & Hc'). rewrite En in En'. injection En' as <-.
        rewrite Hc in Hc'. now apply Z.eqb_eq.
      * intros H0. exists n. split; [assumption|]. rewrite Hc. now apply Z.eqb_eq.
    + apply (StronglySorted_impl_in _
               (fun a b => start_key (nodes g') a <= start_key (nodes g') b));
        [|rewrite Hcp; apply sort_by_sorted].
      intros a b Ha Hb Hle.
      apply Hin in Ha as (na & Ena & _). apply Hin in Hb as (nb & Enb & _).
      destruct (Hfin a na Ena) as (sa & _ & Esa & _).
      destruct (Hfin b nb Enb) as (sb & _ & Esb & _).
      exists na, nb, sa, sb. repeat split; try assumption.
      unfold start_key in Hle. rewrite Ena, Enb, Esa, Esb in Hle. exact Hle.
Qed.

Lemma g_abc_acyclic : acyclic g_abc.
Proof.
  apply (topological_sort_ok_acyclic g_abc ["A"; "B"; "C"] g_abc_wf). reflexivity.
Qed.

Lemma critical_path_zero_slack_witness :
  (nodes g_abc <> [] ->
   exists g', calculate_critical_path g_abc (days 738000 + hours 9) = Ok g')
  /\ forall g', calculate_critical_path g_abc (days 738000 + hours 9) = Ok g' ->
       (forall k n, dict_get (nodes g') k = Some n ->
                    (In k (critical_path g') <-> slack n = 0))
       /\ StronglySorted (start_le g') (critical_path g').
Proof.
  exact (critical_path_zero_slack g_abc (days 738000 + hours 9)
           g_abc_wf g_abc_acyclic).
Defined.

(* ------------------------------------------------------------------ *)
(** * The scenario of three activities *)

(** Settles the comparisons of times of the form [t0 + c] that stop the
    evaluation of the passes. *)
Ltac decide_times :=
  repeat match goal with
  | |- context [Z.max ?a ?b] =>
      first [ replace (Z.max a b) with b by lia | replace (Z.max a b) with a by lia ]
  | |- context [Z.min ?a ?b] =>
      first [ replace (Z.min a b) with a by lia | replace (Z.min a b) with b by lia ]
  end;
  repeat match goal with
  | |- context [?a =? ?b] =>
      first [ replace (a =? b) with true by (symmetry; apply Z.eqb_eq; lia)
            | replace (a =? b) with false by (symmetry; apply Z.eqb_neq; lia) ]
  | |- context [?a <=? ?b] =>
      first [ replace (a <=? b) with true by (symmetry; apply Z.leb_le; lia)
            | replace (a <=? b) with false by (symmetry; apply Z.leb_gt; lia) ]
  end.

Lemma app_eq_pair (A : Type) (l1 l2 : list A) u v :
  l1 ++ l2 = [u; v] ->
  (l1 = [] /\ l2 = [u; v]) \/ (l1 = [u] /\ l2 = [v]) \/ (l1 = [u; v] /\ l2 = []).
Proof.
  destruct l1 as [|x [|y [|z l1]]]; simpl; intros E.
  - auto.
  - injection E as -> ->. auto.
  - injection E as -> -> E. destruct l2; [auto|discriminate].
  - discriminate.
Qed.

Lemma permutation_three (A : Type) (a b c : A) l :
  Permutation l [a; b; c] ->
  l = [a; b; c] \/ l = [a; c; b] \/ l = [b; a; c]
  \/ l = [b; c; a] \/ l = [c; a; b] \/ l = [c; b; a].
Proof.
  intros H.
  destruct (Permutation_vs_cons_inv H) as (l1 & l2 & ->).
  apply (Permutation_app_inv l1 l2 [] [b; c] a) in H.
  apply Permutation_sym, Permutation_length_2_inv in H.
  destruct H as [H|H]; apply app_eq_pair in H as [[-> ->]|[[-> ->]|[-> ->]]];
    simpl; auto 10.
Qed.

(** Runs the builder and the full pass on a concrete list of activities with a
    start [t0 + c]. *)
Ltac run_abc :=
  eexists; eexists; split; [vm_compute; reflexivity|];
  split; [reflexivity|];
  cbn [hours minutes];
  unfold calculate_critical_path;
  match goal with
  | |- context [has_cycle ?g] =>
      replace (has_cycle g) with (Ok false) by (vm_compute; reflexivity)
  end;
  cbn [bind]; unfold _forward_pass;
  match goal with
  | |- context [topological_sort ?g] =>
      replace (topological_sort g) with (Ok ["A"; "B"; "C"])
        by (vm_compute; reflexivity)
  end;
  repeat (progress (cbn; decide_times));
  split; [reflexivity|]; cbn;
  repeat split;
    lazymatch goal with
    | |- Some (_, _) = Some (_, _) => f_equal; f_equal; lia
    | |- Some _ = Some _ => f_equal; lia
    | |- _ => reflexivity
    end.

(** C1.  For the three activities A (preparation, 1h), B (ceremony, 2h) and C
    (cleanup, 1h) without setup or cleanup time, given in any order and with
    any priorities, and a project start at 09:00 of any day: the builder
    infers A->B (finish_to_start, 15 min) and B->C (finish_to_start, 30 min);
    the full pass gives A the window 09:00-10:00, B 10:15-12:15 and C
    12:45-13:45, the critical path [A, B, C], and slack 0 for the three
    nodes. *)
Theorem abc_scenario (d : date) (pa pb pc : Priority) (activities : list Activity) :
  Permutation activities (abc_activities pa pb pc) ->
  exists g g',
    create_dependency_graph activities = Ok g
    /\ dependencies g = [mkDependency "A" "B" "finish_to_start" (minutes 15);
                         mkDependency "B" "C" "finish_to_start" (minutes 30)]
    /\ calculate_critical_path g (combine d (hours 9)) = Ok g'
    /\ window g' "A" = Some (combine d (hours 9), combine d (hours 10))
    /\ window g' "B" = Some (combine d (hours 10 + minutes 15),
                             combine d (hours 12 + minutes 15))
    /\ window g' "C" = Some (combine d (hours 12 + minutes 45),
                             combine d (hours 13 + minutes 45))
    /\ critical_path g' = ["A"; "B"; "C"]
    /\ slack_of g' "A" = Some 0 /\ slack_of g' "B" = Some 0
    /\ slack_of g' "C" = Some 0.
Proof.
  intros H. apply permutation_three in H.
  unfold combine. generalize (d * day_us). intros t0.
  destruct H as [->|[->|[->|[->|[->| ->]]]]]; run_abc.
Qed.

Lemma abc_scenario_witness :
  Permutation (abc_activities MEDIUM CRITICAL LOW) (abc_activities MEDIUM CRITICAL LOW)
  /\ exists g g',
       create_dependency_graph (abc_activities MEDIUM CRITICAL LOW) = Ok g
       /\ dependencies g = [mkDependency "A" "B" "finish_to_start" (minutes 15);
                            mkDependency "B" "C" "finish_to_start" (minutes 30)]
       /\ calculate_critical_path g (combine 738000 (hours 9)) = Ok g'
       /\ window g' "A" = Some (combine 738000 (hours 9), combine 738000 (hours 10))
       /\ window g' "B" = Some (combine 738000 (hours 10 + minutes 15),
                                combine 738000 (hours 12 + minutes 15))
       /\ window g' "C" = Some (combine 738000 (hours 12 + minutes 45),
                                combine 738000 (hours 13 + minutes 45))
       /\ critical_path g' = ["A"; "B"; "C"]
       /\ slack_of g' "A" = Some 0 /\ slack_of g' "B" = Some 0
       /\ slack_of g' "C" = Some 0.
Proof.
  split; [apply Permutation_refl|].
  exact (abc_scenario 738000 MEDIUM CRITICAL LOW
           (abc_activities MEDIUM CRITICAL LOW)
           (Permutation_refl (abc_activities MEDIUM CRITICAL LOW))).
Defined.

(* ------------------------------------------------------------------ *)
(** * The backward pass without a forward pass *)



Lemma g_xy_wf : wf_graph g_xy.
Proof. unfold g_xy. repeat apply wf_add_activity. apply wf_empty_graph. Qed.



(* ------------------------------------------------------------------ *)
(** * Duplicate edges *)

Lemma dict_update_id (V : Type) (d : dict V) k (f : V -> V) :
  (forall v, dict_get d k = Some v -> f v = v) -> dict_update d k f = d.
Proof.
  induction d as [|[k' v'] d IH]; simpl; intros H; [reflexivity|].
  destruct (String.eqb k k').
  - now rewrite H.
  - f_equal. now apply IH.
Qed.

Lemma set_predecessors_id n p :
  In p (predecessors n) -> set_predecessors n (set_add p (predecessors n)) = n.
Proof.
  intros H. rewrite set_add_member by assumption. destruct n; reflexivity.
Qed.

Lemma set_successors_id n s :
  In s (successors n) -> set_successors n (set_add s (successors n)) = n.
Proof.
  intros H. rewrite set_add_member by assumption. destruct n; reflexivity.
Qed.

Lemma find_dependency_app deps d p s :
  find_dependency (deps ++ [d]) p s =
  match find_dependency deps p s with
  | Some d' => Some d'
  | None => find_dependency [d] p s
  end.
Proof.
  unfold find_dependency. induction deps as [|d0 deps IH]; simpl; [reflexivity|].
  destruct (String.eqb (predecessor_id d0) p && String.eqb (successor_id d0) s);
    [reflexivity|exact IH].
Qed.

Lemma find_dependency_duplicate deps d1 d2 :
  predecessor_id d2 = predecessor_id d1 -> successor_id d2 = successor_id d1 ->
  forall p s, find_dependency ((deps ++ [d1]) ++ [d2]) p s
              = find_dependency (deps ++ [d1]) p s.
Proof.
  intros Hp Hs p s. rewrite (find_dependency_app (deps ++ [d1])).
  destruct (find_dependency (deps ++ [d1]) p s) eqn:E; [reflexivity|].
  rewrite find_dependency_app in E.
  destruct (find_dependency deps p s); [discriminate|].
  unfold find_dependency in *. simpl in *. rewrite Hp, Hs.
  destruct (String.eqb (predecessor_id d1) p && String.eqb (successor_id d1) s);
    [discriminate|reflexivity].
Qed.

Section SameEdges.
Variables deps deps' : list Dependency.
Hypothesis same_first :
  forall p s, find_dependency deps p s = find_dependency deps' p s.

Lemma forward_preds_ext ns aid node preds : forall e,
  forward_preds ns deps aid node preds e = forward_preds ns deps' aid node preds e.
Proof.
  induction preds as [|p preds IH]; intros e; simpl; [reflexivity|].
  destruct (dict_lookup ns p); simpl; [|reflexivity].
  rewrite same_first. destruct (find_dependency deps' p aid); [|apply IH].
  destruct (candidate_start _ _ _); simpl; [apply IH|reflexivity].
Qed.

Lemma forward_loop_ext st order : forall ns,
  forward_loop ns deps st order = forward_loop ns deps' st order.
Proof.
  induction order as [|v order IH]; intros ns; simpl; [reflexivity|].
  destruct (dict_lookup ns v) as [n|]; simpl; [|reflexivity].
  rewrite forward_preds_ext.
  destruct (if is_empty (predecessors n) then Ok st else _); simpl;
    [apply IH|reflexivity].
Qed.

Lemma backward_succs_ext ns aid node succs : forall e,
  backward_succs ns deps aid node succs e = backward_succs ns deps' aid node succs e.
Proof.
  induction succs as [|s succs IH]; intros e; simpl; [reflexivity|].
  destruct (dict_lookup ns s); simpl; [|reflexivity].
  rewrite same_first. destruct (find_dependency deps' aid s); [|apply IH].
  destruct (candidate_finish _ _ _); simpl; [apply IH|reflexivity].
Qed.

Lemma backward_loop_ext pe order : forall ns,
  backward_loop ns deps pe order = backward_loop ns deps' pe order.
Proof.
  induction order as [|v order IH]; intros ns; simpl; [reflexivity|].
  destruct (dict_lookup ns v) as [n|]; simpl; [|reflexivity].
  rewrite backward_succs_ext.
  destruct (if is_empty (successors n) then Ok pe else _); simpl;
    [apply IH|reflexivity].
Qed.
End SameEdges.

Lemma passes_same_edges g g' :
  nodes g' = nodes g ->
  (forall p s, find_dependency (dependencies g') p s
               = find_dependency (dependencies g) p s) ->
  (forall st, nodes_of (_forward_pass g' st) = nodes_of (_forward_pass g st))
  /\ nodes_of (_backward_pass g') = nodes_of (_backward_pass g).
Proof.
  intros Hn Hf.
  assert (Ht : topological_sort g' = topological_sort g).
  { unfold topological_sort, has_cycle. now rewrite Hn. }
  split.
  - intros st. unfold _forward_pass. rewrite Ht, Hn.
    destruct (topological_sort g) as [order|]; simpl; [|reflexivity].
    rewrite (forward_loop_ext _ _ Hf).
    destruct (forward_loop _ _ _ _); reflexivity.
  - unfold _backward_pass. rewrite Ht, Hn.
    destruct (topological_sort g) as [order|]; simpl; [|reflexivity].
    destruct (max_of _); simpl; [|reflexivity].
    rewrite (backward_loop_ext _ _ Hf).
    destruct (backward_loop _ _ _ _); reflexivity.
Qed.

(** The window of [y] with the duplicate is the one of the first edge: the
    start is 15 minutes after the end of [x], not one hour after its start. *)
Example duplicate_dependency_first_wins :
  let d1 := mkDependency "x" "y" "finish_to_start" (minutes 15) in
  let d2 := mkDependency "x" "y" "start_to_start" (hours 3) in
  let g2 := graph_of (g1 <- add_dependency g_xy d1 ;; add_dependency g1 d2) in
  List.length (dependencies g2) = 2%nat
  /\ window (graph_of (_forward_pass g2 0)) "y"
     = Some (hours 1 + minutes 15, hours 2 + minutes 15).
Proof. split; reflexivity. Qed.

(* ------------------------------------------------------------------ *)
(** * Buffer time *)



(** With exact arithmetic: a two-hour activity of high priority, complexity
    score 5 and two dependencies gets 7200 s x 0.20 x 1.2 x 1.1 = 1900.8 s. *)
Example calculate_buffer_time_two_hours :
  @calculate_buffer_time exact_float act_two_hours ctx_score_5 2
  = seconds 1900 + microseconds 800000.
Proof. reflexivity. Qed.







(** For every implementation of the floating-point operations the result
    lies between 15 minutes and 2 hours. *)
Lemma calculate_buffer_time_bounds {F : PyFloat} (a : Activity)
    (context : EventContext) (dependency_count : Z) :
  minutes 15 <= calculate_buffer_time a context dependency_count <= hours 2.
Proof. unfold calculate_buffer_time, minutes, hours. cbv zeta. lia. Qed.




(* ------------------------------------------------------------------ *)
(** * Vendor conflicts *)

(** The special case of C5 with two activities holds: two nodes that share
    their one vendor and whose windows overlap give one entry, which names the
    two activities in the order of their starts. *)
Lemma check_resource_conflicts_two g ka kb na nb v sa fa sb fb :
  nodes g = [(ka, na); (kb, nb)] ->
  required_vendors (activity na) = [v] ->
  required_vendors (activity nb) = [v] ->
  earliest_start na = Some sa -> earliest_finish na = Some fa ->
  earliest_start nb = Some sb -> earliest_finish nb = Some fb ->
  sa < fb -> sb < fa ->
  _check_resource_conflicts g
  = [ if sa <=? sb
      then msg_vendor_conflict v (name (activity na)) (name (activity nb))
      else msg_vendor_conflict v (name (activity nb)) (name (activity na)) ].
Proof.
  intros Hn Hva Hvb Esa Efa Esb Efb H1 H2.
  unfold _check_resource_conflicts, vendor_activities. rewrite Hn.
  cbn [fold_left snd]. rewrite Hva, Hvb.
  cbn [fold_left group_append dict_get dict_set].
  unfold group_append. cbn [dict_get]. rewrite String.eqb_refl.
  cbn [dict_set]. rewrite String.eqb_refl.
  cbn [flat_map fst snd List.length Nat.ltb Nat.leb app sort_by fold_right insert_by].
  rewrite Esa, Esb. cbn [or_datetime_min].
  destruct (Z.leb_spec sa sb) as [Hle|Hgt]; cbn [adjacent_conflicts snd app].
  - rewrite Efa, Esb.
    destruct (Z.ltb_spec sb fa); [reflexivity|lia].
  - rewrite Efb, Esa.
    destruct (Z.ltb_spec sa fb); [reflexivity|lia].
Qed.

(** C5 at three activities that all need the photographer and all start at
    09:00: the two pairs that are neighbours in start order are reported, the
    pair X, Z is not, although its windows overlap. *)
Theorem vendor_conflict_pair_missed :
  resolve_conflicts g_vendors
  = Ok [ msg_vendor_conflict "photographer" "X" "Y";
         msg_vendor_conflict "photographer" "Y" "Z" ]
  /\ windows_overlap (window g_vendors "X") (window g_vendors "Z")
  /\ (forall k n, dict_get (nodes g_vendors) k = Some n ->
                  required_vendors (activity n) = ["photographer"]).
Proof.
  split; [reflexivity|]. split.
  - vm_compute. split; reflexivity.
  - intros k n.
    let v := eval vm_compute in (nodes g_vendors) in
    change (nodes g_vendors) with v.
    cbn [dict_get].
    repeat (destruct (String.eqb k _); [intros [= <-]; reflexivity|]).
    discriminate.
Qed.

(* ------------------------------------------------------------------ *)
(** * Day packing *)

Section Packing.
Context {F : PyFloat}.
Variable ctx : TimelineGenerationContext.

Lemma load_app l1 l2 : load (l1 ++ l2) = load l1 + load l2.
Proof.
  unfold load. induction l1 as [|ta l1 IH]; simpl; [reflexivity|]. lia.
Qed.

Lemma schedule_step_inv st ta :
  footprint ta <= window_length ctx ->
  sched_inv ctx st -> sched_inv ctx (schedule_step ctx st ta).
Proof.
  intros Hfp [Hdays Hstart Hend]. unfold schedule_step.
  fold (day_start ctx (current_date st)).
  unfold get_daily_end_time. fold (window_length ctx).
  set (scheduled := mkTimed _ _ _ _ _ _).
  assert (Hload : forall l, load (l ++ [scheduled]) = load l + footprint ta).
  { intros l. rewrite load_app.
    change (load [scheduled]) with (footprint ta + 0). lia. }
  destruct (Z.ltb_spec (day_start ctx (current_date st) + window_length ctx)
                       (current_time st + footprint ta)) as [Hlate|Hfits].
  - constructor; cbn [timeline_days current_date current_time daily_activities].
    + intros day Hin.
      destruct (daily_activities st) as [|ta0 l] eqn:Ed; simpl in Hin.
      * now apply Hdays.
      * apply in_app_iff in Hin as [Hin|[<-|[]]]; [now apply Hdays|].
        match goal with
        | |- day_load ?d <= _ => change (day_load d) with (load (ta0 :: l))
        end.
        assert (Hne : ta0 :: l <> []) by discriminate.
        specialize (Hend Hne). lia.
    + fold (day_start ctx (current_date st + 1)).
      rewrite Hload. change (load []) with 0. unfold footprint. lia.
    + intros _. fold (day_start ctx (current_date st + 1)).
      unfold footprint in Hfp. lia.
  - constructor; cbn [timeline_days current_date current_time daily_activities].
    + exact Hdays.
    + rewrite Hload. unfold footprint. unfold footprint in Hstart. lia.
    + intros _. unfold footprint in Hfits. lia.
Qed.

Lemma schedule_loop_inv activity_map order : forall st,
  (forall k ta, dict_get activity_map k = Some ta ->
                footprint ta <= window_length ctx) ->
  sched_inv ctx st ->
  sched_inv ctx (schedule_loop ctx activity_map order st).
Proof.
  induction order as [|k order IH]; intros st Hfp Hinv; simpl; [assumption|].
  destruct (dict_get activity_map k) as [ta|] eqn:E.
  - apply IH; [assumption|]. apply schedule_step_inv; [|assumption].
    eapply Hfp; eassumption.
  - now apply IH.
Qed.

Lemma activity_map_In (l : list TimedActivity) : forall m k ta,
  dict_get (fold_left (fun m ta => dict_set m (id (ta_activity ta)) ta) l m) k
  = Some ta ->
  In ta l \/ dict_get m k = Some ta.
Proof.
  induction l as [|ta0 l IH]; intros m k ta H; simpl in *; [auto|].
  apply IH in H as [H|H]; [auto|].
  rewrite dict_get_set in H.
  destruct (String.eqb k (id (ta_activity ta0))); [|auto].
  injection H as <-. auto.
Qed.

(** C4, as the code has it: when no activity is longer than the daily window
    by itself and the start time is not before the daily window of the start
    date, the scheduler returns whenever the topological order exists, and
    the footprints of the activities of every day it emits sum to at most the
    daily window. *)
Theorem day_packing_bound (timed_activities : list TimedActivity)
    (g : DependencyGraph) (order : list string) :
  (forall ta, In ta timed_activities -> footprint ta <= window_length ctx) ->
  day_start ctx (start_date ctx) <= ctx_start_time ctx ->
  topological_sort g = Ok order ->
  exists timeline,
    _schedule_activities_to_days timed_activities g ctx = Ok timeline
    /\ forall day, In day timeline -> day_load day <= window_length ctx.
Proof.
  intros Hfp Hstart Horder. unfold _schedule_activities_to_days.
  rewrite Horder. cbn [bind].
  match goal with
  | |- context [schedule_loop ctx ?m order ?s] =>
      set (activity_map := m); set (st0 := s)
  end.
  assert (Hinv : sched_inv ctx (schedule_loop ctx activity_map order st0)).
  { apply schedule_loop_inv.
    - intros k ta H. apply activity_map_In in H as [H|H]; [auto|discriminate].
    - constructor; simpl.
      + intros day [].
      + unfold load. simpl. lia.
      + congruence. }
  destruct Hinv as [Hdays Hs He].
  eexists. split; [reflexivity|]. intros day Hin.
  destruct (daily_activities _) as [|ta0 l] eqn:Ed; simpl in Hin.
  - now apply Hdays.
  - apply in_app_iff in Hin as [Hin|[<-|[]]]; [now apply Hdays|].
    match goal with
    | |- day_load ?d <= _ => change (day_load d) with (load (ta0 :: l))
    end.
    assert (Hne : ta0 :: l <> []) by discriminate.
    specialize (He Hne). lia.
Qed.
End Packing.

Lemma day_packing_bound_witness :
  (forall ta, In ta two_short -> footprint ta <= window_length (default_context 738000))
  /\ day_start (default_context 738000) (start_date (default_context 738000))
     <= ctx_start_time (default_context 738000)
  /\ topological_sort g_xy = Ok ["x"; "y"]
  /\ exists timeline,
       _schedule_activities_to_days two_short g_xy (default_context 738000)
       = Ok timeline
       /\ forall day, In day timeline ->
                      day_load day <= window_length (default_context 738000).
Proof.
  assert (H1 : forall ta, In ta two_short ->
                          footprint ta <= window_length (default_context 738000)).
  { intros ta [<-|[<-|[]]]; vm_compute; discriminate. }
  assert (H2 : day_start (default_context 738000)
                         (start_date (default_context 738000))
               <= ctx_start_time (default_context 738000)).
  { vm_compute. discriminate. }
  assert (H3 : topological_sort g_xy = Ok ["x"; "y"]) by reflexivity.
  split; [exact H1|]. split; [exact H2|]. split; [exact H3|].
  exact (@day_packing_bound exact_float (default_context 738000)
           two_short g_xy ["x"; "y"] H1 H2 H3).
Defined.

(** C4 as stated fails.  With the default window of 12 hours, an activity
    of 8 h with 3 h of setup, 2 h of cleanup and buffers of 1 h and 15 min is put
    on a day by itself, and that day carries 14 h 15 min; and when the start
    time lies before the start date, the first day takes three activities of
    11 h each. *)
Lemma day_packing_exceeds_window :
  (exists day,
      _schedule_activities_to_days [long_timed] g_long (default_context 738000)
      = Ok [day]
      /\ day_load day = hours 14 + minutes 15
      /\ window_length (default_context 738000) = hours 12)
  /\ (exists day,
        _schedule_activities_to_days three_long g_three_long early_context
        = Ok [day]
        /\ day_load day = hours 33
        /\ window_length early_context = hours 12).
Proof.
  split; eexists; (split; [vm_compute; reflexivity|]); split; reflexivity.
Qed.

(* ------------------------------------------------------------------ *)
(** * [has_cycle] misses no cycle *)

Lemma settled_reach ns c u w :
  settled ns c -> clos_trans string (succ_edge ns) u w -> black c u -> black c w.
Proof.
  intros Hs Hp. induction Hp as [x y Hxy|x y z _ IH1 _ IH2]; intros Hb.
  - exact (@settled_closed _ _ Hs x y Hb Hxy).
  - auto.
Qed.

Lemma dfs_children_complete ns fuel :
  dfs_complete_at ns fuel ->
  forall succs c c',
    dfs_children (dfs fuel ns) succs c = Ok (false, c') -> settled ns c ->
    settled ns c' /\ (forall s, In s succs -> black c' s)
    /\ (forall u, black c u -> black c' u)
    /\ (forall u, gray c' u <-> gray c u).
Proof.
  intros Hdfs. induction succs as [|s succs IH]; intros c c' E Hs; simpl in E.
  - injection E as <-. split; [assumption|]. split; [intros s []|].
    split; [auto|tauto].
  - destruct (dfs fuel ns c s) as [[b1 c1]|e] eqn:E1; simpl in E; [|discriminate].
    destruct b1; [discriminate|].
    destruct (Hdfs _ _ _ E1 Hs) as (Hs1 & Hb1 & Hm1 & Hg1).
    destruct (IH _ _ E Hs1) as (Hs2 & Hb2 & Hm2 & Hg2).
    split; [assumption|]. split; [|split].
    + intros x [<-|Hx]; auto.
    + auto.
    + intros u. rewrite Hg2. apply Hg1.
Qed.

Lemma dfs_complete ns fuel : dfs_complete_at ns fuel.
Proof.
  induction fuel as [|fuel IH]; intros c v c' E Hs; simpl in E; [discriminate|].
  unfold dict_lookup in E.
  destruct (dict_get c v) as [col|] eqn:Ec; simpl in E; [|discriminate].
  destruct col; [|discriminate|].
  - destruct (dict_get ns v) as [n|] eqn:En; simpl in E; [|discriminate].
    destruct (dfs_children (dfs fuel ns) (successors n) (dict_set c v GRAY))
      as [[b2 c2]|e] eqn:E2; simpl in E; [|discriminate].
    destruct b2; [discriminate|]. injection E as <-.
    assert (Hblack1 : forall u, black (dict_set c v GRAY) u <-> black c u).
    { intros u. unfold black. rewrite dict_get_set.
      destruct (String.eqb_spec u v) as [E|Hne].
      - subst u. rewrite Ec. split; discriminate.
      - tauto. }
    assert (Hs1 : settled ns (dict_set c v GRAY)).
    { split.
      - intros u s Hu Hus. apply Hblack1. apply Hblack1 in Hu.
        exact (@settled_closed _ _ Hs u s Hu Hus).
      - intros u Hu. apply Hblack1 in Hu. exact (@settled_acyclic _ _ Hs u Hu). }
    destruct (dfs_children_complete ns fuel IH _ _ _ E2 Hs1) as (Hs2 & Hb2 & Hm2 & Hg2).
    assert (Hgv : gray c2 v).
    { apply Hg2. unfold gray. rewrite dict_get_set, String.eqb_refl. reflexivity. }
    assert (Hblack' : forall u, black (dict_set c2 v BLACK) u <-> u = v \/ black c2 u).
    { intros u. unfold black. rewrite dict_get_set.
      destruct (String.eqb_spec u v) as [E|Hne].
      - subst u. split; auto.
      - split; [auto|]. intros [?|?]; [contradiction|assumption]. }
    assert (Hnb : ~ black c2 v).
    { unfold black, gray in *. rewrite Hgv. discriminate. }
    split; [split|].
    + intros u s Hu Hus. apply Hblack'. apply Hblack' in Hu as [E|Hu].
      * subst u. right. apply Hb2. unfold succ_edge, succs_of in Hus.
        now rewrite En in Hus.
      * right. exact (@settled_closed _ _ Hs2 u s Hu Hus).
    + intros u Hu Hcyc. apply Hblack' in Hu as [E|Hu].
      * subst u. apply clos_trans_t1n in Hcyc.
        inversion Hcyc as [y Hvy|y z Hvy Hrest]; subst.
        -- apply Hnb. apply Hb2. unfold succ_edge, succs_of in Hvy.
           now rewrite En in Hvy.
        -- apply Hnb. apply (@settled_reach ns c2 y v Hs2).
           ++ now apply clos_t1n_trans.
           ++ apply Hb2. unfold succ_edge, succs_of in Hvy. now rewrite En in Hvy.
      * exact (@settled_acyclic _ _ Hs2 u Hu Hcyc).
    + split; [apply Hblack'; auto|]. split.
      * intros u Hu. apply Hblack'. right. apply Hm2. now apply Hblack1.
      * intros u. unfold gray. rewrite dict_get_set.
        destruct (String.eqb_spec u v) as [E|Hne].
        -- subst u. rewrite Ec. split; discriminate.
        -- specialize (Hg2 u). unfold gray in Hg2. rewrite Hg2.
           rewrite dict_get_set.
           destruct (String.eqb_spec u v); [contradiction|tauto].
  - injection E as <-. split; [assumption|]. split; [exact Ec|].
    split; [auto|tauto].
Qed.

Lemma has_cycle_loop_complete ns fuel ids : forall c,
  has_cycle_loop fuel ns ids c = Ok false ->
  settled ns c -> (forall u, ~ gray c u) ->
  forall k, In k ids -> ~ clos_trans string (succ_edge ns) k k.
Proof.
  induction ids as [|k0 ids IH]; intros c E Hs Hng k Hk; [contradiction|].
  simpl in E. unfold dict_lookup in E.
  destruct (dict_get c k0) as [col|] eqn:Ec; simpl in E; [|discriminate].
  destruct col.
  - destruct (dfs fuel ns c k0) as [[b1 c1]|e] eqn:E1; simpl in E; [|discriminate].
    destruct b1; [discriminate|].
    destruct (@dfs_complete ns fuel _ _ _ E1 Hs) as (Hs1 & Hb1 & Hm1 & Hg1).
    assert (Hng1 : forall u, ~ gray c1 u).
    { intros u Hu. apply Hg1 in Hu. exact (Hng u Hu). }
    destruct Hk as [<-|Hk].
    + exact (@settled_acyclic _ _ Hs1 k0 Hb1).
    + exact (IH c1 E Hs1 Hng1 k Hk).
  - exfalso. exact (Hng k0 Ec).
  - destruct Hk as [<-|Hk].
    + exact (@settled_acyclic _ _ Hs k0 Ec).
    + exact (IH c E Hs Hng k Hk).
Qed.

Lemma has_cycle_false_acyclic g :
  wf_graph g -> has_cycle g = Ok false -> acyclic g.
Proof.
  intros Hwf E u Hcyc.
  pose proof (dep_cycle_succ_cycle Hwf Hcyc) as Hs.
  assert (Hu : In u (dict_keys (nodes g))).
  { apply clos_trans_t1n in Hcyc.
    inversion Hcyc as [y Huy|y z Huy _]; subst;
      exact (proj1 (dep_edge_ids Hwf Huy)). }
  revert Hs. unfold has_cycle in E.
  apply (has_cycle_loop_complete _ _ _ _ E); [| |exact Hu].
  - split; intros x; intros; unfold black in *;
      match goal with
      | H : dict_get (initial_colors _) _ = Some BLACK |- _ =>
          apply initial_colors_get in H; discriminate
      end.
  - intros x Hx. apply initial_colors_get in Hx. discriminate.
Qed.

(** X1. [has_cycle] decides whether the graph has a dependency cycle: on a
    graph kept by [add_activity] and [add_dependency] it always returns, it
    returns [True] exactly when some activity depends on itself through a
    chain of dependencies, and [False] exactly when there is none. *)
Theorem has_cycle_exact (g : DependencyGraph) :
  wf_graph g ->
  (has_cycle g = Ok true <-> has_dep_cycle g)
  /\ (has_cycle g = Ok false <-> acyclic g).
Proof.
  intros Hwf.
  assert (Hfalse : has_cycle g = Ok false <-> acyclic g).
  { split; [now apply has_cycle_false_acyclic|now apply has_cycle_acyclic]. }
  split; [|exact Hfalse]. split.
  - intros E. apply succ_cycle_dep_cycle; [assumption|]. now apply has_cycle_sound.
  - intros [u Hu].
    destruct (has_cycle_total g (wf_adjacency Hwf)) as [b Eb].
    destruct b; [assumption|]. exfalso.
    exact (proj1 Hfalse Eb u Hu).
Qed.

Lemma g_loop_wf : wf_graph g_loop.
Proof.
  assert (E : add_dependencies g_xy
                [mkDependency "x" "y" "finish_to_start" 0;
                 mkDependency "y" "x" "finish_to_start" 0] = Ok g_loop)
    by (vm_compute; reflexivity).
  exact (@wf_add_dependencies _ _ _ g_xy_wf E).
Qed.

Lemma has_cycle_exact_witness :
  wf_graph g_loop
  /\ (has_cycle g_loop = Ok true <-> has_dep_cycle g_loop)
  /\ (has_cycle g_loop = Ok false <-> acyclic g_loop).
Proof.
  split; [exact g_loop_wf|exact (has_cycle_exact g_loop g_loop_wf)].
Defined.

(* ------------------------------------------------------------------ *)
(** * The times computed by the critical path method *)

(** ** The passes read only the times of the neighbours *)

Lemma forward_preds_view ns1 ns2 deps k n1 n2 preds :
  (forall p, In p preds ->
     option_map (fun n => (earliest_start n, earliest_finish n)) (dict_get ns2 p)
     = option_map (fun n => (earliest_start n, earliest_finish n)) (dict_get ns1 p)) ->
  node_total_duration n1 = node_total_duration n2 ->
  forall e, forward_preds ns1 deps k n1 preds e = forward_preds ns2 deps k n2 preds e.
Proof.
  intros Hview Hdur. induction preds as [|p preds IH]; intros e; simpl; [reflexivity|].
  assert (Hrest : forall q, In q preds ->
     option_map (fun n => (earliest_start n, earliest_finish n)) (dict_get ns2 q)
     = option_map (fun n => (earliest_start n, earliest_finish n)) (dict_get ns1 q))
    by (intros q Hq; apply Hview; now right).
  specialize (Hview p (or_introl eq_refl)). unfold dict_lookup.
  destruct (dict_get ns1 p) as [a|], (dict_get ns2 p) as [b|];
    simpl in Hview; try discriminate; [|reflexivity].
  injection Hview as Hs Hf. simpl.
  destruct (find_dependency deps p k) as [dep|]; [|now apply IH].
  assert (Hc : candidate_start dep a n1 = candidate_start dep b n2).
  { unfold candidate_start. now rewrite Hs, Hf, Hdur. }
  rewrite Hc. destruct (candidate_start dep b n2); simpl; [now apply IH|reflexivity].
Qed.

Lemma backward_succs_view ns1 ns2 deps k n1 n2 succs :
  (forall s, In s succs ->
     option_map (fun n => (latest_start n, latest_finish n)) (dict_get ns2 s)
     = option_map (fun n => (latest_start n, latest_finish n)) (dict_get ns1 s)) ->
  node_total_duration n1 = node_total_duration n2 ->
  forall e, backward_succs ns1 deps k n1 succs e = backward_succs ns2 deps k n2 succs e.
Proof.
  intros Hview Hdur. induction succs as [|s succs IH]; intros e; simpl; [reflexivity|].
  assert (Hrest : forall q, In q succs ->
     option_map (fun n => (latest_start n, latest_finish n)) (dict_get ns2 q)
     = option_map (fun n => (latest_start n, latest_finish n)) (dict_get ns1 q))
    by (intros q Hq; apply Hview; now right).
  specialize (Hview s (or_introl eq_refl)). unfold dict_lookup.
  destruct (dict_get ns1 s) as [a|], (dict_get ns2 s) as [b|];
    simpl in Hview; try discriminate; [|reflexivity].
  injection Hview as Hs Hf. simpl.
  destruct (find_dependency deps k s) as [dep|]; [|now apply IH].
  assert (Hc : candidate_finish dep a n1 = candidate_finish dep b n2).
  { unfold candidate_finish. now rewrite Hs, Hf, Hdur. }
  rewrite Hc. destruct (candidate_finish dep b n2); simpl; [now apply IH|reflexivity].
Qed.

Lemma skeleton_duration n n' :
  skeleton n' = skeleton n -> node_total_duration n' = node_total_duration n.
Proof. unfold skeleton, node_total_duration. intros [= -> _ _]. reflexivity. Qed.

Lemma forward_ok_transfer ns ns' deps st k :
  same_structure ns ns' -> same_earliest ns ns' ->
  forward_ok ns deps st k -> forward_ok ns' deps st k.
Proof.
  intros Hs He (n & es & En & Es & Ef & Hr).
  pose proof (proj2 Hs k) as Hk. pose proof (He k) as Hek. rewrite En in Hk, Hek.
  destruct (dict_get ns' k) as [n'|] eqn:En'; simpl in Hk, Hek; [|discriminate].
  assert (Hsk : skeleton n' = skeleton n) by congruence. clear Hk.
  injection Hek as Hes Hef.
  pose proof (skeleton_duration n n' Hsk) as Hdur.
  exists n', es. split; [exact En'|]. split; [congruence|].
  split; [rewrite Hef, Hdur; exact Ef|].
  unfold forward_rule in *.
  assert (Hp : predecessors n' = predecessors n).
  { unfold skeleton in Hsk. congruence. }
  rewrite Hp. destruct (is_empty (predecessors n)); [exact Hr|].
  rewrite <- Hr. apply forward_preds_view; [|exact Hdur].
  intros p _. symmetry. apply He.
Qed.

Lemma backward_ok_transfer ns ns' deps pe k :
  same_structure ns ns' -> same_latest ns ns' ->
  backward_ok ns deps pe k -> backward_ok ns' deps pe k.
Proof.
  intros Hs He (n & lf & En & Elf & Els & Hr).
  pose proof (proj2 Hs k) as Hk. pose proof (He k) as Hek. rewrite En in Hk, Hek.
  destruct (dict_get ns' k) as [n'|] eqn:En'; simpl in Hk, Hek; [|discriminate].
  assert (Hsk : skeleton n' = skeleton n) by congruence. clear Hk.
  injection Hek as Hls Hlf.
  pose proof (skeleton_duration n n' Hsk) as Hdur.
  exists n', lf. split; [exact En'|]. split; [congruence|].
  split; [rewrite Hls, Hdur; exact Els|].
  unfold backward_rule in *.
  assert (Hp : successors n' = successors n).
  { unfold skeleton in Hsk. congruence. }
  rewrite Hp. destruct (is_empty (successors n)); [exact Hr|].
  rewrite <- Hr. apply backward_succs_view; [|exact Hdur].
  intros p _. symmetry. apply He.
Qed.

(** ** What the two loops establish *)

Lemma forward_loop_fix deps st order : forall ns done ns',
  NoDup (done ++ order) ->
  (forall l1 v l2, order = l1 ++ v :: l2 ->
                   forall p, In p (preds_of ns v) -> In p (done ++ l1)) ->
  (forall k p, In k done -> In p (preds_of ns k) -> In p done) ->
  (forall k, In k done -> forward_ok ns deps st k) ->
  forward_loop ns deps st order = Ok ns' ->
  forall k, In k (done ++ order) -> forward_ok ns' deps st k.
Proof.
  induction order as [|v order IH]; intros ns done ns' Hnd Hpf Hcl Hdone E k Hk.
  - simpl in E. injection E as <-. rewrite app_nil_r in Hk. auto.
  - simpl in E. unfold dict_lookup in E.
    destruct (dict_get ns v) as [n|] eqn:En; simpl in E; [|discriminate].
    fold (forward_rule ns deps st v n) in E.
    destruct (forward_rule ns deps st v n) as [es|] eqn:Ees; simpl in E; [|discriminate].
    set (ns1 := dict_update ns v
                  (fun n0 => set_earliest n0 es (es + node_total_duration n0))) in *.
    assert (Hv : ~ In v done).
    { apply NoDup_remove_2 in Hnd. intros H. apply Hnd. apply in_app_iff. now left. }
    assert (Hs1 : same_structure ns ns1).
    { apply same_structure_update. intros []; reflexivity. }
    assert (Hget1 : forall x, x <> v -> dict_get ns1 x = dict_get ns x).
    { intros x Hx. unfold ns1. now apply dict_get_update_ne. }
    assert (Hpv : forall p, In p (predecessors n) -> In p done).
    { intros p Hp. specialize (Hpf [] v order eq_refl p). rewrite app_nil_r in Hpf.
      apply Hpf. unfold preds_of. now rewrite En. }
    assert (Hview : forall p, In p done ->
       option_map (fun n => (earliest_start n, earliest_finish n)) (dict_get ns p)
       = option_map (fun n => (earliest_start n, earliest_finish n)) (dict_get ns1 p)).
    { intros p Hp. rewrite Hget1; [reflexivity|]. intros ->. contradiction. }
    apply (IH ns1 (done ++ [v]) ns'); [| | | |exact E|rewrite <- app_assoc; exact Hk].
    + rewrite <- app_assoc. exact Hnd.
    + intros l1 w l2 Eo p Hp. rewrite (same_structure_preds _ _ _ Hs1) in Hp.
      rewrite <- app_assoc. simpl.
      apply (Hpf (v :: l1) w l2); [now rewrite Eo|assumption].
    + intros x p Hx Hp. rewrite (same_structure_preds _ _ _ Hs1) in Hp.
      apply in_app_iff. left. apply in_app_iff in Hx as [Hx|[<-|[]]].
      * now apply (Hcl x).
      * apply Hpv. unfold preds_of in Hp. now rewrite En in Hp.
    + intros x Hx. apply in_app_iff in Hx as [Hx|[<-|[]]].
      * destruct (Hdone x Hx) as (nx & ex & Enx & Es & Ef & Hr).
        exists nx, ex. rewrite Hget1; [|intros ->; contradiction].
        split; [exact Enx|]. split; [exact Es|]. split; [exact Ef|].
        unfold forward_rule in *. destruct (is_empty (predecessors nx)); [exact Hr|].
        rewrite <- Hr. apply forward_preds_view; [|reflexivity].
        intros p Hp. apply Hview. apply (Hcl x); [assumption|].
        unfold preds_of. now rewrite Enx.
      * exists (set_earliest n es (es + node_total_duration n)), es.
        split; [unfold ns1; rewrite dict_get_update_eq, En; reflexivity|].
        split; [reflexivity|]. split; [reflexivity|].
        unfold forward_rule in *. cbn [set_earliest predecessors].
        destruct (is_empty (predecessors n)); [exact Ees|].
        rewrite <- Ees. apply forward_preds_view; [|reflexivity].
        intros p Hp. apply Hview. now apply Hpv.
Qed.

Lemma backward_loop_fix deps pe order : forall ns done ns',
  NoDup (done ++ order) ->
  (forall l1 v l2, order = l1 ++ v :: l2 ->
                   forall s, In s (succs_of ns v) -> In s (done ++ l1)) ->
  (forall k s, In k done -> In s (succs_of ns k) -> In s done) ->
  (forall k, In k done -> backward_ok ns deps pe k) ->
  backward_loop ns deps pe order = Ok ns' ->
  forall k, In k (done ++ order) -> backward_ok ns' deps pe k.
Proof.
  induction order as [|v order IH]; intros ns done ns' Hnd Hsf Hcl Hdone E k Hk.
  - simpl in E. injection E as <-. rewrite app_nil_r in Hk. auto.
  - simpl in E. unfold dict_lookup in E.
    destruct (dict_get ns v) as [n|] eqn:En; simpl in E; [|discriminate].
    fold (backward_rule ns deps pe v n) in E.
    destruct (backward_rule ns deps pe v n) as [lf|] eqn:Elf; simpl in E; [|discriminate].
    set (ns1 := dict_update ns v
                  (fun n0 => set_latest n0 (lf - node_total_duration n0) lf)) in *.
    assert (Hv : ~ In v done).
    { apply NoDup_remove_2 in Hnd. intros H. apply Hnd. apply in_app_iff. now left. }
    assert (Hs1 : same_structure ns ns1).
    { apply same_structure_update. intros []; reflexivity. }
    assert (Hget1 : forall x, x <> v -> dict_get ns1 x = dict_get ns x).
    { intros x Hx. unfold ns1. now apply dict_get_update_ne. }
    assert (Hsv : forall s, In s (successors n) -> In s done).
    { intros s Hs. specialize (Hsf [] v order eq_refl s). rewrite app_nil_r in Hsf.
      apply Hsf. unfold succs_of. now rewrite En. }
    assert (Hview : forall p, In p done ->
       option_map (fun n => (latest_start n, latest_finish n)) (dict_get ns p)
       = option_map (fun n => (latest_start n, latest_finish n)) (dict_get ns1 p)).
    { intros p Hp. rewrite Hget1; [reflexivity|]. intros ->. contradiction. }
    apply (IH ns1 (done ++ [v]) ns'); [| | | |exact E|rewrite <- app_assoc; exact Hk].
    + rewrite <- app_assoc. exact Hnd.
    + intros l1 w l2 Eo s Hs. rewrite (same_structure_succs _ _ _ Hs1) in Hs.
      rewrite <- app_assoc. simpl.
      apply (Hsf (v :: l1) w l2); [now rewrite Eo|assumption].
    + intros x s Hx Hs. rewrite (same_structure_succs _ _ _ Hs1) in Hs.
      apply in_app_iff. left. apply in_app_iff in Hx as [Hx|[<-|[]]].
      * now apply (Hcl x).
      * apply Hsv. unfold succs_of in Hs. now rewrite En in Hs.
    + intros x Hx. apply in_app_iff in Hx as [Hx|[<-|[]]].
      * destruct (Hdone x Hx) as (nx & lx & Enx & El & Es & Hr).
        exists nx, lx. rewrite Hget1; [|intros ->; contradiction].
        split; [exact Enx|]. split; [exact El|]. split; [exact Es|].
        unfold backward_rule in *. destruct (is_empty (successors nx)); [exact Hr|].
        rewrite <- Hr. apply backward_succs_view; [|reflexivity].
        intros s Hs. apply Hview. apply (Hcl x); [assumption|].
        unfold succs_of. now rewrite Enx.
      * exists (set_latest n (lf - node_total_duration n) lf), lf.
        split; [unfold ns1; rewrite dict_get_update_eq, En; reflexivity|].
        split; [reflexivity|]. split; [reflexivity|].
        unfold backward_rule in *. cbn [set_latest successors].
        destruct (is_empty (successors n)); [exact Elf|].
        rewrite <- Elf. apply backward_succs_view; [|reflexivity].
        intros s Hs. apply Hview. now apply Hsv.
Qed.

(** ** The stages of [calculate_critical_path] *)

Lemma slack_map_same ns :
  same_structure ns (map (fun kv => (fst kv, slack_node (snd kv))) ns)
  /\ same_earliest ns (map (fun kv => (fst kv, slack_node (snd kv))) ns)
  /\ same_latest ns (map (fun kv => (fst kv, slack_node (snd kv))) ns).
Proof.
  split; [split; [apply dict_keys_map_values|]|split];
    intros k; rewrite dict_get_map_values;
    (destruct (dict_get ns k) as [n|]; [|reflexivity]); simpl; f_equal;
    unfold slack_node;
    destruct (latest_start n) eqn:E1, (earliest_start n) eqn:E2; simpl;
    rewrite ?E1, ?E2; reflexivity.
Qed.

Lemma earliest_finishes_same ns : forall ns',
  dict_keys ns' = dict_keys ns -> NoDup (dict_keys ns) -> same_earliest ns ns' ->
  earliest_finishes ns' = earliest_finishes ns.
Proof.
  induction ns as [|[k n] ns IH]; intros [|[k' n'] ns'] K Hnd He;
    simpl in K; try discriminate; [reflexivity|].
  injection K as -> K. inversion Hnd as [|? ? Hk Hnd']; subst.
  unfold earliest_finishes. simpl.
  pose proof (He k) as Hek. simpl in Hek. rewrite String.eqb_refl in Hek.
  simpl in Hek. injection Hek as _ Hf. rewrite Hf. f_equal.
  apply IH; [assumption|assumption|].
  intros x. specialize (He x). simpl in He.
  destruct (String.eqb_spec x k) as [E|Hne]; [|exact He].
  subst x.
  assert (H1 : dict_get ns k = None) by (apply dict_get_None; exact Hk).
  assert (H2 : dict_get ns' k = None) by (apply dict_get_None; rewrite K; exact Hk).
  now rewrite H1, H2.
Qed.

Lemma fold_left_max_spec l : forall a,
  (fold_left Z.max l a = a \/ In (fold_left Z.max l a) l)
  /\ a <= fold_left Z.max l a
  /\ forall x, In x l -> x <= fold_left Z.max l a.
Proof.
  induction l as [|y l IH]; intros a; simpl.
  - split; [now left|]. split; [lia|]. intros x [].
  - destruct (IH (Z.max a y)) as (H1 & H2 & H3). split; [|split].
    + destruct H1 as [H1|H1]; [|auto].
      rewrite H1. destruct (Z.max_spec a y) as [[_ ->]|[_ ->]]; auto.
    + lia.
    + intros x [<-|Hx]; [lia|auto].
Qed.

Lemma max_of_spec l m :
  max_of l = Ok m -> In m l /\ forall x, In x l -> x <= m.
Proof.
  destruct l as [|a l]; simpl; [discriminate|]. intros [= <-].
  destruct (fold_left_max_spec l a) as (H1 & H2 & H3). split.
  - destruct H1 as [->|H1]; auto.
  - intros x [<-|Hx]; auto.
Qed.

Lemma earliest_finishes_In ns t :
  In t (earliest_finishes ns) <->
  exists k n, In (k, n) ns /\ earliest_finish n = Some t.
Proof.
  unfold earliest_finishes. rewrite in_flat_map. split.
  - intros ([k n] & Hin & Ht). simpl in Ht.
    destruct (earliest_finish n) as [t'|] eqn:E; [|contradiction].
    destruct Ht as [<-|[]]. eauto.
  - intros (k & n & Hin & E). exists (k, n). split; [assumption|].
    simpl. rewrite E. now left.
Qed.

(** A successful run, stage by stage: the final node map has the structure
    of the initial one, its earliest times are those of the forward pass and
    its latest times those of the backward pass from the greatest earliest
    finish, and the slack of every node is the difference of its two
    starts. *)
Lemma calculate_critical_path_stages g st g' :
  wf_graph g -> calculate_critical_path g st = Ok g' ->
  exists pe,
    dependencies g' = dependencies g
    /\ same_structure (nodes g) (nodes g')
    /\ max_of (earliest_finishes (nodes g')) = Ok pe
    /\ total_duration g' = pe - st
    /\ critical_path g' = _find_critical_path g'
    /\ (forall k, In k (node_ids g') -> forward_ok (nodes g') (dependencies g') st k)
    /\ (forall k, In k (node_ids g') -> backward_ok (nodes g') (dependencies g') pe k)
    /\ (forall k n, dict_get (nodes g') k = Some n -> node_finalised n).
Proof.
  intros Hwf E.
  destruct (calculate_critical_path_ok_acyclic g st g' Hwf E) as [Hacyc Hne].
  pose proof (wf_adjacency Hwf) as Hadj.
  unfold calculate_critical_path in E.
  rewrite (has_cycle_acyclic g Hwf Hacyc) in E. cbn [bind] in E.
  unfold _forward_pass in E.
  destruct (topological_sort g) as [order|] eqn:Et; cbn [bind] in E; [|discriminate].
  destruct (forward_loop (nodes g) (dependencies g) st order) as [ns1|] eqn:Ef;
    cbn [bind] in E; [|discriminate].
  destruct (topological_sort_ok Hwf Et) as (Hres & Hall & _).
  assert (Hpf : forall l1 v l2, order = l1 ++ v :: l2 ->
                  forall p, In p (preds_of (nodes g) v) -> In p ([] ++ l1)).
  { apply (deps_first_prefix (preds_of (nodes g)) order). exact (kr_order Hres). }
  destruct (forward_loop_total (dependencies g) st order (nodes g) [] Hpf)
    as (ns1' & Ef' & Hs1 & _); [intros k []|apply Hres|].
  rewrite Ef in Ef'. injection Ef' as <-.
  assert (Hf1 : forall k, In k order -> forward_ok ns1 (dependencies g) st k).
  { intros k Hk.
    apply (forward_loop_fix (dependencies g) st order (nodes g) [] ns1);
      try assumption.
    - simpl. apply Hres.
    - intros x p [].
    - intros x []. }
  set (g1 := set_nodes g ns1) in *.
  assert (Hwf1 : wf_graph g1) by (now apply wf_same_structure).
  pose proof (wf_adjacency Hwf1) as Hadj1.
  unfold _backward_pass in E.
  destruct (topological_sort g1) as [order2|] eqn:Et2; cbn [bind] in E; [|discriminate].
  destruct (topological_sort_ok Hwf1 Et2) as (Hres2 & Hall2 & _).
  cbn [nodes dependencies g1 set_nodes] in E.
  destruct (max_of (earliest_finishes ns1)) as [pe|] eqn:Epe; cbn [bind] in E;
    [|discriminate].
  destruct (backward_loop ns1 (dependencies g) pe (rev order2)) as [ns2|] eqn:Eb;
    cbn [bind] in E; [|discriminate].
  assert (Hsf : forall l1 v l2, rev order2 = l1 ++ v :: l2 ->
                  forall s, In s (succs_of ns1 v) -> In s ([] ++ l1)).
  { apply (deps_first_prefix (succs_of ns1) (rev order2)).
    apply rev_deps_first; try assumption; [apply Hres2|exact (kr_order Hres2)]. }
  destruct (backward_loop_total (dependencies g) pe (rev order2) ns1 [] Hsf)
    as (ns2' & Eb' & Hs2 & He2 & _);
    [intros k []|intros k Hk; apply in_rev in Hk; now apply Hres2|].
  rewrite Eb in Eb'. injection Eb' as <-.
  assert (Hb2 : forall k, In k (rev order2) -> backward_ok ns2 (dependencies g) pe k).
  { intros k Hk.
    apply (backward_loop_fix (dependencies g) pe (rev order2) ns1 [] ns2);
      try assumption.
    - simpl. apply NoDup_rev. apply Hres2.
    - intros x p [].
    - intros x []. }
  set (ns3 := map (fun kv => (fst kv, slack_node (snd kv))) ns2) in *.
  destruct (slack_map_same ns2) as (Hs3 & He3 & Hl3). fold ns3 in Hs3, He3, Hl3.
  cbn [_calculate_slack set_nodes nodes dependencies critical_path total_duration] in E.
  fold ns3 in E.
  assert (K1 : dict_keys ns1 = dict_keys (nodes g)) by apply Hs1.
  assert (K2 : dict_keys ns2 = dict_keys ns1) by apply Hs2.
  assert (K3 : dict_keys ns3 = dict_keys ns2) by apply Hs3.
  assert (Hnd1 : NoDup (dict_keys ns1)) by (rewrite K1; apply Hwf).
  assert (Epe3 : max_of (earliest_finishes ns3) = Ok pe).
  { rewrite (earliest_finishes_same ns1 ns3); [exact Epe|congruence|exact Hnd1|].
    eapply same_earliest_trans; eassumption. }
  assert (Hne3 : is_empty ns3 = false).
  { destruct ns3 as [|kv l] eqn:E3; [|reflexivity].
    exfalso. apply Hne. simpl in K3. rewrite <- K3 in K2. rewrite <- K2 in K1.
    destruct (nodes g); [reflexivity|discriminate]. }
  rewrite Hne3, Epe3 in E. cbn [bind] in E. injection E as <-.
  cbn [nodes dependencies critical_path total_duration node_ids].
  exists pe. split; [reflexivity|]. split.
  { eapply same_structure_trans; [exact Hs1|].
    eapply same_structure_trans; eassumption. }
  split; [exact Epe3|]. split; [reflexivity|]. split; [reflexivity|].
  assert (Hin1 : forall k, In k (dict_keys ns3) -> In k order).
  { intros k Hk. apply Hall. unfold node_ids. congruence. }
  assert (Hin2 : forall k, In k (dict_keys ns3) -> In k (rev order2)).
  { intros k Hk. apply -> in_rev. apply Hall2. unfold node_ids, g1. simpl. congruence. }
  split; [|split].
  - intros k Hk. apply (forward_ok_transfer ns2 ns3); [assumption|assumption|].
    apply (forward_ok_transfer ns1 ns2); [assumption|assumption|]. auto.
  - intros k Hk. apply (backward_ok_transfer ns2 ns3); [assumption|assumption|]. auto.
  - intros k n En. unfold ns3 in En. rewrite dict_get_map_values in En.
    destruct (dict_get ns2 k) as [n2|] eqn:En2; [|discriminate].
    simpl in En. injection En as <-.
    assert (Hk : In k (dict_keys ns3)).
    { rewrite K3. eapply dict_get_keys; eauto. }
    destruct (forward_ok_transfer ns1 ns2 (dependencies g) st k Hs2 He2 (Hf1 k (Hin1 k Hk)))
      as (a & es & Ea & Es & Efi & _).
    destruct (Hb2 k (Hin2 k Hk)) as (b & lf & Eb2 & Elf & Els & _).
    rewrite En2 in Ea, Eb2. injection Ea as <-. injection Eb2 as <-.
    exact (proj1 (slack_node_finalised n2 es _ _ lf Es Efi Els Elf)).
Qed.

(** ** Bounds on what the inner loops return *)

Lemma candidate_start_value dep pn n ps pf :
  earliest_start pn = Some ps -> earliest_finish pn = Some pf ->
  candidate_start dep pn n =
  Ok (if String.eqb (dependency_type dep) "finish_to_start" then pf + lag_time dep
      else if String.eqb (dependency_type dep) "start_to_start" then ps + lag_time dep
      else if String.eqb (dependency_type dep) "finish_to_finish"
           then pf + lag_time dep - node_total_duration n
      else ps + lag_time dep - node_total_duration n).
Proof.
  intros Es Ef. unfold candidate_start. rewrite Es, Ef.
  repeat (match goal with |- context [if ?b then _ else _] => destruct b end);
    reflexivity.
Qed.

Lemma candidate_finish_value dep sn n ls lf :
  latest_start sn = Some ls -> latest_finish sn = Some lf ->
  candidate_finish dep sn n =
  Ok (if String.eqb (dependency_type dep) "finish_to_start" then ls - lag_time dep
      else if String.eqb (dependency_type dep) "start_to_start"
           then ls - lag_time dep + node_total_duration n
      else if String.eqb (dependency_type dep) "finish_to_finish" then lf - lag_time dep
      else lf - lag_time dep + node_total_duration n).
Proof.
  intros Es Ef. unfold candidate_finish. rewrite Es, Ef.
  repeat (match goal with |- context [if ?b then _ else _] => destruct b end);
    reflexivity.
Qed.

Lemma forward_preds_bounds ns deps k n preds : forall e r,
  forward_preds ns deps k n preds e = Ok r ->
  e <= r
  /\ forall p, In p preds ->
       forall dep pn, find_dependency deps p k = Some dep -> dict_get ns p = Some pn ->
         exists c, candidate_start dep pn n = Ok c /\ c <= r.
Proof.
  induction preds as [|q preds IH]; intros e r E; simpl in E.
  - injection E as <-. split; [lia|]. intros p [].
  - unfold dict_lookup in E.
    destruct (dict_get ns q) as [qn|] eqn:Eq; simpl in E; [|discriminate].
    destruct (find_dependency deps q k) as [dq|] eqn:Ed.
    + destruct (candidate_start dq qn n) as [c|] eqn:Ec; simpl in E; [|discriminate].
      destruct (IH _ _ E) as [H1 H2]. split; [lia|].
      intros p [<-|Hp] dep pn Hdep Hpn.
      * rewrite Ed in Hdep. injection Hdep as <-. rewrite Eq in Hpn.
        injection Hpn as <-. exists c. split; [exact Ec|lia].
      * exact (H2 p Hp dep pn Hdep Hpn).
    + destruct (IH _ _ E) as [H1 H2]. split; [exact H1|].
      intros p [<-|Hp] dep pn Hdep Hpn; [congruence|].
      exact (H2 p Hp dep pn Hdep Hpn).
Qed.

Lemma forward_preds_upper ns deps k n preds B : forall e r,
  forward_preds ns deps k n preds e = Ok r ->
  e <= B ->
  (forall p, In p preds ->
     forall dep pn c, find_dependency deps p k = Some dep -> dict_get ns p = Some pn ->
       candidate_start dep pn n = Ok c -> c <= B) ->
  r <= B.
Proof.
  induction preds as [|q preds IH]; intros e r E He Hc; simpl in E.
  - injection E as <-. exact He.
  - unfold dict_lookup in E.
    destruct (dict_get ns q) as [qn|] eqn:Eq; simpl in E; [|discriminate].
    assert (Hrest : forall p, In p preds ->
              forall dep pn c, find_dependency deps p k = Some dep ->
                dict_get ns p = Some pn -> candidate_start dep pn n = Ok c -> c <= B).
    { intros p Hp. apply Hc. now right. }
    destruct (find_dependency deps q k) as [dq|] eqn:Ed.
    + destruct (candidate_start dq qn n) as [c|] eqn:Ec; simpl in E; [|discriminate].
      apply (IH _ _ E); [|exact Hrest].
      pose proof (Hc q (or_introl eq_refl) dq qn c Ed Eq Ec). lia.
    + apply (IH _ _ E); assumption.
Qed.

Lemma backward_succs_bounds ns deps k n succs : forall e r,
  backward_succs ns deps k n succs e = Ok r ->
  r <= e
  /\ forall s, In s succs ->
       forall dep sn, find_dependency deps k s = Some dep -> dict_get ns s = Some sn ->
         exists c, candidate_finish dep sn n = Ok c /\ r <= c.
Proof.
  induction succs as [|q succs IH]; intros e r E; simpl in E.
  - injection E as <-. split; [lia|]. intros p [].
  - unfold dict_lookup in E.
    destruct (dict_get ns q) as [qn|] eqn:Eq; simpl in E; [|discriminate].
    destruct (find_dependency deps k q) as [dq|] eqn:Ed.
    + destruct (candidate_finish dq qn n) as [c|] eqn:Ec; simpl in E; [|discriminate].
      destruct (IH _ _ E) as [H1 H2]. split; [lia|].
      intros p [<-|Hp] dep pn Hdep Hpn.
      * rewrite Ed in Hdep. injection Hdep as <-. rewrite Eq in Hpn.
        injection Hpn as <-. exists c. split; [exact Ec|lia].
      * exact (H2 p Hp dep pn Hdep Hpn).
    + destruct (IH _ _ E) as [H1 H2]. split; [exact H1|].
      intros p [<-|Hp] dep pn Hdep Hpn; [congruence|].
      exact (H2 p Hp dep pn Hdep Hpn).
Qed.

Lemma backward_succs_lower ns deps k n succs B : forall e r,
  backward_succs ns deps k n succs e = Ok r ->
  B <= e ->
  (forall s, In s succs ->
     forall dep sn c, find_dependency deps k s = Some dep -> dict_get ns s = Some sn ->
       candidate_finish dep sn n = Ok c -> B <= c) ->
  B <= r.
Proof.
  induction succs as [|q succs IH]; intros e r E He Hc; simpl in E.
  - injection E as <-. exact He.
  - unfold dict_lookup in E.
    destruct (dict_get ns q) as [qn|] eqn:Eq; simpl in E; [|discriminate].
    assert (Hrest : forall p, In p succs ->
              forall dep pn c, find_dependency deps k p = Some dep ->
                dict_get ns p = Some pn -> candidate_finish dep pn n = Ok c -> B <= c).
    { intros p Hp. apply Hc. now right. }
    destruct (find_dependency deps k q) as [dq|] eqn:Ed.
    + destruct (candidate_finish dq qn n) as [c|] eqn:Ec; simpl in E; [|discriminate].
      apply (IH _ _ E); [|exact Hrest].
      pose proof (Hc q (or_introl eq_refl) dq qn c Ed Eq Ec). lia.
    + apply (IH _ _ E); assumption.
Qed.

(** Induction along an order in which the neighbours [nb v] of every node
    come before it. *)
Lemma deps_first_ind (nb : string -> list string) (order : list string)
    (P : string -> Prop) :
  deps_first nb order ->
  (forall v, In v order -> (forall p, In p (nb v) -> P p) -> P v) ->
  forall v, In v order -> P v.
Proof.
  intros Hdf Hstep.
  assert (H : forall l1 l2, order = l1 ++ l2 -> forall v, In v l1 -> P v).
  { induction l1 as [|x l IH] using rev_ind; intros l2 E v Hv; [contradiction|].
    rewrite <- app_assoc in E. simpl in E.
    apply in_app_iff in Hv as [Hv|[<-|[]]]; [exact (IH _ E v Hv)|].
    apply Hstep.
    - rewrite E. apply in_app_iff. right. now left.
    - intros p Hp. apply (IH _ E). exact (Hdf l x l2 E p Hp). }
  apply (H order []). now rewrite app_nil_r.
Qed.

Lemma find_dependency_some deps p s d :
  find_dependency deps p s = Some d ->
  In d deps /\ predecessor_id d = p /\ successor_id d = s.
Proof.
  unfold find_dependency. intros H. apply find_some in H as [Hin Hb].
  apply andb_prop in Hb as [H1 H2].
  apply String.eqb_eq in H1. apply String.eqb_eq in H2. auto.
Qed.

(** The facts about an edge and its two nodes that the proofs below share. *)
Lemma stage_node g st g' pe k :
  same_structure (nodes g) (nodes g') ->
  forward_ok (nodes g') (dependencies g) st k ->
  backward_ok (nodes g') (dependencies g) pe k ->
  exists n es lf,
    dict_get (nodes g') k = Some n
    /\ earliest_start n = Some es
    /\ earliest_finish n = Some (es + node_total_duration n)
    /\ latest_start n = Some (lf - node_total_duration n)
    /\ latest_finish n = Some lf
    /\ forward_rule (nodes g') (dependencies g) st k n = Ok es
    /\ backward_rule (nodes g') (dependencies g) pe k n = Ok lf
    /\ node_total_duration n = duration_of g k
    /\ predecessors n = preds_of (nodes g) k
    /\ successors n = succs_of (nodes g) k.
Proof.
  intros Hs (n & es & En & Es & Ef & Hf) (n' & lf & En' & Elf & Els & Hb).
  rewrite En in En'. injection En' as <-.
  exists n, es, lf. repeat (split; [assumption|]).
  destruct (same_structure_get _ _ _ _ Hs En) as (n0 & En0 & Hsk).
  unfold duration_of, preds_of, succs_of. rewrite En0.
  split; [now apply skeleton_duration|].
  unfold skeleton in Hsk. split; congruence.
Qed.

(** Everything the theorems below use of a successful run. *)
Lemma cpm_facts g st g' :
  wf_graph g -> calculate_critical_path g st = Ok g' ->
  exists pe order,
    dependencies g' = dependencies g
    /\ same_structure (nodes g) (nodes g')
    /\ max_of (earliest_finishes (nodes g')) = Ok pe
    /\ total_duration g' = pe - st
    /\ (forall k, In k (node_ids g) ->
          forward_ok (nodes g') (dependencies g) st k
          /\ backward_ok (nodes g') (dependencies g) pe k)
    /\ (forall k n, dict_get (nodes g') k = Some n -> node_finalised n)
    /\ (forall k, In k order <-> In k (node_ids g))
    /\ deps_first (preds_of (nodes g)) order
    /\ deps_first (succs_of (nodes g)) (rev order).
Proof.
  intros Hwf E.
  destruct (calculate_critical_path_stages g st g' Hwf E)
    as (pe & Hd & Hs & Hpe & Htd & _ & Hf & Hb & Hfin).
  destruct (calculate_critical_path_ok_acyclic g st g' Hwf E) as [Hacyc _].
  destruct (topological_sort_returns Hwf Hacyc) as (order & Et).
  destruct (topological_sort_ok Hwf Et) as (Hres & Hall & _).
  pose proof (wf_adjacency Hwf) as Hadj.
  assert (K : node_ids g' = node_ids g) by (unfold node_ids; apply Hs).
  exists pe, order. rewrite Hd in Hf, Hb. rewrite K in Hf, Hb.
  split; [exact Hd|]. split; [exact Hs|]. split; [exact Hpe|]. split; [exact Htd|].
  split; [intros k Hk; split; auto|]. split; [exact Hfin|].
  split; [intros k; split; [apply Hres|apply Hall]|].
  split; [exact (kr_order Hres)|].
  apply rev_deps_first; try assumption; [apply Hres|exact (kr_order Hres)].
Qed.

Lemma cpm_edge g st g' :
  wf_graph g -> calculate_critical_path g st = Ok g' ->
  forall d, effective g d ->
    exists pn sn ps ss pl sl,
      dict_get (nodes g') (predecessor_id d) = Some pn
      /\ dict_get (nodes g') (successor_id d) = Some sn
      /\ earliest_start pn = Some ps
      /\ earliest_finish pn = Some (ps + node_total_duration pn)
      /\ latest_start pn = Some (pl - node_total_duration pn)
      /\ latest_finish pn = Some pl
      /\ earliest_start sn = Some ss
      /\ earliest_finish sn = Some (ss + node_total_duration sn)
      /\ latest_start sn = Some (sl - node_total_duration sn)
      /\ latest_finish sn = Some sl
      /\ dependency_holds d ps (ps + node_total_duration pn)
                          ss (ss + node_total_duration sn)
      /\ dependency_holds d (pl - node_total_duration pn) pl
                          (sl - node_total_duration sn) sl.
Proof.
  intros Hwf E d Hd.
  destruct (cpm_facts g st g' Hwf E)
    as (pe & order & _ & Hs & _ & _ & Hok & _ & _ & _ & _).
  pose proof (wf_adjacency Hwf) as Hadj.
  destruct (find_dependency_some _ _ _ _ Hd) as (Hin & _ & _).
  destruct (wf_deps Hwf d Hin) as [Hp Hsu].
  assert (Hedge : dep_edge g (predecessor_id d) (successor_id d)).
  { exists d. auto. }
  destruct (Hok _ Hp) as [Hfp Hbp]. destruct (Hok _ Hsu) as [Hfs Hbs].
  destruct (stage_node g st g' pe _ Hs Hfp Hbp)
    as (pn & ps & pl & Epn & Eps & Epf & Epls & Eplf & _ & Hrb & _ & _ & Hsucc).
  destruct (stage_node g st g' pe _ Hs Hfs Hbs)
    as (sn & ss & sl & Esn & Ess & Esf & Esls & Eslf & Hrf & _ & _ & Hpred & _).
  exists pn, sn, ps, ss, pl, sl. repeat (split; [assumption|]).
  assert (Hinp : In (predecessor_id d) (predecessors sn)).
  { rewrite Hpred. now apply (wf_pred_edge _ _ Hwf). }
  assert (Hins : In (successor_id d) (successors pn)).
  { rewrite Hsucc. now apply (wf_succ_edge _ _ Hwf). }
  split.
  - unfold forward_rule in Hrf.
    destruct (predecessors sn) as [|x l] eqn:El; [contradiction|]. simpl is_empty in Hrf.
    destruct (forward_preds_bounds _ _ _ _ _ _ _ Hrf) as [_ H].
    destruct (H _ Hinp d pn Hd Epn) as (c & Ec & Hc).
    rewrite (candidate_start_value d pn sn ps _ Eps Epf) in Ec. injection Ec as <-.
    unfold dependency_holds.
    repeat (match goal with |- context [if ?b then _ else _] => destruct b end); lia.
  - unfold backward_rule in Hrb.
    destruct (successors pn) as [|x l] eqn:El; [contradiction|]. simpl is_empty in Hrb.
    destruct (backward_succs_bounds _ _ _ _ _ _ _ Hrb) as [_ H].
    destruct (H _ Hins d sn Hd Esn) as (c & Ec & Hc).
    rewrite (candidate_finish_value d sn pn _ sl Esls Eslf) in Ec. injection Ec as <-.
    unfold dependency_holds.
    repeat (match goal with |- context [if ?b then _ else _] => destruct b end); lia.
Qed.

Lemma window_of g k n es ef :
  dict_get (nodes g) k = Some n ->
  earliest_start n = Some es -> earliest_finish n = Some ef ->
  window g k = Some (es, ef).
Proof. intros En Es Ef. unfold window. now rewrite En, Es, Ef. Qed.

Lemma window_inv g k es ef :
  window g k = Some (es, ef) ->
  exists n, dict_get (nodes g) k = Some n
            /\ earliest_start n = Some es /\ earliest_finish n = Some ef.
Proof.
  unfold window. destruct (dict_get (nodes g) k) as [n|]; [|discriminate].
  destruct (earliest_start n) as [s|] eqn:Es; [|discriminate].
  destruct (earliest_finish n) as [f|] eqn:Ef; [|discriminate].
  intros [= <- <-]. exists n. auto.
Qed.

Lemma latest_window_of g k n ls lf :
  dict_get (nodes g) k = Some n ->
  latest_start n = Some ls -> latest_finish n = Some lf ->
  latest_window g k = Some (ls, lf).
Proof. intros En Es Ef. unfold latest_window. now rewrite En, Es, Ef. Qed.

Lemma g_abc_scheduled_eq :
  calculate_critical_path g_abc t0900 = Ok g_abc_scheduled.
Proof. vm_compute. reflexivity. Qed.

Lemma earliest_start_after_start g st g' :
  wf_graph g -> calculate_critical_path g st = Ok g' ->
  forall k n, dict_get (nodes g') k = Some n ->
    exists es, st <= es /\ earliest_start n = Some es
               /\ earliest_finish n = Some (es + node_total_duration n).
Proof.
  intros Hwf E k n En.
  destruct (cpm_facts g st g' Hwf E)
    as (pe & order & _ & Hs & _ & _ & Hok & _ & _ & _ & _).
  assert (Hk : In k (node_ids g)).
  { unfold node_ids. rewrite <- (proj1 Hs). eapply dict_get_keys; eauto. }
  destruct (Hok k Hk) as [(n0 & es & En0 & Es & Ef & Hr) _].
  rewrite En in En0. injection En0 as <-.
  exists es. split; [|split; assumption].
  unfold forward_rule in Hr. destruct (is_empty (predecessors n)).
  + injection Hr as <-. lia.
  + now apply forward_preds_bounds in Hr.
Qed.

Lemma project_end_attained g st g' :
  wf_graph g -> calculate_critical_path g st = Ok g' ->
  exists k n, dict_get (nodes g') k = Some n
              /\ earliest_finish n = Some (st + total_duration g').
Proof.
  intros Hwf E.
  destruct (calculate_critical_path_stages g st g' Hwf E)
    as (pe & _ & Hs & Hpe & Htd & _ & _ & _ & _).
  destruct (max_of_spec _ _ Hpe) as [Hin _].
  apply earliest_finishes_In in Hin as (k & n & Hkn & Ef).
  assert (Hnd : NoDup (dict_keys (nodes g'))).
  { rewrite (proj1 Hs). apply Hwf. }
  exists k, n. split; [now apply dict_In_get|].
  rewrite Ef, Htd. f_equal. lia.
Qed.

(** X2. After a successful critical-path pass every activity starts no
    earlier than the project start, its earliest finish is its earliest
    start plus its total duration, and the earliest windows satisfy every
    dependency the pass reads (the first edge between two ids), each
    according to its type and lag. *)
Theorem earliest_times_respect_dependencies
    (g : DependencyGraph) (st : datetime) (g' : DependencyGraph) :
  wf_graph g -> calculate_critical_path g st = Ok g' ->
  (forall k n, dict_get (nodes g') k = Some n ->
     exists es, st <= es /\ window g' k = Some (es, es + node_total_duration n))
  /\ (forall d, effective g d ->
        exists ps pf ss sf,
          window g' (predecessor_id d) = Some (ps, pf)
          /\ window g' (successor_id d) = Some (ss, sf)
          /\ dependency_holds d ps pf ss sf).
Proof.
  intros Hwf E. split.
  - intros k n En.
    destruct (earliest_start_after_start g st g' Hwf E k n En) as (es & Hst & Es & Ef).
    exists es. split; [exact Hst|now apply (window_of g' k n)].
  - intros d Hd.
    destruct (cpm_edge g st g' Hwf E d Hd)
      as (pn & sn & ps & ss & pl & sl & Epn & Esn & Eps & Epf & _ & _
          & Ess & Esf & _ & _ & Hh & _).
    exists ps, (ps + node_total_duration pn), ss, (ss + node_total_duration sn).
    split; [now apply (window_of g' _ pn)|].
    split; [now apply (window_of g' _ sn)|exact Hh].
Qed.

Lemma earliest_times_respect_dependencies_witness :
  wf_graph g_abc
  /\ calculate_critical_path g_abc t0900 = Ok g_abc_scheduled
  /\ (forall k n, dict_get (nodes g_abc_scheduled) k = Some n ->
        exists es, t0900 <= es
                   /\ window g_abc_scheduled k = Some (es, es + node_total_duration n))
  /\ (forall d, effective g_abc d ->
        exists ps pf ss sf,
          window g_abc_scheduled (predecessor_id d) = Some (ps, pf)
          /\ window g_abc_scheduled (successor_id d) = Some (ss, sf)
          /\ dependency_holds d ps pf ss sf).
Proof.
  split; [exact g_abc_wf|]. split; [exact g_abc_scheduled_eq|].
  exact (earliest_times_respect_dependencies g_abc t0900 g_abc_scheduled
           g_abc_wf g_abc_scheduled_eq).
Defined.

(** X3. The earliest starts are the least ones: whatever start times are
    chosen for the activities, if none is before the project start and the
    windows they give satisfy every dependency the pass reads, then no
    activity starts before the earliest start the pass computed for it. *)
Theorem earliest_times_least
    (g : DependencyGraph) (st : datetime) (g' : DependencyGraph)
    (start : string -> datetime) :
  wf_graph g -> calculate_critical_path g st = Ok g' ->
  (forall k, In k (node_ids g) -> st <= start k) ->
  (forall d, effective g d ->
     dependency_holds d
       (start (predecessor_id d))
       (start (predecessor_id d) + duration_of g (predecessor_id d))
       (start (successor_id d))
       (start (successor_id d) + duration_of g (successor_id d))) ->
  forall k es ef, window g' k = Some (es, ef) -> es <= start k.
Proof.
  intros Hwf E Hst Hdep.
  destruct (cpm_facts g st g' Hwf E)
    as (pe & order & _ & Hs & _ & _ & Hok & _ & Hord & Hpf & _).
  assert (H : forall k, In k order ->
                forall es ef, window g' k = Some (es, ef) -> es <= start k).
  { apply (deps_first_ind (preds_of (nodes g)) order
             (fun k => forall es ef, window g' k = Some (es, ef) -> es <= start k));
      [exact Hpf|].
    intros v Hv IH es ef Hw.
    apply Hord in Hv. destruct (Hok v Hv) as [Hfv Hbv].
    destruct (stage_node g st g' pe v Hs Hfv Hbv)
      as (n & es' & lf & En & Es & Ef & _ & _ & Hr & _ & Hdur & Hpred & _).
    apply window_inv in Hw as (n' & En' & Es' & _).
    rewrite En in En'. injection En' as <-. rewrite Es in Es'. injection Es' as <-.
    unfold forward_rule in Hr. destruct (is_empty (predecessors n)).
    { injection Hr as <-. now apply Hst. }
    apply (forward_preds_upper _ _ _ _ _ (start v) _ _ Hr); [now apply Hst|].
    intros p Hp dep pn c Hfind Epn Ec.
    destruct (find_dependency_some _ _ _ _ Hfind) as (Hin & Hpd & Hsd).
    assert (Heff : effective g dep) by (unfold effective; now rewrite Hpd, Hsd).
    specialize (Hdep dep Heff). rewrite Hpd, Hsd in Hdep.
    assert (Hpk : In p (node_ids g)).
    { rewrite <- Hpd. now apply (wf_deps Hwf dep Hin). }
    destruct (Hok p Hpk) as [Hfp Hbp].
    destruct (stage_node g st g' pe p Hs Hfp Hbp)
      as (pn' & ps & pl & Epn' & Eps & Epf & _ & _ & _ & _ & Hdurp & _ & _).
    rewrite Epn in Epn'. injection Epn' as <-.
    assert (Hps : ps <= start p).
    { apply (IH p) with (ef := ps + node_total_duration pn).
      - now rewrite <- Hpred.
      - now apply (window_of g' p pn). }
    rewrite (candidate_start_value dep pn n ps _ Eps Epf) in Ec. injection Ec as <-.
    rewrite <- Hdur, <- Hdurp in Hdep. unfold dependency_holds in Hdep.
    repeat (match goal with |- context [if ?b then _ else _] => destruct b end); lia. }
  intros k es ef Hw. apply (H k) with (ef := ef); [|exact Hw].
  apply Hord. apply window_inv in Hw as (n & En & _).
  unfold node_ids. rewrite <- (proj1 Hs). eapply dict_get_keys; eauto.
Qed.

Lemma earliest_times_least_witness :
  wf_graph g_abc
  /\ calculate_critical_path g_abc t0900 = Ok g_abc_scheduled
  /\ (forall k, In k (node_ids g_abc) -> t0900 <= late_start k)
  /\ (forall d, effective g_abc d ->
        dependency_holds d
          (late_start (predecessor_id d))
          (late_start (predecessor_id d) + duration_of g_abc (predecessor_id d))
          (late_start (successor_id d))
          (late_start (successor_id d) + duration_of g_abc (successor_id d)))
  /\ forall k es ef, window g_abc_scheduled k = Some (es, ef) -> es <= late_start k.
Proof.
  assert (H1 : forall k, In k (node_ids g_abc) -> t0900 <= late_start k).
  { intros k Hk. vm_compute in Hk.
    destruct Hk as [<-|[<-|[<-|[]]]]; vm_compute; discriminate. }
  assert (H2 : forall d, effective g_abc d ->
        dependency_holds d
          (late_start (predecessor_id d))
          (late_start (predecessor_id d) + duration_of g_abc (predecessor_id d))
          (late_start (successor_id d))
          (late_start (successor_id d) + duration_of g_abc (successor_id d))).
  { intros d Hd. apply find_dependency_some in Hd as (Hin & _ & _).
    vm_compute in Hin. destruct Hin as [<-|[<-|[]]]; vm_compute; discriminate. }
  split; [exact g_abc_wf|]. split; [exact g_abc_scheduled_eq|].
  split; [exact H1|]. split; [exact H2|].
  exact (earliest_times_least g_abc t0900 g_abc_scheduled late_start
           g_abc_wf g_abc_scheduled_eq H1 H2).
Defined.

(** X4. After a successful critical-path pass no latest finish lies after
    the project end (the start time plus [total_duration]), the latest
    start of every activity is its latest finish minus its total duration,
    and the latest windows satisfy every dependency the pass reads. *)
Theorem latest_times_respect_dependencies
    (g : DependencyGraph) (st : datetime) (g' : DependencyGraph) :
  wf_graph g -> calculate_critical_path g st = Ok g' ->
  (forall k n, dict_get (nodes g') k = Some n ->
     exists lf, lf <= st + total_duration g'
                /\ latest_window g' k = Some (lf - node_total_duration n, lf))
  /\ (forall d, effective g d ->
        exists pls plf sls slf,
          latest_window g' (predecessor_id d) = Some (pls, plf)
          /\ latest_window g' (successor_id d) = Some (sls, slf)
          /\ dependency_holds d pls plf sls slf).
Proof.
  intros Hwf E. split.
  - intros k n En.
    destruct (cpm_facts g st g' Hwf E)
      as (pe & order & _ & Hs & _ & Htd & Hok & _ & _ & _ & _).
    assert (Hk : In k (node_ids g)).
    { unfold node_ids. rewrite <- (proj1 Hs). eapply dict_get_keys; eauto. }
    destruct (Hok k Hk) as [_ (n0 & lf & En0 & Elf & Els & Hr)].
    rewrite En in En0. injection En0 as <-.
    exists lf. split; [|now apply (latest_window_of g' k n)].
    rewrite Htd. unfold backward_rule in Hr. destruct (is_empty (successors n)).
    + injection Hr as <-. lia.
    + apply backward_succs_bounds in Hr. lia.
  - intros d Hd.
    destruct (cpm_edge g st g' Hwf E d Hd)
      as (pn & sn & ps & ss & pl & sl & Epn & Esn & _ & _ & Epls & Eplf
          & _ & _ & Esls & Eslf & _ & Hh).
    exists (pl - node_total_duration pn), pl, (sl - node_total_duration sn), sl.
    split; [now apply (latest_window_of g' _ pn)|].
    split; [now apply (latest_window_of g' _ sn)|exact Hh].
Qed.

Lemma latest_times_respect_dependencies_witness :
  wf_graph g_abc
  /\ calculate_critical_path g_abc t0900 = Ok g_abc_scheduled
  /\ (forall k n, dict_get (nodes g_abc_scheduled) k = Some n ->
        exists lf, lf <= t0900 + total_duration g_abc_scheduled
                   /\ latest_window g_abc_scheduled k
                      = Some (lf - node_total_duration n, lf))
  /\ (forall d, effective g_abc d ->
        exists pls plf sls slf,
          latest_window g_abc_scheduled (predecessor_id d) = Some (pls, plf)
          /\ latest_window g_abc_scheduled (successor_id d) = Some (sls, slf)
          /\ dependency_holds d pls plf sls slf).
Proof.
  split; [exact g_abc_wf|]. split; [exact g_abc_scheduled_eq|].
  exact (latest_times_respect_dependencies g_abc t0900 g_abc_scheduled
           g_abc_wf g_abc_scheduled_eq).
Defined.

(** No activity finishes, at the earliest, after its latest finish. *)
Lemma earliest_before_latest g st g' :
  wf_graph g -> calculate_critical_path g st = Ok g' ->
  forall k n, dict_get (nodes g') k = Some n ->
    exists es lf,
      earliest_start n = Some es
      /\ earliest_finish n = Some (es + node_total_duration n)
      /\ latest_start n = Some (lf - node_total_duration n)
      /\ latest_finish n = Some lf
      /\ es + node_total_duration n <= lf
      /\ lf <= st + total_duration g'
      /\ slack n = lf - node_total_duration n - es
      /\ is_critical n = (slack n =? 0).
Proof.
  intros Hwf E.
  destruct (cpm_facts g st g' Hwf E)
    as (pe & order & _ & Hs & Hpe & Htd & Hok & Hfin & Hord & _ & Hsf).
  pose proof (max_of_spec _ _ Hpe) as [_ Hmax].
  assert (H : forall k, In k (rev order) ->
                forall n es lf, dict_get (nodes g') k = Some n ->
                  earliest_start n = Some es -> latest_finish n = Some lf ->
                  es + node_total_duration n <= lf).
  { apply (deps_first_ind (succs_of (nodes g)) (rev order)
             (fun k => forall n es lf, dict_get (nodes g') k = Some n ->
                  earliest_start n = Some es -> latest_finish n = Some lf ->
                  es + node_total_duration n <= lf)); [exact Hsf|].
    intros v Hv IH n es lf En Es Elf.
    apply in_rev, Hord in Hv. destruct (Hok v Hv) as [Hfv Hbv].
    destruct (stage_node g st g' pe v Hs Hfv Hbv)
      as (n' & es' & lf' & En' & Es' & Ef & _ & Elf' & _ & Hr & _ & _ & Hsucc).
    rewrite En in En'. injection En' as <-.
    rewrite Es in Es'. injection Es' as <-. rewrite Elf in Elf'. injection Elf' as <-.
    assert (Hle : es + node_total_duration n <= pe).
    { apply Hmax. apply earliest_finishes_In. exists v, n.
      split; [now apply dict_get_In|exact Ef]. }
    unfold backward_rule in Hr. destruct (is_empty (successors n)).
    { injection Hr as <-. exact Hle. }
    apply (backward_succs_lower _ _ _ _ _ _ _ _ Hr); [exact Hle|].
    intros s Hs' dep sn c Hfind Esn Ec.
    destruct (find_dependency_some _ _ _ _ Hfind) as (Hin & Hpd & Hsd).
    assert (Heff : effective g dep) by (unfold effective; now rewrite Hpd, Hsd).
    destruct (cpm_edge g st g' Hwf E dep Heff)
      as (pn & sn' & ps & ss & pl & sl & Epn & Esn' & Eps & _ & _ & _
          & Ess & _ & Esls & Eslf & Hh & _).
    rewrite Hpd in Epn. rewrite Hsd in Esn'.
    rewrite En in Epn. injection Epn as <-. rewrite Esn in Esn'. injection Esn' as <-.
    rewrite Es in Eps. injection Eps as <-.
    assert (Hss : ss + node_total_duration sn <= sl).
    { apply (IH s); [now rewrite <- Hsucc|assumption|assumption|assumption]. }
    rewrite (candidate_finish_value dep sn n _ sl Esls Eslf) in Ec. injection Ec as <-.
    unfold dependency_holds in Hh.
    repeat (match goal with |- context [if ?b then _ else _] => destruct b end); lia. }
  intros k n En.
  assert (Hk : In k (node_ids g)).
  { unfold node_ids. rewrite <- (proj1 Hs). eapply dict_get_keys; eauto. }
  destruct (Hok k Hk) as [Hfk Hbk].
  destruct (stage_node g st g' pe k Hs Hfk Hbk)
    as (n' & es & lf & En' & Es & Ef & Els & Elf & _ & Hr & _ & _ & _).
  rewrite En in En'. injection En' as <-.
  exists es, lf. repeat (split; [assumption|]).
  split; [apply (H k) with (n := n); auto; apply -> in_rev; now apply Hord|].
  split.
  { rewrite Htd. unfold backward_rule in Hr. destruct (is_empty (successors n)).
    - injection Hr as <-. lia.
    - apply backward_succs_bounds in Hr. lia. }
  destruct (Hfin k n En) as (es' & ls' & Es' & Els' & Hsl & Hc).
  rewrite Es in Es'. injection Es' as <-. rewrite Els in Els'. injection Els' as <-.
  split; assumption.
Qed.

(** X5. After a successful critical-path pass no activity has negative
    slack, and the critical path is not empty: it holds an activity whose
    earliest finish is the project end. *)
Theorem slack_never_negative
    (g : DependencyGraph) (st : datetime) (g' : DependencyGraph) :
  wf_graph g -> calculate_critical_path g st = Ok g' ->
  (forall k n, dict_get (nodes g') k = Some n -> 0 <= slack n)
  /\ exists k es,
       In k (critical_path g')
       /\ window g' k = Some (es, st + total_duration g').
Proof.
  intros Hwf E. split.
  - intros k n En.
    destruct (earliest_before_latest g st g' Hwf E k n En)
      as (es & lf & _ & _ & _ & _ & Hle & _ & Hsl & _). lia.
  - destruct (calculate_critical_path_stages g st g' Hwf E)
      as (pe & _ & _ & _ & _ & Hcp & _ & _ & _).
    destruct (project_end_attained g st g' Hwf E) as (k & n & En & Ef).
    destruct (earliest_before_latest g st g' Hwf E k n En)
      as (es & lf & Es & Ef' & _ & _ & Hle & Hup & Hsl & Hc).
    rewrite Ef in Ef'. injection Ef' as Hpe'.
    exists k, es. split.
    + rewrite Hcp. unfold _find_critical_path.
      apply (Permutation_in _ (Permutation_sym (sort_by_perm _ _ _))).
      apply in_map_iff. exists (k, n). split; [reflexivity|].
      apply filter_In. split; [now apply dict_get_In|]. simpl. rewrite Hc.
      apply Z.eqb_eq. lia.
    + now apply (window_of g' k n).
Qed.

Lemma slack_never_negative_witness :
  wf_graph g_abc
  /\ calculate_critical_path g_abc t0900 = Ok g_abc_scheduled
  /\ (forall k n, dict_get (nodes g_abc_scheduled) k = Some n -> 0 <= slack n)
  /\ exists k es,
       In k (critical_path g_abc_scheduled)
       /\ window g_abc_scheduled k = Some (es, t0900 + total_duration g_abc_scheduled).
Proof.
  split; [exact g_abc_wf|]. split; [exact g_abc_scheduled_eq|].
  exact (slack_never_negative g_abc t0900 g_abc_scheduled
           g_abc_wf g_abc_scheduled_eq).
Defined.

(** X6. [total_duration] is the time from the project start to the greatest
    earliest finish: every activity can finish by the start time plus
    [total_duration], one of them finishes exactly then, and no single
    activity takes longer than [total_duration]. *)
Theorem total_duration_is_makespan
    (g : DependencyGraph) (st : datetime) (g' : DependencyGraph) :
  wf_graph g -> calculate_critical_path g st = Ok g' ->
  (forall k es ef, window g' k = Some (es, ef) -> ef <= st + total_duration g')
  /\ (exists k es, window g' k = Some (es, st + total_duration g'))
  /\ (forall k n, dict_get (nodes g') k = Some n ->
        node_total_duration n <= total_duration g').
Proof.
  intros Hwf E.
  destruct (calculate_critical_path_stages g st g' Hwf E)
    as (pe & _ & Hs & Hpe & Htd & _ & _ & _ & _).
  destruct (max_of_spec _ _ Hpe) as [Hin Hmax].
  assert (Hw : forall k es ef, window g' k = Some (es, ef) -> ef <= st + total_duration g').
  { intros k es ef Hw. apply window_inv in Hw as (n & En & _ & Ef).
    rewrite Htd. replace (st + (pe - st)) with pe by lia.
    apply Hmax. apply earliest_finishes_In. exists k, n.
    split; [now apply dict_get_In|assumption]. }
  split; [exact Hw|]. split.
  - destruct (project_end_attained g st g' Hwf E) as (k & n & En & Ef).
    destruct (earliest_start_after_start g st g' Hwf E k n En) as (es & _ & Es & _).
    exists k, es. now apply (window_of g' k n).
  - intros k n En.
    destruct (earliest_start_after_start g st g' Hwf E k n En) as (es & Hst & Es & Ef).
    specialize (Hw k es _ (window_of g' k n es _ En Es Ef)). lia.
Qed.

Lemma total_duration_is_makespan_witness :
  wf_graph g_abc
  /\ calculate_critical_path g_abc t0900 = Ok g_abc_scheduled
  /\ (forall k es ef, window g_abc_scheduled k = Some (es, ef) ->
        ef <= t0900 + total_duration g_abc_scheduled)
  /\ (exists k es,
        window g_abc_scheduled k = Some (es, t0900 + total_duration g_abc_scheduled))
  /\ (forall k n, dict_get (nodes g_abc_scheduled) k = Some n ->
        node_total_duration n <= total_duration g_abc_scheduled).
Proof.
  split; [exact g_abc_wf|]. split; [exact g_abc_scheduled_eq|].
  exact (total_duration_is_makespan g_abc t0900 g_abc_scheduled
           g_abc_wf g_abc_scheduled_eq).
Defined.

Lemma flat_map_nil (A B : Type) (f : A -> list B) l :
  (forall x, In x l -> f x = []) -> flat_map f l = [].
Proof.
  induction l as [|x l IH]; intros H; simpl; [reflexivity|].
  rewrite (H x (or_introl eq_refl)). simpl. apply IH. intros y Hy. apply H. now right.
Qed.

Lemma wf_graph_ext g g2 :
  nodes g2 = nodes g -> dependencies g2 = dependencies g ->
  wf_graph g -> wf_graph g2.
Proof.
  destruct g as [ns ds cp td], g2 as [ns2 ds2 cp2 td2]. simpl.
  intros -> -> [H1 H2 H3 H4 H5 H6]. split; assumption.
Qed.

Lemma wf_after_pass g st g' :
  wf_graph g -> calculate_critical_path g st = Ok g' ->
  wf_graph g' /\ acyclic g' /\ dependencies g' = dependencies g.
Proof.
  intros Hwf E.
  destruct (calculate_critical_path_stages g st g' Hwf E)
    as (pe & Hd & Hs & _ & _ & _ & _ & _ & _).
  destruct (calculate_critical_path_ok_acyclic g st g' Hwf E) as [Hacyc _].
  split; [|split; [exact (acyclic_same_dependencies g g' Hd Hacyc)|exact Hd]].
  apply (wf_graph_ext (set_nodes g (nodes g')) g'); [reflexivity|exact Hd|].
  now apply wf_same_structure.
Qed.

Lemma resolve_conflicts_vendor_only g st g' :
  wf_graph g -> calculate_critical_path g st = Ok g' ->
  resolve_conflicts g' = Ok (_check_resource_conflicts g').
Proof.
  intros Hwf E.
  destruct (calculate_critical_path_stages g st g' Hwf E)
    as (pe & Hd & Hs & _ & _ & _ & _ & _ & _).
  destruct (calculate_critical_path_ok_acyclic g st g' Hwf E) as [Hacyc _].
  assert (Hwf' : wf_graph g').
  { apply (wf_graph_ext (set_nodes g (nodes g')) g'); [reflexivity|exact Hd|].
    now apply wf_same_structure. }
  unfold resolve_conflicts.
  rewrite (has_cycle_acyclic g' Hwf' (acyclic_same_dependencies g g' Hd Hacyc)).
  cbn [bind app]. f_equal.
  rewrite flat_map_nil; [reflexivity|].
  intros [k n] Hin. simpl.
  assert (En : dict_get (nodes g') k = Some n).
  { apply dict_In_get; [apply Hwf'|assumption]. }
  destruct (earliest_before_latest g st g' Hwf E k n En)
    as (es & lf & _ & _ & _ & _ & Hle & _ & Hsl & _).
  replace (slack n <? 0) with false; [now rewrite andb_false_r|].
  symmetry. apply Z.ltb_ge. lia.
Qed.

(** X7. After a successful critical-path pass [resolve_conflicts] reports
    vendor conflicts only: neither the message about circular dependencies
    nor a message about negative slack can occur. *)
Theorem resolve_conflicts_after_pass
    (g : DependencyGraph) (st : datetime) (g' : DependencyGraph) :
  wf_graph g -> calculate_critical_path g st = Ok g' ->
  resolve_conflicts g' = Ok (_check_resource_conflicts g').
Proof. exact (resolve_conflicts_vendor_only g st g'). Qed.

Lemma resolve_conflicts_after_pass_witness :
  wf_graph g_abc
  /\ calculate_critical_path g_abc t0900 = Ok g_abc_scheduled
  /\ resolve_conflicts g_abc_scheduled
     = Ok (_check_resource_conflicts g_abc_scheduled).
Proof.
  split; [exact g_abc_wf|]. split; [exact g_abc_scheduled_eq|].
  exact (resolve_conflicts_after_pass g_abc t0900 g_abc_scheduled
           g_abc_wf g_abc_scheduled_eq).
Defined.

(** ** The result depends on the structure of the graph only *)

Lemma node_eq n n' :
  skeleton n' = skeleton n ->
  earliest_start n' = earliest_start n -> earliest_finish n' = earliest_finish n ->
  latest_start n' = latest_start n -> latest_finish n' = latest_finish n ->
  slack n' = slack n -> is_critical n' = is_critical n ->
  n' = n.
Proof.
  destruct n, n'. unfold skeleton. simpl. intros [= -> -> ->]. congruence.
Qed.

Lemma dict_ext (V : Type) (d1 : dict V) : forall d2,
  dict_keys d2 = dict_keys d1 -> NoDup (dict_keys d1) ->
  (forall k, dict_get d2 k = dict_get d1 k) -> d2 = d1.
Proof.
  induction d1 as [|[k v] d1 IH]; intros [|[k' v'] d2] K Hnd H;
    simpl in K; try discriminate; [reflexivity|].
  injection K as -> K. inversion Hnd as [|? ? Hk Hnd']; subst.
  pose proof (H k) as Hk'. simpl in Hk'. rewrite String.eqb_refl in Hk'.
  injection Hk' as ->. f_equal. apply IH; [assumption|assumption|].
  intros x. specialize (H x). simpl in H.
  destruct (String.eqb_spec x k) as [Exk|Hne]; [|exact H].
  subst x.
  assert (H1 : dict_get d1 k = None) by (apply dict_get_None; exact Hk).
  assert (H2 : dict_get d2 k = None) by (apply dict_get_None; rewrite K; exact Hk).
  now rewrite H1, H2.
Qed.

Lemma forward_unique ns na nb deps st order :
  same_structure ns na -> same_structure ns nb ->
  deps_first (preds_of ns) order ->
  (forall k, In k order -> forward_ok na deps st k /\ forward_ok nb deps st k) ->
  forall k, In k order ->
    option_map (fun n => (earliest_start n, earliest_finish n)) (dict_get nb k)
    = option_map (fun n => (earliest_start n, earliest_finish n)) (dict_get na k).
Proof.
  intros Ha Hb Hdf Hok.
  apply (deps_first_ind (preds_of ns) order
           (fun k => option_map (fun n => (earliest_start n, earliest_finish n))
                                (dict_get nb k)
                     = option_map (fun n => (earliest_start n, earliest_finish n))
                                  (dict_get na k))); [exact Hdf|].
  intros v Hv IH.
  destruct (Hok v Hv) as [(a & ea & Ea & Esa & Efa & Hra) (b & eb & Eb & Esb & Efb & Hrb)].
  destruct (same_structure_get _ _ _ _ Ha Ea) as (n0 & En0 & Hska).
  destruct (same_structure_get _ _ _ _ Hb Eb) as (n0' & En0' & Hskb).
  rewrite En0 in En0'. injection En0' as <-.
  pose proof (skeleton_duration _ _ Hska) as Hda.
  pose proof (skeleton_duration _ _ Hskb) as Hdb.
  assert (Hpa : predecessors a = predecessors n0) by (unfold skeleton in Hska; congruence).
  assert (Hpb : predecessors b = predecessors n0) by (unfold skeleton in Hskb; congruence).
  assert (Hes : ea = eb).
  { unfold forward_rule in Hra, Hrb. rewrite Hpa in Hra. rewrite Hpb in Hrb.
    destruct (is_empty (predecessors n0)); [congruence|].
    rewrite (forward_preds_view na nb deps v a b (predecessors n0)) in Hra;
      [congruence| |congruence].
    intros p Hp. apply IH. unfold preds_of. now rewrite En0. }
  subst eb. rewrite Ea, Eb. simpl. rewrite Esa, Esb, Efa, Efb, Hda, Hdb. reflexivity.
Qed.

Lemma backward_unique ns na nb deps pe order :
  same_structure ns na -> same_structure ns nb ->
  deps_first (succs_of ns) order ->
  (forall k, In k order -> backward_ok na deps pe k /\ backward_ok nb deps pe k) ->
  forall k, In k order ->
    option_map (fun n => (latest_start n, latest_finish n)) (dict_get nb k)
    = option_map (fun n => (latest_start n, latest_finish n)) (dict_get na k).
Proof.
  intros Ha Hb Hdf Hok.
  apply (deps_first_ind (succs_of ns) order
           (fun k => option_map (fun n => (latest_start n, latest_finish n))
                                (dict_get nb k)
                     = option_map (fun n => (latest_start n, latest_finish n))
                                  (dict_get na k))); [exact Hdf|].
  intros v Hv IH.
  destruct (Hok v Hv) as [(a & la & Ea & Elfa & Elsa & Hra) (b & lb & Eb & Elfb & Elsb & Hrb)].
  destruct (same_structure_get _ _ _ _ Ha Ea) as (n0 & En0 & Hska).
  destruct (same_structure_get _ _ _ _ Hb Eb) as (n0' & En0' & Hskb).
  rewrite En0 in En0'. injection En0' as <-.
  pose proof (skeleton_duration _ _ Hska) as Hda.
  pose proof (skeleton_duration _ _ Hskb) as Hdb.
  assert (Hpa : successors a = successors n0) by (unfold skeleton in Hska; congruence).
  assert (Hpb : successors b = successors n0) by (unfold skeleton in Hskb; congruence).
  assert (Hes : la = lb).
  { unfold backward_rule in Hra, Hrb. rewrite Hpa in Hra. rewrite Hpb in Hrb.
    destruct (is_empty (successors n0)); [congruence|].
    rewrite (backward_succs_view na nb deps v a b (successors n0)) in Hra;
      [congruence| |congruence].
    intros p Hp. apply IH. unfold succs_of. now rewrite En0. }
  subst lb. rewrite Ea, Eb. simpl. rewrite Elsa, Elsb, Elfa, Elfb, Hda, Hdb. reflexivity.
Qed.

Lemma calculate_critical_path_structural g1 g2 st g1' :
  wf_graph g1 ->
  same_structure (nodes g1) (nodes g2) -> dependencies g2 = dependencies g1 ->
  calculate_critical_path g1 st = Ok g1' ->
  calculate_critical_path g2 st = Ok g1'.
Proof.
  intros Hwf Hs12 Hd12 E1.
  assert (Hwf2 : wf_graph g2).
  { apply (wf_graph_ext (set_nodes g1 (nodes g2)) g2); [reflexivity|exact Hd12|].
    now apply wf_same_structure. }
  destruct (calculate_critical_path_ok_acyclic g1 st g1' Hwf E1) as [Hacyc Hne].
  assert (Hne2 : nodes g2 <> []).
  { intros H0. apply Hne. destruct Hs12 as [K _]. rewrite H0 in K. simpl in K.
    destruct (nodes g1); [reflexivity|discriminate]. }
  destruct (calculate_critical_path_run g2 st Hwf2
              (acyclic_same_dependencies g1 g2 Hd12 Hacyc) Hne2) as (g2' & E2 & _).
  rewrite E2. f_equal.
  destruct (cpm_facts g1 st g1' Hwf E1)
    as (pe1 & order & Hd1 & Hs1 & Hpe1 & Htd1 & Hok1 & Hfin1 & Hord & Hpf & Hsf).
  destruct (cpm_facts g2 st g2' Hwf2 E2)
    as (pe2 & _ & Hd2 & Hs2 & Hpe2 & Htd2 & Hok2 & Hfin2 & _ & _ & _).
  destruct (calculate_critical_path_stages g1 st g1' Hwf E1)
    as (_ & _ & _ & _ & _ & Hcp1 & _ & _ & _).
  destruct (calculate_critical_path_stages g2 st g2' Hwf2 E2)
    as (_ & _ & _ & _ & _ & Hcp2 & _ & _ & _).
  assert (Hs2' : same_structure (nodes g1) (nodes g2')).
  { exact (same_structure_trans _ _ _ Hs12 Hs2). }
  assert (K12 : node_ids g2 = node_ids g1) by (unfold node_ids; apply Hs12).
  rewrite Hd12, K12 in Hok2.
  assert (Hnd : NoDup (dict_keys (nodes g1'))).
  { rewrite (proj1 Hs1). apply Hwf. }
  assert (Kk : dict_keys (nodes g2') = dict_keys (nodes g1')).
  { rewrite (proj1 Hs2'), (proj1 Hs1). reflexivity. }
  assert (Hnone : forall k, ~ In k (node_ids g1) ->
                    dict_get (nodes g1') k = None /\ dict_get (nodes g2') k = None).
  { intros k Hk. split; apply dict_get_None.
    - now rewrite (proj1 Hs1).
    - now rewrite (proj1 Hs2'). }
  assert (Hearly : same_earliest (nodes g1') (nodes g2')).
  { intros k. destruct (in_dec string_dec k (node_ids g1)) as [Hk|Hk].
    - apply (forward_unique (nodes g1) (nodes g1') (nodes g2') (dependencies g1) st order);
        try assumption.
      + intros x Hx. apply Hord in Hx. split; [apply Hok1|apply Hok2]; exact Hx.
      + now apply Hord.
    - destruct (Hnone k Hk) as [-> ->]. reflexivity. }
  assert (Hpe : pe2 = pe1).
  { rewrite (earliest_finishes_same (nodes g1') (nodes g2') Kk Hnd Hearly) in Hpe2.
    congruence. }
  subst pe2.
  assert (Hlate : same_latest (nodes g1') (nodes g2')).
  { intros k. destruct (in_dec string_dec k (node_ids g1)) as [Hk|Hk].
    - apply (backward_unique (nodes g1) (nodes g1') (nodes g2') (dependencies g1) pe1
               (rev order)); try assumption.
      + intros x Hx. apply in_rev, Hord in Hx. split; [apply Hok1|apply Hok2]; exact Hx.
      + apply -> in_rev. now apply Hord.
    - destruct (Hnone k Hk) as [-> ->]. reflexivity. }
  assert (Hnodes : nodes g2' = nodes g1').
  { apply dict_ext; [exact Kk|exact Hnd|].
    intros k. pose proof (Hearly k) as He. pose proof (Hlate k) as Hl.
    pose proof (proj2 Hs1 k) as Hk1. pose proof (proj2 Hs2' k) as Hk2.
    destruct (dict_get (nodes g1') k) as [a|] eqn:Ea,
             (dict_get (nodes g2') k) as [b|] eqn:Eb;
      simpl in He, Hl; try discriminate; [|reflexivity].
    injection He as He1 He2. injection Hl as Hl1 Hl2.
    destruct (Hfin1 k a Ea) as (esa & lsa & Esa & Elsa & Hsla & Hca).
    destruct (Hfin2 k b Eb) as (esb & lsb & Esb & Elsb & Hslb & Hcb).
    assert (Hslack : slack b = slack a) by congruence.
    f_equal. apply node_eq; try assumption; [|congruence].
    destruct (dict_get (nodes g1) k); simpl in Hk1, Hk2; congruence. }
  destruct g1' as [n1 d1 c1 t1], g2' as [n2 d2 c2 t2]. simpl in *.
  subst n2. unfold _find_critical_path in Hcp1, Hcp2. simpl in Hcp1, Hcp2.
  congruence.
Qed.

(** X8. The result of [calculate_critical_path] depends only on the
    activities, the adjacency sets and the edges of the graph, not on times,
    slack, critical path or total duration left in it by an earlier run; in
    particular running it again on its own result returns that result. *)
Theorem critical_path_recomputed
    (g1 g2 : DependencyGraph) (st : datetime) (g1' : DependencyGraph) :
  wf_graph g1 ->
  same_structure (nodes g1) (nodes g2) -> dependencies g2 = dependencies g1 ->
  calculate_critical_path g1 st = Ok g1' ->
  calculate_critical_path g2 st = Ok g1'
  /\ calculate_critical_path g1' st = Ok g1'.
Proof.
  intros Hwf Hs Hd E. split.
  - now apply (calculate_critical_path_structural g1 g2 st g1').
  - destruct (calculate_critical_path_stages g1 st g1' Hwf E)
      as (pe & Hd' & Hs' & _).
    now apply (calculate_critical_path_structural g1 g1' st g1').
Qed.

Lemma critical_path_recomputed_witness :
  wf_graph g_abc
  /\ same_structure (nodes g_abc) (nodes g_abc_scheduled)
  /\ dependencies g_abc_scheduled = dependencies g_abc
  /\ calculate_critical_path g_abc t0900 = Ok g_abc_scheduled
  /\ calculate_critical_path g_abc_scheduled t0900 = Ok g_abc_scheduled
  /\ calculate_critical_path g_abc_scheduled t0900 = Ok g_abc_scheduled.
Proof.
  assert (Hs : same_structure (nodes g_abc) (nodes g_abc_scheduled)).
  { split; [reflexivity|]. intros k. vm_compute.
    repeat (match goal with |- context [if ?b then _ else _] => destruct b end);
      reflexivity. }
  assert (Hd : dependencies g_abc_scheduled = dependencies g_abc) by reflexivity.
  split; [exact g_abc_wf|]. split; [exact Hs|]. split; [exact Hd|].
  split; [exact g_abc_scheduled_eq|].
  exact (critical_path_recomputed g_abc g_abc_scheduled t0900 g_abc_scheduled
           g_abc_wf Hs Hd g_abc_scheduled_eq).
Defined.

(* ------------------------------------------------------------------ *)
(** * [create_dependency_graph] *)

Lemma set_add_absent x s : ~ In x s -> set_add x s = s ++ [x].
Proof.
  intros H. unfold set_add. destruct (set_mem x s) eqn:E; [|reflexivity].
  apply set_mem_In in E. contradiction.
Qed.

Lemma fold_add_activity_nodes l : forall g,
  dependencies (fold_left add_activity l g) = dependencies g
  /\ critical_path (fold_left add_activity l g) = critical_path g
  /\ total_duration (fold_left add_activity l g) = total_duration g
  /\ node_ids (fold_left add_activity l g)
     = fold_left (fun s x => set_add x s) (map id l) (node_ids g)
  /\ forall k, dict_get (nodes (fold_left add_activity l g)) k =
               match dict_get (nodes g) k with
               | Some n => Some n
               | None => option_map new_node (first_with_id l k)
               end.
Proof.
  induction l as [|a l IH]; intros g; simpl.
  - repeat split. intros k. destruct (dict_get (nodes g) k); reflexivity.
  - destruct (IH (add_activity g a)) as (H1 & H2 & H3 & H4 & H5).
    rewrite H1, H2, H3, H4.
    destruct (in_dec string_dec (id a) (node_ids g)) as [Hin|Hout].
    + rewrite (add_activity_present g a Hin) in *.
      rewrite (set_add_member _ _ Hin).
      repeat split. intros k. rewrite H5.
      destruct (dict_get (nodes g) k) as [n|] eqn:En; [reflexivity|].
      unfold first_with_id. simpl.
      destruct (String.eqb_spec (id a) k) as [E|_]; [|reflexivity].
      subst k. apply dict_get_None in En. contradiction.
    + rewrite (add_activity_absent g a Hout) in *. simpl in *.
      rewrite (set_add_absent _ _ Hout).
      split; [reflexivity|]. split; [reflexivity|]. split; [reflexivity|].
      split.
      { f_equal. unfold node_ids, dict_keys. simpl. now rewrite map_app. }
      intros k. rewrite H5. rewrite dict_get_app.
      destruct (dict_get (nodes g) k) as [n|] eqn:En; [reflexivity|].
      unfold first_with_id. simpl. rewrite (String.eqb_sym (id a) k).
      destruct (String.eqb k (id a)); reflexivity.
Qed.

Lemma fold_set_add_nodup l : forall s,
  NoDup (s ++ l) -> fold_left (fun s x => set_add x s) l s = s ++ l.
Proof.
  induction l as [|x l IH]; intros s H; simpl; [now rewrite app_nil_r|].
  assert (Hx : ~ In x s).
  { apply NoDup_remove_2 in H. intros Hin. apply H. apply in_app_iff. now left. }
  rewrite (set_add_absent _ _ Hx). rewrite IH; rewrite <- app_assoc; [reflexivity|].
  exact H.
Qed.

Lemma add_dependencies_ok ds : forall g g',
  add_dependencies g ds = Ok g' ->
  dependencies g' = dependencies g ++ ds
  /\ node_ids g' = node_ids g
  /\ critical_path g' = critical_path g
  /\ total_duration g' = total_duration g
  /\ (forall k, option_map activity (dict_get (nodes g') k)
                = option_map activity (dict_get (nodes g) k))
  /\ forall d, In d ds -> ~ rejected g d.
Proof.
  induction ds as [|d ds IH]; intros g g' E; simpl in E.
  - injection E as <-. rewrite app_nil_r. repeat split. intros d [].
  - destruct (add_dependency_cases g d) as [[_ [msg Em]]|[Hok Eg]].
    { rewrite Em in E. discriminate. }
    rewrite Eg in E. cbn [bind] in E.
    destruct (IH _ _ E) as (H1 & H2 & H3 & H4 & H5 & H6). simpl in *.
    split; [rewrite H1, <- app_assoc; reflexivity|].
    assert (K : node_ids g' = node_ids g).
    { rewrite H2. unfold node_ids. simpl. apply link_keys. }
    split; [exact K|]. split; [exact H3|]. split; [exact H4|]. split.
    + intros k. rewrite H5, link_get.
      destruct (dict_get (nodes g) k); reflexivity.
    + intros x [<-|Hx]; [exact Hok|].
      specialize (H6 x Hx). unfold rejected in *. unfold node_ids in *. simpl in H6.
      rewrite link_keys in H6. exact H6.
Qed.

Lemma add_dependencies_accepts ds : forall g,
  (forall d, In d ds -> ~ rejected g d) ->
  exists g', add_dependencies g ds = Ok g'.
Proof.
  induction ds as [|d ds IH]; intros g H; simpl; [eauto|].
  destruct (add_dependency_cases g d) as [[Hr _]|[_ Eg]].
  { exfalso. exact (H d (or_introl eq_refl) Hr). }
  rewrite Eg. cbn [bind]. apply IH. intros x Hx.
  specialize (H x (or_intror Hx)). unfold rejected, node_ids in *. simpl.
  now rewrite link_keys.
Qed.

(** ** The shape of the generated dependencies *)

Lemma map_injective_on (A B : Type) (f : A -> B) (l : list A) :
  NoDup (map f l) -> forall a b, In a l -> In b l -> f a = f b -> a = b.
Proof.
  induction l as [|x l IH]; intros H a b Ha Hb E; [contradiction|].
  simpl in H. inversion H as [|? ? Hx Hl]; subst.
  destruct Ha as [<-|Ha], Hb as [<-|Hb]; auto.
  - exfalso. apply Hx. rewrite E. now apply in_map.
  - exfalso. apply Hx. rewrite <- E. now apply in_map.
Qed.

Lemma NoDup_map_inv' (A B : Type) (f : A -> B) (l : list A) :
  NoDup (map f l) -> NoDup l.
Proof.
  induction l as [|x l IH]; intros H; [constructor|].
  simpl in H. inversion H as [|? ? Hx Hl]; subst.
  constructor; [|now apply IH]. intros Hin. apply Hx. now apply in_map.
Qed.

Lemma chain_catering_In l d :
  In d (chain_catering l) ->
  exists l1 a b l2,
    l = l1 ++ a :: b :: l2
    /\ d = mkDependency (id a) (id b) "finish_to_start" (minutes 30).
Proof.
  induction l as [|a l IH]; [intros []|].
  destruct l as [|b l]; [intros []|].
  cbn [chain_catering]. intros [<-|H].
  - exists [], a, b, l. auto.
  - destruct (IH H) as (l1 & x & y & l2 & E & Ed).
    exists (a :: l1), x, y, l2. rewrite E. auto.
Qed.

Lemma chain_ceremonies_In found lag seq d :
  In d (chain_ceremonies found lag seq) ->
  exists l1 c1 c2 l2,
    seq = l1 ++ c1 :: c2 :: l2
    /\ dict_get found c1 = Some (predecessor_id d)
    /\ dict_get found c2 = Some (successor_id d)
    /\ dependency_type d = "finish_to_start" /\ lag_time d = lag.
Proof.
  induction seq as [|c1 seq IH]; [intros []|].
  destruct seq as [|c2 seq]; [intros []|].
  cbn [chain_ceremonies]. intros H. apply in_app_iff in H as [H|H].
  - destruct (dict_get found c1) as [p|] eqn:E1; [|contradiction].
    destruct (dict_get found c2) as [s|] eqn:E2; [|contradiction].
    destruct H as [<-|[]]. exists [], c1, c2, seq. auto.
  - destruct (IH H) as (l1 & x & y & l2 & E & Hx).
    exists (c1 :: l1), x, y, l2. rewrite E. auto.
Qed.

Lemma match_ceremonies_get seq l c i :
  dict_get (match_ceremonies seq l) c = Some i ->
  exists a, In a l /\ id a = i /\ first_ceremony_in seq (lower (name a)) = Some c.
Proof.
  unfold match_ceremonies.
  assert (H : forall acc,
            (forall c i, dict_get acc c = Some i ->
               exists a, In a l /\ id a = i
                         /\ first_ceremony_in seq (lower (name a)) = Some c) ->
            forall l', (forall a, In a l' -> In a l) ->
            forall c i,
            dict_get (fold_left
                        (fun (found : dict string) (a : Activity) =>
                           match first_ceremony_in seq (lower (name a)) with
                           | Some ceremony => dict_set found ceremony (id a)
                           | None => found
                           end) l' acc) c = Some i ->
            exists a, In a l /\ id a = i
                      /\ first_ceremony_in seq (lower (name a)) = Some c).
  { intros acc Hacc l'. revert acc Hacc.
    induction l' as [|a l' IH]; intros acc Hacc Hsub c0 i0; simpl; [apply Hacc|].
    apply IH; [|intros x Hx; apply Hsub; now right].
    intros c1 i1. destruct (first_ceremony_in seq (lower (name a))) as [ce|] eqn:Ea;
      [|apply Hacc].
    rewrite dict_get_set. destruct (String.eqb_spec c1 ce) as [E|_]; [|apply Hacc].
    subst c1. intros [= <-]. exists a. split; [apply Hsub; now left|auto]. }
  intros Hget. apply (H []) with (l' := l); [|auto|exact Hget].
  intros c0 i0 E. discriminate E.
Qed.

Lemma has_type_differs v w a b :
  v <> w -> has_type v a = true -> has_type w b = true -> a <> b.
Proof.
  unfold has_type. intros Hvw Ha Hb E. subst b.
  apply String.eqb_eq in Ha, Hb. congruence.
Qed.

Lemma consecutive_differ (A : Type) (l1 : list A) a b l2 :
  NoDup (l1 ++ a :: b :: l2) -> a <> b.
Proof.
  intros H E. subst b. apply NoDup_remove_2 in H. apply H.
  apply in_app_iff. right. now left.
Qed.

Lemma sequences_nodup : NoDup hindu_sequence /\ NoDup muslim_sequence.
Proof.
  split; repeat constructor; simpl; intuition discriminate.
Qed.

Lemma cultural_dependency_shape seq lag l d :
  NoDup seq ->
  In d (chain_ceremonies (match_ceremonies seq l) lag seq) ->
  exists a b,
    In a l /\ In b l /\ a <> b
    /\ predecessor_id d = id a /\ successor_id d = id b
    /\ dependency_type d = "finish_to_start".
Proof.
  intros Hnd H.
  destruct (chain_ceremonies_In _ _ _ _ H) as (l1 & c1 & c2 & l2 & E & H1 & H2 & Ht & _).
  destruct (match_ceremonies_get _ _ _ _ H1) as (a & Ha & Ia & Fa).
  destruct (match_ceremonies_get _ _ _ _ H2) as (b & Hb & Ib & Fb).
  exists a, b. repeat (split; [auto|]). 2: auto.
  intros Eab. subst b. rewrite Fa in Fb. injection Fb as Ec.
  rewrite E in Hnd. exact (consecutive_differ _ _ _ _ _ Hnd Ec).
Qed.

(** Every generated dependency joins two activities of the list and has one
    of the four types; the two activities are different entries of the
    list. *)
Lemma generated_dependency_shape l d :
  In d (_generate_automatic_dependencies l) ->
  exists a b,
    In a l /\ In b l
    /\ predecessor_id d = id a /\ successor_id d = id b
    /\ In (dependency_type d) dependency_types
    /\ (NoDup l -> a <> b).
Proof.
  unfold _generate_automatic_dependencies. cbv zeta.
  rewrite !in_app_iff. intros [H|[H|[H|[H|H]]]].
  - apply in_flat_map in H as (a & Ha & H). apply in_map_iff in H as (b & <- & Hb).
    apply filter_In in Ha as [Ha Ta]. apply filter_In in Hb as [Hb Tb].
    exists a, b. simpl. repeat (split; [auto|]).
    intros _. apply (has_type_differs "preparation" "ceremony"); [discriminate|auto|auto].
  - apply in_flat_map in H as (a & Ha & H). apply in_map_iff in H as (b & <- & Hb).
    apply filter_In in Ha as [Ha Ta]. apply filter_In in Hb as [Hb Tb].
    exists a, b. simpl. repeat (split; [auto|]).
    intros _. apply (has_type_differs "ceremony" "cleanup"); [discriminate|auto|auto].
  - apply in_flat_map in H as (b & Hb & H). apply in_flat_map in H as (a & Ha & H).
    destruct (str_in_list _ _); [|contradiction]. destruct H as [<-|[]].
    apply filter_In in Ha as [Ha Ta]. apply filter_In in Hb as [Hb Tb].
    exists a, b. simpl. repeat (split; [auto|]).
    intros _. apply (has_type_differs "ceremony" "photography"); [discriminate|auto|auto].
  - apply chain_catering_In in H as (l1 & a & b & l2 & E & ->).
    assert (Ha : In a (filter (has_type "catering") l)).
    { rewrite E. apply in_app_iff. right. now left. }
    assert (Hb : In b (filter (has_type "catering") l)).
    { rewrite E. apply in_app_iff. right. right. now left. }
    apply filter_In in Ha as [Ha _]. apply filter_In in Hb as [Hb _].
    exists a, b. simpl. repeat (split; [auto|]).
    intros Hnd. apply (consecutive_differ _ l1 a b l2). rewrite <- E.
    now apply NoDup_filter.
  - unfold _get_cultural_sequence_dependencies in H. apply in_app_iff in H.
    destruct H as [H|H];
      apply cultural_dependency_shape in H; try apply sequences_nodup;
      destruct H as (a & b & Ha & Hb & Hab & Hp & Hs & Ht);
      exists a, b; rewrite Ht; simpl; auto 10.
Qed.

Lemma first_with_id_some l k a :
  first_with_id l k = Some a -> In a l /\ id a = k.
Proof.
  unfold first_with_id. intros H. apply find_some in H as [H1 H2].
  apply String.eqb_eq in H2. auto.
Qed.

Lemma first_with_id_In l a :
  In a l -> exists a', first_with_id l (id a) = Some a'.
Proof.
  intros Ha. unfold first_with_id.
  destruct (find (fun x => String.eqb (id x) (id a)) l) as [a'|] eqn:E; [eauto|].
  exfalso. pose proof (find_none _ _ E a Ha) as H. simpl in H.
  now rewrite String.eqb_refl in H.
Qed.

Lemma first_ids_In l k : In k (first_ids l) <-> In k (map id l).
Proof.
  unfold first_ids.
  assert (H : forall xs s, In k (fold_left (fun s x => set_add x s) xs s)
                           <-> In k s \/ In k xs).
  { induction xs as [|x xs IH]; intros s; simpl; [tauto|].
    rewrite IH, set_add_In. intuition. }
  rewrite H. simpl. tauto.
Qed.

Lemma create_dependency_graph_parts l g :
  create_dependency_graph l = Ok g ->
  node_ids g = first_ids l
  /\ dependencies g = _generate_automatic_dependencies l
  /\ (forall k, option_map activity (dict_get (nodes g) k) = first_with_id l k)
  /\ forall d, In d (_generate_automatic_dependencies l) ->
       predecessor_id d <> EmptyString /\ successor_id d <> EmptyString
       /\ predecessor_id d <> successor_id d.
Proof.
  unfold create_dependency_graph. intros E.
  destruct (add_dependencies_ok _ _ _ E) as (H1 & H2 & _ & _ & H5 & H6).
  destruct (fold_add_activity_nodes l empty_graph) as (G1 & _ & _ & G4 & G5).
  split; [rewrite H2, G4; reflexivity|].
  split; [rewrite H1, G1; reflexivity|]. split.
  - intros k. rewrite H5, G5. simpl. destruct (first_with_id l k); reflexivity.
  - intros d Hd. specialize (H6 d Hd). unfold rejected in H6.
    repeat split; intros H; apply H6; auto.
Qed.

Lemma create_dependency_graph_accepts l :
  (forall d, In d (_generate_automatic_dependencies l) ->
     predecessor_id d <> EmptyString /\ successor_id d <> EmptyString
     /\ predecessor_id d <> successor_id d) ->
  exists g, create_dependency_graph l = Ok g.
Proof.
  intros H. unfold create_dependency_graph. apply add_dependencies_accepts.
  intros d Hd. destruct (H d Hd) as (H1 & H2 & H3).
  destruct (generated_dependency_shape l d Hd) as (a & b & Ha & Hb & Hp & Hs & Ht & _).
  destruct (fold_add_activity_nodes l empty_graph) as (_ & _ & _ & G4 & _).
  assert (Hin : forall x, In x l ->
                  In (id x) (node_ids (fold_left add_activity l empty_graph))).
  { intros x Hx. rewrite G4. apply (first_ids_In l). now apply in_map. }
  unfold rejected. rewrite Hp, Hs in *.
  intros [H0|[H0|[H0|[H0|[H0|H0]]]]]; auto.
Qed.

Lemma create_dependency_graph_nodup (activities : list Activity) :
  NoDup (map id activities) ->
  (forall a, In a activities -> id a <> EmptyString) ->
  exists g,
    create_dependency_graph activities = Ok g
    /\ wf_graph g
    /\ node_ids g = map id activities
    /\ dependencies g = _generate_automatic_dependencies activities
    /\ forall a, In a activities ->
         option_map activity (dict_get (nodes g) (id a)) = Some a.
Proof.
  intros Hnd Hne.
  destruct (create_dependency_graph_accepts activities) as [g E].
  { intros d Hd.
    destruct (generated_dependency_shape activities d Hd)
      as (a & b & Ha & Hb & Hp & Hs & _ & Hab).
    rewrite Hp, Hs. split; [auto|]. split; [auto|].
    intros Eid. apply (Hab (NoDup_map_inv' _ _ _ _ Hnd)).
    exact (map_injective_on _ _ id activities Hnd a b Ha Hb Eid). }
  exists g. split; [exact E|]. split; [exact (create_dependency_graph_wf _ E)|].
  destruct (create_dependency_graph_parts activities g E) as (H1 & H2 & H3 & _).
  split.
  { rewrite H1. unfold first_ids. now rewrite (fold_set_add_nodup _ [] Hnd). }
  split; [exact H2|].
  intros a Ha. rewrite H3.
  destruct (first_with_id_In activities a Ha) as [a' E'].
  rewrite E'. f_equal. apply first_with_id_some in E' as [Ha' Eid].
  exact (map_injective_on _ _ id activities Hnd a' a Ha' Ha Eid).
Qed.

(** X9. [create_dependency_graph] returns on every list of activities with
    distinct, non-empty ids: the nodes are the activities in the order of the
    list, each under its id, and the edges are exactly the generated
    dependencies. *)
Theorem create_dependency_graph_distinct_ids (activities : list Activity) :
  NoDup (map id activities) ->
  (forall a, In a activities -> id a <> EmptyString) ->
  exists g,
    create_dependency_graph activities = Ok g
    /\ wf_graph g
    /\ node_ids g = map id activities
    /\ dependencies g = _generate_automatic_dependencies activities
    /\ forall a, In a activities ->
         option_map activity (dict_get (nodes g) (id a)) = Some a.
Proof. exact (create_dependency_graph_nodup activities). Qed.

Lemma create_dependency_graph_distinct_ids_witness :
  NoDup (map id (abc_activities MEDIUM CRITICAL LOW))
  /\ (forall a, In a (abc_activities MEDIUM CRITICAL LOW) -> id a <> EmptyString)
  /\ exists g,
       create_dependency_graph (abc_activities MEDIUM CRITICAL LOW) = Ok g
       /\ wf_graph g
       /\ node_ids g = map id (abc_activities MEDIUM CRITICAL LOW)
       /\ dependencies g
          = _generate_automatic_dependencies (abc_activities MEDIUM CRITICAL LOW)
       /\ forall a, In a (abc_activities MEDIUM CRITICAL LOW) ->
            option_map activity (dict_get (nodes g) (id a)) = Some a.
Proof.
  assert (H1 : NoDup (map id (abc_activities MEDIUM CRITICAL LOW))).
  { simpl. repeat constructor; simpl; intuition discriminate. }
  assert (H2 : forall a, In a (abc_activities MEDIUM CRITICAL LOW) ->
                         id a <> EmptyString).
  { simpl. intros a [<-|[<-|[<-|[]]]]; discriminate. }
  split; [exact H1|]. split; [exact H2|].
  exact (create_dependency_graph_distinct_ids _ H1 H2).
Defined.

(** X10. Whenever [create_dependency_graph] returns, the node ids are the
    ids of the list in the order of their first occurrence and the activity
    stored under an id is the first activity of the list with that id: an
    activity that repeats an earlier id is dropped, while the edges are those
    generated from the whole list. *)
Theorem create_dependency_graph_first_wins
    (activities : list Activity) (g : DependencyGraph) :
  create_dependency_graph activities = Ok g ->
  node_ids g = first_ids activities
  /\ (forall k, option_map activity (dict_get (nodes g) k)
                = first_with_id activities k)
  /\ dependencies g = _generate_automatic_dependencies activities.
Proof.
  intros E.
  destruct (create_dependency_graph_parts activities g E) as (H1 & H2 & H3 & _).
  auto.
Qed.

Lemma create_dependency_graph_first_wins_witness :
  let activities := [act_x; act_y; act_x_catering] in
  let g := graph_of (create_dependency_graph activities) in
  create_dependency_graph activities = Ok g
  /\ node_ids g = first_ids activities
  /\ (forall k, option_map activity (dict_get (nodes g) k)
                = first_with_id activities k)
  /\ dependencies g = _generate_automatic_dependencies activities.
Proof.
  intros activities g.
  assert (E : create_dependency_graph activities = Ok g) by (vm_compute; reflexivity).
  split; [exact E|].
  exact (create_dependency_graph_first_wins activities g E).
Defined.

(** X11. [create_dependency_graph] raises exactly when one of the generated
    dependencies has an empty id or joins an id with itself; it never fails
    because of an unknown activity or of a dependency type. *)
Theorem create_dependency_graph_fails_iff (activities : list Activity) :
  (exists g, create_dependency_graph activities = Ok g)
  <-> (forall d, In d (_generate_automatic_dependencies activities) ->
         predecessor_id d <> EmptyString /\ successor_id d <> EmptyString
         /\ predecessor_id d <> successor_id d).
Proof.
  split.
  - intros [g E]. now apply (create_dependency_graph_parts activities g E).
  - apply create_dependency_graph_accepts.
Qed.

(** ** The type rules alone give an acyclic graph *)

Lemma rank_acyclic g (r : string -> nat) :
  (forall u v, dep_edge g u v -> (r u < r v)%nat) -> acyclic g.
Proof.
  intros H u Hu.
  assert (Hlt : forall x y, clos_trans string (dep_edge g) x y -> (r x < r y)%nat).
  { intros x y Hxy. induction Hxy as [x y Hxy|x y z _ IH1 _ IH2]; [auto|lia]. }
  specialize (Hlt u u Hu). lia.
Qed.

Lemma index_of_le k l : (index_of k l <= List.length l)%nat.
Proof.
  induction l as [|x l IH]; simpl; [lia|]. destruct (String.eqb k x); lia.
Qed.

Lemma index_of_app k l1 l2 :
  ~ In k l1 -> index_of k (l1 ++ k :: l2) = List.length l1.
Proof.
  induction l1 as [|x l1 IH]; simpl; intros H.
  - now rewrite String.eqb_refl.
  - destruct (String.eqb_spec k x) as [E|_]; [exfalso; auto|].
    rewrite IH; auto.
Qed.

Lemma filter_split (A : Type) (f : A -> bool) (l : list A) : forall l1 a r,
  filter f l = l1 ++ a :: r ->
  exists m1 m2, l = m1 ++ a :: m2 /\ filter f m1 = l1 /\ filter f m2 = r.
Proof.
  induction l as [|x l IH]; intros l1 a r E; simpl in E.
  - destruct l1; discriminate.
  - destruct (f x) eqn:Ex.
    + destruct l1 as [|y l1]; simpl in E; injection E as <- E.
      * exists [], l. simpl. auto.
      * destruct (IH _ _ _ E) as (m1 & m2 & -> & H1 & H2).
        exists (x :: m1), m2. simpl. rewrite Ex, H1. auto.
    + destruct (IH _ _ _ E) as (m1 & m2 & -> & H1 & H2).
      exists (x :: m1), m2. simpl. rewrite Ex, H1. auto.
Qed.

Lemma first_with_id_nodup l a :
  NoDup (map id l) -> In a l -> first_with_id l (id a) = Some a.
Proof.
  intros Hnd Ha. destruct (first_with_id_In l a Ha) as [a' E]. rewrite E. f_equal.
  apply first_with_id_some in E as [Ha' Eid].
  exact (map_injective_on _ _ id l Hnd a' a Ha' Ha Eid).
Qed.

Lemma rule_rank_types l a b :
  NoDup (map id l) -> In a l -> In b l ->
  (type_rank (activity_type a) < type_rank (activity_type b))%nat ->
  (rule_rank l (id a) < rule_rank l (id b))%nat.
Proof.
  intros Hnd Ha Hb Hlt. unfold rule_rank.
  rewrite (first_with_id_nodup l a Hnd Ha), (first_with_id_nodup l b Hnd Hb).
  pose proof (index_of_le (id a) (map id l)) as H1. rewrite length_map in H1.
  nia.
Qed.

Lemma has_type_value v a :
  has_type v a = true -> ActivityType_value (activity_type a) = v.
Proof. unfold has_type. apply String.eqb_eq. Qed.

Lemma type_rule_rank l d :
  NoDup (map id l) ->
  _get_cultural_sequence_dependencies l = [] ->
  In d (_generate_automatic_dependencies l) ->
  (rule_rank l (predecessor_id d) < rule_rank l (successor_id d))%nat.
Proof.
  intros Hnd Hcult. unfold _generate_automatic_dependencies. cbv zeta.
  rewrite Hcult, app_nil_r. rewrite !in_app_iff. intros [H|[H|[H|H]]].
  - apply in_flat_map in H as (a & Ha & H). apply in_map_iff in H as (b & <- & Hb).
    apply filter_In in Ha as [Ha Ta]. apply filter_In in Hb as [Hb Tb].
    apply has_type_value in Ta, Tb. simpl. apply rule_rank_types; auto.
    destruct (activity_type a), (activity_type b); try discriminate; simpl; lia.
  - apply in_flat_map in H as (a & Ha & H). apply in_map_iff in H as (b & <- & Hb).
    apply filter_In in Ha as [Ha Ta]. apply filter_In in Hb as [Hb Tb].
    apply has_type_value in Ta, Tb. simpl. apply rule_rank_types; auto.
    destruct (activity_type a), (activity_type b); try discriminate; simpl; lia.
  - apply in_flat_map in H as (b & Hb & H). apply in_flat_map in H as (a & Ha & H).
    destruct (str_in_list _ _); [|contradiction]. destruct H as [<-|[]].
    apply filter_In in Ha as [Ha Ta]. apply filter_In in Hb as [Hb Tb].
    apply has_type_value in Ta, Tb. simpl. apply rule_rank_types; auto.
    destruct (activity_type a), (activity_type b); try discriminate; simpl; lia.
  - apply chain_catering_In in H as (l1 & a & b & l2 & E & ->). simpl.
    destruct (filter_split _ _ _ _ _ _ E) as (m1 & m2 & El & _ & E2).
    change (b :: l2) with ([] ++ b :: l2) in E2.
    destruct (filter_split _ _ _ _ _ _ E2) as (m3 & m4 & Em2 & _ & _).
    assert (Ha : has_type "catering" a = true).
    { assert (Hin : In a (filter (has_type "catering") l)).
      { rewrite E. apply in_app_iff. right. now left. }
      now apply filter_In in Hin. }
    assert (Hb : has_type "catering" b = true).
    { assert (Hin : In b (filter (has_type "catering") l)).
      { rewrite E. apply in_app_iff. right. right. now left. }
      now apply filter_In in Hin. }
    apply has_type_value in Ha, Hb.
    subst m2. subst l.
    assert (Hina : In a (m1 ++ a :: m3 ++ b :: m4)).
    { apply in_app_iff. right. now left. }
    assert (Hinb : In b (m1 ++ a :: m3 ++ b :: m4)).
    { apply in_app_iff. right. right. apply in_app_iff. right. now left. }
    unfold rule_rank.
    rewrite (first_with_id_nodup _ a Hnd Hina), (first_with_id_nodup _ b Hnd Hinb).
    assert (Ta : type_rank (activity_type a) = type_rank (activity_type b)).
    { destruct (activity_type a), (activity_type b); try discriminate; reflexivity. }
    rewrite Ta. apply Nat.add_lt_mono_l.
    rewrite map_app in *. simpl in *. rewrite map_app in *. simpl in *.
    rewrite index_of_app.
    2:{ apply NoDup_remove_2 in Hnd. intros Hin. apply Hnd.
        apply in_app_iff. now left. }
    replace (map id m1 ++ id a :: map id m3 ++ id b :: map id m4)
      with ((map id m1 ++ id a :: map id m3) ++ id b :: map id m4)
      by (rewrite <- app_assoc; reflexivity).
    rewrite index_of_app.
    + rewrite length_app. simpl. lia.
    + replace (map id m1 ++ id a :: map id m3 ++ id b :: map id m4)
        with ((map id m1 ++ id a :: map id m3) ++ id b :: map id m4) in Hnd
        by (rewrite <- app_assoc; reflexivity).
      apply NoDup_remove_2 in Hnd. intros Hin. apply Hnd.
      apply in_app_iff. now left.
Qed.

(** X12. The type rules alone never produce a cycle: for a non-empty list
    of activities with distinct, non-empty ids in which the cultural name
    rule generates no dependency, the graph built by
    [create_dependency_graph] is acyclic and [calculate_critical_path]
    returns on it. *)
Theorem type_rules_acyclic (activities : list Activity) (st : datetime) :
  activities <> [] ->
  NoDup (map id activities) ->
  (forall a, In a activities -> id a <> EmptyString) ->
  _get_cultural_sequence_dependencies activities = [] ->
  exists g g',
    create_dependency_graph activities = Ok g
    /\ acyclic g
    /\ calculate_critical_path g st = Ok g'.
Proof.
  intros Hne Hnd Hid Hcult.
  destruct (create_dependency_graph_nodup activities Hnd Hid)
    as (g & E & Hwf & Hids & Hdeps & _).
  assert (Hacyc : acyclic g).
  { apply (rank_acyclic g (rule_rank activities)).
    intros u v (d & Hd & <- & <-). rewrite Hdeps in Hd.
    now apply type_rule_rank. }
  assert (Hnodes : nodes g <> []).
  { intros H0. unfold node_ids in Hids. rewrite H0 in Hids. simpl in Hids.
    destruct activities; [congruence|discriminate]. }
  destruct (calculate_critical_path_run g st Hwf Hacyc Hnodes) as (g' & E' & _).
  exists g, g'. auto.
Qed.

Lemma type_rules_acyclic_witness :
  abc_activities MEDIUM CRITICAL LOW <> []
  /\ NoDup (map id (abc_activities MEDIUM CRITICAL LOW))
  /\ (forall a, In a (abc_activities MEDIUM CRITICAL LOW) -> id a <> EmptyString)
  /\ _get_cultural_sequence_dependencies (abc_activities MEDIUM CRITICAL LOW) = []
  /\ exists g g',
       create_dependency_graph (abc_activities MEDIUM CRITICAL LOW) = Ok g
       /\ acyclic g
       /\ calculate_critical_path g t0900 = Ok g'.
Proof.
  assert (H0 : abc_activities MEDIUM CRITICAL LOW <> []) by discriminate.
  assert (H1 : NoDup (map id (abc_activities MEDIUM CRITICAL LOW))).
  { simpl. repeat constructor; simpl; intuition discriminate. }
  assert (H2 : forall a, In a (abc_activities MEDIUM CRITICAL LOW) ->
                         id a <> EmptyString).
  { simpl. intros a [<-|[<-|[<-|[]]]]; discriminate. }
  assert (H3 : _get_cultural_sequence_dependencies (abc_activities MEDIUM CRITICAL LOW)
               = []) by reflexivity.
  split; [exact H0|]. split; [exact H1|]. split; [exact H2|]. split; [exact H3|].
  exact (type_rules_acyclic _ t0900 H0 H1 H2 H3).
Defined.

(** X13. The type rules and the cultural name rule can contradict each
    other: a cleanup whose name matches "mehendi" and a ceremony whose name
    matches "haldi" are made to wait for each other, so that the graph built
    from the two is cyclic and [calculate_critical_path] raises on it. *)
Theorem cultural_rule_closes_cycle (a b : Activity) (st : datetime) :
  id a <> EmptyString -> id b <> EmptyString -> id a <> id b ->
  activity_type a = CLEANUP -> activity_type b = CEREMONY ->
  first_ceremony_in hindu_sequence (lower (name a)) = Some "mehendi" ->
  first_ceremony_in hindu_sequence (lower (name b)) = Some "haldi" ->
  exists g,
    create_dependency_graph [a; b] = Ok g
    /\ dep_edge g (id b) (id a) /\ dep_edge g (id a) (id b)
    /\ calculate_critical_path g st = Raise (ValueError msg_cpm_cycle).
Proof.
  intros Ha Hb Hab Ta Tb Fa Fb.
  assert (Hnd : NoDup (map id [a; b])).
  { simpl. repeat constructor; simpl; intuition. }
  destruct (create_dependency_graph_nodup [a; b] Hnd)
    as (g & E & Hwf & _ & Hdeps & _).
  { intros x [<-|[<-|[]]]; assumption. }
  assert (E1 : dep_edge g (id b) (id a)).
  { exists (mkDependency (id b) (id a) "finish_to_start" (minutes 30)).
    split; [|auto]. rewrite Hdeps. unfold _generate_automatic_dependencies. cbv zeta.
    rewrite !in_app_iff. right. left. simpl. unfold has_type. rewrite Ta, Tb. simpl.
    now left. }
  assert (E2 : dep_edge g (id a) (id b)).
  { exists (mkDependency (id a) (id b) "finish_to_start" (hours 2)).
    split; [|auto]. rewrite Hdeps. unfold _generate_automatic_dependencies. cbv zeta.
    rewrite !in_app_iff. do 4 right. unfold _get_cultural_sequence_dependencies.
    apply in_app_iff. left. unfold match_ceremonies. cbn [fold_left].
    rewrite Fa, Fb. simpl. now left. }
  exists g. split; [exact E|]. split; [exact E1|]. split; [exact E2|].
  unfold calculate_critical_path.
  destruct (has_cycle_total g (wf_adjacency Hwf)) as [[|] Ec]; rewrite Ec;
    [reflexivity|].
  exfalso. apply (has_cycle_false_acyclic g Hwf Ec (id a)).
  eapply t_trans; apply t_step; eassumption.
Qed.

Lemma cultural_rule_closes_cycle_witness :
  id mehendi_cleanup <> EmptyString /\ id haldi_ceremony <> EmptyString
  /\ id mehendi_cleanup <> id haldi_ceremony
  /\ activity_type mehendi_cleanup = CLEANUP
  /\ activity_type haldi_ceremony = CEREMONY
  /\ first_ceremony_in hindu_sequence (lower (name mehendi_cleanup)) = Some "mehendi"
  /\ first_ceremony_in hindu_sequence (lower (name haldi_ceremony)) = Some "haldi"
  /\ exists g,
       create_dependency_graph [mehendi_cleanup; haldi_ceremony] = Ok g
       /\ dep_edge g (id haldi_ceremony) (id mehendi_cleanup)
       /\ dep_edge g (id mehendi_cleanup) (id haldi_ceremony)
       /\ calculate_critical_path g t0900 = Raise (ValueError msg_cpm_cycle).
Proof.
  assert (H1 : id mehendi_cleanup <> EmptyString) by discriminate.
  assert (H2 : id haldi_ceremony <> EmptyString) by discriminate.
  assert (H3 : id mehendi_cleanup <> id haldi_ceremony) by discriminate.
  assert (H4 : activity_type mehendi_cleanup = CLEANUP) by reflexivity.
  assert (H5 : activity_type haldi_ceremony = CEREMONY) by reflexivity.
  assert (H6 : first_ceremony_in hindu_sequence (lower (name mehendi_cleanup))
               = Some "mehendi") by reflexivity.
  assert (H7 : first_ceremony_in hindu_sequence (lower (name haldi_ceremony))
               = Some "haldi") by reflexivity.
  repeat (split; [assumption|]).
  exact (cultural_rule_closes_cycle mehendi_cleanup haldi_ceremony t0900
           H1 H2 H3 H4 H5 H6 H7).
Defined.

(* ------------------------------------------------------------------ *)
(** * Vendor conflicts: what the neighbour comparison finds *)

Lemma extend_group_app (X : Type) (o : option (list X)) l1 l2 :
  extend_group (extend_group o l1) l2 = extend_group o (l1 ++ l2).
Proof.
  destruct l1 as [|x l1]; [reflexivity|].
  destruct l2 as [|y l2]; simpl; [now rewrite app_nil_r|].
  destruct o; simpl; [now rewrite <- app_assoc|reflexivity].
Qed.

Lemma dict_set_keys_nodup (V : Type) (d : dict V) k v :
  NoDup (dict_keys d) -> NoDup (dict_keys (dict_set d k v)).
Proof.
  intros H. destruct (in_dec string_dec k (dict_keys d)) as [Hin|Hout].
  - now rewrite dict_set_present.
  - rewrite dict_set_absent by assumption. unfold dict_keys. rewrite map_app. simpl.
    apply NoDup_app; [exact H|repeat constructor; simpl; tauto|].
    intros x Hx [<-|[]]. contradiction.
Qed.

Lemma group_append_get (X : Type) (d : dict (list X)) k x v :
  dict_get (group_append d k x) v
  = if String.eqb v k then extend_group (dict_get d k) [x] else dict_get d v.
Proof.
  unfold group_append.
  destruct (dict_get d k) as [l|] eqn:E; rewrite dict_get_set;
    destruct (String.eqb v k); reflexivity.
Qed.

Lemma group_append_nodup (X : Type) (d : dict (list X)) k x :
  NoDup (dict_keys d) -> NoDup (dict_keys (group_append d k x)).
Proof.
  intros H. unfold group_append.
  destruct (dict_get d k); now apply dict_set_keys_nodup.
Qed.

Lemma vendors_fold_get (kv : string * DependencyNode) vendors : forall acc v,
  dict_get (fold_left (fun acc' vendor => group_append acc' vendor kv) vendors acc) v
  = extend_group (dict_get acc v)
      (map (fun _ => kv) (filter (String.eqb v) vendors)).
Proof.
  induction vendors as [|w vendors IH]; intros acc v; simpl; [reflexivity|].
  rewrite IH, group_append_get.
  destruct (String.eqb_spec v w) as [E|Hne].
  - subst w. rewrite extend_group_app. reflexivity.
  - reflexivity.
Qed.

Lemma vendors_fold_nodup (kv : string * DependencyNode) vendors : forall acc,
  NoDup (dict_keys acc) ->
  NoDup (dict_keys (fold_left (fun acc' vendor => group_append acc' vendor kv)
                              vendors acc)).
Proof.
  induction vendors as [|w vendors IH]; intros acc H; simpl; [exact H|].
  apply IH. now apply group_append_nodup.
Qed.

Lemma vendor_activities_get ns v :
  dict_get (vendor_activities ns) v = extend_group None (vendor_group v ns)
  /\ NoDup (dict_keys (vendor_activities ns)).
Proof.
  unfold vendor_activities.
  assert (H : forall l acc,
            NoDup (dict_keys acc) ->
            dict_get (fold_left
                        (fun acc0 kv =>
                           fold_left (fun acc' vendor => group_append acc' vendor kv)
                                     (required_vendors (activity (snd kv))) acc0)
                        l acc) v
            = extend_group (dict_get acc v) (vendor_group v l)
            /\ NoDup (dict_keys
                        (fold_left
                           (fun acc0 kv =>
                              fold_left (fun acc' vendor => group_append acc' vendor kv)
                                        (required_vendors (activity (snd kv))) acc0)
                           l acc))).
  { induction l as [|kv l IH]; intros acc Hnd; simpl; [auto|].
    destruct (IH _ (vendors_fold_nodup kv (required_vendors (activity (snd kv))) acc Hnd))
      as [H1 H2].
    split; [|exact H2].
    rewrite H1, vendors_fold_get, extend_group_app. reflexivity. }
  apply (H ns []). constructor.
Qed.

Lemma vendor_group_nodup v ns :
  (forall kv, In kv ns -> NoDup (required_vendors (activity (snd kv)))) ->
  vendor_group v ns
  = filter (fun kv => str_in_list v (required_vendors (activity (snd kv)))) ns.
Proof.
  intros H. unfold vendor_group.
  induction ns as [|kv ns IH]; simpl; [reflexivity|].
  rewrite IH by (intros x Hx; apply H; now right).
  specialize (H kv (or_introl eq_refl)).
  assert (Hone : forall l, NoDup l ->
            map (fun _ : string => kv) (filter (String.eqb v) l)
            = if str_in_list v l then [kv] else []).
  { clear. induction l as [|w l IH]; intros Hnd; simpl; [reflexivity|].
    inversion Hnd as [|? ? Hw Hl]; subst.
    destruct (String.eqb_spec v w) as [E|Hne]; simpl.
    - subst w. rewrite (IH Hl).
      destruct (str_in_list v l) eqn:Ein; [|reflexivity].
      apply str_in_list_In in Ein. contradiction.
    - now apply IH. }
  rewrite (Hone _ H).
  destruct (str_in_list v (required_vendors (activity (snd kv)))); reflexivity.
Qed.

(** ** Neighbours in a list sorted by start *)

Lemma adjacent_conflicts_In v l msg :
  In msg (adjacent_conflicts v l) ->
  exists l1 x y l2 ef es,
    l = l1 ++ x :: y :: l2
    /\ earliest_finish (snd x) = Some ef /\ earliest_start (snd y) = Some es
    /\ es < ef
    /\ msg = msg_vendor_conflict v (name (activity (snd x))) (name (activity (snd y))).
Proof.
  induction l as [|x l IH]; [intros []|].
  destruct l as [|y l]; [intros []|].
  cbn [adjacent_conflicts]. intros H. apply in_app_iff in H as [H|H].
  - destruct (earliest_finish (snd x)) as [ef|] eqn:Ef; [|contradiction].
    destruct (earliest_start (snd y)) as [es|] eqn:Es; [|contradiction].
    destruct (Z.ltb_spec es ef) as [Hlt|_]; [|contradiction].
    destruct H as [<-|[]]. exists [], x, y, l, ef, es. auto.
  - destruct (IH H) as (l1 & a & b & l2 & ef & es & E & H').
    exists (x :: l1), a, b, l2, ef, es. rewrite E. auto.
Qed.

Lemma adjacent_conflicts_complete v l :
  StronglySorted (fun a b => entry_start a <= entry_start b) l ->
  forall l1 a l2 b l3 ef es,
    l = l1 ++ a :: l2 ++ b :: l3 ->
    (forall x, In x l -> exists s f, earliest_start (snd x) = Some s
                                     /\ earliest_finish (snd x) = Some f) ->
    earliest_finish (snd a) = Some ef -> earliest_start (snd b) = Some es ->
    es < ef ->
    adjacent_conflicts v l <> [].
Proof.
  induction l as [|x l IH]; intros Hs l1 a l2 b l3 ef es E Hall Ef Es Hlt.
  - destruct l1; discriminate.
  - inversion Hs as [|? ? Hs' Hx]; subst.
    destruct l as [|y l]; [destruct l1 as [|? [|]], l2; discriminate|].
    cbn [adjacent_conflicts].
    destruct l1 as [|x' l1]; simpl in E; injection E as <- E.
    + rewrite Ef.
      destruct (Hall y (or_intror (or_introl eq_refl))) as (sy & fy & Esy & _).
      rewrite Esy.
      destruct (Z.ltb_spec sy ef) as [_|Hge]; [discriminate|].
      exfalso.
      assert (Hyb : entry_start y <= entry_start b).
      { destruct l2 as [|z l2]; simpl in E; injection E as -> E; [lia|].
        inversion Hs' as [|? ? _ Hy]; subst. rewrite Forall_forall in Hy.
        apply Hy. apply in_app_iff. right. now left. }
      unfold entry_start in Hyb. rewrite Esy, Es in Hyb. simpl in Hyb. lia.
    + intros H. apply app_eq_nil in H as [_ H]. revert H.
      apply (IH Hs' l1 a l2 b l3 ef es E); auto.
      intros z Hz. apply Hall. now right.
Qed.

Lemma in_two_split (A : Type) (l : list A) a b :
  In a l -> In b l -> a <> b ->
  (exists l1 l2 l3, l = l1 ++ a :: l2 ++ b :: l3)
  \/ (exists l1 l2 l3, l = l1 ++ b :: l2 ++ a :: l3).
Proof.
  intros Ha Hb Hab. apply in_split in Ha as (l1 & l2 & ->).
  apply in_app_iff in Hb as [Hb|[Hb|Hb]]; [|contradiction|].
  - right. apply in_split in Hb as (m1 & m2 & ->).
    exists m1, m2, l2. now rewrite <- app_assoc.
  - left. apply in_split in Hb as (m1 & m2 & ->). eauto.
Qed.

Lemma sorted_entry_le l :
  StronglySorted (fun a b => entry_start a <= entry_start b) l ->
  forall l1 x y l2, l = l1 ++ x :: y :: l2 -> entry_start x <= entry_start y.
Proof.
  intros Hs l1. revert l Hs. induction l1 as [|z l1 IH]; intros l Hs x y l2 E; subst.
  - inversion Hs as [|? ? _ Hx]; subst. rewrite Forall_forall in Hx.
    apply Hx. now left.
  - inversion Hs; subst. eapply IH; eauto.
Qed.

Lemma window_some g k n es ef :
  dict_get (nodes g) k = Some n ->
  earliest_start n = Some es -> earliest_finish n = Some ef ->
  window g k = Some (es, ef).
Proof. intros En Es Ef. unfold window. now rewrite En, Es, Ef. Qed.

(** X14. Vendor conflicts, as the neighbour comparison finds them.  On a
    graph whose activities all have a non-empty earliest window and list no
    vendor twice: every reported conflict names two different activities
    that need the vendor and whose windows overlap; and for every vendor
    needed by two different activities with overlapping windows at least one
    conflict of that vendor is reported. *)
Theorem vendor_conflicts_exact (g : DependencyGraph) :
  NoDup (node_ids g) ->
  all_scheduled g ->
  (forall k n, dict_get (nodes g) k = Some n ->
               NoDup (required_vendors (activity n))) ->
  (forall msg, In msg (_check_resource_conflicts g) ->
     exists vendor k1 k2 n1 n2,
       vendor_clash g vendor k1 k2
       /\ dict_get (nodes g) k1 = Some n1 /\ dict_get (nodes g) k2 = Some n2
       /\ msg = msg_vendor_conflict vendor (name (activity n1)) (name (activity n2)))
  /\ (forall vendor k1 k2, vendor_clash g vendor k1 k2 ->
        exists a b, In (msg_vendor_conflict vendor a b) (_check_resource_conflicts g)).
Proof.
  intros Hnd Hsched Hvend.
  assert (Hgroup : forall v,
            vendor_group v (nodes g)
            = filter (fun kv => str_in_list v (required_vendors (activity (snd kv))))
                     (nodes g)).
  { intros v. apply vendor_group_nodup. intros [k n] Hin. simpl.
    apply (Hvend k). now apply dict_In_get. }
  assert (Hentry : forall v l,
            In (v, l) (vendor_activities (nodes g)) <->
            l <> [] /\ l = vendor_group v (nodes g)).
  { intros v l. destruct (vendor_activities_get (nodes g) v) as [Hget Hk]. split.
    - intros Hin. apply (dict_In_get _ _ _ Hk) in Hin. rewrite Hget in Hin.
      destruct (vendor_group v (nodes g)); simpl in Hin; [discriminate|].
      injection Hin as <-. split; [discriminate|reflexivity].
    - intros [Hne ->]. apply dict_get_In. rewrite Hget.
      destruct (vendor_group v (nodes g)); [contradiction|reflexivity]. }
  assert (Hmember : forall v x,
            In x (vendor_group v (nodes g)) ->
            dict_get (nodes g) (fst x) = Some (snd x)
            /\ In v (required_vendors (activity (snd x)))).
  { intros v [k n] Hx. rewrite Hgroup in Hx. apply filter_In in Hx as [Hin Hv].
    simpl in *. split; [now apply dict_In_get|now apply str_in_list_In]. }
  assert (Hgnd : forall v, NoDup (map fst (vendor_group v (nodes g)))).
  { intros v. rewrite Hgroup. clear - Hnd. unfold node_ids, dict_keys in Hnd.
    induction (nodes g) as [|kv l IH]; simpl; [constructor|].
    simpl in Hnd. inversion Hnd as [|? ? Hk Hl]; subst.
    destruct (str_in_list v _); [|now apply IH]. simpl.
    constructor; [|now apply IH]. intros Hin. apply Hk.
    apply in_map_iff in Hin as (x & Ex & Hx). apply filter_In in Hx as [Hx _].
    apply in_map_iff. eauto. }
  split.
  - intros msg Hmsg. unfold _check_resource_conflicts in Hmsg.
    apply in_flat_map in Hmsg as ([v l] & Hin & Hmsg). simpl in Hmsg.
    destruct (1 <? List.length l)%nat; [|contradiction].
    apply Hentry in Hin as [_ ->].
    set (grp := vendor_group v (nodes g)) in *.
    pose proof (sort_by_perm _ (fun x => or_datetime_min (earliest_start (snd x))) grp)
      as Hperm.
    pose proof (sort_by_sorted _ (fun x => or_datetime_min (earliest_start (snd x))) grp)
      as Hsorted.
    apply adjacent_conflicts_In in Hmsg
      as (l1 & x & y & l2 & ef & es & E & Ef & Es & Hlt & ->).
    assert (Hx : In x grp).
    { apply (Permutation_in _ Hperm). rewrite E. apply in_app_iff. right. now left. }
    assert (Hy : In y grp).
    { apply (Permutation_in _ Hperm). rewrite E. apply in_app_iff. right. right.
      now left. }
    destruct (Hmember v x Hx) as [Enx Hvx]. destruct (Hmember v y Hy) as [Eny Hvy].
    destruct (Hsched _ _ Enx) as (sx & fx & Esx & Efx & Hpx).
    destruct (Hsched _ _ Eny) as (sy & fy & Esy & Efy & Hpy).
    rewrite Ef in Efx. injection Efx as <-. rewrite Es in Esy. injection Esy as <-.
    pose proof (sorted_entry_le _ Hsorted _ _ _ _ E) as Hle.
    unfold entry_start in Hle. rewrite Esx, Es in Hle. simpl in Hle.
    exists v, (fst x), (fst y), (snd x), (snd y).
    split; [|auto]. split; [|split].
    + assert (Hnd' : NoDup (map fst (l1 ++ x :: y :: l2))).
      { rewrite <- E. eapply Permutation_NoDup; [|apply (Hgnd v)].
        apply Permutation_map. symmetry. exact Hperm. }
      rewrite map_app in Hnd'. simpl in Hnd'.
      apply NoDup_remove_2 in Hnd'. intros Exy. apply Hnd'.
      apply in_app_iff. right. left. now symmetry.
    + exists (snd x), (snd y). auto.
    + rewrite (window_some g _ _ _ _ Enx Esx Ef), (window_some g _ _ _ _ Eny Es Efy).
      simpl. lia.
  - intros v k1 k2 (Hne & (n1 & n2 & En1 & En2 & Hv1 & Hv2) & Hov).
    set (grp := vendor_group v (nodes g)).
    assert (H1 : In (k1, n1) grp).
    { unfold grp. rewrite Hgroup. apply filter_In. split; [now apply dict_get_In|].
      simpl. now apply str_in_list_In. }
    assert (H2 : In (k2, n2) grp).
    { unfold grp. rewrite Hgroup. apply filter_In. split; [now apply dict_get_In|].
      simpl. now apply str_in_list_In. }
    destruct (Hsched _ _ En1) as (s1 & f1 & Es1 & Ef1 & Hp1).
    destruct (Hsched _ _ En2) as (s2 & f2 & Es2 & Ef2 & Hp2).
    rewrite (window_some g _ _ _ _ En1 Es1 Ef1), (window_some g _ _ _ _ En2 Es2 Ef2)
      in Hov. simpl in Hov. destruct Hov as [Ho1 Ho2].
    pose proof (sort_by_perm _ (fun x => or_datetime_min (earliest_start (snd x))) grp)
      as Hperm.
    pose proof (sort_by_sorted _ (fun x => or_datetime_min (earliest_start (snd x))) grp)
      as Hsorted.
    set (S := sort_by (fun x => or_datetime_min (earliest_start (snd x))) grp) in *.
    assert (Hall : forall x, In x S ->
              exists s f, earliest_start (snd x) = Some s
                          /\ earliest_finish (snd x) = Some f).
    { intros x Hx. apply (Permutation_in _ Hperm) in Hx.
      destruct (Hmember v x Hx) as [Enx _].
      destruct (Hsched _ _ Enx) as (s & f & Es & Ef & _). eauto. }
    assert (Hne' : (k1, n1) <> (k2, n2)) by congruence.
    assert (HS1 : In (k1, n1) S) by (apply (Permutation_in _ (Permutation_sym Hperm)); auto).
    assert (HS2 : In (k2, n2) S) by (apply (Permutation_in _ (Permutation_sym Hperm)); auto).
    assert (Hconf : adjacent_conflicts v S <> []).
    { destruct (in_two_split _ S _ _ HS1 HS2 Hne') as [(l1 & l2 & l3 & E)|(l1 & l2 & l3 & E)].
      - apply (adjacent_conflicts_complete v S Hsorted l1 (k1, n1) l2 (k2, n2) l3 f1 s2);
          auto.
      - apply (adjacent_conflicts_complete v S Hsorted l1 (k2, n2) l2 (k1, n1) l3 f2 s1);
          auto. }
    destruct (adjacent_conflicts v S) as [|m rest] eqn:Eadj; [contradiction|].
    assert (Hm : In m (adjacent_conflicts v S)) by (rewrite Eadj; now left).
    pose proof Hm as Hm'.
    apply adjacent_conflicts_In in Hm' as (l1 & x & y & l2 & ef & es & E & _ & _ & _ & Em).
    exists (name (activity (snd x))), (name (activity (snd y))). rewrite <- Em.
    unfold _check_resource_conflicts. apply in_flat_map.
    exists (v, grp). split.
    + apply Hentry. split; [|reflexivity]. intros H0. rewrite H0 in H1. contradiction.
    + simpl.
      assert (Hlen : (1 <? List.length grp)%nat = true).
      { apply Nat.ltb_lt.
        destruct (in_two_split _ grp _ _ H1 H2 Hne') as [(l1' & l2' & l3' & ->)|(l1' & l2' & l3' & ->)];
          rewrite length_app; simpl; rewrite length_app; simpl; lia. }
      rewrite Hlen. exact Hm.
Qed.

Lemma vendor_conflicts_exact_witness :
  NoDup (node_ids g_vendors)
  /\ all_scheduled g_vendors
  /\ (forall k n, dict_get (nodes g_vendors) k = Some n ->
                  NoDup (required_vendors (activity n)))
  /\ (forall msg, In msg (_check_resource_conflicts g_vendors) ->
        exists vendor k1 k2 n1 n2,
          vendor_clash g_vendors vendor k1 k2
          /\ dict_get (nodes g_vendors) k1 = Some n1
          /\ dict_get (nodes g_vendors) k2 = Some n2
          /\ msg = msg_vendor_conflict vendor (name (activity n1)) (name (activity n2)))
  /\ (forall vendor k1 k2, vendor_clash g_vendors vendor k1 k2 ->
        exists a b,
          In (msg_vendor_conflict vendor a b) (_check_resource_conflicts g_vendors)).
Proof.
  assert (H1 : NoDup (node_ids g_vendors)).
  { vm_compute. repeat constructor; simpl; intuition discriminate. }
  assert (H2 : all_scheduled g_vendors).
  { intros k n.
    let v := eval vm_compute in (nodes g_vendors) in
    change (nodes g_vendors) with v.
    cbn [dict_get].
    repeat (destruct (String.eqb k _);
            [intros [= <-]; eexists; eexists; repeat split; reflexivity|]).
    discriminate. }
  assert (H3 : forall k n, dict_get (nodes g_vendors) k = Some n ->
                           NoDup (required_vendors (activity n))).
  { intros k n.
    let v := eval vm_compute in (nodes g_vendors) in
    change (nodes g_vendors) with v.
    cbn [dict_get].
    repeat (destruct (String.eqb k _);
            [intros [= <-]; simpl; repeat constructor; simpl; tauto|]).
    discriminate. }
  split; [exact H1|]. split; [exact H2|]. split; [exact H3|].
  exact (vendor_conflicts_exact g_vendors H1 H2 H3).
Defined.

(* ------------------------------------------------------------------ *)
(** * [validate_timeline] and [optimize_timeline] *)

Lemma flat_map_nil_iff (A B : Type) (f : A -> list B) l :
  flat_map f l = [] <-> forall x, In x l -> f x = [].
Proof.
  split; [|apply flat_map_nil].
  induction l as [|x l IH]; simpl; intros H y Hy; [contradiction|].
  apply app_eq_nil in H as [H1 H2]. destruct Hy as [<-|Hy]; auto.
Qed.

Lemma map_nil_iff (A B : Type) (f : A -> B) l : map f l = [] <-> l = [].
Proof. destruct l; simpl; split; congruence. Qed.

Lemma activity_issues_nil g :
  NoDup (node_ids g) ->
  (activity_issues g = [] <->
   forall k n, dict_get (nodes g) k = Some n -> Activity_validate (activity n) = []).
Proof.
  intros Hnd. unfold activity_issues. rewrite flat_map_nil_iff. split.
  - intros H k n En. specialize (H (k, n) (dict_get_In _ _ En)). simpl in H.
    now apply map_nil_iff in H.
  - intros H [k n] Hin. simpl. apply map_nil_iff. apply (H k).
    now apply dict_In_get.
Qed.

(** X15. The pipeline of the timeline engine: on a graph built by
    [create_dependency_graph] and passed through [calculate_critical_path],
    [validate_timeline] returns the vendor conflicts followed by the issues
    of the activities and nothing else (no cycle, no negative slack and no
    issue of a dependency), and the activities contribute no issue exactly
    when each of them passes [Activity.validate]. *)
Theorem validate_timeline_after_pass
    (activities : list Activity) (g : DependencyGraph) (st : datetime)
    (g' : DependencyGraph) :
  create_dependency_graph activities = Ok g ->
  calculate_critical_path g st = Ok g' ->
  validate_timeline g' = Ok (_check_resource_conflicts g' ++ activity_issues g')
  /\ (activity_issues g' = [] <->
      forall k n, dict_get (nodes g') k = Some n ->
                  Activity_validate (activity n) = []).
Proof.
  intros Eg E.
  pose proof (create_dependency_graph_wf _ Eg) as Hwf.
  destruct (wf_after_pass g st g' Hwf E) as (Hwf' & Hacyc' & Hd).
  split; [|apply activity_issues_nil; apply Hwf'].
  unfold validate_timeline.
  rewrite (has_cycle_acyclic g' Hwf' Hacyc').
  rewrite (resolve_conflicts_vendor_only g st g' Hwf E). cbn [bind app].
  assert (Hdeps : dependency_issues g' = []).
  { unfold dependency_issues. apply flat_map_nil. intros d Hin.
    rewrite Hd in Hin.
    destruct (create_dependency_graph_parts activities g Eg) as (_ & Hgen & _ & Hok).
    rewrite Hgen in Hin. destruct (Hok d Hin) as (H1 & H2 & H3).
    destruct (generated_dependency_shape activities d Hin)
      as (_ & _ & _ & _ & _ & _ & Ht & _).
    assert (Hv : Dependency_validate d = []) by (apply Dependency_validate_nil; auto).
    now rewrite Hv. }
  rewrite Hdeps, app_nil_r. reflexivity.
Qed.

Lemma validate_timeline_after_pass_witness :
  create_dependency_graph (abc_activities MEDIUM CRITICAL LOW) = Ok g_abc
  /\ calculate_critical_path g_abc t0900 = Ok g_abc_scheduled
  /\ validate_timeline g_abc_scheduled
     = Ok (_check_resource_conflicts g_abc_scheduled ++ activity_issues g_abc_scheduled)
  /\ (activity_issues g_abc_scheduled = [] <->
      forall k n, dict_get (nodes g_abc_scheduled) k = Some n ->
                  Activity_validate (activity n) = []).
Proof.
  assert (H : create_dependency_graph (abc_activities MEDIUM CRITICAL LOW) = Ok g_abc)
    by (vm_compute; reflexivity).
  split; [exact H|]. split; [exact g_abc_scheduled_eq|].
  exact (validate_timeline_after_pass _ g_abc t0900 g_abc_scheduled
           H g_abc_scheduled_eq).
Defined.

(** X16. On a graph with a dependency cycle [validate_timeline] reports the
    cycle twice: once with its own message and once more with the message of
    [resolve_conflicts], which runs the same check again. *)
Theorem validate_timeline_reports_cycle_twice (g : DependencyGraph) :
  wf_graph g -> has_dep_cycle g ->
  exists rest,
    validate_timeline g = Ok (msg_timeline_cycle :: msg_circular :: rest).
Proof.
  intros Hwf [u Hu].
  assert (Ec : has_cycle g = Ok true).
  { destruct (has_cycle_total g (wf_adjacency Hwf)) as [[|] Ec]; [exact Ec|].
    exfalso. exact (has_cycle_false_acyclic g Hwf Ec u Hu). }
  unfold validate_timeline, resolve_conflicts. rewrite Ec. cbn [bind app].
  eexists. reflexivity.
Qed.

Lemma validate_timeline_reports_cycle_twice_witness :
  wf_graph g_loop /\ has_dep_cycle g_loop
  /\ exists rest,
       validate_timeline g_loop = Ok (msg_timeline_cycle :: msg_circular :: rest).
Proof.
  assert (H : has_dep_cycle g_loop).
  { exists "x". apply t_trans with (y := "y"); apply t_step.
    - exists (mkDependency "x" "y" "finish_to_start" 0). vm_compute. auto.
    - exists (mkDependency "y" "x" "finish_to_start" 0). vm_compute. auto. }
  split; [exact g_loop_wf|]. split; [exact H|].
  exact (validate_timeline_reports_cycle_twice g_loop g_loop_wf H).
Defined.

(** ** Suggestions *)

Lemma flat_map_filter_map (A B C : Type) (h : A -> B) (p : B -> bool)
    (f : B -> list C) l :
  flat_map f (filter p (map h l))
  = flat_map (fun x => if p (h x) then f (h x) else []) l.
Proof.
  induction l as [|x l IH]; simpl; [reflexivity|].
  destruct (p (h x)); simpl; now rewrite IH.
Qed.

Lemma flat_map_length_sum (A B : Type) (f1 f2 : A -> list B) l :
  (forall x, In x l -> (List.length (f1 x) + List.length (f2 x) <= 1)%nat) ->
  (List.length (flat_map f1 l) + List.length (flat_map f2 l) <= List.length l)%nat.
Proof.
  induction l as [|x l IH]; simpl; intros H; [lia|].
  rewrite !length_app. specialize (H x (or_introl eq_refl)) as Hx.
  assert (Hl : (List.length (flat_map f1 l) + List.length (flat_map f2 l)
                <= List.length l)%nat).
  { apply IH. intros y Hy. apply H. now right. }
  lia.
Qed.

(** X17. On the result of a successful critical-path pass
    [optimize_timeline] makes at most one suggestion for each activity
    (never both the one about excessive slack and the one about a long
    critical activity), besides the two suggestions about the graph as a
    whole. *)
Theorem optimize_timeline_bounded
    (g : DependencyGraph) (st : datetime) (g' : DependencyGraph) :
  wf_graph g -> calculate_critical_path g st = Ok g' ->
  (List.length (optimize_timeline g') <= 2 + List.length (nodes g'))%nat
  /\ (List.length (_suggest_buffer_adjustments g')
      + List.length (long_critical_suggestions g')
      <= List.length (nodes g'))%nat.
Proof.
  intros Hwf E.
  destruct (calculate_critical_path_stages g st g' Hwf E)
    as (pe & _ & Hs & _ & _ & _ & _ & _ & Hfin).
  destruct (wf_after_pass g st g' Hwf E) as (Hwf' & _ & _).
  assert (Hsum :
    (List.length (_suggest_buffer_adjustments g')
     + List.length (long_critical_suggestions g')
     <= List.length (nodes g'))%nat).
  { unfold _suggest_buffer_adjustments, long_critical_suggestions, dict_values.
    rewrite flat_map_filter_map.
    apply flat_map_length_sum. intros [k n] Hin. simpl.
    assert (En : dict_get (nodes g') k = Some n).
    { apply dict_In_get; [apply Hwf'|exact Hin]. }
    destruct (Hfin k n En) as (es & ls & _ & _ & _ & Hc). rewrite Hc.
    destruct (slack n =? 0); cbn [negb andb];
      repeat (match goal with |- context [if ?b then _ else _] => destruct b end);
      simpl List.length; lia. }
  split; [|exact Hsum].
  unfold optimize_timeline, _suggest_critical_path_optimizations, _find_parallel_opportunities.
  cbv zeta. fold (long_critical_suggestions g'). rewrite !length_app.
  match goal with
  | |- context [if ?b then [msg_parallel ?n] else []] => destruct b
  end;
  match goal with
  | |- context [if ?b then [msg_half_critical] else []] => destruct b
  end; simpl List.length; lia.
Qed.

Lemma optimize_timeline_bounded_witness :
  wf_graph g_abc
  /\ calculate_critical_path g_abc t0900 = Ok g_abc_scheduled
  /\ (List.length (optimize_timeline g_abc_scheduled)
      <= 2 + List.length (nodes g_abc_scheduled))%nat
  /\ (List.length (_suggest_buffer_adjustments g_abc_scheduled)
      + List.length (long_critical_suggestions g_abc_scheduled)
      <= List.length (nodes g_abc_scheduled))%nat.
Proof.
  split; [exact g_abc_wf|]. split; [exact g_abc_scheduled_eq|].
  exact (optimize_timeline_bounded g_abc t0900 g_abc_scheduled
           g_abc_wf g_abc_scheduled_eq).
Defined.

(* ------------------------------------------------------------------ *)
(** * The days the scheduler emits *)

Lemma chained_snoc l : forall t s,
  chained (l ++ [t]) -> follows t s -> chained (l ++ [t; s]).
Proof.
  induction l as [|x l IH]; intros t s Hc Hf; simpl.
  - auto.
  - destruct l as [|y l]; simpl in *.
    + destruct Hc as [Hxt _]. auto.
    + destruct Hc as [Hxy Hc]. split; [exact Hxy|]. now apply IH.
Qed.

Lemma consecutive_snoc l : forall a,
  consecutive (l ++ [a]) -> consecutive (l ++ [a; a + 1]).
Proof.
  induction l as [|x l IH]; intros a Hc; simpl.
  - auto.
  - destruct l as [|y l]; simpl in *.
    + destruct Hc as [Hxa _]. auto.
    + destruct Hc as [Hxy Hc]. split; [exact Hxy|]. now apply IH.
Qed.

Lemma cost_sum_snoc l t :
  cost_sum (l ++ [t]) = (cost_sum l + estimated_cost (ta_activity t))%Q.
Proof. unfold cost_sum. rewrite fold_left_app. reflexivity. Qed.

Lemma list_snoc_cases (A : Type) (l : list A) :
  l = [] \/ exists l' x, l = l' ++ [x].
Proof.
  induction l as [|a l IH] using rev_ind; [now left|]. right. eauto.
Qed.

Lemma activity_map_of_keyed timed_activities :
  keyed_by_id (activity_map_of timed_activities).
Proof.
  unfold activity_map_of.
  assert (H : forall l m, keyed_by_id m ->
            keyed_by_id (fold_left (fun m ta => dict_set m (id (ta_activity ta)) ta)
                                   l m)).
  { induction l as [|x l IH]; intros m Hm; simpl; [exact Hm|].
    apply IH. intros k ta. rewrite dict_get_set.
    destruct (String.eqb_spec k (id (ta_activity x))) as [->|Hne].
    - intros [= <-]. reflexivity.
    - apply Hm. }
  apply H. intros k ta E. discriminate E.
Qed.

Section DaysProofs.
Context {F : PyFloat}.
Variable ctx : TimelineGenerationContext.



Lemma first_day_rule_app l1 l2 :
  l1 <> [] -> first_day_rule ctx l1 -> first_day_rule ctx (l1 ++ l2).
Proof. destruct l1; [congruence|auto]. Qed.

Lemma schedule_step_ok activity_map done st k ta :
  keyed_by_id activity_map ->
  dict_get activity_map k = Some ta ->
  sched_ok ctx activity_map done st ->
  sched_ok ctx activity_map (done ++ [k]) (schedule_step ctx st ta).
Proof.
  intros Hkey Hk [Hdays Hnum Hdate Hcost Htimed Hchain Hfc Htime Hfresh Hnums Hfirst Hids Horig].
  assert (Hid : sched_id ta = k) by exact (Hkey k ta Hk).
  assert (Hfilter : filter (dict_contains activity_map) (done ++ [k])
                    = filter (dict_contains activity_map) done ++ [k]).
  { rewrite filter_app. simpl. unfold dict_contains at 2. now rewrite Hk. }
  unfold schedule_step.
  set (a := ta_activity ta).
  destruct (get_daily_end_time ctx
              (combine (current_date st) (time_of (ctx_start_time ctx)))
            <? current_time st + footprint ta) eqn:Hov.
  - (* the activity opens a new day *)
    cbn [timeline_days current_date current_time cur_day_number daily_activities
         daily_cost].
    set (scheduled := mkTimed a _ _ _ _ _).
    set (closed := if is_empty (daily_activities st) then timeline_days st
                   else timeline_days st ++ _).
    assert (Hclosed : closed
                      = days_of st (day_note ctx (cur_day_number st))).
    { unfold closed, days_of, open_day.
      destruct (daily_activities st); simpl; [now rewrite app_nil_r|reflexivity]. }
    assert (Hacts : flat_map activities closed
                    = flat_map activities (timeline_days st) ++ daily_activities st).
    { rewrite Hclosed. unfold days_of, open_day. rewrite flat_map_app.
      destruct (daily_activities st); simpl; now rewrite ?app_nil_r. }
    assert (Hday : forall d, In d closed -> day_ok ctx d).
    { intros d Hd. rewrite Hclosed in Hd. unfold days_of in Hd.
      apply in_app_iff in Hd as [Hd|Hd]; [now apply Hdays|].
      unfold open_day in Hd.
      destruct (daily_activities st) as [|t0 l0] eqn:Ed; [contradiction|].
      destruct Hd as [<-|[]]. constructor; simpl; auto. discriminate. }
    constructor;
      cbn [timeline_days current_date current_time cur_day_number daily_activities
           daily_cost].
    + exact Hday.
    + lia.
    + rewrite Hdate. lia.
    + reflexivity.
    + repeat constructor.
    + exact I.
    + simpl. unfold opening.
      destruct (Z.eqb_spec (cur_day_number st + 1) 1) as [E|_]; [lia|].
      reflexivity.
    + intros l t E. destruct l as [|x l]; simpl in E.
      * injection E as <-. reflexivity.
      * destruct l; discriminate.
    + discriminate.
    + unfold closed. destruct (daily_activities st) as [|t0 l0] eqn:Ed; simpl.
      * destruct (Hfresh eq_refl) as (-> & _). exact I.
      * rewrite map_app. simpl. rewrite <- app_assoc. simpl.
        now apply consecutive_snoc.
    + intros note. unfold days_of, open_day. simpl.
      destruct (list_snoc_cases _ (daily_activities st)) as [Ed|(l' & x & Ed)].
      * destruct (Hfresh Ed) as (Hd0 & Hn1 & Ht0).
        unfold closed. rewrite Ed, Hd0. simpl. right.
        split; [lia|]. unfold fits_first_day, day_start.
        apply Z.ltb_lt in Hov. rewrite Hdate, Hn1, Ht0 in Hov.
        replace (start_date ctx + (1 - 1)) with (start_date ctx) in Hov by lia.
        change (footprint scheduled) with (footprint ta). lia.
      * apply first_day_rule_app.
        -- rewrite Hclosed. unfold days_of, open_day. rewrite Ed.
           destruct (timeline_days st); destruct l'; discriminate.
        -- rewrite Hclosed. apply Hfirst.
    + rewrite Hfilter, <- Hids. rewrite Hacts.
      rewrite map_app. simpl. unfold sched_id at 2. simpl. fold a.
      unfold sched_id in Hid. fold a in Hid. rewrite Hid. reflexivity.
    + intros t Ht. rewrite Hacts in Ht.
      apply in_app_iff in Ht as [Ht|[<-|[]]].
      * apply Horig. exact Ht.
      * exists k, ta. split; [exact Hk|]. repeat split.
  - (* the activity joins the open day *)
    cbn [timeline_days current_date current_time cur_day_number daily_activities
         daily_cost].
    set (scheduled := mkTimed a _ _ _ _ _).
    constructor;
      cbn [timeline_days current_date current_time cur_day_number daily_activities
           daily_cost].
    + exact Hdays.
    + exact Hnum.
    + exact Hdate.
    + rewrite cost_sum_snoc, Hcost. reflexivity.
    + apply Forall_app. split; [exact Htimed|]. repeat constructor.
    + destruct (list_snoc_cases _ (daily_activities st)) as [Ed|(l' & x & Ed)].
      * rewrite Ed. exact I.
      * rewrite Ed, <- app_assoc. simpl. apply chained_snoc.
        -- now rewrite <- Ed.
        -- unfold follows. simpl. rewrite (Htime l' x Ed). reflexivity.
    + destruct (daily_activities st) as [|t0 l0] eqn:Ed; simpl; [|exact Hfc].
      destruct (Hfresh eq_refl) as (_ & Hn1 & Ht0).
      unfold opening. rewrite Hn1, Ht0. reflexivity.
    + intros l t E. apply app_inj_tail in E as [_ <-]. reflexivity.
    + intros E. destruct (daily_activities st); discriminate.
    + exact Hnums.
    + intros note. specialize (Hfirst note). unfold days_of, open_day in *. simpl.
      destruct (timeline_days st) as [|d0 l0] eqn:Et; [|exact Hfirst].
      destruct (daily_activities st) as [|t0 l1] eqn:Ed; simpl in *; [|exact Hfirst].
      destruct (Hfresh eq_refl) as (_ & Hn1 & Ht0). left.
      split; [exact Hn1|]. unfold fits_first_day, day_start.
      apply Z.ltb_ge in Hov. rewrite Hdate, Hn1, Ht0 in Hov.
      replace (start_date ctx + (1 - 1)) with (start_date ctx) in Hov by lia.
      change (footprint scheduled) with (footprint ta). lia.
    + rewrite Hfilter, <- Hids. rewrite app_assoc, map_app. simpl.
      unfold sched_id at 2. simpl. fold a.
      unfold sched_id in Hid. fold a in Hid. rewrite Hid. reflexivity.
    + intros t Ht. rewrite app_assoc in Ht.
      apply in_app_iff in Ht as [Ht|[<-|[]]].
      * now apply Horig.
      * exists k, ta. split; [exact Hk|]. repeat split.
Qed.

Lemma schedule_skip_ok activity_map done st k :
  dict_get activity_map k = None ->
  sched_ok ctx activity_map done st ->
  sched_ok ctx activity_map (done ++ [k]) st.
Proof.
  intros Hk [Hdays Hnum Hdate Hcost Htimed Hchain Hfc Htime Hfresh Hnums Hfirst Hids Horig].
  constructor; try assumption.
  rewrite filter_app. simpl. unfold dict_contains at 2. rewrite Hk.
  now rewrite app_nil_r.
Qed.

Lemma schedule_loop_ok activity_map order :
  keyed_by_id activity_map -> forall done st,
  sched_ok ctx activity_map done st ->
  sched_ok ctx activity_map (done ++ order)
           (schedule_loop ctx activity_map order st).
Proof.
  intros Hkey. induction order as [|k order IH]; intros done st H; simpl.
  - now rewrite app_nil_r.
  - replace (done ++ k :: order) with ((done ++ [k]) ++ order)
      by (rewrite <- app_assoc; reflexivity).
    destruct (dict_get activity_map k) as [ta|] eqn:E; apply IH.
    + now apply schedule_step_ok.
    + now apply schedule_skip_ok.
Qed.

Lemma sched_ok_initial activity_map :
  sched_ok ctx activity_map []
    (mkSched [] (start_date ctx) (ctx_start_time ctx) 1 [] 0%Q).
Proof.
  constructor; simpl; auto; try (intros; contradiction); try lia.
  intros l t E. destruct l; discriminate.
Qed.

(** What the invariant gives for the days returned. *)
Lemma sched_ok_days activity_map done st note :
  sched_ok ctx activity_map done st ->
  (forall d, In d (days_of st note) -> day_ok ctx d)
  /\ consecutive (map day_number (days_of st note))
  /\ first_day_rule ctx (days_of st note)
  /\ scheduled_ids (days_of st note) = filter (dict_contains activity_map) done
  /\ forall d t, In d (days_of st note) -> In t (activities d) ->
       exists k ta, dict_get activity_map k = Some ta /\ same_request t ta.
Proof.
  intros [Hdays Hnum Hdate Hcost Htimed Hchain Hfc Htime Hfresh Hnums Hfirst Hids Horig].
  assert (Hacts : flat_map activities (days_of st note)
                  = flat_map activities (timeline_days st) ++ daily_activities st).
  { unfold days_of, open_day. rewrite flat_map_app.
    destruct (daily_activities st); simpl; now rewrite ?app_nil_r. }
  split; [|split; [|split; [|split]]].
  - intros d Hd. unfold days_of in Hd.
    apply in_app_iff in Hd as [Hd|Hd]; [now apply Hdays|].
    unfold open_day in Hd.
    destruct (daily_activities st) as [|t0 l0] eqn:Ed; [contradiction|].
    destruct Hd as [<-|[]]. constructor; simpl; auto. discriminate.
  - unfold days_of, open_day.
    destruct (daily_activities st) as [|t0 l0]; simpl.
    + rewrite app_nil_r. clear - Hnums.
      induction (map day_number (timeline_days st)) as [|x l IH]; [exact I|].
      destruct l as [|y l]; [exact I|]. simpl in *. destruct Hnums as [H1 H2].
      split; [exact H1|]. now apply IH.
    + rewrite map_app. exact Hnums.
  - apply Hfirst.
  - unfold scheduled_ids. rewrite Hacts. exact Hids.
  - intros d t Hd Ht. apply Horig. rewrite <- Hacts.
    apply in_flat_map. eauto.
Qed.

Lemma schedule_result timed_activities g order :
  topological_sort g = Ok order ->
  exists st,
    _schedule_activities_to_days timed_activities g ctx
    = Ok (days_of st (final_note ctx))
    /\ sched_ok ctx (activity_map_of timed_activities) order st.
Proof.
  intros Ho. unfold _schedule_activities_to_days. rewrite Ho. cbn [bind].
  fold (activity_map_of timed_activities).
  set (st := schedule_loop ctx _ order _).
  exists st. split.
  - unfold days_of, open_day. destruct (daily_activities st); simpl;
      [now rewrite app_nil_r|reflexivity].
  - apply (schedule_loop_ok _ order (activity_map_of_keyed timed_activities)
                            [] _ (sched_ok_initial _)).
Qed.
End DaysProofs.

Lemma schedule_inversion {F : PyFloat} (ctx : TimelineGenerationContext)
    timed_activities g days :
  _schedule_activities_to_days timed_activities g ctx = Ok days ->
  exists order st,
    topological_sort g = Ok order
    /\ days = days_of st (final_note ctx)
    /\ sched_ok ctx (activity_map_of timed_activities) order st.
Proof.
  intros E.
  destruct (topological_sort g) as [order|e] eqn:Ho.
  - destruct (@schedule_result F ctx timed_activities g order Ho) as (st & E' & Hok).
    rewrite E' in E. injection E as <-. eauto.
  - unfold _schedule_activities_to_days in E. rewrite Ho in E. discriminate E.
Qed.

Lemma find_app_last (A : Type) (f : A -> bool) l x :
  find f (l ++ [x])
  = match find f l with Some y => Some y | None => if f x then Some x else None end.
Proof.
  induction l as [|y l IH]; simpl; [reflexivity|].
  destruct (f y); [reflexivity|exact IH].
Qed.

Lemma activity_map_of_get timed_activities k :
  dict_get (activity_map_of timed_activities) k = last_with_id timed_activities k.
Proof.
  unfold activity_map_of, last_with_id.
  assert (H : forall l m,
    dict_get (fold_left (fun m ta => dict_set m (id (ta_activity ta)) ta) l m) k
    = match find (fun ta => String.eqb k (sched_id ta)) (rev l) with
      | Some ta => Some ta
      | None => dict_get m k
      end).
  { induction l as [|x l IH]; intros m; simpl; [reflexivity|].
    rewrite IH, find_app_last, dict_get_set.
    destruct (find _ (rev l)); [reflexivity|]. unfold sched_id.
    destruct (String.eqb k (id (ta_activity x))); reflexivity. }
  rewrite H. destruct (find _ (rev timed_activities)); reflexivity.
Qed.

Lemma last_with_id_In timed_activities k ta :
  last_with_id timed_activities k = Some ta ->
  In ta timed_activities /\ sched_id ta = k.
Proof.
  unfold last_with_id. intros H. apply find_some in H as [Hin Hk].
  apply in_rev in Hin. apply String.eqb_eq in Hk. auto.
Qed.

Lemma last_with_id_some timed_activities k :
  In k (map sched_id timed_activities) ->
  exists ta, last_with_id timed_activities k = Some ta.
Proof.
  intros H. apply in_map_iff in H as (ta & <- & Hin).
  unfold last_with_id.
  destruct (find _ (rev timed_activities)) as [ta'|] eqn:E; [eauto|].
  exfalso. apply in_rev in Hin. apply (find_none _ _ E ta) in Hin.
  now rewrite String.eqb_refl in Hin.
Qed.

Lemma activity_map_of_contains timed_activities k :
  dict_contains (activity_map_of timed_activities) k = true
  <-> In k (map sched_id timed_activities).
Proof.
  unfold dict_contains. rewrite activity_map_of_get. split.
  - destruct (last_with_id timed_activities k) as [ta|] eqn:E; [|discriminate].
    intros _. apply last_with_id_In in E as [Hin <-]. now apply in_map.
  - intros H. destruct (last_with_id_some _ _ H) as [ta ->]. reflexivity.
Qed.

Lemma before_filter (f : string -> bool) l a b :
  before l a b -> f a = true -> f b = true -> before (filter f l) a b.
Proof.
  intros (l1 & l2 & l3 & ->) Ha Hb.
  exists (filter f l1), (filter f l2), (filter f l3).
  rewrite filter_app. simpl. rewrite Ha, filter_app. simpl. now rewrite Hb.
Qed.

Lemma NoDup_filter' (A : Type) (f : A -> bool) l : NoDup l -> NoDup (filter f l).
Proof.
  induction 1 as [|x l Hx Hl IH]; simpl; [constructor|].
  destruct (f x); [|exact IH]. constructor; [|exact IH].
  intros H. apply filter_In in H. tauto.
Qed.

Lemma schedule_conservation {F : PyFloat} (ctx : TimelineGenerationContext)
    timed_activities g order :
  topological_sort g = Ok order ->
  exists days,
    _schedule_activities_to_days timed_activities g ctx = Ok days
    /\ scheduled_ids days
       = filter (dict_contains (activity_map_of timed_activities)) order
    /\ forall d t, In d days -> In t (activities d) ->
         exists ta, last_with_id timed_activities (sched_id t) = Some ta
                    /\ same_request t ta.
Proof.
  intros Ho.
  destruct (@schedule_result F ctx timed_activities g order Ho) as (st & E & Hok).
  exists (days_of st (final_note ctx)). split; [exact E|].
  destruct (@sched_ok_days F ctx _ _ _ (final_note ctx) Hok)
    as (_ & _ & _ & Hids & Horig).
  split; [exact Hids|].
  intros d t Hd Ht. destruct (Horig d t Hd Ht) as (k & ta & Hk & Hsame).
  exists ta. split; [|exact Hsame].
  pose proof (activity_map_of_keyed timed_activities k ta Hk) as Hid.
  rewrite activity_map_of_get in Hk.
  replace (sched_id t) with k; [exact Hk|].
  rewrite <- Hid. unfold sched_id. destruct Hsame as [-> _]. reflexivity.
Qed.

Lemma schedule_cases {F : PyFloat}
    (ctx : TimelineGenerationContext) (timed_activities : list TimedActivity)
    (g : DependencyGraph) :
  wf_graph g ->
  (acyclic g ->
   exists days,
     _schedule_activities_to_days timed_activities g ctx = Ok days
     /\ NoDup (scheduled_ids days)
     /\ (forall k, In k (scheduled_ids days)
                   <-> In k (node_ids g) /\ In k (map sched_id timed_activities))
     /\ (forall d, In d (dependencies g) ->
           In (predecessor_id d) (scheduled_ids days) ->
           In (successor_id d) (scheduled_ids days) ->
           before (scheduled_ids days) (predecessor_id d) (successor_id d))
     /\ forall d t, In d days -> In t (activities d) ->
          exists ta, last_with_id timed_activities (sched_id t) = Some ta
                     /\ same_request t ta)
  /\ (has_dep_cycle g ->
      exists e, _schedule_activities_to_days timed_activities g ctx = Raise e
                /\ is_cycle_error e).
Proof.
  intros Hwf. pose proof (wf_adjacency Hwf) as Hadj.
  destruct (topological_sort_cases Hwf)
    as [[E Hc]|[[E Hc]|(order & E & Hres & Hall & Hlen)]].
  - split.
    + intros Hacyc. destruct Hc as [x Hx]. now apply Hacyc in Hx.
    + intros _. eexists. unfold _schedule_activities_to_days. rewrite E.
      split; [reflexivity|]. now left.
  - split.
    + intros Hacyc. destruct Hc as [x Hx]. now apply Hacyc in Hx.
    + intros _. eexists. unfold _schedule_activities_to_days. rewrite E.
      split; [reflexivity|]. now right.
  - split.
    + intros _.
      destruct (@schedule_conservation F ctx timed_activities g order E)
        as (days & Ed & Hids & Horig).
      exists days. split; [exact Ed|].
      assert (Hin : forall k, In k (scheduled_ids days)
                   <-> In k (node_ids g) /\ In k (map sched_id timed_activities)).
      { intros k. rewrite Hids, filter_In, activity_map_of_contains.
        split; intros [H1 H2]; (split; [|exact H2]).
        - now apply Hres.
        - now apply Hall. }
      split; [rewrite Hids; apply NoDup_filter', Hres|].
      split; [exact Hin|]. split; [|exact Horig].
      intros d Hd Hp Hs. rewrite Hids.
      apply Hin in Hp as [_ Hp]. apply Hin in Hs as [Hsn Hs].
      apply before_filter; try now apply activity_map_of_contains.
      apply Hall, in_split in Hsn as (l1 & l2 & El).
      eapply in_before; [exact El|].
      apply (kr_order Hres l1 _ l2 El).
      apply (wf_pred_edge _ _ Hwf). exists d. auto.
    + intros [x Hx]. exfalso.
      apply (dep_cycle_succ_cycle Hwf) in Hx. revert Hx.
      apply (@preds_first_acyclic (nodes g) order); try assumption; apply Hres.
Qed.

(** X18.  The day scheduler ([_schedule_activities_to_days]) on a graph that
    satisfies the builder's invariant.  If the dependency relation has no
    cycle, the call returns; the ids of the activities it places, read day
    by day, have no duplicate, are exactly the node ids for which a timed
    activity was passed, and put the predecessor of every dependency before
    its successor; each placed entry carries the activity, the buffers and
    the contingency plans of the last timed activity passed under its id.
    If the relation has a cycle, the call raises the cycle error of the
    topological sort. *)
Theorem schedule_places_each_activity_once {F : PyFloat}
    (ctx : TimelineGenerationContext) (timed_activities : list TimedActivity)
    (g : DependencyGraph) :
  wf_graph g ->
  (acyclic g ->
   exists days,
     _schedule_activities_to_days timed_activities g ctx = Ok days
     /\ NoDup (scheduled_ids days)
     /\ (forall k, In k (scheduled_ids days)
                   <-> In k (node_ids g) /\ In k (map sched_id timed_activities))
     /\ (forall d, In d (dependencies g) ->
           In (predecessor_id d) (scheduled_ids days) ->
           In (successor_id d) (scheduled_ids days) ->
           before (scheduled_ids days) (predecessor_id d) (successor_id d))
     /\ forall d t, In d days -> In t (activities d) ->
          exists ta, last_with_id timed_activities (sched_id t) = Some ta
                     /\ same_request t ta)
  /\ (has_dep_cycle g ->
      exists e, _schedule_activities_to_days timed_activities g ctx = Raise e
                /\ is_cycle_error e).
Proof. exact (@schedule_cases F ctx timed_activities g). Qed.

Lemma schedule_places_each_activity_once_witness :
  wf_graph g_xy
  /\ (acyclic g_xy ->
      exists days,
        _schedule_activities_to_days two_short g_xy (default_context 738000) = Ok days
        /\ NoDup (scheduled_ids days)
        /\ (forall k, In k (scheduled_ids days)
                      <-> In k (node_ids g_xy) /\ In k (map sched_id two_short))
        /\ (forall d, In d (dependencies g_xy) ->
              In (predecessor_id d) (scheduled_ids days) ->
              In (successor_id d) (scheduled_ids days) ->
              before (scheduled_ids days) (predecessor_id d) (successor_id d))
        /\ forall d t, In d days -> In t (activities d) ->
             exists ta, last_with_id two_short (sched_id t) = Some ta
                        /\ same_request t ta)
  /\ (has_dep_cycle g_xy ->
      exists e, _schedule_activities_to_days two_short g_xy (default_context 738000)
                = Raise e
                /\ is_cycle_error e).
Proof.
  split; [exact g_xy_wf|].
  exact (@schedule_places_each_activity_once exact_float (default_context 738000)
           two_short g_xy g_xy_wf).
Defined.

Lemma schedule_days_ok {F : PyFloat} (ctx : TimelineGenerationContext)
    timed_activities g days :
  _schedule_activities_to_days timed_activities g ctx = Ok days ->
  (forall d, In d days -> day_ok ctx d)
  /\ consecutive (map day_number days)
  /\ first_day_rule ctx days
  /\ forall d t, In d days -> In t (activities d) ->
       exists ta, In ta timed_activities /\ same_request t ta.
Proof.
  intros E.
  destruct (@schedule_inversion F ctx _ _ _ E) as (order & st & Ho & -> & Hok).
  destruct (@sched_ok_days F ctx _ _ _ (final_note ctx) Hok)
    as (H1 & H2 & H3 & _ & H5).
  split; [exact H1|]. split; [exact H2|]. split; [exact H3|].
  intros d t Hd Ht. destruct (H5 d t Hd Ht) as (k & ta & Hk & Hs).
  exists ta. split; [|exact Hs].
  rewrite activity_map_of_get in Hk. now apply last_with_id_In in Hk.
Qed.

(** X19.  The days returned by [_schedule_activities_to_days]: no day is
    empty, the day numbers go up by one from day to day, the first day is
    day 1 when the first activity placed fits into the first day and day 2
    when it does not, the date of a day is the start date plus its number
    minus one, and the cost of a day is the sum of the costs of its
    activities. *)
Theorem scheduled_days_numbering {F : PyFloat} (ctx : TimelineGenerationContext)
    (timed_activities : list TimedActivity) (g : DependencyGraph)
    (days : list TimelineDay) :
  _schedule_activities_to_days timed_activities g ctx = Ok days ->
  (forall d, In d days ->
     activities d <> []
     /\ day_date d = start_date ctx + (day_number d - 1)
     /\ day_estimated_cost d = cost_sum (activities d))
  /\ consecutive (map day_number days)
  /\ first_day_rule ctx days.
Proof.
  intros E. destruct (@schedule_days_ok F ctx _ _ _ E) as (H1 & H2 & H3 & _).
  split; [|auto]. intros d Hd. destruct (H1 d Hd). auto.
Qed.

Lemma scheduled_days_numbering_witness :
  exists days,
    _schedule_activities_to_days two_short g_xy (default_context 738000) = Ok days
    /\ (forall d, In d days ->
          activities d <> []
          /\ day_date d = start_date (default_context 738000) + (day_number d - 1)
          /\ day_estimated_cost d = cost_sum (activities d))
    /\ consecutive (map day_number days)
    /\ first_day_rule (default_context 738000) days.
Proof.
  eexists. split; [vm_compute; reflexivity|].
  apply (@scheduled_days_numbering exact_float (default_context 738000)
           two_short g_xy).
  vm_compute. reflexivity.
Defined.

(** X20.  The times set by [_schedule_activities_to_days]: every activity
    ends at its start plus its setup time, duration and cleanup time; within
    a day, each activity starts at the end of the one before it plus the
    buffer after that one and its own buffer before; the first activity of a
    day starts one buffer-before after the start time of the context on
    day 1, and after the start of the daily window on a later day. *)
Theorem scheduled_days_timing {F : PyFloat} (ctx : TimelineGenerationContext)
    (timed_activities : list TimedActivity) (g : DependencyGraph)
    (days : list TimelineDay) :
  _schedule_activities_to_days timed_activities g ctx = Ok days ->
  forall d, In d days ->
    Forall well_timed (activities d)
    /\ chained (activities d)
    /\ first_start_ok ctx (day_number d) (day_date d) (activities d).
Proof.
  intros E d Hd. destruct (@schedule_days_ok F ctx _ _ _ E) as (H1 & _).
  destruct (H1 d Hd). auto.
Qed.

Lemma scheduled_days_timing_witness :
  exists days,
    _schedule_activities_to_days two_short g_xy (default_context 738000) = Ok days
    /\ forall d, In d days ->
         Forall well_timed (activities d)
         /\ chained (activities d)
         /\ first_start_ok (default_context 738000) (day_number d) (day_date d)
                           (activities d).
Proof.
  eexists. split; [vm_compute; reflexivity|].
  apply (@scheduled_days_timing exact_float (default_context 738000)
           two_short g_xy).
  vm_compute. reflexivity.
Defined.

(* ------------------------------------------------------------------ *)
(** * The scheduler's days under [TimelineDay.validate] and
      [Timeline.validate] *)

Lemma Activity_validate_nil_inv a :
  Activity_validate a = [] -> 0 < duration a /\ Q_neg (estimated_cost a) = false.
Proof.
  unfold Activity_validate. intros H.
  apply app_eq_nil in H as [_ H]. apply app_eq_nil in H as [_ H].
  apply app_eq_nil in H as [H1 H2].
  destruct (Z.leb_spec (duration a) 0); [discriminate|].
  destruct (Q_neg (estimated_cost a)); [discriminate|]. auto.
Qed.

Lemma Q_neg_false q : Q_neg q = false <-> (0 <= q)%Q.
Proof.
  unfold Q_neg. rewrite Bool.negb_false_iff. apply Qle_bool_iff.
Qed.

Lemma cost_sum_nonneg l :
  (forall t, In t l -> Q_neg (estimated_cost (ta_activity t)) = false) ->
  Q_neg (cost_sum l) = false.
Proof.
  unfold cost_sum. intros H.
  assert (G : forall l acc, (0 <= acc)%Q ->
            (forall t, In t l -> Q_neg (estimated_cost (ta_activity t)) = false) ->
            (0 <= fold_left (fun c t => (c + estimated_cost (ta_activity t))%Q) l acc)%Q).
  { clear. induction l as [|x l IH]; intros acc Ha H; simpl; [exact Ha|].
    apply IH; [|intros t Ht; apply H; now right].
    specialize (H x (or_introl eq_refl)). apply Q_neg_false in H.
    replace 0%Q with (0 + 0)%Q by reflexivity. now apply Qplus_le_compat. }
  apply Q_neg_false. apply G; [apply Qle_refl|exact H].
Qed.

Lemma sort_by_id (A : Type) (key : A -> Z) (l : list A) :
  (forall l1 a b l2, l = l1 ++ a :: b :: l2 -> key a <= key b) ->
  sort_by key l = l.
Proof.
  induction l as [|x l IH]; intros H; [reflexivity|].
  unfold sort_by in *. simpl. rewrite IH.
  - destruct l as [|y l]; [reflexivity|]. simpl.
    specialize (H [] x y l eq_refl).
    destruct (Z.leb_spec (key x) (key y)); [reflexivity|lia].
  - intros l1 a b l2 ->. apply (H (x :: l1) a b l2). reflexivity.
Qed.

Lemma chained_adjacent l : forall l1 a b l2,
  chained l -> l = l1 ++ a :: b :: l2 -> follows a b.
Proof.
  induction l as [|x l IH]; intros l1 a b l2 Hc E.
  - destruct l1; discriminate.
  - destruct l1 as [|z l1]; simpl in E.
    + injection E as -> ->. simpl in Hc. tauto.
    + injection E as -> E. destruct l as [|y l]; [destruct l1; discriminate|].
      simpl in Hc. destruct Hc as [_ Hc]. exact (IH l1 a b l2 Hc E).
Qed.

Lemma consecutive_adjacent l : forall l1 a b l2,
  consecutive l -> l = l1 ++ a :: b :: l2 -> b = a + 1.
Proof.
  induction l as [|x l IH]; intros l1 a b l2 Hc E.
  - destruct l1; discriminate.
  - destruct l1 as [|z l1]; simpl in E.
    + injection E as -> ->. simpl in Hc. tauto.
    + injection E as -> E. destruct l as [|y l]; [destruct l1; discriminate|].
      simpl in Hc. destruct Hc as [_ Hc]. exact (IH l1 a b l2 Hc E).
Qed.

Lemma overlap_errors_chained l :
  chained l ->
  (forall t, In t l -> 0 <= buffer_before t /\ 0 <= buffer_after t) ->
  overlap_errors l = [].
Proof.
  induction l as [|x l IH]; intros Hc Hb; [reflexivity|].
  destruct l as [|y l]; [reflexivity|].
  simpl in Hc. destruct Hc as [Hxy Hc].
  change (overlap_errors (x :: y :: l))
    with ((if start_time y <? end_time x
           then [msg_overlap (name (ta_activity x)) (name (ta_activity y))]
           else []) ++ overlap_errors (y :: l)).
  rewrite IH; [|exact Hc|intros t Ht; apply Hb; now right].
  unfold follows in Hxy.
  destruct (Hb x (or_introl eq_refl)) as [_ Hx].
  destruct (Hb y (or_intror (or_introl eq_refl))) as [Hy _].
  destruct (Z.ltb_spec (start_time y) (end_time x)); [lia|reflexivity].
Qed.

Lemma TimedActivity_validate_nil t :
  well_timed t -> Activity_validate (ta_activity t) = [] ->
  0 <= setup_time (ta_activity t) -> 0 <= cleanup_time (ta_activity t) ->
  TimedActivity_validate t = [] /\ start_time t < end_time t.
Proof.
  intros Hw Hv Hs Hc. unfold TimedActivity_validate. rewrite Hv.
  apply Activity_validate_nil_inv in Hv as [Hd _]. unfold well_timed in Hw.
  destruct (Z.leb_spec (end_time t) (start_time t)); [lia|].
  destruct (Z.ltb_spec (end_time t - start_time t)
              (duration (ta_activity t) + setup_time (ta_activity t)
               + cleanup_time (ta_activity t))); [lia|].
  split; [reflexivity|lia].
Qed.

Lemma schedulable_same t ta : same_request t ta -> schedulable ta -> schedulable t.
Proof.
  intros (Ea & Eb & Ec & _). unfold schedulable. now rewrite Ea, Eb, Ec.
Qed.

Lemma day_validates {F : PyFloat} (ctx : TimelineGenerationContext) d :
  day_ok ctx d -> (forall t, In t (activities d) -> schedulable t) ->
  TimelineDay_validate d = [] /\ sort_by start_time (activities d) = activities d.
Proof.
  intros [Hne Hnum Hdate Hcost Htimed Hchain Hfirst] Hs.
  assert (Hall : forall t, In t (activities d) ->
            TimedActivity_validate t = [] /\ start_time t < end_time t).
  { intros t Ht. destruct (Hs t Ht) as (Hv & H1 & H2 & _).
    apply TimedActivity_validate_nil; try assumption.
    rewrite Forall_forall in Htimed. now apply Htimed. }
  assert (Hsort : sort_by start_time (activities d) = activities d).
  { apply sort_by_id. intros l1 a b l2 E.
    pose proof (chained_adjacent _ l1 a b l2 Hchain E) as Hf. unfold follows in Hf.
    assert (Ha : In a (activities d)) by (rewrite E; apply in_elt).
    assert (Hb : In b (activities d)).
    { rewrite E. apply in_or_app. right. right. now left. }
    destruct (Hall a Ha) as [_ Hlt].
    destruct (Hs a Ha) as (_ & _ & _ & _ & Hba).
    destruct (Hs b Hb) as (_ & _ & _ & Hbb & _). lia. }
  split; [|exact Hsort].
  unfold TimelineDay_validate. rewrite Hsort.
  destruct (Z.leb_spec (day_number d) 0); [lia|].
  rewrite Hcost, cost_sum_nonneg.
  - rewrite overlap_errors_chained; [|exact Hchain|].
    + simpl. rewrite app_nil_r. apply flat_map_nil_iff.
      intros t Ht. now apply Hall.
    + intros t Ht. destruct (Hs t Ht) as (_ & _ & _ & H1 & H2). auto.
  - intros t Ht. destruct (Hs t Ht) as (Hv & _).
    now apply Activity_validate_nil_inv in Hv.
Qed.

Lemma scheduled_days_validate_all {F : PyFloat} (ctx : TimelineGenerationContext)
    timed_activities g days :
  (forall ta, In ta timed_activities -> schedulable ta) ->
  _schedule_activities_to_days timed_activities g ctx = Ok days ->
  forall d, In d days ->
    TimelineDay_validate d = [] /\ sort_by start_time (activities d) = activities d.
Proof.
  intros Hs E d Hd.
  destruct (@schedule_days_ok F ctx _ _ _ E) as (H1 & _ & _ & H4).
  apply (@day_validates F ctx); [now apply H1|].
  intros t Ht. destruct (H4 d t Hd Ht) as (ta & Hin & Hsame).
  apply (schedulable_same _ _ Hsame). now apply Hs.
Qed.

(** X21.  When every timed activity passed to [_schedule_activities_to_days]
    has a valid activity and no negative setup time, cleanup time or buffer,
    every day it returns passes [TimelineDay.validate] without an error, and
    the activities of the day are stored in the order of their start
    times. *)
Theorem scheduled_days_validate {F : PyFloat} (ctx : TimelineGenerationContext)
    (timed_activities : list TimedActivity) (g : DependencyGraph)
    (days : list TimelineDay) :
  (forall ta, In ta timed_activities -> schedulable ta) ->
  _schedule_activities_to_days timed_activities g ctx = Ok days ->
  forall d, In d days ->
    TimelineDay_validate d = [] /\ sort_by start_time (activities d) = activities d.
Proof. exact (@scheduled_days_validate_all F ctx timed_activities g days). Qed.

Lemma two_short_schedulable : forall ta, In ta two_short -> schedulable ta.
Proof.
  intros ta [<-|[<-|[]]]; unfold schedulable; simpl;
    (split; [reflexivity|]); unfold minutes; lia.
Qed.

Lemma scheduled_days_validate_witness :
  (forall ta, In ta two_short -> schedulable ta)
  /\ exists days,
       _schedule_activities_to_days two_short g_xy (default_context 738000) = Ok days
       /\ forall d, In d days ->
            TimelineDay_validate d = []
            /\ sort_by start_time (activities d) = activities d.
Proof.
  split; [exact two_short_schedulable|].
  eexists. split; [vm_compute; reflexivity|].
  apply (@scheduled_days_validate exact_float (default_context 738000)
           two_short g_xy _ two_short_schedulable).
  vm_compute. reflexivity.
Defined.

Lemma timeline_activity_ids_In l k :
  In k (timeline_activity_ids l) <-> In k (scheduled_ids l).
Proof.
  unfold timeline_activity_ids, scheduled_ids.
  assert (Hin : forall acts s,
            In k (fold_left (fun s' ta => set_add (id (ta_activity ta)) s') acts s)
            <-> In k s \/ In k (map sched_id acts)).
  { induction acts as [|t acts IH]; intros s; simpl; [tauto|].
    rewrite IH, set_add_In. unfold sched_id at 2. intuition. }
  assert (H : forall l s,
            In k (fold_left
                    (fun s d => fold_left (fun s' ta => set_add (id (ta_activity ta)) s')
                                          (activities d) s) l s)
            <-> In k s \/ In k (map sched_id (flat_map activities l))).
  { clear l. induction l as [|d l IH]; intros s; simpl; [tauto|].
    rewrite IH, Hin, map_app, in_app_iff. tauto. }
  rewrite H. simpl. tauto.
Qed.

Lemma day_sequence_errors_consecutive l : forall i,
  consecutive (map day_number l) ->
  match l with d :: _ => day_number d = i + 1 | [] => True end ->
  day_sequence_errors i l = [].
Proof.
  induction l as [|d l IH]; intros i Hc Hd; simpl; [reflexivity|].
  rewrite Hd, Z.eqb_refl. simpl. apply IH.
  - destruct l; [exact I|]. simpl in Hc. tauto.
  - destruct l as [|d' l]; [exact I|]. simpl in Hc. lia.
Qed.

Lemma scheduled_timeline_cases {F : PyFloat} (ctx : TimelineGenerationContext)
    timed_activities g sched (t : Timeline) :
  (forall ta, In ta timed_activities -> schedulable ta) ->
  _schedule_activities_to_days timed_activities g ctx = Ok sched ->
  tl_days t = sched ->
  0 < tl_total_duration t ->
  (forall dep, In dep (tl_dependencies t) ->
     Dependency_validate dep = []
     /\ In (predecessor_id dep) (scheduled_ids sched)
     /\ In (successor_id dep) (scheduled_ids sched)) ->
  match first_scheduled sched with
  | None => sched = []
            /\ Timeline_validate t = ["Timeline must have at least one day"]
  | Some t0 =>
      (fits_first_day ctx t0 /\ Timeline_validate t = [])
      \/ (~ fits_first_day ctx t0 /\ Timeline_validate t = [msg_day_sequence])
  end.
Proof.
  intros Hs E Ht Hdur Hdeps.
  destruct (@schedule_days_ok F ctx _ _ _ E) as (Hok & Hcons & Hfirst & _).
  assert (Hval : flat_map TimelineDay_validate sched = []).
  { apply flat_map_nil_iff. intros d Hd.
    now apply (@scheduled_days_validate_all F ctx timed_activities g sched Hs E d Hd). }
  assert (Hdep : flat_map
            (fun dependency =>
               Dependency_validate dependency
               ++ (if negb (set_mem (predecessor_id dependency)
                                    (timeline_activity_ids sched))
                   then [msg_unknown_predecessor (predecessor_id dependency)] else [])
               ++ (if negb (set_mem (successor_id dependency)
                                    (timeline_activity_ids sched))
                   then [msg_unknown_successor (successor_id dependency)] else []))
            (tl_dependencies t) = []).
  { apply flat_map_nil_iff. intros dep Hd.
    destruct (Hdeps dep Hd) as (Hv & Hp & Hq). rewrite Hv.
    apply timeline_activity_ids_In, set_mem_In in Hp.
    apply timeline_activity_ids_In, set_mem_In in Hq.
    rewrite Hp, Hq. reflexivity. }
  assert (Hsort : sort_by day_number sched = sched).
  { apply sort_by_id. intros l1 a b l2 El.
    assert (Hm : map day_number sched
                 = map day_number l1 ++ day_number a :: day_number b
                   :: map day_number l2).
    { rewrite El, map_app. reflexivity. }
    pose proof (consecutive_adjacent _ _ _ _ _ Hcons Hm). lia. }
  unfold Timeline_validate. rewrite Ht, Hval, Hdep, Hsort.
  destruct (Z.leb_spec (tl_total_duration t) 0); [lia|].
  destruct sched as [|d l]; [split; reflexivity|].
  simpl first_scheduled. simpl is_empty. cbn [app].
  destruct (Hok d (or_introl eq_refl)) as [Hne _ _ _ _ _ _].
  unfold first_day_rule in Hfirst.
  destruct (activities d) as [|t0 acts]; [congruence|]. simpl hd_error.
  destruct Hfirst as [[Hn Hf]|[Hn Hf]].
  - left. split; [exact Hf|].
    apply day_sequence_errors_consecutive; [exact Hcons|]. rewrite Hn. reflexivity.
  - right. split; [exact Hf|]. simpl. rewrite Hn. reflexivity.
Qed.

(** X22.  [Timeline.validate] on a timeline whose days are the ones
    [_schedule_activities_to_days] returned, for timed activities that are
    valid and have no negative setup time, cleanup time or buffer, a positive
    total duration and valid dependencies between scheduled activities.  With
    no day, the only error is that a day is missing; otherwise there is no
    error when the first activity placed fits into the first day, and the
    day-sequence error alone when it does not (the days then start at day
    2). *)
Theorem scheduled_timeline_validate {F : PyFloat} (ctx : TimelineGenerationContext)
    (timed_activities : list TimedActivity) (g : DependencyGraph)
    (sched : list TimelineDay) (t : Timeline) :
  (forall ta, In ta timed_activities -> schedulable ta) ->
  _schedule_activities_to_days timed_activities g ctx = Ok sched ->
  tl_days t = sched ->
  0 < tl_total_duration t ->
  (forall dep, In dep (tl_dependencies t) ->
     Dependency_validate dep = []
     /\ In (predecessor_id dep) (scheduled_ids sched)
     /\ In (successor_id dep) (scheduled_ids sched)) ->
  match first_scheduled sched with
  | None => sched = []
            /\ Timeline_validate t = ["Timeline must have at least one day"]
  | Some t0 =>
      (fits_first_day ctx t0 /\ Timeline_validate t = [])
      \/ (~ fits_first_day ctx t0 /\ Timeline_validate t = [msg_day_sequence])
  end.
Proof. exact (@scheduled_timeline_cases F ctx timed_activities g sched t). Qed.

(* ------------------------------------------------------------------ *)
(** * The timeline engine around the scheduler *)

Lemma time_of_combine d t : 0 <= t < day_us -> time_of (combine d t) = t.
Proof.
  intros H. unfold time_of, combine.
  rewrite Z.add_comm, Z.mod_add by (unfold day_us; lia).
  now apply Z.mod_small.
Qed.

Section EngineProofs.
Context {F : PyFloat} {A : PyFloatArith F}.

Lemma calculate_activity_duration_bounds activity context venue_type :
  let c := calculate_activity_duration activity context venue_type in
  minutes 15 <= final_duration c <= hours 8
  /\ minutes 10 <= buffer_time c <= hours 1
  /\ total_time_needed c
     = final_duration c + buffer_time c + setup_time activity + cleanup_time activity.
Proof.
  unfold calculate_activity_duration.
  cbn [final_duration buffer_time total_time_needed].
  unfold minutes, hours. repeat split; lia.
Qed.

Lemma calculated_entry activities context venue_type ta :
  In ta (_calculate_activity_durations activities context venue_type) ->
  exists a,
    In a activities
    /\ ta_activity ta
       = set_duration a (final_duration
                           (calculate_activity_duration a context venue_type))
    /\ buffer_before ta
       = buffer_time (calculate_activity_duration a context venue_type)
    /\ buffer_after ta = minutes 15.
Proof.
  unfold _calculate_activity_durations. intros H.
  apply in_map_iff in H as (a & <- & Ha). exists a. auto.
Qed.

Lemma total_buffer_fold l : forall acc,
  fold_left (fun total_buffer ta => total_buffer + (buffer_before ta + buffer_after ta))
            l acc
  = acc + fold_left
            (fun total_buffer ta => total_buffer + (buffer_before ta + buffer_after ta))
            l 0.
Proof.
  induction l as [|x l IH]; intros acc; simpl; [lia|].
  rewrite IH. rewrite (IH (buffer_before x + buffer_after x)). lia.
Qed.

(** X23.  [_calculate_activity_durations] returns one timed activity per
    activity, in the same order and under the same ids; whatever the context
    and the floating-point arithmetic give, the duration it writes into an
    activity lies between 15 minutes and 8 hours, the buffer before it
    between 10 minutes and 1 hour, and the buffer after it is 15 minutes; so
    the total of [_calculate_total_buffer_time] lies between 25 and 75
    minutes per activity. *)
Theorem calculated_durations_clamped (activities : list Activity)
    (context : EventContext) (venue_type : VenueType) :
  let timed := _calculate_activity_durations activities context venue_type in
  map sched_id timed = map id activities
  /\ (forall ta, In ta timed ->
        minutes 15 <= duration (ta_activity ta) <= hours 8
        /\ minutes 10 <= buffer_before ta <= hours 1
        /\ buffer_after ta = minutes 15
        /\ footprint ta
           <= hours 9 + minutes 15
              + setup_time (ta_activity ta) + cleanup_time (ta_activity ta))
  /\ minutes 25 * Z.of_nat (List.length activities)
     <= _calculate_total_buffer_time timed
     <= minutes 75 * Z.of_nat (List.length activities).
Proof.
  cbv zeta. split; [|split].
  - unfold _calculate_activity_durations. rewrite map_map. reflexivity.
  - intros ta Hta.
    destruct (calculated_entry _ _ _ _ Hta) as (a & _ & Ea & Eb & Ec).
    destruct (calculate_activity_duration_bounds a context venue_type)
      as (Hd & Hb & _).
    unfold footprint. rewrite Ea, Eb, Ec. cbn [set_duration duration setup_time
      cleanup_time]. unfold minutes, hours in *. repeat split; lia.
  - unfold _calculate_total_buffer_time, _calculate_activity_durations.
    induction activities as [|a l IH]; [simpl; lia|].
    cbn [map fold_left buffer_before buffer_after]. rewrite total_buffer_fold.
    destruct (calculate_activity_duration_bounds a context venue_type)
      as (_ & Hb & _).
    change (List.length (a :: l)) with (S (List.length l)). rewrite Nat2Z.inj_succ.
    unfold minutes, hours in *. lia.
Qed.
End EngineProofs.

Section EnginePipeline.
Context {F : PyFloat} {A : PyFloatArith F}.

Lemma Activity_validate_set_duration a d :
  well_described a -> 0 < d -> Activity_validate (set_duration a d) = [].
Proof.
  intros (H1 & H2 & H3 & _) Hd. unfold Activity_validate, set_duration.
  cbn [id name duration estimated_cost]. rewrite H1, H2, H3.
  destruct (Z.leb_spec d 0); [lia|reflexivity].
Qed.

Lemma calculated_schedulable activities context venue_type :
  (forall a, In a activities -> well_described a) ->
  forall ta, In ta (_calculate_activity_durations activities context venue_type) ->
             schedulable ta.
Proof.
  intros Hw ta Hta.
  destruct (calculated_entry _ _ _ _ Hta) as (a & Ha & Ea & Eb & Ec).
  destruct (calculate_activity_duration_bounds a context venue_type) as (Hd & Hb & _).
  pose proof (Hw a Ha) as Hwa. destruct Hwa as (_ & _ & _ & Hs & Hc).
  unfold schedulable. rewrite Ea, Eb, Ec. split.
  - apply Activity_validate_set_duration; [now apply Hw|]. unfold minutes in Hd. lia.
  - cbn [set_duration setup_time cleanup_time]. unfold minutes in *. lia.
Qed.

(** X24.  Durations computed, then scheduled, then validated: when the
    activities passed to [_calculate_activity_durations] have a non-blank id
    and name, a cost that is not negative and no negative setup or cleanup
    time, every day that [_schedule_activities_to_days] builds from the
    result passes [TimelineDay.validate] without an error, whatever the
    durations of the activities were before (zero or negative ones
    included). *)
Theorem calculated_durations_validate (activities : list Activity)
    (context : EventContext) (venue_type : VenueType) (g : DependencyGraph)
    (ctx : TimelineGenerationContext) (sched : list TimelineDay) :
  (forall a, In a activities -> well_described a) ->
  _schedule_activities_to_days
    (_calculate_activity_durations activities context venue_type) g ctx = Ok sched ->
  forall d, In d sched -> TimelineDay_validate d = [].
Proof.
  intros Hw E d Hd.
  apply (@scheduled_days_validate_all F ctx _ g sched
           (calculated_schedulable activities context venue_type Hw) E d Hd).
Qed.

Lemma generation_context_start context cultural_requirements start preferences :
  pref_get preferences "start_time" = None ->
  ctx_start_time (_create_generation_context context cultural_requirements start
                                             preferences)
  = combine start (hours 10)
  /\ time_of (ctx_start_time (_create_generation_context context
                                cultural_requirements start preferences))
     = hours 10.
Proof.
  intros Hp.
  assert (Ht : time_of (combine start (hours 10)) = hours 10)
    by (apply time_of_combine; unfold hours, day_us; lia).
  unfold _create_generation_context.
  destruct preferences as [[|kv prefs]|]; cbn [ctx_start_time pref_get] in *;
    rewrite ?Hp; auto.
Qed.

(** X25.  [_create_generation_context] keeps the event context and the start
    date; its total duration is a whole number of days between 1 and 7
    (hence positive), at most the duration the context asks for when that is
    positive and at most 5 days when it is not; without a start-time
    preference the start time is 10:00 on the start date, which is also the
    start of the daily window, and without a daily-hours preference the
    window is 12 hours long. *)
Theorem generation_context_shape (context : EventContext)
    (cultural_requirements : list CulturalRequirement) (start : date)
    (preferences : option (dict Z)) :
  let gen := _create_generation_context context cultural_requirements start
                                        preferences in
  event_context gen = context
  /\ start_date gen = start
  /\ (exists n, ctx_total_duration gen = days n
                /\ 1 <= n <= 7
                /\ (0 < duration_days context -> n <= duration_days context)
                /\ (duration_days context <= 0 -> n <= 5))
  /\ 0 < ctx_total_duration gen
  /\ (pref_get preferences "start_time" = None ->
      ctx_start_time gen = combine start (hours 10)
      /\ day_start gen start = ctx_start_time gen)
  /\ (pref_get preferences "daily_hours" = None -> daily_schedule_hours gen = 12).
Proof.
  cbv zeta.
  assert (Hn : 1 <= _calculate_base_duration context cultural_requirements <= 7
               /\ (0 < duration_days context ->
                   _calculate_base_duration context cultural_requirements
                   <= duration_days context)
               /\ (duration_days context <= 0 ->
                   _calculate_base_duration context cultural_requirements <= 5)).
  { unfold _calculate_base_duration.
    assert (Hb : 1 <= base_durations (event_type context) <= 3)
      by (destruct (event_type context); simpl; lia).
    destruct (300 <? guest_count context);
      destruct (1 <? List.length cultural_requirements)%nat;
      destruct (Z.ltb_spec 0 (duration_days context)); lia. }
  assert (Ht : time_of (combine start (hours 10)) = hours 10)
    by (apply time_of_combine; unfold hours, day_us; lia).
  unfold _create_generation_context.
  destruct preferences as [[|kv prefs]|];
    cbn [event_context start_date ctx_total_duration ctx_start_time
         daily_schedule_hours pref_get];
    (split; [reflexivity|]); (split; [reflexivity|]);
    (split; [eexists; split; [reflexivity|exact Hn]|]);
    (split; [unfold days; lia|]).
  - split; intros _; [|reflexivity].
    split; [reflexivity|]. unfold day_start. cbn [ctx_start_time]. now rewrite Ht.
  - split; intros E.
    + rewrite E. split; [reflexivity|]. unfold day_start. cbn [ctx_start_time].
      now rewrite Ht.
    + rewrite E. reflexivity.
  - split; intros _; [|reflexivity].
    split; [reflexivity|]. unfold day_start. cbn [ctx_start_time]. now rewrite Ht.
Qed.

Lemma default_context_opening context cultural_requirements start preferences
    number d :
  pref_get preferences "start_time" = None ->
  d = start + (number - 1) ->
  opening (_create_generation_context context cultural_requirements start preferences)
          number d
  = combine d (hours 10).
Proof.
  intros Hp Hd.
  destruct (generation_context_start context cultural_requirements start
              preferences Hp) as [Hs Ht].
  unfold opening, day_start. rewrite Ht, Hs.
  destruct (Z.eqb_spec number 1) as [->|_]; [|reflexivity].
  subst d. f_equal. lia.
Qed.
End EnginePipeline.

Lemma xy_well_described : forall a, In a [act_x; act_y] -> well_described a.
Proof.
  intros a [<-|[<-|[]]]; unfold well_described; simpl; repeat split; lia.
Qed.

Lemma calculated_durations_validate_witness :
  (forall a, In a [act_x; act_y] -> well_described a)
  /\ exists sched,
       _schedule_activities_to_days
         (@_calculate_activity_durations exact_float exact_arith [act_x; act_y]
            wedding_context INDOOR)
         g_xy (default_context 738000) = Ok sched
       /\ forall d, In d sched -> TimelineDay_validate d = [].
Proof.
  split; [exact xy_well_described|].
  eexists. split; [vm_compute; reflexivity|].
  apply (@calculated_durations_validate exact_float exact_arith [act_x; act_y]
           wedding_context INDOOR g_xy (default_context 738000) _ xy_well_described).
  vm_compute. reflexivity.
Defined.

(** X26.  Context built, then days scheduled: with no start-time preference,
    the first activity of every day that [_schedule_activities_to_days]
    returns for the context of [_create_generation_context] starts at 10:00
    of that day plus its buffer before, and the day lies its number minus one
    days after the start date. *)
Theorem generated_days_open_at_ten {F : PyFloat} {A : PyFloatArith F}
    (context : EventContext) (cultural_requirements : list CulturalRequirement)
    (start : date) (preferences : option (dict Z))
    (timed_activities : list TimedActivity) (g : DependencyGraph)
    (sched : list TimelineDay) :
  pref_get preferences "start_time" = None ->
  _schedule_activities_to_days timed_activities g
    (_create_generation_context context cultural_requirements start preferences)
  = Ok sched ->
  forall d t, In d sched -> hd_error (activities d) = Some t ->
    day_date d = start + (day_number d - 1)
    /\ start_time t = combine (day_date d) (hours 10) + buffer_before t.
Proof.
  intros Hp E d t Hd Ht.
  destruct (@schedule_days_ok F _ _ _ _ E) as (Hok & _).
  destruct (Hok d Hd) as [_ _ Hdate _ _ _ Hfirst].
  assert (Hs : start_date (_create_generation_context context cultural_requirements
                             start preferences) = start).
  { unfold _create_generation_context.
    destruct preferences as [[|kv prefs]|]; reflexivity. }
  rewrite Hs in Hdate. split; [exact Hdate|].
  destruct (activities d) as [|t0 l]; [discriminate|]. injection Ht as ->.
  simpl in Hfirst. rewrite Hfirst.
  now rewrite (default_context_opening context cultural_requirements start
                 preferences (day_number d) (day_date d) Hp Hdate).
Qed.

Lemma generated_days_open_at_ten_witness :
  pref_get None "start_time" = None
  /\ exists sched,
       _schedule_activities_to_days two_short g_xy
         (@_create_generation_context exact_float wedding_context [HINDU] 738000 None)
       = Ok sched
       /\ forall d t, In d sched -> hd_error (activities d) = Some t ->
            day_date d = 738000 + (day_number d - 1)
            /\ start_time t = combine (day_date d) (hours 10) + buffer_before t.
Proof.
  split; [reflexivity|].
  eexists. split; [vm_compute; reflexivity|].
  apply (@generated_days_open_at_ten exact_float exact_arith wedding_context [HINDU]
           738000 None two_short g_xy _ eq_refl).
  vm_compute. reflexivity.
Defined.

(* ------------------------------------------------------------------ *)
(** * From the dependency analysis to the scheduler *)

Lemma validate_timeline_returns g st g' :
  wf_graph g -> calculate_critical_path g st = Ok g' ->
  exists issues, validate_timeline g' = Ok issues.
Proof.
  intros Hwf E.
  destruct (wf_after_pass g st g' Hwf E) as (Hwf' & Hacyc' & _).
  unfold validate_timeline.
  rewrite (has_cycle_acyclic g' Hwf' Hacyc').
  rewrite (resolve_conflicts_vendor_only g st g' Hwf E). cbn [bind]. eauto.
Qed.

Lemma generated_dependencies_valid activities g :
  create_dependency_graph activities = Ok g ->
  forall d, In d (dependencies g) -> Dependency_validate d = [].
Proof.
  intros Eg d Hin.
  destruct (create_dependency_graph_parts activities g Eg) as (_ & Hgen & _ & Hok).
  rewrite Hgen in Hin. destruct (Hok d Hin) as (H1 & H2 & H3).
  destruct (generated_dependency_shape activities d Hin)
    as (_ & _ & _ & _ & _ & _ & Ht & _).
  apply Dependency_validate_nil; auto.
Qed.

Lemma analyze_inversion {F : PyFloat} timed_activities (context : EventContext)
    today g' :
  _create_and_analyze_dependencies timed_activities context today = Ok g' ->
  exists g,
    create_dependency_graph (map ta_activity timed_activities) = Ok g
    /\ calculate_critical_path g (combine today (hours 10)) = Ok g'.
Proof.
  unfold _create_and_analyze_dependencies. intros E.
  destruct (create_dependency_graph (map ta_activity timed_activities))
    as [g|e] eqn:Eg; cbn [bind] in E; [|discriminate].
  destruct (calculate_critical_path g (combine today (hours 10)))
    as [g1|e] eqn:Ec; cbn [bind] in E; [|discriminate].
  destruct (validate_timeline g1); cbn [bind] in E; [|discriminate].
  injection E as <-. eauto.
Qed.

(** X27.  [_create_and_analyze_dependencies] returns a graph exactly when
    there is at least one timed activity, [create_dependency_graph] accepts
    their activities and the graph it builds has no dependency cycle; with
    no activity at all it raises. *)
Theorem analysis_returns_iff {F : PyFloat} (timed_activities : list TimedActivity)
    (context : EventContext) (today : date) :
  (exists g', _create_and_analyze_dependencies timed_activities context today = Ok g')
  <-> timed_activities <> []
      /\ exists g, create_dependency_graph (map ta_activity timed_activities) = Ok g
                   /\ acyclic g.
Proof.
  split.
  - intros [g' E]. destruct (analyze_inversion _ _ _ _ E) as (g & Eg & Ec).
    pose proof (create_dependency_graph_wf _ Eg) as Hwf.
    destruct (calculate_critical_path_ok_acyclic g _ g' Hwf Ec) as [Hacyc Hne].
    split; [|eauto].
    intros ->. apply Hne.
    destruct (create_dependency_graph_parts _ g Eg) as (Hids & _).
    unfold node_ids, dict_keys in Hids. simpl in Hids.
    destruct (nodes g); [reflexivity|discriminate].
  - intros (Hne & g & Eg & Hacyc).
    pose proof (create_dependency_graph_wf _ Eg) as Hwf.
    assert (Hn : nodes g <> []).
    { destruct (create_dependency_graph_parts _ g Eg) as (Hids & _).
      intros H0. unfold node_ids in Hids. rewrite H0 in Hids. simpl in Hids.
      destruct timed_activities as [|ta l]; [congruence|].
      assert (Hin : In (id (ta_activity ta)) (first_ids (map ta_activity (ta :: l)))).
      { apply first_ids_In. simpl. now left. }
      rewrite <- Hids in Hin. exact Hin. }
    destruct (calculate_critical_path_run g (combine today (hours 10)) Hwf Hacyc Hn)
      as (g' & Ec & _).
    destruct (validate_timeline_returns g _ g' Hwf Ec) as [issues Ev].
    exists g'. unfold _create_and_analyze_dependencies.
    rewrite Eg. cbn [bind]. rewrite Ec. cbn [bind]. rewrite Ev. reflexivity.
Qed.

(** X28.  Analysis, then scheduling: on the graph that
    [_create_and_analyze_dependencies] returns for the timed activities,
    [_schedule_activities_to_days] returns too; the ids it places, read day
    by day, have no duplicate and are exactly the ids of the timed
    activities, and every dependency of the graph is valid and has its
    predecessor placed before its successor. *)
Theorem analyzed_graph_schedules {F : PyFloat}
    (timed_activities : list TimedActivity) (context : EventContext) (today : date)
    (ctx : TimelineGenerationContext) (g' : DependencyGraph) :
  _create_and_analyze_dependencies timed_activities context today = Ok g' ->
  exists sched,
    _schedule_activities_to_days timed_activities g' ctx = Ok sched
    /\ NoDup (scheduled_ids sched)
    /\ (forall k, In k (scheduled_ids sched) <-> In k (map sched_id timed_activities))
    /\ forall d, In d (dependencies g') ->
         Dependency_validate d = []
         /\ before (scheduled_ids sched) (predecessor_id d) (successor_id d).
Proof.
  intros E. destruct (analyze_inversion _ _ _ _ E) as (g & Eg & Ec).
  pose proof (create_dependency_graph_wf _ Eg) as Hwf.
  destruct (wf_after_pass g _ g' Hwf Ec) as (Hwf' & Hacyc' & Hd).
  destruct (calculate_critical_path_stages g _ g' Hwf Ec)
    as (pe & _ & [Hkeys _] & _).
  assert (Hids : forall k, In k (node_ids g') <-> In k (map sched_id timed_activities)).
  { intros k. unfold node_ids. rewrite Hkeys. fold (node_ids g).
    destruct (create_dependency_graph_parts _ g Eg) as (-> & _).
    rewrite first_ids_In, map_map. reflexivity. }
  destruct (@schedule_cases F ctx timed_activities g' Hwf') as [Hret _].
  destruct (Hret Hacyc') as (sched & Es & Hnd & Hin & Hbefore & _).
  exists sched. split; [exact Es|]. split; [exact Hnd|].
  assert (Hin' : forall k, In k (scheduled_ids sched)
                           <-> In k (map sched_id timed_activities)).
  { intros k. rewrite Hin, Hids. tauto. }
  split; [exact Hin'|].
  intros d Hdin. split.
  - apply (generated_dependencies_valid _ g Eg). now rewrite <- Hd.
  - destruct (wf_deps Hwf' d Hdin) as [Hp Hs].
    apply Hbefore; [exact Hdin| |]; apply Hin', Hids; assumption.
Qed.

Lemma analyzed_graph_schedules_witness :
  exists g',
    @_create_and_analyze_dependencies exact_float two_short wedding_context 738000
    = Ok g'
    /\ exists sched,
         _schedule_activities_to_days two_short g' (default_context 738000) = Ok sched
         /\ NoDup (scheduled_ids sched)
         /\ (forall k, In k (scheduled_ids sched) <-> In k (map sched_id two_short))
         /\ forall d, In d (dependencies g') ->
              Dependency_validate d = []
              /\ before (scheduled_ids sched) (predecessor_id d) (successor_id d).
Proof.
  eexists. split; [vm_compute; reflexivity|].
  apply (@analyzed_graph_schedules exact_float two_short wedding_context 738000
           (default_context 738000)).
  vm_compute. reflexivity.
Defined.

Lemma scheduled_timeline_validate_witness :
  (forall ta, In ta two_short -> schedulable ta)
  /\ exists sched,
       _schedule_activities_to_days two_short g_xy (default_context 738000) = Ok sched
       /\ tl_days (one_day_timeline sched) = sched
       /\ 0 < tl_total_duration (one_day_timeline sched)
       /\ (forall dep, In dep (tl_dependencies (one_day_timeline sched)) ->
             Dependency_validate dep = []
             /\ In (predecessor_id dep) (scheduled_ids sched)
             /\ In (successor_id dep) (scheduled_ids sched))
       /\ match first_scheduled sched with
          | None => sched = []
                    /\ Timeline_validate (one_day_timeline sched)
                       = ["Timeline must have at least one day"]
          | Some t0 =>
              (fits_first_day (default_context 738000) t0
               /\ Timeline_validate (one_day_timeline sched) = [])
              \/ (~ fits_first_day (default_context 738000) t0
                  /\ Timeline_validate (one_day_timeline sched) = [msg_day_sequence])
          end.
Proof.
  split; [exact two_short_schedulable|].
  eexists. split; [vm_compute; reflexivity|].
  split; [reflexivity|]. split; [reflexivity|].
  split; [intros dep []|].
  apply (@scheduled_timeline_validate exact_float (default_context 738000)
           two_short g_xy _ _ two_short_schedulable).
  - vm_compute. reflexivity.
  - reflexivity.
  - reflexivity.
  - intros dep [].
Defined.

(** X29.  The fallback timeline of [_generate_fallback_timeline] passes
    [Timeline.validate] without an error for every event type and start
    date: one day, numbered 1, with one activity from 10:00 to 14:00. *)
Theorem fallback_timeline_valid {F : PyFloat} (context : EventContext)
    (start : date) :
  Timeline_validate (_generate_fallback_timeline context start) = []
  /\ map day_number (tl_days (_generate_fallback_timeline context start)) = [1]
  /\ scheduled_ids (tl_days (_generate_fallback_timeline context start))
     = ["fallback_activity"].
Proof.
  split; [|split; reflexivity].
  unfold _generate_fallback_timeline, Timeline_validate.
  cbn [tl_days tl_total_duration tl_dependencies is_empty flat_map app].
  unfold sort_by. cbn [fold_right insert_by day_sequence_errors day_number].
  cbn [Z.eqb Z.add Pos.eqb negb]. rewrite app_nil_r.
  change (days 1 <=? 0) with false. cbn [app].
  unfold TimelineDay_validate.
  cbn [day_number day_estimated_cost estimated_cost activities flat_map app].
  unfold sort_by. cbn [fold_right insert_by overlap_errors].
  change (1 <=? 0) with false. change (Q_neg (5000 # 1)) with false.
  cbn [app]. rewrite !app_nil_r.
  unfold TimedActivity_validate.
  cbn [ta_activity start_time end_time duration setup_time cleanup_time].
  assert (Ha : forall t,
            Activity_validate
              (mkActivity "fallback_activity"
                 ("Basic " +++ EventType_value t +++ " Event") CEREMONY (hours 4) HIGH
                 ("Basic " +++ EventType_value t +++ " celebration")
                 [] (5000 # 1)%Q EmptyString 0 0) = [])
    by (intros []; reflexivity).
  rewrite Ha. unfold combine, hours, day_us.
  destruct (Z.leb_spec (start * 86400000000 + 14 * 3600000000)
                       (start * 86400000000 + 10 * 3600000000)); [lia|].
  destruct (Z.ltb_spec (start * 86400000000 + 14 * 3600000000
                        - (start * 86400000000 + 10 * 3600000000))
                       (4 * 3600000000 + 0 + 0)); [lia|].
  reflexivity.
Qed.

(* ------------------------------------------------------------------ *)
(** * Duplicate edges: the passes read the first one *)

Lemma find_dependency_first deps p s d :
  find_dependency deps p s = Some d <-> first_between deps p s d.
Proof.
  unfold find_dependency, first_between. split.
  - induction deps as [|x deps IH]; simpl; [discriminate|].
    destruct (String.eqb (predecessor_id x) p && String.eqb (successor_id x) s) eqn:E.
    + intros [= ->]. apply andb_prop in E as [E1 E2].
      apply String.eqb_eq in E1. apply String.eqb_eq in E2.
      exists [], deps. split; [reflexivity|]. split; [exact E1|].
      split; [exact E2|]. intros d' [].
    + intros H. destruct (IH H) as (l1 & l2 & -> & Hp & Hs & Hno).
      exists (x :: l1), l2. split; [reflexivity|]. split; [exact Hp|].
      split; [exact Hs|].
      intros d' [<-|Hd'] [H1 H2]; [|exact (Hno d' Hd' (conj H1 H2))].
      rewrite H1, H2, !String.eqb_refl in E. discriminate.
  - intros (l1 & l2 & -> & Hp & Hs & Hno).
    induction l1 as [|x l1 IH]; simpl.
    + rewrite Hp, Hs, !String.eqb_refl. reflexivity.
    + destruct (String.eqb_spec (predecessor_id x) p) as [E1|E1];
        destruct (String.eqb_spec (successor_id x) s) as [E2|E2]; simpl;
        try (apply IH; intros d' Hd'; apply Hno; now right).
      exfalso. apply (Hno x (or_introl eq_refl)). auto.
Qed.

Lemma forward_preds_attained ns deps k n preds : forall e r,
  forward_preds ns deps k n preds e = Ok r ->
  r = e
  \/ exists q dq qn,
       In q preds /\ find_dependency deps q k = Some dq
       /\ dict_get ns q = Some qn /\ candidate_start dq qn n = Ok r.
Proof.
  induction preds as [|q preds IH]; intros e r E; simpl in E.
  - injection E as <-. now left.
  - unfold dict_lookup in E.
    destruct (dict_get ns q) as [qn|] eqn:Eq; simpl in E; [|discriminate].
    destruct (find_dependency deps q k) as [dq|] eqn:Ed.
    + destruct (candidate_start dq qn n) as [c|] eqn:Ec; simpl in E; [|discriminate].
      destruct (IH _ _ E) as [Hr|(q' & dq' & qn' & Hin & H1 & H2 & H3)].
      * destruct (Z.max_spec e c) as [[_ Hm]|[_ Hm]]; rewrite Hm in Hr.
        -- right. exists q, dq, qn. subst r. simpl. auto.
        -- now left.
      * right. exists q', dq', qn'. simpl. auto.
    + destruct (IH _ _ E) as [Hr|(q' & dq' & qn' & Hin & H1 & H2 & H3)].
      * now left.
      * right. exists q', dq', qn'. simpl. auto.
Qed.

Lemma backward_succs_attained ns deps k n succs : forall e r,
  backward_succs ns deps k n succs e = Ok r ->
  r = e
  \/ exists q dq qn,
       In q succs /\ find_dependency deps k q = Some dq
       /\ dict_get ns q = Some qn /\ candidate_finish dq qn n = Ok r.
Proof.
  induction succs as [|q succs IH]; intros e r E; simpl in E.
  - injection E as <-. now left.
  - unfold dict_lookup in E.
    destruct (dict_get ns q) as [qn|] eqn:Eq; simpl in E; [|discriminate].
    destruct (find_dependency deps k q) as [dq|] eqn:Ed.
    + destruct (candidate_finish dq qn n) as [c|] eqn:Ec; simpl in E; [|discriminate].
      destruct (IH _ _ E) as [Hr|(q' & dq' & qn' & Hin & H1 & H2 & H3)].
      * destruct (Z.min_spec e c) as [[_ Hm]|[_ Hm]]; rewrite Hm in Hr.
        -- now left.
        -- right. exists q, dq, qn. subst r. simpl. auto.
      * right. exists q', dq', qn'. simpl. auto.
    + destruct (IH _ _ E) as [Hr|(q' & dq' & qn' & Hin & H1 & H2 & H3)].
      * now left.
      * right. exists q', dq', qn'. simpl. auto.
Qed.

(** After a full pass on a well-formed graph, the windows at the two ends of
    the first edge between two ids are those its type and lag give. *)
Lemma first_edge_governs g st g' d :
  wf_graph g -> calculate_critical_path g st = Ok g' ->
  first_between (dependencies g) (predecessor_id d) (successor_id d) d ->
  passes_use_edge (dependencies g) st g' d.
Proof.
  intros Hwf E Hfirst.
  assert (Hd : effective g d) by (now apply find_dependency_first).
  destruct (cpm_facts g st g' Hwf E)
    as (pe & order & _ & Hs & _ & Htd & Hok & _ & _ & _ & _).
  destruct (find_dependency_some _ _ _ _ Hd) as (Hin & _ & _).
  destruct (wf_deps Hwf d Hin) as [Hp Hsu].
  destruct (Hok _ Hp) as [Hfp Hbp]. destruct (Hok _ Hsu) as [Hfs Hbs].
  destruct (stage_node g st g' pe _ Hs Hfp Hbp)
    as (pn & ps & pl & Epn & Eps & Epf & Epls & Eplf & _ & Hrb & _ & _ & Hsucc).
  destruct (stage_node g st g' pe _ Hs Hfs Hbs)
    as (sn & ss & sl & Esn & Ess & Esf & Esls & Eslf & Hrf & _ & _ & Hpred & _).
  destruct (cpm_edge g st g' Hwf E d Hd)
    as (pn' & sn' & ps' & ss' & pl' & sl' & Epn' & Esn' & Eps' & _ & _ & Eplf'
        & Ess' & _ & _ & Eslf' & Hh1 & Hh2).
  rewrite Epn in Epn'. injection Epn' as <-. rewrite Esn in Esn'. injection Esn' as <-.
  rewrite Eps in Eps'. injection Eps' as <-. rewrite Ess in Ess'. injection Ess' as <-.
  rewrite Eplf in Eplf'. injection Eplf' as <-.
  rewrite Eslf in Eslf'. injection Eslf' as <-.
  assert (Hkeys : forall q qn, dict_get (nodes g') q = Some qn -> In q (node_ids g)).
  { intros q qn Eq. unfold node_ids. rewrite <- (proj1 Hs).
    eapply dict_get_keys; eauto. }
  assert (Hinp : In (predecessor_id d) (predecessors sn)).
  { rewrite Hpred. apply (wf_pred_edge _ _ Hwf). exists d. auto. }
  assert (Hins : In (successor_id d) (successors pn)).
  { rewrite Hsucc. apply (wf_succ_edge _ _ Hwf). exists d. auto. }
  exists ps, (ps + node_total_duration pn), ss, (ss + node_total_duration sn),
         (pl - node_total_duration pn), pl, (sl - node_total_duration sn), sl.
  split; [now apply (window_of g' _ pn)|].
  split; [now apply (window_of g' _ sn)|].
  split; [now apply (latest_window_of g' _ pn)|].
  split; [now apply (latest_window_of g' _ sn)|].
  replace (ss + node_total_duration sn - ss) with (node_total_duration sn) by lia.
  replace (pl - (pl - node_total_duration pn)) with (node_total_duration pn) by lia.
  split; [|split; [|split]].
  - unfold dependency_holds in Hh1. unfold start_required.
    repeat (match goal with |- context [if ?b then _ else _] => destruct b end); lia.
  - unfold forward_rule in Hrf.
    destruct (predecessors sn) as [|x l] eqn:El; [contradiction|]. simpl is_empty in Hrf.
    destruct (forward_preds_attained _ _ _ _ _ _ _ Hrf)
      as [Hr|(q & dq & qn & _ & Hdq & Eqn & Hc)]; [now left|right].
    destruct (Hok q (Hkeys q qn Eqn)) as [(qn' & qs & Eqn' & Eqs & Eqf & _) _].
    rewrite Eqn in Eqn'. injection Eqn' as <-.
    rewrite (candidate_start_value dq qn sn qs _ Eqs Eqf) in Hc. injection Hc as Hc.
    exists q, dq, qs, (qs + node_total_duration qn).
    split; [now apply find_dependency_first|].
    split; [now apply (window_of g' q qn)|].
    unfold start_required. symmetry. exact Hc.
  - unfold dependency_holds in Hh2. unfold finish_allowed.
    repeat (match goal with |- context [if ?b then _ else _] => destruct b end); lia.
  - unfold backward_rule in Hrb.
    destruct (successors pn) as [|x l] eqn:El; [contradiction|]. simpl is_empty in Hrb.
    destruct (backward_succs_attained _ _ _ _ _ _ _ Hrb)
      as [Hr|(q & dq & qn & _ & Hdq & Eqn & Hc)]; [left; lia|right].
    destruct (Hok q (Hkeys q qn Eqn)) as [_ (qn' & ql & Eqn' & Eqlf & Eqls & _)].
    rewrite Eqn in Eqn'. injection Eqn' as <-.
    rewrite (candidate_finish_value dq qn pn _ ql Eqls Eqlf) in Hc. injection Hc as Hc.
    exists q, dq, (ql - node_total_duration qn), ql.
    split; [now apply find_dependency_first|].
    split; [now apply (latest_window_of g' q qn)|].
    unfold finish_allowed. symmetry. exact Hc.
Qed.

(** C10.  When [add_dependency] has accepted an edge, a second call with the
    same two ids and a valid type returns as well: the edge list gets a
    second entry, the node map (and with it every predecessor and successor
    set) stays as it was, and the forward and the backward pass compute the
    same node map as without the duplicate.  The edge the passes look up
    between the two ids is the first one of the list between them, an edge
    that was there before the duplicate (the first of the two when no
    earlier edge joins the ids); and after a full pass on a well-formed
    graph the windows of the two activities are those that the type and the
    lag of that first edge give. *)
Theorem duplicate_dependency (g g1 : DependencyGraph) (d1 d2 : Dependency) :
  add_dependency g d1 = Ok g1 ->
  predecessor_id d2 = predecessor_id d1 ->
  successor_id d2 = successor_id d1 ->
  In (dependency_type d2) dependency_types ->
  exists g2 d0,
    add_dependency g1 d2 = Ok g2
    /\ dependencies g2 = dependencies g ++ [d1; d2]
    /\ nodes g2 = nodes g1
    /\ (forall p s, find_dependency (dependencies g2) p s
                    = find_dependency (dependencies g1) p s)
    /\ (forall st, nodes_of (_forward_pass g2 st) = nodes_of (_forward_pass g1 st))
    /\ nodes_of (_backward_pass g2) = nodes_of (_backward_pass g1)
    /\ first_between (dependencies g2) (predecessor_id d1) (successor_id d1) d0
    /\ In d0 (dependencies g1)
    /\ ((forall d, In d (dependencies g) ->
           ~ (predecessor_id d = predecessor_id d1
              /\ successor_id d = successor_id d1)) -> d0 = d1)
    /\ find_dependency (dependencies g2) (predecessor_id d1) (successor_id d1)
       = Some d0
    /\ (wf_graph g -> forall st g',
          calculate_critical_path g2 st = Ok g' ->
          passes_use_edge (dependencies g2) st g' d0).
Proof.
  intros E1 Hp Hs Ht.
  pose proof E1 as E1'.
  destruct (add_dependency_cases g d1) as [(_ & msg & E)|(Hr1 & E)];
    rewrite E in E1; [discriminate|]. injection E1 as <-.
  assert (Hr2 : ~ rejected (mkGraph (link (nodes g) d1) (dependencies g ++ [d1])
                                    (critical_path g) (total_duration g)) d2).
  { unfold rejected, node_ids in *. simpl. rewrite link_keys, Hp, Hs. tauto. }
  destruct (add_dependency_cases
              (mkGraph (link (nodes g) d1) (dependencies g ++ [d1])
                       (critical_path g) (total_duration g)) d2)
    as [(Hr & _)|(_ & E2)]; [contradiction|].
  simpl in E2.
  assert (Hnodes : link (link (nodes g) d1) d2 = link (nodes g) d1).
  { unfold link at 1. rewrite Hp, Hs.
    rewrite (dict_update_id _ (link (nodes g) d1) (predecessor_id d1)).
    - apply dict_update_id. intros n. rewrite link_get.
      destruct (dict_get (nodes g) (successor_id d1)) as [n0|]; [|discriminate].
      intros [= <-]. apply set_predecessors_id. simpl.
      rewrite String.eqb_refl. apply set_add_In. now left.
    - intros n. rewrite link_get.
      destruct (dict_get (nodes g) (predecessor_id d1)) as [n0|]; [|discriminate].
      intros [= <-]. apply set_successors_id. simpl.
      rewrite String.eqb_refl. apply set_add_In. now left. }
  assert (Hfind : forall p s,
             find_dependency ((dependencies g ++ [d1]) ++ [d2]) p s
             = find_dependency (dependencies g ++ [d1]) p s)
    by now apply find_dependency_duplicate.
  assert (Hd0 : exists d0,
             find_dependency (dependencies g ++ [d1])
                             (predecessor_id d1) (successor_id d1) = Some d0
             /\ ((forall d, In d (dependencies g) ->
                    ~ (predecessor_id d = predecessor_id d1
                       /\ successor_id d = successor_id d1)) -> d0 = d1)).
  { rewrite find_dependency_app.
    destruct (find_dependency (dependencies g) (predecessor_id d1) (successor_id d1))
      as [d0|] eqn:Ef.
    - exists d0. split; [reflexivity|]. intros Hno. exfalso.
      destruct (find_dependency_some _ _ _ _ Ef) as (Hin & H1 & H2).
      exact (Hno d0 Hin (conj H1 H2)).
    - exists d1. split; [|reflexivity].
      unfold find_dependency. simpl. now rewrite !String.eqb_refl. }
  destruct Hd0 as (d0 & Hd0 & Hfirst1).
  eexists. exists d0. split; [exact E2|]. cbn [dependencies nodes].
  assert (Hf2 : find_dependency ((dependencies g ++ [d1]) ++ [d2])
                                (predecessor_id d1) (successor_id d1) = Some d0)
    by (now rewrite Hfind).
  split; [now rewrite <- app_assoc|]. split; [exact Hnodes|].
  split; [exact Hfind|].
  assert (Hpass :
    (forall st,
       nodes_of (_forward_pass
                   (mkGraph (link (link (nodes g) d1) d2)
                            ((dependencies g ++ [d1]) ++ [d2])
                            (critical_path g) (total_duration g)) st)
       = nodes_of (_forward_pass
                     (mkGraph (link (nodes g) d1) (dependencies g ++ [d1])
                              (critical_path g) (total_duration g)) st))
    /\ nodes_of (_backward_pass
                   (mkGraph (link (link (nodes g) d1) d2)
                            ((dependencies g ++ [d1]) ++ [d2])
                            (critical_path g) (total_duration g)))
       = nodes_of (_backward_pass
                     (mkGraph (link (nodes g) d1) (dependencies g ++ [d1])
                              (critical_path g) (total_duration g))))
    by (apply passes_same_edges; [exact Hnodes|exact Hfind]).
  destruct Hpass as [Hfw Hbw].
  split; [exact Hfw|]. split; [exact Hbw|].
  split; [now apply find_dependency_first|].
  split; [now apply (find_dependency_some _ _ _ _ Hd0)|].
  split; [exact Hfirst1|]. split; [exact Hf2|].
  intros Hwf st g' Ec.
  destruct (find_dependency_some _ _ _ _ Hf2) as (_ & Hp0 & Hs0).
  assert (Hwf1 : wf_graph (mkGraph (link (nodes g) d1) (dependencies g ++ [d1])
                                   (critical_path g) (total_duration g)))
    by exact (@wf_add_dependency _ _ _ Hwf E1').
  assert (Hwf2 : wf_graph (mkGraph (link (link (nodes g) d1) d2)
                                   ((dependencies g ++ [d1]) ++ [d2])
                                   (critical_path g) (total_duration g)))
    by exact (@wf_add_dependency _ _ _ Hwf1 E2).
  apply (first_edge_governs _ st g' d0 Hwf2 Ec). cbn [dependencies].
  rewrite Hp0, Hs0. now apply find_dependency_first.
Qed.

Lemma duplicate_dependency_witness :
  let d1 := mkDependency "x" "y" "finish_to_start" (minutes 15) in
  let d2 := mkDependency "x" "y" "start_to_start" (hours 1) in
  let g1 := graph_of (add_dependency g_xy d1) in
  exists g2 d0,
    add_dependency g1 d2 = Ok g2
    /\ dependencies g2 = dependencies g_xy ++ [d1; d2]
    /\ nodes g2 = nodes g1
    /\ (forall p s, find_dependency (dependencies g2) p s
                    = find_dependency (dependencies g1) p s)
    /\ (forall st, nodes_of (_forward_pass g2 st) = nodes_of (_forward_pass g1 st))
    /\ nodes_of (_backward_pass g2) = nodes_of (_backward_pass g1)
    /\ first_between (dependencies g2) (predecessor_id d1) (successor_id d1) d0
    /\ In d0 (dependencies g1)
    /\ ((forall d, In d (dependencies g_xy) ->
           ~ (predecessor_id d = predecessor_id d1
              /\ successor_id d = successor_id d1)) -> d0 = d1)
    /\ find_dependency (dependencies g2) (predecessor_id d1) (successor_id d1)
       = Some d0
    /\ (wf_graph g_xy -> forall st g',
          calculate_critical_path g2 st = Ok g' ->
          passes_use_edge (dependencies g2) st g' d0).
Proof.
  exact (duplicate_dependency g_xy
           (graph_of (add_dependency g_xy
                        (mkDependency "x" "y" "finish_to_start" (minutes 15))))
           (mkDependency "x" "y" "finish_to_start" (minutes 15))
           (mkDependency "x" "y" "start_to_start" (hours 1))
           eq_refl eq_refl eq_refl (or_intror (or_introl eq_refl))).
Defined.

(** The same two edges after a full pass from time 0: [x] takes the first
    hour, and [y] starts 15 minutes after the end of [x], as the first edge
    asks, not one hour after its start. *)
Example duplicate_dependency_full_pass :
  let d1 := mkDependency "x" "y" "finish_to_start" (minutes 15) in
  let d2 := mkDependency "x" "y" "start_to_start" (hours 1) in
  let g2 := graph_of (g1 <- add_dependency g_xy d1 ;; add_dependency g1 d2) in
  let g' := graph_of (calculate_critical_path g2 0) in
  calculate_critical_path g2 0 = Ok g'
  /\ window g' "x" = Some (0, hours 1)
  /\ window g' "y" = Some (hours 1 + minutes 15, hours 2 + minutes 15)
  /\ latest_window g' "x" = Some (0, hours 1)
  /\ start_required d1 0 (hours 1) (hours 1) = hours 1 + minutes 15
  /\ start_required d2 0 (hours 1) (hours 1) = hours 1.
Proof. repeat split; vm_compute; reflexivity. Qed.
